(** * MTGADraft: a shallow embedding of the draft server and its Session object

    The development follows the JavaScript sources:
    - the event gateway ([joinSession], [addUserToSession],
      [removeUserFromSession] and the socket handlers of the server file);
    - the [Session] object ([collection], [restrictedCollectionByRarity],
      [generateBoosters], [startDraft], [pickCard], [doBotPick],
      [nextBooster], [endDraft], [reconnectUser], the Winston draft).

    JavaScript objects used as dictionaries are finite maps ([gmap]) when only
    lookups matter and lists of properties, in the order [for ... in] lists
    them, when the code iterates over them; arrays are lists; numbers are
    integers ([Z]).  Mutable state is threaded explicitly through a
    state-and-exception monad; [Math.random] reads from an explicit random
    source, and the doubles computed from it are rounded as the machine
    rounds them.

    The identifier of a user is a key of [Connections].  The connection
    handler gives a client whose [userID] is [in Connections] a new
    identifier, and [in] holds of every name a plain object inherits, so no
    user goes under such a name: inside the [Session] object the tests
    [userID in ...] are tests on own keys.  The identifier of a session and
    the names of a custom card list come from the client as they are; there
    the inherited names are told apart ([JS.inherited]). *)

From Stdlib Require Import ZArith.
From stdpp Require Import gmap strings list fin_maps pretty.

Set Default Proof Using "Type".
Open Scope Z_scope.

(** ** Identifiers *)

Abbreviation UserID := string.
Abbreviation CardID := string.
Abbreviation SessionID := string.
Abbreviation Booster := (list string).
(** A bag of cards: [CardID -> count], a JavaScript object used as a map. *)
Abbreviation Dict := (gmap string Z).

(** ** JavaScript values the code distinguishes *)

(** A number that may be [NaN] (the result of [negMod] with a zero modulus). *)
Inductive JsNum : Type :=
| NaN
| Num (z : Z).

Global Instance JsNum_eq_dec : EqDecision JsNum.
Proof. solve_decision. Defined.

(** ** Outcomes of running a piece of the program *)

Inductive Res (A : Type) : Type :=
| Ret (a : A)
  (** the call returns *)
| Throw (what : string)
  (** a JavaScript exception (a [TypeError] on [undefined]) escapes the call *)
| Stuck (what : string).
  (** the run goes on in JavaScript with [undefined]/[NaN] data, or enters a
      part of the program (custom card lists) this development leaves out *)
Arguments Ret {A} a.
Arguments Throw {A} what.
Arguments Stuck {A} what.

(** ** Array and object helpers *)

Module JS.

(** [array.includes(x)] *)
Definition includes (x : string) (l : list string) : bool := bool_decide (x ∈ l).

(** [array.findIndex(p)], [-1] when no element satisfies [p]. *)
Fixpoint findIndex_from {A} (p : A → bool) (l : list A) (i : Z) : Z :=
  match l with
  | [] => -1
  | x :: l' => if p x then i else findIndex_from p l' (i + 1)
  end.
Definition findIndex {A} (p : A → bool) (l : list A) : Z := findIndex_from p l 0.

(** [array.indexOf(x)] on strings. *)
Definition indexOf (x : string) (l : list string) : Z :=
  findIndex (λ y, bool_decide (y = x)) l.

(** The array after [array.splice(start, 1)]: a negative [start] counts from
    the end of the array (and is clamped at 0), a [start] past the end removes
    nothing. *)
Definition splice1 {A} (start : Z) (l : list A) : list A :=
  let len := Z.of_nat (length l) in
  let actual := if start <? 0 then Z.max (len + start) 0 else Z.min start len in
  delete (Z.to_nat actual) l.

(** The array after [array.splice(0, n)]. *)
Definition splice_front {A} (n : Z) (l : list A) : list A := drop (Z.to_nat n) l.

(** [array[i]] for a numeric [i]; [None] is [undefined]. *)
Definition nth_Z {A} (l : list A) (i : Z) : option A :=
  if i <? 0 then None else l !! Z.to_nat i.

(** [array[i] = x] for an index inside the array. *)
Definition set_nth_Z {A} (l : list A) (i : Z) (x : A) : list A :=
  if i <? 0 then l else <[Z.to_nat i := x]> l.

(** [array.pop()]: the last element and the array without it. *)
Definition pop {A} (l : list A) : option A * list A :=
  (last l, removelast l).

(** [Object.keys(o)] of an object used as a map. *)
Definition keys {V} (d : gmap string V) : list string := (map_to_list d).*1.

(** A [Set] keeps insertion order: [set.add(x)], [set.delete(x)]. *)
Definition set_add (x : string) (l : list string) : list string :=
  if bool_decide (x ∈ l) then l else l ++ [x].
Definition set_delete (x : string) (l : list string) : list string :=
  filter (λ y, y ≠ x) l.

(** *** Objects used as dictionaries

    A plain object ([{}]) is kept as the list of its own properties in the
    order [for ... in] and [Object.keys] list them: first the keys that are
    array indices, by ascending value, then the other keys in the order in
    which they were created. *)

(** The value of a decimal digit. *)
Definition digit_of (a : Ascii.ascii) : option N :=
  let n := Ascii.N_of_ascii a in
  if ((48 <=? n) && (n <=? 57))%N then Some (n - 48)%N else None.

Fixpoint digits_value (s : string) (acc : N) : option N :=
  match s with
  | EmptyString => Some acc
  | String a s' =>
      match digit_of a with
      | Some d => digits_value s' (10 * acc + d)%N
      | None => None
      end
  end.

(** A key is an array index when it is the decimal numeral, without a
    leading zero, of an integer from [0] to [2^32 - 2]. *)
Definition array_index (k : string) : option N :=
  match k with
  | EmptyString => None
  | String a s' =>
      if (Ascii.N_of_ascii a =? 48)%N && negb (String.eqb s' EmptyString) then None
      else match digits_value k 0 with
           | Some n => if (n <? 4294967295)%N then Some n else None
           | None => None
           end
  end.

(** Whether a new key [k] is listed before the existing key [k']. *)
Definition listed_before (k k' : string) : bool :=
  match array_index k, array_index k' with
  | Some n, Some n' => (n <? n')%N
  | Some _, None => true
  | None, _ => false
  end.

Fixpoint obj_get {V} (k : string) (o : list (string * V)) : option V :=
  match o with
  | [] => None
  | (k', v') :: o' => if bool_decide (k' = k) then Some v' else obj_get k o'
  end.
Definition obj_delete {V} (k : string) (o : list (string * V)) : list (string * V) :=
  filter (λ kv, kv.1 ≠ k) o.
(** [Object.keys(o)], and the keys [for (k in o)] runs over. *)
Definition obj_keys {V} (o : list (string * V)) : list string := o.*1.
(** [o.hasOwnProperty(k)] *)
Definition obj_has {V} (k : string) (o : list (string * V)) : bool :=
  bool_decide (k ∈ obj_keys o).

(** [o[k] = v] on a property the object has: its place is kept. *)
Fixpoint obj_put {V} (k : string) (v : V) (o : list (string * V)) : list (string * V) :=
  match o with
  | [] => []
  | (k', v') :: o' => if bool_decide (k' = k) then (k, v) :: o' else (k', v') :: obj_put k v o'
  end.
(** [o[k] = v] on a new property: an array index goes to its rank among the
    array indices, any other key to the end. *)
Fixpoint obj_add {V} (k : string) (v : V) (o : list (string * V)) : list (string * V) :=
  match o with
  | [] => [(k, v)]
  | (k', v') :: o' =>
      if listed_before k k' then (k, v) :: (k', v') :: o' else (k', v') :: obj_add k v o'
  end.
(** [o[k] = v] *)
Definition obj_set {V} (k : string) (v : V) (o : list (string * V)) : list (string * V) :=
  if obj_has k o then obj_put k v o else obj_add k v o.

(** The properties every plain object inherits from [Object.prototype]:
    [k in o] holds for them whatever [o] holds, and [o[k]] is then a function
    (the prototype itself for [__proto__]), not [undefined]. *)
Definition inherited (k : string) : bool :=
  bool_decide (k ∈ ["constructor"; "hasOwnProperty"; "isPrototypeOf";
                    "propertyIsEnumerable"; "toLocaleString"; "toString"; "valueOf";
                    "__proto__"; "__defineGetter__"; "__defineSetter__";
                    "__lookupGetter__"; "__lookupSetter__"]).

(** [k in o] for a plain object [o]. *)
Definition obj_in {V} (k : string) (o : list (string * V)) : bool :=
  obj_has k o || inherited k.

End JS.

(** ** The helpers of [utils] and [cardUtils] *)

(** Modelled from the spec: [utils.negMod] is not among the sources.  The spec
    uses it as the index [negMod(boosterOffset + p, V)] of a booster among [V],
    that is the remainder brought back into [0, V); it is written here the way
    JavaScript computes it, [((m % n) + n) % n], with [%] the remainder that
    takes the sign of the dividend, and [NaN] for a zero modulus. *)
Definition negMod (m n : Z) : JsNum :=
  if n =? 0 then NaN else Num (Z.rem (Z.rem m n + n) n).

(** Modelled from the spec: [utils.isEmpty] is not among the sources; a bag is
    empty when it has no key left. *)
Definition isEmpty (d : gmap string Z) : bool := bool_decide (d = ∅).

(** Modelled from the spec: [cardUtils.removeCardFromDict] is not among the
    sources.  "Each draw decrements the remaining count; when a card's count
    hits zero it is gone".  Removing a card the bag does not hold writes [NaN]
    in JavaScript; the model reports it as [None]. *)
Definition removeCardFromDict (c : string) (d : gmap string Z) : option (gmap string Z) :=
  match d !! c with
  | Some n => Some (if n - 1 =? 0 then delete c d else <[c := n - 1]> d)
  | None => None
  end.

(** ** The random source *)

(** [Math.random()] is read from a tape of samples; the sample [r] stands for
    the double [r / RAND_DEN] of [0, 1), a multiple of [2^-53]. *)
Definition RAND_DEN : Z := 2 ^ 53.

Record Rng : Type := { tape : nat → Z; pos : nat }.

Definition sample (g : Rng) : Z := Z.modulo (tape g (pos g)) RAND_DEN.
Definition advance (g : Rng) : Rng := {| tape := tape g; pos := S (pos g) |}.

(** [p / d] rounded to the nearest integer, a tie going to the even one. *)
Definition round_half_even (p d : Z) : Z :=
  let q := p / d in
  let r := p mod d in
  if 2 * r <? d then q
  else if d <? 2 * r then q + 1
  else if Z.even q then q else q + 1.

(** The double nearest to [p / RAND_DEN], as its numerator over [RAND_DEN],
    for a natural number [p]: a double keeps 53 significant bits, and what
    lies beyond is rounded to nearest, ties to even. *)
Definition to_double (p : Z) : Z :=
  if p <? 2 ^ 53 then p
  else let d := 2 ^ (Z.log2 p - 52) in round_half_even p d * d.

(** [Math.floor(Math.random() * n)] for an integer [n]: the product is
    rounded to a double before the floor is taken. *)
Definition floor_random_times (n : Z) (g : Rng) : Z * Rng :=
  (to_double (sample g * n) / RAND_DEN, advance g).

(** A draw among [n] with exact arithmetic, used where the drawing code is
    not among the sources. *)
Definition random_below (n : Z) (g : Rng) : Z * Rng :=
  (sample g * n / RAND_DEN, advance g).

(** Modelled from the spec: [utils.getRandomKey] is not among the sources; a
    draw returns one of the keys of the bag, chosen by the random source
    ([undefined], here [None], when the bag is empty). *)
Definition getRandomKey (d : gmap string Z) (g : Rng) : option string * Rng :=
  let ks := JS.keys d in
  let '(i, g') := random_below (Z.of_nat (length ks)) g in
  (JS.nth_Z ks i, g').

(** [shuffleArray]: for [i] from the last index down to 1, swap [array[i]]
    with [array[j]], [j = floor(random * (i + 1))]. *)
Definition swap {A} (i j : nat) (l : list A) : list A :=
  match l !! i, l !! j with
  | Some x, Some y => <[j := x]> (<[i := y]> l)
  | _, _ => l
  end.

Fixpoint shuffle_from {A} (i : nat) (l : list A) (g : Rng) : list A * Rng :=
  match i with
  | O => (l, g)
  | S i' =>
      let '(j, g') := floor_random_times (Z.of_nat i + 1) g in
      shuffle_from i' (swap i (Z.to_nat j) l) g'
  end.

Definition shuffleArray {A} (l : list A) (g : Rng) : list A * Rng :=
  shuffle_from (length l - 1)%nat l g.

(** ** The card catalog ([Cards]) *)

Inductive Rarity : Type := common | uncommon | rare | mythic.

Global Instance Rarity_eq_dec : EqDecision Rarity.
Proof. solve_decision. Defined.

Module Card.
Record Facts : Type :=
  { set : string; rarity : Rarity; color_identity : string; in_booster : bool }.
End Card.

(** [maxDuplicates]: an object with one count per rarity. *)
Record MaxDuplicates : Type :=
  { md_common : Z; md_uncommon : Z; md_rare : Z; md_mythic : Z }.

Definition maxDuplicates_at (m : MaxDuplicates) (r : Rarity) : Z :=
  match r with
  | common => md_common m
  | uncommon => md_uncommon m
  | rare => md_rare m
  | mythic => md_mythic m
  end.

(** ** Bots *)

(** Modelled from the spec: [Bot] is not among the sources.  A bot has a name,
    an identifier and the list [cards] of the picks it won; its policy (the
    index it picks, the index it burns) is a parameter of the development. *)
Module Bot.
Record t : Type := { name : string; id : string; cards : list string }.
Definition new (name id : string) : t := {| name := name; id := id; cards := [] |}.
End Bot.

(** Modelled from the spec: [LandSlot] is not among the sources.  A land slot
    has [setup(commons)], which may take cards out of the common bag, and
    [pick()], which returns one land; its internal state is kept abstract. *)
Record LandSlotT : Type :=
  { ls_state : Type;
    ls_setup : gmap string Z → gmap string Z * ls_state;
    ls_pick : ls_state → Rng → string * ls_state * Rng }.

(** What the program reads from modules that are not among the sources. *)
Record Env : Type :=
  { Cards : gmap string Card.Facts;
    MTGSets : list string;
    LandSlot : string → option LandSlotT;
    (** [instance.pick(booster)] and [instance.burn(booster)]: the index chosen *)
    botPick : Bot.t → list string → Z;
    botBurn : Bot.t → list string → Z }.

(** ** Connections *)

(** The fields of a [Connection] that the server and the session use (the
    [Connection] constructor itself is not among the sources).
    [boosterIndex] is [undefined] ([None]) until a booster is handed out. *)
Module Conn.
Record t : Type :=
  { userID : string;
    userName : string;
    sessionID : option string;
    collection : gmap string Z;
    useCollection : bool;
    pickedCards : list string;
    pickedThisRound : bool;
    boosterIndex : option JsNum }.
Definition set_sessionID (v : (option string)) (s : t) : t :=
  {| userID := userID s; userName := userName s; sessionID := v; collection := collection s;
     useCollection := useCollection s; pickedCards := pickedCards s; pickedThisRound :=
     pickedThisRound s; boosterIndex := boosterIndex s |}.
Definition set_pickedCards (v : (list string)) (s : t) : t :=
  {| userID := userID s; userName := userName s; sessionID := sessionID s; collection :=
     collection s; useCollection := useCollection s; pickedCards := v; pickedThisRound :=
     pickedThisRound s; boosterIndex := boosterIndex s |}.
Definition set_pickedThisRound (v : bool) (s : t) : t :=
  {| userID := userID s; userName := userName s; sessionID := sessionID s; collection :=
     collection s; useCollection := useCollection s; pickedCards := pickedCards s;
     pickedThisRound := v; boosterIndex := boosterIndex s |}.
Definition set_boosterIndex (v : (option JsNum)) (s : t) : t :=
  {| userID := userID s; userName := userName s; sessionID := sessionID s; collection :=
     collection s; useCollection := useCollection s; pickedCards := pickedCards s;
     pickedThisRound := pickedThisRound s; boosterIndex := v |}.
Definition set_collection (v : (gmap string Z)) (s : t) : t :=
  {| userID := userID s; userName := userName s; sessionID := sessionID s; collection := v;
     useCollection := useCollection s; pickedCards := pickedCards s; pickedThisRound :=
     pickedThisRound s; boosterIndex := boosterIndex s |}.
Definition set_useCollection (v : bool) (s : t) : t :=
  {| userID := userID s; userName := userName s; sessionID := sessionID s; collection :=
     collection s; useCollection := v; pickedCards := pickedCards s; pickedThisRound :=
     pickedThisRound s; boosterIndex := boosterIndex s |}.
End Conn.

(** ** The state of a session *)

(** An entry of [disconnectedUsers].  The server's [removeUserFromSession]
    stores [pickedThisRound] and [pickedCards] only, the session's [remUser]
    also [userName] and [boosterIndex]; [bot] is set once the player has been
    replaced. *)
Module Disc.
Record t : Type :=
  { userName : option string;
    pickedThisRound : bool;
    pickedCards : list string;
    boosterIndex : option JsNum;
    bot : option Bot.t }.
Definition set_pickedThisRound (v : bool) (s : t) : t :=
  {| userName := userName s; pickedThisRound := v; pickedCards := pickedCards s;
     boosterIndex := boosterIndex s; bot := bot s |}.
Definition set_pickedCards (v : (list string)) (s : t) : t :=
  {| userName := userName s; pickedThisRound := pickedThisRound s; pickedCards := v;
     boosterIndex := boosterIndex s; bot := bot s |}.
Definition set_boosterIndex (v : (option JsNum)) (s : t) : t :=
  {| userName := userName s; pickedThisRound := pickedThisRound s; pickedCards :=
     pickedCards s; boosterIndex := v; bot := bot s |}.
Definition set_bot (v : (option Bot.t)) (s : t) : t :=
  {| userName := userName s; pickedThisRound := pickedThisRound s; pickedCards :=
     pickedCards s; boosterIndex := boosterIndex s; bot := v |}.
End Disc.

(** The draft log. *)
Module Log.
Record Pick : Type :=
  { pick : string;
    burn : option (list (option string));
    booster : list string }.
Record User : Type :=
  { isBot : bool;
    userName : string;
    userID : string;
    picks : list Pick;
    cards : option (list string) }.
Record t : Type :=
  { sessionID : string;
    setRestriction : list string;
    boosters : list (list string);
    users : list (string * User) }.
Definition push_pick (p : Pick) (u : User) : User :=
  {| isBot := isBot u; userName := userName u; userID := userID u;
     picks := picks u ++ [p]; cards := cards u |}.
Definition set_cards (c : list string) (u : User) : User :=
  {| isBot := isBot u; userName := userName u; userID := userID u;
     picks := picks u; cards := Some c |}.
Definition set_users (us : list (string * User)) (l : t) : t :=
  {| sessionID := sessionID l; setRestriction := setRestriction l;
     boosters := boosters l; users := us |}.
End Log.

(** [WinstonDraftState]; [piles] is [undefined] when fewer than three cards
    were available. *)
Module Winston.
Record t : Type :=
  { players : list string;
    round : Z;
    cardPool : list string;
    piles : option (list (list string));
    currentPile : Z }.
Definition set_round (v : Z) (s : t) : t :=
  {| players := players s; round := v; cardPool := cardPool s; piles := piles s; currentPile
     := currentPile s |}.
Definition set_cardPool (v : (list string)) (s : t) : t :=
  {| players := players s; round := round s; cardPool := v; piles := piles s; currentPile :=
     currentPile s |}.
Definition set_piles (v : (option (list (list string)))) (s : t) : t :=
  {| players := players s; round := round s; cardPool := cardPool s; piles := v; currentPile
     := currentPile s |}.
Definition set_currentPile (v : Z) (s : t) : t :=
  {| players := players s; round := round s; cardPool := cardPool s; piles := piles s;
     currentPile := v |}.
End Winston.

(** A custom card list: a flat list of cards (a cube), or sheets with a number
    of cards per booster. *)
Inductive CustomCardList : Type :=
| Cube (cards : list string)
| Sheets (cardsPerBooster : list (string * Z)) (cards : list (string * list string)).

(** The fields of [Session].  The timer handle [countdownInterval] is kept as
    the flag [timerRunning]; [bracket] plays no part here and is left out. *)
Module Session.
Record t : Type :=
  { id : string;
    owner : string;
    ownerIsPlayer : bool;
    users : list string;
    userOrder : list string;
    setRestriction : list string;
    isPublic : bool;
    ignoreCollections : bool;
    boostersPerPlayer : Z;
    bots : Z;
    maxPlayers : Z;
    maxRarity : string;
    colorBalance : bool;
    maxDuplicates : MaxDuplicates;
    foil : bool;
    useCustomCardList : bool;
    customCardList : CustomCardList;
    burnedCardsPerRound : Z;
    draftLogRecipients : string;
    drafting : bool;
    boosters : list (list string);
    round : Z;
    boosterNumber : Z;
    pickedCardsThisRound : Z;
    disconnectedUsers : list (string * Disc.t);
    botsInstances : option (list Bot.t);
    draftLog : option Log.t;
    winstonDraftState : option Winston.t;
    countdown : Z;
    maxTimer : Z;
    timerRunning : bool }.
Definition set_owner (v : string) (s : t) : t :=
  {| id := id s; owner := v; ownerIsPlayer := ownerIsPlayer s; users := users s; userOrder
     := userOrder s; setRestriction := setRestriction s; isPublic := isPublic s;
     ignoreCollections := ignoreCollections s; boostersPerPlayer := boostersPerPlayer s;
     bots := bots s; maxPlayers := maxPlayers s; maxRarity := maxRarity s; colorBalance :=
     colorBalance s; maxDuplicates := maxDuplicates s; foil := foil s; useCustomCardList :=
     useCustomCardList s; customCardList := customCardList s; burnedCardsPerRound :=
     burnedCardsPerRound s; draftLogRecipients := draftLogRecipients s; drafting := drafting
     s; boosters := boosters s; round := round s; boosterNumber := boosterNumber s;
     pickedCardsThisRound := pickedCardsThisRound s; disconnectedUsers := disconnectedUsers
     s; botsInstances := botsInstances s; draftLog := draftLog s; winstonDraftState :=
     winstonDraftState s; countdown := countdown s; maxTimer := maxTimer s; timerRunning :=
     timerRunning s |}.
Definition set_users (v : (list string)) (s : t) : t :=
  {| id := id s; owner := owner s; ownerIsPlayer := ownerIsPlayer s; users := v; userOrder
     := userOrder s; setRestriction := setRestriction s; isPublic := isPublic s;
     ignoreCollections := ignoreCollections s; boostersPerPlayer := boostersPerPlayer s;
     bots := bots s; maxPlayers := maxPlayers s; maxRarity := maxRarity s; colorBalance :=
     colorBalance s; maxDuplicates := maxDuplicates s; foil := foil s; useCustomCardList :=
     useCustomCardList s; customCardList := customCardList s; burnedCardsPerRound :=
     burnedCardsPerRound s; draftLogRecipients := draftLogRecipients s; drafting := drafting
     s; boosters := boosters s; round := round s; boosterNumber := boosterNumber s;
     pickedCardsThisRound := pickedCardsThisRound s; disconnectedUsers := disconnectedUsers
     s; botsInstances := botsInstances s; draftLog := draftLog s; winstonDraftState :=
     winstonDraftState s; countdown := countdown s; maxTimer := maxTimer s; timerRunning :=
     timerRunning s |}.
Definition set_userOrder (v : (list string)) (s : t) : t :=
  {| id := id s; owner := owner s; ownerIsPlayer := ownerIsPlayer s; users := users s;
     userOrder := v; setRestriction := setRestriction s; isPublic := isPublic s;
     ignoreCollections := ignoreCollections s; boostersPerPlayer := boostersPerPlayer s;
     bots := bots s; maxPlayers := maxPlayers s; maxRarity := maxRarity s; colorBalance :=
     colorBalance s; maxDuplicates := maxDuplicates s; foil := foil s; useCustomCardList :=
     useCustomCardList s; customCardList := customCardList s; burnedCardsPerRound :=
     burnedCardsPerRound s; draftLogRecipients := draftLogRecipients s; drafting := drafting
     s; boosters := boosters s; round := round s; boosterNumber := boosterNumber s;
     pickedCardsThisRound := pickedCardsThisRound s; disconnectedUsers := disconnectedUsers
     s; botsInstances := botsInstances s; draftLog := draftLog s; winstonDraftState :=
     winstonDraftState s; countdown := countdown s; maxTimer := maxTimer s; timerRunning :=
     timerRunning s |}.
Definition set_setRestriction (v : (list string)) (s : t) : t :=
  {| id := id s; owner := owner s; ownerIsPlayer := ownerIsPlayer s; users := users s;
     userOrder := userOrder s; setRestriction := v; isPublic := isPublic s;
     ignoreCollections := ignoreCollections s; boostersPerPlayer := boostersPerPlayer s;
     bots := bots s; maxPlayers := maxPlayers s; maxRarity := maxRarity s; colorBalance :=
     colorBalance s; maxDuplicates := maxDuplicates s; foil := foil s; useCustomCardList :=
     useCustomCardList s; customCardList := customCardList s; burnedCardsPerRound :=
     burnedCardsPerRound s; draftLogRecipients := draftLogRecipients s; drafting := drafting
     s; boosters := boosters s; round := round s; boosterNumber := boosterNumber s;
     pickedCardsThisRound := pickedCardsThisRound s; disconnectedUsers := disconnectedUsers
     s; botsInstances := botsInstances s; draftLog := draftLog s; winstonDraftState :=
     winstonDraftState s; countdown := countdown s; maxTimer := maxTimer s; timerRunning :=
     timerRunning s |}.
Definition set_isPublic (v : bool) (s : t) : t :=
  {| id := id s; owner := owner s; ownerIsPlayer := ownerIsPlayer s; users := users s;
     userOrder := userOrder s; setRestriction := setRestriction s; isPublic := v;
     ignoreCollections := ignoreCollections s; boostersPerPlayer := boostersPerPlayer s;
     bots := bots s; maxPlayers := maxPlayers s; maxRarity := maxRarity s; colorBalance :=
     colorBalance s; maxDuplicates := maxDuplicates s; foil := foil s; useCustomCardList :=
     useCustomCardList s; customCardList := customCardList s; burnedCardsPerRound :=
     burnedCardsPerRound s; draftLogRecipients := draftLogRecipients s; drafting := drafting
     s; boosters := boosters s; round := round s; boosterNumber := boosterNumber s;
     pickedCardsThisRound := pickedCardsThisRound s; disconnectedUsers := disconnectedUsers
     s; botsInstances := botsInstances s; draftLog := draftLog s; winstonDraftState :=
     winstonDraftState s; countdown := countdown s; maxTimer := maxTimer s; timerRunning :=
     timerRunning s |}.
Definition set_ignoreCollections (v : bool) (s : t) : t :=
  {| id := id s; owner := owner s; ownerIsPlayer := ownerIsPlayer s; users := users s;
     userOrder := userOrder s; setRestriction := setRestriction s; isPublic := isPublic s;
     ignoreCollections := v; boostersPerPlayer := boostersPerPlayer s; bots := bots s;
     maxPlayers := maxPlayers s; maxRarity := maxRarity s; colorBalance := colorBalance s;
     maxDuplicates := maxDuplicates s; foil := foil s; useCustomCardList :=
     useCustomCardList s; customCardList := customCardList s; burnedCardsPerRound :=
     burnedCardsPerRound s; draftLogRecipients := draftLogRecipients s; drafting := drafting
     s; boosters := boosters s; round := round s; boosterNumber := boosterNumber s;
     pickedCardsThisRound := pickedCardsThisRound s; disconnectedUsers := disconnectedUsers
     s; botsInstances := botsInstances s; draftLog := draftLog s; winstonDraftState :=
     winstonDraftState s; countdown := countdown s; maxTimer := maxTimer s; timerRunning :=
     timerRunning s |}.
Definition set_boostersPerPlayer (v : Z) (s : t) : t :=
  {| id := id s; owner := owner s; ownerIsPlayer := ownerIsPlayer s; users := users s;
     userOrder := userOrder s; setRestriction := setRestriction s; isPublic := isPublic s;
     ignoreCollections := ignoreCollections s; boostersPerPlayer := v; bots := bots s;
     maxPlayers := maxPlayers s; maxRarity := maxRarity s; colorBalance := colorBalance s;
     maxDuplicates := maxDuplicates s; foil := foil s; useCustomCardList :=
     useCustomCardList s; customCardList := customCardList s; burnedCardsPerRound :=
     burnedCardsPerRound s; draftLogRecipients := draftLogRecipients s; drafting := drafting
     s; boosters := boosters s; round := round s; boosterNumber := boosterNumber s;
     pickedCardsThisRound := pickedCardsThisRound s; disconnectedUsers := disconnectedUsers
     s; botsInstances := botsInstances s; draftLog := draftLog s; winstonDraftState :=
     winstonDraftState s; countdown := countdown s; maxTimer := maxTimer s; timerRunning :=
     timerRunning s |}.
Definition set_bots (v : Z) (s : t) : t :=
  {| id := id s; owner := owner s; ownerIsPlayer := ownerIsPlayer s; users := users s;
     userOrder := userOrder s; setRestriction := setRestriction s; isPublic := isPublic s;
     ignoreCollections := ignoreCollections s; boostersPerPlayer := boostersPerPlayer s;
     bots := v; maxPlayers := maxPlayers s; maxRarity := maxRarity s; colorBalance :=
     colorBalance s; maxDuplicates := maxDuplicates s; foil := foil s; useCustomCardList :=
     useCustomCardList s; customCardList := customCardList s; burnedCardsPerRound :=
     burnedCardsPerRound s; draftLogRecipients := draftLogRecipients s; drafting := drafting
     s; boosters := boosters s; round := round s; boosterNumber := boosterNumber s;
     pickedCardsThisRound := pickedCardsThisRound s; disconnectedUsers := disconnectedUsers
     s; botsInstances := botsInstances s; draftLog := draftLog s; winstonDraftState :=
     winstonDraftState s; countdown := countdown s; maxTimer := maxTimer s; timerRunning :=
     timerRunning s |}.
Definition set_colorBalance (v : bool) (s : t) : t :=
  {| id := id s; owner := owner s; ownerIsPlayer := ownerIsPlayer s; users := users s;
     userOrder := userOrder s; setRestriction := setRestriction s; isPublic := isPublic s;
     ignoreCollections := ignoreCollections s; boostersPerPlayer := boostersPerPlayer s;
     bots := bots s; maxPlayers := maxPlayers s; maxRarity := maxRarity s; colorBalance :=
     v; maxDuplicates := maxDuplicates s; foil := foil s; useCustomCardList :=
     useCustomCardList s; customCardList := customCardList s; burnedCardsPerRound :=
     burnedCardsPerRound s; draftLogRecipients := draftLogRecipients s; drafting := drafting
     s; boosters := boosters s; round := round s; boosterNumber := boosterNumber s;
     pickedCardsThisRound := pickedCardsThisRound s; disconnectedUsers := disconnectedUsers
     s; botsInstances := botsInstances s; draftLog := draftLog s; winstonDraftState :=
     winstonDraftState s; countdown := countdown s; maxTimer := maxTimer s; timerRunning :=
     timerRunning s |}.
Definition set_drafting (v : bool) (s : t) : t :=
  {| id := id s; owner := owner s; ownerIsPlayer := ownerIsPlayer s; users := users s;
     userOrder := userOrder s; setRestriction := setRestriction s; isPublic := isPublic s;
     ignoreCollections := ignoreCollections s; boostersPerPlayer := boostersPerPlayer s;
     bots := bots s; maxPlayers := maxPlayers s; maxRarity := maxRarity s; colorBalance :=
     colorBalance s; maxDuplicates := maxDuplicates s; foil := foil s; useCustomCardList :=
     useCustomCardList s; customCardList := customCardList s; burnedCardsPerRound :=
     burnedCardsPerRound s; draftLogRecipients := draftLogRecipients s; drafting := v;
     boosters := boosters s; round := round s; boosterNumber := boosterNumber s;
     pickedCardsThisRound := pickedCardsThisRound s; disconnectedUsers := disconnectedUsers
     s; botsInstances := botsInstances s; draftLog := draftLog s; winstonDraftState :=
     winstonDraftState s; countdown := countdown s; maxTimer := maxTimer s; timerRunning :=
     timerRunning s |}.
Definition set_boosters (v : (list (list string))) (s : t) : t :=
  {| id := id s; owner := owner s; ownerIsPlayer := ownerIsPlayer s; users := users s;
     userOrder := userOrder s; setRestriction := setRestriction s; isPublic := isPublic s;
     ignoreCollections := ignoreCollections s; boostersPerPlayer := boostersPerPlayer s;
     bots := bots s; maxPlayers := maxPlayers s; maxRarity := maxRarity s; colorBalance :=
     colorBalance s; maxDuplicates := maxDuplicates s; foil := foil s; useCustomCardList :=
     useCustomCardList s; customCardList := customCardList s; burnedCardsPerRound :=
     burnedCardsPerRound s; draftLogRecipients := draftLogRecipients s; drafting := drafting
     s; boosters := v; round := round s; boosterNumber := boosterNumber s;
     pickedCardsThisRound := pickedCardsThisRound s; disconnectedUsers := disconnectedUsers
     s; botsInstances := botsInstances s; draftLog := draftLog s; winstonDraftState :=
     winstonDraftState s; countdown := countdown s; maxTimer := maxTimer s; timerRunning :=
     timerRunning s |}.
Definition set_round (v : Z) (s : t) : t :=
  {| id := id s; owner := owner s; ownerIsPlayer := ownerIsPlayer s; users := users s;
     userOrder := userOrder s; setRestriction := setRestriction s; isPublic := isPublic s;
     ignoreCollections := ignoreCollections s; boostersPerPlayer := boostersPerPlayer s;
     bots := bots s; maxPlayers := maxPlayers s; maxRarity := maxRarity s; colorBalance :=
     colorBalance s; maxDuplicates := maxDuplicates s; foil := foil s; useCustomCardList :=
     useCustomCardList s; customCardList := customCardList s; burnedCardsPerRound :=
     burnedCardsPerRound s; draftLogRecipients := draftLogRecipients s; drafting := drafting
     s; boosters := boosters s; round := v; boosterNumber := boosterNumber s;
     pickedCardsThisRound := pickedCardsThisRound s; disconnectedUsers := disconnectedUsers
     s; botsInstances := botsInstances s; draftLog := draftLog s; winstonDraftState :=
     winstonDraftState s; countdown := countdown s; maxTimer := maxTimer s; timerRunning :=
     timerRunning s |}.
Definition set_boosterNumber (v : Z) (s : t) : t :=
  {| id := id s; owner := owner s; ownerIsPlayer := ownerIsPlayer s; users := users s;
     userOrder := userOrder s; setRestriction := setRestriction s; isPublic := isPublic s;
     ignoreCollections := ignoreCollections s; boostersPerPlayer := boostersPerPlayer s;
     bots := bots s; maxPlayers := maxPlayers s; maxRarity := maxRarity s; colorBalance :=
     colorBalance s; maxDuplicates := maxDuplicates s; foil := foil s; useCustomCardList :=
     useCustomCardList s; customCardList := customCardList s; burnedCardsPerRound :=
     burnedCardsPerRound s; draftLogRecipients := draftLogRecipients s; drafting := drafting
     s; boosters := boosters s; round := round s; boosterNumber := v; pickedCardsThisRound
     := pickedCardsThisRound s; disconnectedUsers := disconnectedUsers s; botsInstances :=
     botsInstances s; draftLog := draftLog s; winstonDraftState := winstonDraftState s;
     countdown := countdown s; maxTimer := maxTimer s; timerRunning := timerRunning s |}.
Definition set_pickedCardsThisRound (v : Z) (s : t) : t :=
  {| id := id s; owner := owner s; ownerIsPlayer := ownerIsPlayer s; users := users s;
     userOrder := userOrder s; setRestriction := setRestriction s; isPublic := isPublic s;
     ignoreCollections := ignoreCollections s; boostersPerPlayer := boostersPerPlayer s;
     bots := bots s; maxPlayers := maxPlayers s; maxRarity := maxRarity s; colorBalance :=
     colorBalance s; maxDuplicates := maxDuplicates s; foil := foil s; useCustomCardList :=
     useCustomCardList s; customCardList := customCardList s; burnedCardsPerRound :=
     burnedCardsPerRound s; draftLogRecipients := draftLogRecipients s; drafting := drafting
     s; boosters := boosters s; round := round s; boosterNumber := boosterNumber s;
     pickedCardsThisRound := v; disconnectedUsers := disconnectedUsers s; botsInstances :=
     botsInstances s; draftLog := draftLog s; winstonDraftState := winstonDraftState s;
     countdown := countdown s; maxTimer := maxTimer s; timerRunning := timerRunning s |}.
Definition set_disconnectedUsers (v : (list (string * Disc.t))) (s : t) : t :=
  {| id := id s; owner := owner s; ownerIsPlayer := ownerIsPlayer s; users := users s;
     userOrder := userOrder s; setRestriction := setRestriction s; isPublic := isPublic s;
     ignoreCollections := ignoreCollections s; boostersPerPlayer := boostersPerPlayer s;
     bots := bots s; maxPlayers := maxPlayers s; maxRarity := maxRarity s; colorBalance :=
     colorBalance s; maxDuplicates := maxDuplicates s; foil := foil s; useCustomCardList :=
     useCustomCardList s; customCardList := customCardList s; burnedCardsPerRound :=
     burnedCardsPerRound s; draftLogRecipients := draftLogRecipients s; drafting := drafting
     s; boosters := boosters s; round := round s; boosterNumber := boosterNumber s;
     pickedCardsThisRound := pickedCardsThisRound s; disconnectedUsers := v; botsInstances
     := botsInstances s; draftLog := draftLog s; winstonDraftState := winstonDraftState s;
     countdown := countdown s; maxTimer := maxTimer s; timerRunning := timerRunning s |}.
Definition set_botsInstances (v : (option (list Bot.t))) (s : t) : t :=
  {| id := id s; owner := owner s; ownerIsPlayer := ownerIsPlayer s; users := users s;
     userOrder := userOrder s; setRestriction := setRestriction s; isPublic := isPublic s;
     ignoreCollections := ignoreCollections s; boostersPerPlayer := boostersPerPlayer s;
     bots := bots s; maxPlayers := maxPlayers s; maxRarity := maxRarity s; colorBalance :=
     colorBalance s; maxDuplicates := maxDuplicates s; foil := foil s; useCustomCardList :=
     useCustomCardList s; customCardList := customCardList s; burnedCardsPerRound :=
     burnedCardsPerRound s; draftLogRecipients := draftLogRecipients s; drafting := drafting
     s; boosters := boosters s; round := round s; boosterNumber := boosterNumber s;
     pickedCardsThisRound := pickedCardsThisRound s; disconnectedUsers := disconnectedUsers
     s; botsInstances := v; draftLog := draftLog s; winstonDraftState := winstonDraftState
     s; countdown := countdown s; maxTimer := maxTimer s; timerRunning := timerRunning s |}.
Definition set_draftLog (v : (option Log.t)) (s : t) : t :=
  {| id := id s; owner := owner s; ownerIsPlayer := ownerIsPlayer s; users := users s;
     userOrder := userOrder s; setRestriction := setRestriction s; isPublic := isPublic s;
     ignoreCollections := ignoreCollections s; boostersPerPlayer := boostersPerPlayer s;
     bots := bots s; maxPlayers := maxPlayers s; maxRarity := maxRarity s; colorBalance :=
     colorBalance s; maxDuplicates := maxDuplicates s; foil := foil s; useCustomCardList :=
     useCustomCardList s; customCardList := customCardList s; burnedCardsPerRound :=
     burnedCardsPerRound s; draftLogRecipients := draftLogRecipients s; drafting := drafting
     s; boosters := boosters s; round := round s; boosterNumber := boosterNumber s;
     pickedCardsThisRound := pickedCardsThisRound s; disconnectedUsers := disconnectedUsers
     s; botsInstances := botsInstances s; draftLog := v; winstonDraftState :=
     winstonDraftState s; countdown := countdown s; maxTimer := maxTimer s; timerRunning :=
     timerRunning s |}.
Definition set_winstonDraftState (v : (option Winston.t)) (s : t) : t :=
  {| id := id s; owner := owner s; ownerIsPlayer := ownerIsPlayer s; users := users s;
     userOrder := userOrder s; setRestriction := setRestriction s; isPublic := isPublic s;
     ignoreCollections := ignoreCollections s; boostersPerPlayer := boostersPerPlayer s;
     bots := bots s; maxPlayers := maxPlayers s; maxRarity := maxRarity s; colorBalance :=
     colorBalance s; maxDuplicates := maxDuplicates s; foil := foil s; useCustomCardList :=
     useCustomCardList s; customCardList := customCardList s; burnedCardsPerRound :=
     burnedCardsPerRound s; draftLogRecipients := draftLogRecipients s; drafting := drafting
     s; boosters := boosters s; round := round s; boosterNumber := boosterNumber s;
     pickedCardsThisRound := pickedCardsThisRound s; disconnectedUsers := disconnectedUsers
     s; botsInstances := botsInstances s; draftLog := draftLog s; winstonDraftState := v;
     countdown := countdown s; maxTimer := maxTimer s; timerRunning := timerRunning s |}.
Definition set_countdown (v : Z) (s : t) : t :=
  {| id := id s; owner := owner s; ownerIsPlayer := ownerIsPlayer s; users := users s;
     userOrder := userOrder s; setRestriction := setRestriction s; isPublic := isPublic s;
     ignoreCollections := ignoreCollections s; boostersPerPlayer := boostersPerPlayer s;
     bots := bots s; maxPlayers := maxPlayers s; maxRarity := maxRarity s; colorBalance :=
     colorBalance s; maxDuplicates := maxDuplicates s; foil := foil s; useCustomCardList :=
     useCustomCardList s; customCardList := customCardList s; burnedCardsPerRound :=
     burnedCardsPerRound s; draftLogRecipients := draftLogRecipients s; drafting := drafting
     s; boosters := boosters s; round := round s; boosterNumber := boosterNumber s;
     pickedCardsThisRound := pickedCardsThisRound s; disconnectedUsers := disconnectedUsers
     s; botsInstances := botsInstances s; draftLog := draftLog s; winstonDraftState :=
     winstonDraftState s; countdown := v; maxTimer := maxTimer s; timerRunning :=
     timerRunning s |}.
Definition set_timerRunning (v : bool) (s : t) : t :=
  {| id := id s; owner := owner s; ownerIsPlayer := ownerIsPlayer s; users := users s;
     userOrder := userOrder s; setRestriction := setRestriction s; isPublic := isPublic s;
     ignoreCollections := ignoreCollections s; boostersPerPlayer := boostersPerPlayer s;
     bots := bots s; maxPlayers := maxPlayers s; maxRarity := maxRarity s; colorBalance :=
     colorBalance s; maxDuplicates := maxDuplicates s; foil := foil s; useCustomCardList :=
     useCustomCardList s; customCardList := customCardList s; burnedCardsPerRound :=
     burnedCardsPerRound s; draftLogRecipients := draftLogRecipients s; drafting := drafting
     s; boosters := boosters s; round := round s; boosterNumber := boosterNumber s;
     pickedCardsThisRound := pickedCardsThisRound s; disconnectedUsers := disconnectedUsers
     s; botsInstances := botsInstances s; draftLog := draftLog s; winstonDraftState :=
     winstonDraftState s; countdown := countdown s; maxTimer := maxTimer s; timerRunning :=
     v |}.
Definition set_maxPlayers (v : Z) (s : t) : t :=
  {| id := id s; owner := owner s; ownerIsPlayer := ownerIsPlayer s; users := users s;
     userOrder := userOrder s; setRestriction := setRestriction s; isPublic := isPublic s;
     ignoreCollections := ignoreCollections s; boostersPerPlayer := boostersPerPlayer s;
     bots := bots s; maxPlayers := v; maxRarity := maxRarity s; colorBalance := colorBalance
     s; maxDuplicates := maxDuplicates s; foil := foil s; useCustomCardList :=
     useCustomCardList s; customCardList := customCardList s; burnedCardsPerRound :=
     burnedCardsPerRound s; draftLogRecipients := draftLogRecipients s; drafting := drafting
     s; boosters := boosters s; round := round s; boosterNumber := boosterNumber s;
     pickedCardsThisRound := pickedCardsThisRound s; disconnectedUsers := disconnectedUsers
     s; botsInstances := botsInstances s; draftLog := draftLog s; winstonDraftState :=
     winstonDraftState s; countdown := countdown s; maxTimer := maxTimer s; timerRunning :=
     timerRunning s |}.
Definition set_useCustomCardList (v : bool) (s : t) : t :=
  {| id := id s; owner := owner s; ownerIsPlayer := ownerIsPlayer s; users := users s;
     userOrder := userOrder s; setRestriction := setRestriction s; isPublic := isPublic s;
     ignoreCollections := ignoreCollections s; boostersPerPlayer := boostersPerPlayer s;
     bots := bots s; maxPlayers := maxPlayers s; maxRarity := maxRarity s; colorBalance :=
     colorBalance s; maxDuplicates := maxDuplicates s; foil := foil s; useCustomCardList :=
     v; customCardList := customCardList s; burnedCardsPerRound := burnedCardsPerRound s;
     draftLogRecipients := draftLogRecipients s; drafting := drafting s; boosters :=
     boosters s; round := round s; boosterNumber := boosterNumber s; pickedCardsThisRound :=
     pickedCardsThisRound s; disconnectedUsers := disconnectedUsers s; botsInstances :=
     botsInstances s; draftLog := draftLog s; winstonDraftState := winstonDraftState s;
     countdown := countdown s; maxTimer := maxTimer s; timerRunning := timerRunning s |}.
Definition set_maxTimer (v : Z) (s : t) : t :=
  {| id := id s; owner := owner s; ownerIsPlayer := ownerIsPlayer s; users := users s;
     userOrder := userOrder s; setRestriction := setRestriction s; isPublic := isPublic s;
     ignoreCollections := ignoreCollections s; boostersPerPlayer := boostersPerPlayer s;
     bots := bots s; maxPlayers := maxPlayers s; maxRarity := maxRarity s; colorBalance :=
     colorBalance s; maxDuplicates := maxDuplicates s; foil := foil s; useCustomCardList :=
     useCustomCardList s; customCardList := customCardList s; burnedCardsPerRound :=
     burnedCardsPerRound s; draftLogRecipients := draftLogRecipients s; drafting := drafting
     s; boosters := boosters s; round := round s; boosterNumber := boosterNumber s;
     pickedCardsThisRound := pickedCardsThisRound s; disconnectedUsers := disconnectedUsers
     s; botsInstances := botsInstances s; draftLog := draftLog s; winstonDraftState :=
     winstonDraftState s; countdown := countdown s; maxTimer := v; timerRunning :=
     timerRunning s |}.
Definition set_burnedCardsPerRound (v : Z) (s : t) : t :=
  {| id := id s; owner := owner s; ownerIsPlayer := ownerIsPlayer s; users := users s;
     userOrder := userOrder s; setRestriction := setRestriction s; isPublic := isPublic s;
     ignoreCollections := ignoreCollections s; boostersPerPlayer := boostersPerPlayer s;
     bots := bots s; maxPlayers := maxPlayers s; maxRarity := maxRarity s; colorBalance :=
     colorBalance s; maxDuplicates := maxDuplicates s; foil := foil s; useCustomCardList :=
     useCustomCardList s; customCardList := customCardList s; burnedCardsPerRound := v; draftLogRecipients := draftLogRecipients s; drafting := drafting
     s; boosters := boosters s; round := round s; boosterNumber := boosterNumber s;
     pickedCardsThisRound := pickedCardsThisRound s; disconnectedUsers := disconnectedUsers
     s; botsInstances := botsInstances s; draftLog := draftLog s; winstonDraftState :=
     winstonDraftState s; countdown := countdown s; maxTimer := maxTimer s; timerRunning :=
     timerRunning s |}.
Definition set_foil (v : bool) (s : t) : t :=
  {| id := id s; owner := owner s; ownerIsPlayer := ownerIsPlayer s; users := users s;
     userOrder := userOrder s; setRestriction := setRestriction s; isPublic := isPublic s;
     ignoreCollections := ignoreCollections s; boostersPerPlayer := boostersPerPlayer s;
     bots := bots s; maxPlayers := maxPlayers s; maxRarity := maxRarity s; colorBalance :=
     colorBalance s; maxDuplicates := maxDuplicates s; foil := v; useCustomCardList :=
     useCustomCardList s; customCardList := customCardList s; burnedCardsPerRound :=
     burnedCardsPerRound s; draftLogRecipients := draftLogRecipients s; drafting := drafting
     s; boosters := boosters s; round := round s; boosterNumber := boosterNumber s;
     pickedCardsThisRound := pickedCardsThisRound s; disconnectedUsers := disconnectedUsers
     s; botsInstances := botsInstances s; draftLog := draftLog s; winstonDraftState :=
     winstonDraftState s; countdown := countdown s; maxTimer := maxTimer s; timerRunning :=
     timerRunning s |}.
Definition set_maxRarity (v : string) (s : t) : t :=
  {| id := id s; owner := owner s; ownerIsPlayer := ownerIsPlayer s; users := users s;
     userOrder := userOrder s; setRestriction := setRestriction s; isPublic := isPublic s;
     ignoreCollections := ignoreCollections s; boostersPerPlayer := boostersPerPlayer s;
     bots := bots s; maxPlayers := maxPlayers s; maxRarity := v; colorBalance :=
     colorBalance s; maxDuplicates := maxDuplicates s; foil := foil s; useCustomCardList :=
     useCustomCardList s; customCardList := customCardList s; burnedCardsPerRound :=
     burnedCardsPerRound s; draftLogRecipients := draftLogRecipients s; drafting := drafting
     s; boosters := boosters s; round := round s; boosterNumber := boosterNumber s;
     pickedCardsThisRound := pickedCardsThisRound s; disconnectedUsers := disconnectedUsers
     s; botsInstances := botsInstances s; draftLog := draftLog s; winstonDraftState :=
     winstonDraftState s; countdown := countdown s; maxTimer := maxTimer s; timerRunning :=
     timerRunning s |}.
Definition set_maxDuplicates (v : MaxDuplicates) (s : t) : t :=
  {| id := id s; owner := owner s; ownerIsPlayer := ownerIsPlayer s; users := users s;
     userOrder := userOrder s; setRestriction := setRestriction s; isPublic := isPublic s;
     ignoreCollections := ignoreCollections s; boostersPerPlayer := boostersPerPlayer s;
     bots := bots s; maxPlayers := maxPlayers s; maxRarity := maxRarity s; colorBalance :=
     colorBalance s; maxDuplicates := v; foil := foil s; useCustomCardList :=
     useCustomCardList s; customCardList := customCardList s; burnedCardsPerRound :=
     burnedCardsPerRound s; draftLogRecipients := draftLogRecipients s; drafting := drafting
     s; boosters := boosters s; round := round s; boosterNumber := boosterNumber s;
     pickedCardsThisRound := pickedCardsThisRound s; disconnectedUsers := disconnectedUsers
     s; botsInstances := botsInstances s; draftLog := draftLog s; winstonDraftState :=
     winstonDraftState s; countdown := countdown s; maxTimer := maxTimer s; timerRunning :=
     timerRunning s |}.
Definition set_draftLogRecipients (v : string) (s : t) : t :=
  {| id := id s; owner := owner s; ownerIsPlayer := ownerIsPlayer s; users := users s;
     userOrder := userOrder s; setRestriction := setRestriction s; isPublic := isPublic s;
     ignoreCollections := ignoreCollections s; boostersPerPlayer := boostersPerPlayer s;
     bots := bots s; maxPlayers := maxPlayers s; maxRarity := maxRarity s; colorBalance :=
     colorBalance s; maxDuplicates := maxDuplicates s; foil := foil s; useCustomCardList :=
     useCustomCardList s; customCardList := customCardList s; burnedCardsPerRound :=
     burnedCardsPerRound s; draftLogRecipients := v; drafting := drafting
     s; boosters := boosters s; round := round s; boosterNumber := boosterNumber s;
     pickedCardsThisRound := pickedCardsThisRound s; disconnectedUsers := disconnectedUsers
     s; botsInstances := botsInstances s; draftLog := draftLog s; winstonDraftState :=
     winstonDraftState s; countdown := countdown s; maxTimer := maxTimer s; timerRunning :=
     timerRunning s |}.
Definition set_ownerIsPlayer (v : bool) (s : t) : t :=
  {| id := id s; owner := owner s; ownerIsPlayer := v; users := users s;
     userOrder := userOrder s; setRestriction := setRestriction s; isPublic := isPublic s;
     ignoreCollections := ignoreCollections s; boostersPerPlayer := boostersPerPlayer s;
     bots := bots s; maxPlayers := maxPlayers s; maxRarity := maxRarity s; colorBalance :=
     colorBalance s; maxDuplicates := maxDuplicates s; foil := foil s; useCustomCardList :=
     useCustomCardList s; customCardList := customCardList s; burnedCardsPerRound :=
     burnedCardsPerRound s; draftLogRecipients := draftLogRecipients s; drafting := drafting
     s; boosters := boosters s; round := round s; boosterNumber := boosterNumber s;
     pickedCardsThisRound := pickedCardsThisRound s; disconnectedUsers := disconnectedUsers
     s; botsInstances := botsInstances s; draftLog := draftLog s; winstonDraftState :=
     winstonDraftState s; countdown := countdown s; maxTimer := maxTimer s; timerRunning :=
     timerRunning s |}.
Definition set_customCardList (v : CustomCardList) (s : t) : t :=
  {| id := id s; owner := owner s; ownerIsPlayer := ownerIsPlayer s; users := users s;
     userOrder := userOrder s; setRestriction := setRestriction s; isPublic := isPublic s;
     ignoreCollections := ignoreCollections s; boostersPerPlayer := boostersPerPlayer s;
     bots := bots s; maxPlayers := maxPlayers s; maxRarity := maxRarity s; colorBalance :=
     colorBalance s; maxDuplicates := maxDuplicates s; foil := foil s; useCustomCardList :=
     useCustomCardList s; customCardList := v; burnedCardsPerRound :=
     burnedCardsPerRound s; draftLogRecipients := draftLogRecipients s; drafting := drafting
     s; boosters := boosters s; round := round s; boosterNumber := boosterNumber s;
     pickedCardsThisRound := pickedCardsThisRound s; disconnectedUsers := disconnectedUsers
     s; botsInstances := botsInstances s; draftLog := draftLog s; winstonDraftState :=
     winstonDraftState s; countdown := countdown s; maxTimer := maxTimer s; timerRunning :=
     timerRunning s |}.
End Session.

(** ** Events sent to the clients *)

(** A seat at the table, as [getSortedVirtualPlayers] describes it: a human
    ([isBot: false], with its [disconnected] flag) or a bot.  The [instance] of
    a bot is a reference to an element of [botsInstances], kept as its index. *)
Inductive VirtualPlayer : Type :=
| Human (disconnected : bool)
| BotSeat (instance : nat).

Record UserInfo : Type :=
  { ui_userID : string; ui_userName : string;
    ui_collection : bool; ui_useCollection : bool }.

(** The state a Winston client is sent ([syncData]). *)
Record WinstonSync : Type :=
  { ws_round : Z; ws_currentPlayer : option string;
    ws_piles : option (list (list string)); ws_currentPile : Z;
    ws_remainingCards : Z }.

Inductive Event : Type :=
| EvMessage (title text : string) (showConfirmButton : option bool) (timer : option Z)
| EvUpdateUserPickedThisRound (userID : string)
| EvNextBooster (booster : option (option (list string))) (boosterNumber pickNumber : Z)
| EvStartDraft
| EvEndDraft
| EvDraftLog (delayed : bool) (log : option Log.t)
| EvSessionOptionsAll (options : Session.t)
| EvSessionOptionsVirtualPlayers (virtualPlayersData : list (string * VirtualPlayer))
| EvSessionOptionsColorBalance (colorBalance : bool)
| EvSessionOwner (owner : string) (userName : option string)
| EvSessionUsers (user_info : list UserInfo)
| EvUserDisconnected (names : list (option string))
| EvRejoinDraft (pickedThisRound : bool) (pickedCards : list string)
    (booster : option (list string)) (boosterNumber pickNumber : Z)
| EvRejoinWinstonDraft (pickedCards : list string) (state : WinstonSync)
| EvTimer (countdown : Z)
| EvDisableTimer
| EvStartWinstonDraft (state : Winston.t)
| EvWinstonDraftSync (state : WinstonSync)
| EvWinstonDraftNextRound (currentPlayer : option string)
| EvWinstonDraftRandomCard (card : option string)
| EvWinstonDraftEnd
| EvSetSession (sessionID : string)
| EvPublicSessions (sessions : list string)
| EvBoostersPerPlayer (boostersPerPlayer : Z)
| EvBots (bots : Z)
| EvSetRestriction (setRestriction : list string)
| EvIgnoreCollections (ignoreCollections : bool)
| EvSetPickTimer (timerValue : Z)
| EvSetMaxPlayers (maxPlayers : Z)
| EvSessionOptionsUseCustomCardList (useCustomCardList : bool)
| EvIsPublic (isPublic : bool).

(** [Connections[u].socket.emit(...)] or [io.emit(...)] *)
Inductive Target : Type :=
| ToUser (u : string)
| ToAll.

(** ** The state a session method runs in, and the monad of its effects *)

Record St : Type :=
  { sess : Session.t;
    conns : gmap string Conn.t;
    out : list (Target * Event);
    rng : Rng }.

(** A computation over a state [S] that returns, throws or leaves the model. *)
Definition SM (S A : Type) : Type := S → Res (A * S).
Definition M (A : Type) : Type := SM St A.

Definition ret {S A} (a : A) : SM S A := λ st, Ret (a, st).
Definition bind {S A B} (m : SM S A) (k : A → SM S B) : SM S B :=
  λ st, match m st with
        | Ret (a, st') => k a st'
        | Throw e => Throw e
        | Stuck e => Stuck e
        end.
Definition throw {S A} (e : string) : SM S A := λ _, Throw e.
Definition stuck {S A} (e : string) : SM S A := λ _, Stuck e.

Notation "x <- m ;; k" := (bind m (λ x, k))
  (at level 100, m at next level, right associativity).
Notation "' pat <- m ;; k" := (bind m (λ pat, k))
  (at level 20, pat pattern, m at level 99, k at level 200, only parsing).
Notation "m ;;; k" := (bind m (λ _, k))
  (at level 100, right associativity).

Fixpoint forM_ {S A} (l : list A) (f : A → SM S unit) : SM S unit :=
  match l with
  | [] => ret tt
  | x :: l' => f x ;;; forM_ l' f
  end.

Definition get_sess : M Session.t := λ st, Ret (sess st, st).
Definition modify_sess (f : Session.t → Session.t) : M unit :=
  λ st, Ret (tt, {| sess := f (sess st); conns := conns st; out := out st; rng := rng st |}).
Definition get_conns : M (gmap string Conn.t) := λ st, Ret (conns st, st).
Definition put_conns (c : gmap string Conn.t) : M unit :=
  λ st, Ret (tt, {| sess := sess st; conns := c; out := out st; rng := rng st |}).
Definition push_out (t : Target) (e : Event) : M unit :=
  λ st, Ret (tt, {| sess := sess st; conns := conns st; out := out st ++ [(t, e)]; rng := rng st |}).
Definition with_rng {A} (f : Rng → A * Rng) : M A :=
  λ st, let '(a, g) := f (rng st) in
        Ret (a, {| sess := sess st; conns := conns st; out := out st; rng := g |}).

(** [Connections[u]], used as an object: a [TypeError] when it is undefined. *)
Definition conn_of (u : string) : M Conn.t :=
  c <- get_conns ;;
  match c !! u with
  | Some x => ret x
  | None => throw "Connections[userID] is undefined"
  end.

(** [Connections[u].field = v] *)
Definition modify_conn (u : string) (f : Conn.t → Conn.t) : M unit :=
  x <- conn_of u ;;
  c <- get_conns ;;
  put_conns (<[u := f x]> c).

(** [Connections[u].socket.emit(event)] *)
Definition emit (u : string) (e : Event) : M unit :=
  conn_of u ;;; push_out (ToUser u) e.

Module SessionOps.
Import Session.

(** [forUsers(fn)]: the owner first when they are not playing, then every
    member of [users]. *)
Definition forUsers (fn : string → M unit) : M unit :=
  s <- get_sess ;;
  c <- get_conns ;;
  (if negb (ownerIsPlayer s) && bool_decide (is_Some (c !! owner s))
   then fn (owner s) else ret tt) ;;;
  forM_ (users s) fn.

Definition emitMessage (title text : string) (showConfirmButton : bool) (timer : Z) : M unit :=
  forUsers (λ u, emit u (EvMessage title text (Some showConfirmButton) (Some timer))).

(** Includes disconnected players. *)
Definition getHumanPlayerCount (s : t) : Z :=
  Z.of_nat (length (users s)) + Z.of_nat (length (JS.obj_keys (disconnectedUsers s))).

Definition getSortedHumanPlayers (s : t) : list string :=
  let players := users s ++ JS.obj_keys (disconnectedUsers s) in
  filter (λ e, e ∈ players) (userOrder s).

Definition getVirtualPlayersCount (s : t) : Z :=
  Z.of_nat (length (users s)) + Z.of_nat (length (JS.obj_keys (disconnectedUsers s)))
  + bots s.

(** The object built by [getSortedVirtualPlayers], its properties in the
    order in which [for ... in] lists them: the identifiers that are array
    indices first, in ascending order, then the others in the order of their
    creation. *)
Definition getSortedVirtualPlayers (s : t) : list (string * VirtualPlayer) :=
  let humanPlayers := getSortedHumanPlayers s in
  let human := λ userID, Human (JS.obj_has userID (disconnectedUsers s)) in
  match botsInstances s with
  | Some instances =>
      foldl (λ tmp idx,
          let tmp :=
            match humanPlayers !! idx with
            | Some userID => JS.obj_set userID (human userID) tmp
            | None => tmp
            end in
          match instances !! idx with
          | Some bot => JS.obj_set (Bot.id bot) (BotSeat idx) tmp
          | None => tmp
          end)
        [] (seq 0 (Nat.max (length humanPlayers) (length instances)))
  | None =>
      foldl (λ tmp userID, JS.obj_set userID (human userID) tmp) [] humanPlayers
  end.

Definition notifyUserChange : M unit :=
  s <- get_sess ;;
  c <- get_conns ;;
  let user_info :=
    omap (λ userID,
        (λ u, {| ui_userID := Conn.userID u; ui_userName := Conn.userName u;
                 ui_collection := negb (isEmpty (Conn.collection u));
                 ui_useCollection := Conn.useCollection u |}) <$> c !! userID)
      (getSortedHumanPlayers s) in
  forUsers (λ user,
    if bool_decide (is_Some (c !! user)) then
      emit user (EvSessionOwner (owner s) (Conn.userName <$> c !! owner s)) ;;;
      emit user (EvSessionUsers user_info)
    else ret tt).

Definition syncSessionOptions (userID : string) : M unit :=
  s <- get_sess ;;
  emit userID (EvSessionOptionsAll s).

(** [clearInterval(countdownInterval)] *)
Definition stopCountdown : M unit := modify_sess (set_timerRunning false).

Definition resumeCountdown : M unit :=
  stopCountdown ;;;
  s <- get_sess ;;
  if maxTimer s <=? 0 then forUsers (λ u, emit u EvDisableTimer)
  else
    forUsers (λ u, emit u (EvTimer (countdown s))) ;;;
    modify_sess (set_timerRunning true).

Definition startCountdown : M unit :=
  s <- get_sess ;;
  let dec := maxTimer s / 15 in
  modify_sess (set_countdown (maxTimer s - round s * dec)) ;;;
  resumeCountdown.

Definition addUser (userID : string) : M unit :=
  s <- get_sess ;;
  modify_conn userID (Conn.set_sessionID (Some (id s))) ;;;
  modify_sess (λ s, set_users (JS.set_add userID (users s)) s) ;;;
  modify_sess (λ s, if JS.indexOf userID (userOrder s) <? 0
                    then set_userOrder (userOrder s ++ [userID]) s else s) ;;;
  notifyUserChange ;;;
  syncSessionOptions userID.

Definition getDisconnectedUserData (userID : string) : M Disc.t :=
  c <- conn_of userID ;;
  ret {| Disc.userName := Some (Conn.userName c);
         Disc.pickedThisRound := Conn.pickedThisRound c;
         Disc.pickedCards := Conn.pickedCards c;
         Disc.boosterIndex := Conn.boosterIndex c;
         Disc.bot := None |}.

Definition broadcastDisconnectedUsers : M unit :=
  s <- get_sess ;;
  let disconnectedUserNames := (λ kv, Disc.userName kv.2) <$> disconnectedUsers s in
  forUsers (λ u, emit u (EvUserDisconnected disconnectedUserNames)).

Definition remUser (userID : string) : M unit :=
  s <- get_sess ;;
  if bool_decide (userID = owner s) && negb (ownerIsPlayer s) then ret tt
  else
    modify_sess (λ s, set_users (JS.set_delete userID (users s)) s) ;;;
    if drafting s then
      stopCountdown ;;;
      d <- getDisconnectedUserData userID ;;
      modify_sess (λ s, set_disconnectedUsers (JS.obj_set userID d (disconnectedUsers s)) s) ;;;
      broadcastDisconnectedUsers
    else
      modify_sess (λ s, set_userOrder
                          (JS.splice1 (JS.indexOf userID (userOrder s)) (userOrder s)) s).

(** [seating] is an array here; the [Array.isArray] test holds. *)
Definition setSeating (seating : list string) : M bool :=
  s <- get_sess ;;
  if drafting s then ret false
  else if bool_decide (Exists (λ u, u ∉ seating) (users s)) then ret false
  else
    modify_sess (set_userOrder seating) ;;;
    notifyUserChange ;;;
    ret true.

Definition randomizeSeating : M bool :=
  s <- get_sess ;;
  if drafting s then ret false
  else
    o <- with_rng (shuffleArray (userOrder s)) ;;
    modify_sess (set_userOrder o) ;;;
    notifyUserChange ;;;
    ret true.

End SessionOps.

(** ** The effective collection and the booster generator *)

Module Generator.
Import Session.

(** [c in Cards && Cards[c].in_booster] *)
Definition in_booster_card (E : Env) (c : string) : bool :=
  match Cards E !! c with
  | Some f => Card.in_booster f
  | None => false
  end.

(** One step of the loop over a custom cube: a duplicate adds one copy of
    the card.  [cardId in r] also holds of a name that the object [r]
    inherits: [r[cardId] += 1] then appends "1" to the text of the inherited
    function and stores a string where a count is expected ([None]); for
    [__proto__] the string is assigned to the prototype, which ignores it. *)
Definition count_one (r : gmap string Z) (cardId : string) : option (gmap string Z) :=
  match r !! cardId with
  | Some n => Some (<[cardId := n + 1]> r)
  | None =>
      if String.eqb cardId "__proto__" then Some r
      else if JS.inherited cardId then None
      else Some (<[cardId := 1]> r)
  end.

(** The bag of a custom cube; [None] when a count is not a number. *)
Definition count_custom (l : list string) : option (gmap string Z) :=
  foldl (λ acc cardId, acc ≫= (λ r, count_one r cardId)) (Some ∅) l.

(** [useCollection[i]]: the user wants their collection used and has one. *)
Definition uses (c : Conn.t) : bool :=
  Conn.useCollection c && negb (isEmpty (Conn.collection c)).

(** The loop computing [all_cards]; [&&] does not read the connection of a
    user once [all_cards] is false. *)
Fixpoint all_cards_loop (l : list string) (all_cards : bool) : M bool :=
  match l with
  | [] => ret all_cards
  | u :: l' =>
      if all_cards then
        c <- conn_of u ;;
        all_cards_loop l' (negb (Conn.useCollection c) || isEmpty (Conn.collection c))
      else all_cards_loop l' false
  end.

Fixpoint mapM_conn (l : list string) : M (list Conn.t) :=
  match l with
  | [] => ret []
  | u :: l' => c <- conn_of u ;; cs <- mapM_conn l' ;; ret (c :: cs)
  end.

(** Every card of the catalog that is found in boosters, at
    [maxDuplicates[rarity]] copies. *)
Definition all_cards_collection (E : Env) (md : MaxDuplicates) : gmap string Z :=
  foldl (λ collection c,
      match Cards E !! c with
      | Some f => if Card.in_booster f
                  then <[c := maxDuplicates_at md (Card.rarity f)]> collection
                  else collection
      | None => collection
      end) ∅ (JS.keys (Cards E)).

(** The card ids left after starting from the first user's collection (or
    from the whole catalog) and shaving with every other used collection. *)
Definition intersection (E : Env) (cs : list Conn.t) : list string :=
  match cs with
  | [] => filter (λ c, in_booster_card E c) (JS.keys (Cards E))
  | c0 :: rest =>
      let start :=
        if negb (uses c0) then filter (λ c, in_booster_card E c) (JS.keys (Cards E))
        else filter (λ c, in_booster_card E c) (JS.keys (Conn.collection c0)) in
      foldl (λ inter ci,
          if uses ci then filter (λ value, value ∈ inter) (JS.keys (Conn.collection ci))
          else inter) start rest
  end.

(** The count of one remaining card: the first user's count, or 4 when their
    collection is not used, then the minimum with every other used
    collection.  [None] is [undefined] or [NaN]. *)
Definition min_count (cs : list Conn.t) (c : string) : option Z :=
  match cs with
  | [] => Some 4
  | c0 :: rest =>
      foldl (λ acc ci,
          if uses ci then
            match acc, Conn.collection ci !! c with
            | Some a, Some n => Some (Z.min a n)
            | _, _ => None
            end
          else acc)
        (if uses c0 then Conn.collection c0 !! c else Some 4) rest
  end.

Definition intersect_collections (E : Env) (cs : list Conn.t) : option (gmap string Z) :=
  foldl (λ collection c,
      match collection, min_count cs c with
      | Some m, Some n => Some (<[c := n]> m)
      | _, _ => None
      end) (Some ∅) (intersection E cs).

Definition collection (E : Env) : M (gmap string Z) :=
  s <- get_sess ;;
  if useCustomCardList s then
    match customCardList s with
    | Cube l =>
        match count_custom l with
        | Some r => ret r
        | None => stuck "collection: a count is not a number"
        end
    | Sheets _ _ => throw "customCardList is not iterable"
    end
  else
    let user_list := users s in
    all_cards <- all_cards_loop user_list true ;;
    if ignoreCollections s || all_cards then
      ret (all_cards_collection E (maxDuplicates s))
    else
      cs <- mapM_conn user_list ;;
      match intersect_collections E cs with
      | Some m => ret m
      | None => stuck "collection: a count is undefined"
      end.

(** Whether card [c] goes to the bag of rarity [r]: it is in the catalog, has
    that rarity, and its set passes [setRestriction]. *)
Definition in_bucket (E : Env) (restriction : list string) (r : Rarity) (c : string) : bool :=
  match Cards E !! c with
  | Some f =>
      bool_decide (Card.rarity f = r)
      && (bool_decide (length restriction = 0%nat) || JS.includes (Card.set f) restriction)
  | None => false
  end.

(** [restrictedCollectionByRarity]: one bag per rarity. *)
Definition restrictedCollectionByRarity (E : Env) : M (Rarity → gmap string Z) :=
  coll <- collection E ;;
  s <- get_sess ;;
  ret (λ r, filter (λ kv, in_bucket E (setRestriction s) r kv.1) coll).

(** [count_cards]: the sum of the counts of a bag. *)
Definition count_cards (coll : gmap string Z) : Z :=
  foldr (λ kv acc, acc + kv.2) 0 (map_to_list coll).

Record Targets : Type := { t_rare : Z; t_uncommon : Z; t_common : Z }.

Definition targets_of (maxRarity : string) : Targets :=
  if String.eqb maxRarity "uncommon" then {| t_rare := 0; t_uncommon := 3; t_common := 11 |}
  else if String.eqb maxRarity "common" then {| t_rare := 0; t_uncommon := 0; t_common := 14 |}
  else {| t_rare := 1; t_uncommon := 3; t_common := 10 |}.

(** A land slot after [setup]. *)
Record ActiveLand : Type := { al_slot : LandSlotT; al_state : ls_state al_slot }.

(** The bags the generator draws from, and the random source. *)
Record GenSt : Type :=
  { lc : Rarity → gmap string Z;
    commonsByColor : gmap string (gmap string Z);
    land : option ActiveLand;
    grng : Rng }.

Definition set_bag (r : Rarity) (d : gmap string Z) (lc : Rarity → gmap string Z)
  : Rarity → gmap string Z :=
  λ r', if decide (r' = r) then d else lc r'.

Definition gen_get : SM GenSt GenSt := λ st, Ret (st, st).
Definition gen_rng {A} (f : Rng → A * Rng) : SM GenSt A :=
  λ st, let '(a, g) := f (grng st) in
        Ret (a, {| lc := lc st; commonsByColor := commonsByColor st; land := land st; grng := g |}).
Definition put_bag (r : Rarity) (d : gmap string Z) : SM GenSt unit :=
  λ st, Ret (tt, {| lc := set_bag r d (lc st); commonsByColor := commonsByColor st;
                    land := land st; grng := grng st |}).
Definition put_color (col : string) (d : gmap string Z) : SM GenSt unit :=
  λ st, Ret (tt, {| lc := lc st; commonsByColor := <[col := d]> (commonsByColor st);
                    land := land st; grng := grng st |}).
Definition put_land (l : option ActiveLand) : SM GenSt unit :=
  λ st, Ret (tt, {| lc := lc st; commonsByColor := commonsByColor st; land := l; grng := grng st |}).

(** [Math.random()], as the numerator of the sample. *)
Definition Math_random (g : Rng) : Z * Rng := (sample g, advance g).
(** [r <= num / den] and [r * k < 1] for a sample [r]. *)
Definition le_frac (r num den : Z) : bool := r * den <=? num * RAND_DEN.
Definition times_lt1 (r k : Z) : bool := r * k <? RAND_DEN.

(** The retry loop of [pick_card]: while the card is already in the booster,
    draw again, at most [Object.keys(dict).length] times. *)
Fixpoint redraw (attempts : nat) (dict : gmap string Z) (booster : list string)
    (c : option string) (g : Rng) : option string * Rng :=
  match attempts with
  | O => (c, g)
  | S n =>
      match c with
      | Some x =>
          if JS.indexOf x booster =? -1 then (c, g)
          else let '(c', g') := getRandomKey dict g in redraw n dict booster c' g'
      | None => (c, g)
      end
  end.

(** [pick_card(dict, booster)]: the card drawn and the bag after
    [removeCardFromDict]. *)
Definition pick_card (dict : gmap string Z) (booster : option (list string))
  : SM GenSt (string * gmap string Z) :=
  c <- gen_rng (getRandomKey dict) ;;
  c <- match booster with
       | Some b => gen_rng (redraw (length (JS.keys dict)) dict b c)
       | None => ret c
       end ;;
  match c with
  | None => stuck "pick_card: draw from an empty bag"
  | Some x =>
      match removeCardFromDict x dict with
      | Some d' => ret (x, d')
      | None => stuck "removeCardFromDict: the bag does not hold the card"
      end
  end.

(** [pick_card(localCollection[r], booster)] *)
Definition pick_rarity (r : Rarity) (booster : option (list string)) : SM GenSt string :=
  st <- gen_get ;;
  '(c, d) <- pick_card (lc st r) booster ;;
  put_bag r d ;;;
  ret c.

(** [removeCardFromDict(card, commonsByColor[Cards[card].color_identity])] *)
Definition remove_from_color (E : Env) (card : string) : SM GenSt unit :=
  st <- gen_get ;;
  match Cards E !! card with
  | None => throw "Cards[card] is undefined"
  | Some f =>
      match commonsByColor st !! Card.color_identity f with
      | None => throw "commonsByColor[color] is undefined"
      | Some d =>
          match removeCardFromDict card d with
          | Some d' => put_color (Card.color_identity f) d'
          | None => stuck "removeCardFromDict: the bag does not hold the card"
          end
      end
  end.

(** [removeCardFromDict(card, localCollection["common"])] *)
Definition remove_from_common (card : string) : SM GenSt unit :=
  st <- gen_get ;;
  match removeCardFromDict card (lc st common) with
  | Some d' => put_bag common d'
  | None => stuck "removeCardFromDict: the bag does not hold the card"
  end.

(** [foilRarityFreq], in the order of its keys. *)
Definition foilRarityFreq : list (Rarity * (Z * Z)) :=
  [(mythic, (1, 128)); (rare, (8, 128)); (uncommon, (4, 16)); (common, (1, 1))].

(** The foil slot: the first rarity whose frequency admits [rarityCheck] and
    whose bag is not empty gives one card. *)
Fixpoint foil_loop (E : Env) (colorBalance : bool) (rarityCheck : Z)
    (freqs : list (Rarity * (Z * Z))) : SM GenSt (list string) :=
  match freqs with
  | [] => ret []
  | (r, (num, den)) :: freqs' =>
      st <- gen_get ;;
      if le_frac rarityCheck num den && negb (isEmpty (lc st r)) then
        pickedCard <- pick_rarity r None ;;
        match Cards E !! pickedCard with
        | None => throw "Cards[pickedCard] is undefined"
        | Some f =>
            (if colorBalance && bool_decide (Card.rarity f = common)
             then remove_from_color E pickedCard else ret tt) ;;;
            ret [pickedCard]
        end
      else foil_loop E colorBalance rarityCheck freqs'
  end.

(** The rare slots; [None] when the rare and mythic bags are both empty. *)
Fixpoint rare_loop (maxRarity : string) (n : nat) (booster : list string)
  : SM GenSt (option (list string)) :=
  match n with
  | O => ret (Some booster)
  | S n' =>
      st <- gen_get ;;
      if isEmpty (lc st mythic) && isEmpty (lc st rare) then ret None
      else
        c <- (if isEmpty (lc st mythic) then pick_rarity rare None
              else if String.eqb maxRarity "mythic" && isEmpty (lc st rare)
              then pick_rarity mythic None
              else if String.eqb maxRarity "mythic" then
                r <- gen_rng Math_random ;;
                if times_lt1 r 8 then pick_rarity mythic None else pick_rarity rare None
              else pick_rarity rare None) ;;
        rare_loop maxRarity n' (booster ++ [c])
  end.

Fixpoint uncommon_loop (n : nat) (booster : list string) : SM GenSt (list string) :=
  match n with
  | O => ret booster
  | S n' =>
      c <- pick_rarity uncommon (Some booster) ;;
      uncommon_loop n' (booster ++ [c])
  end.

(** One common of each colour of "WUBRG" whose bag exists and is not empty. *)
Fixpoint balance_loop (colors : list string) (pickedCommons : list string)
  : SM GenSt (list string) :=
  match colors with
  | [] => ret pickedCommons
  | c :: colors' =>
      st <- gen_get ;;
      match commonsByColor st !! c with
      | Some bag =>
          if negb (isEmpty bag) then
            '(pickedCard, bag') <- pick_card bag (Some pickedCommons) ;;
            put_color c bag' ;;;
            remove_from_common pickedCard ;;;
            balance_loop colors' (pickedCommons ++ [pickedCard])
          else balance_loop colors' pickedCommons
      | None => balance_loop colors' pickedCommons
      end
  end.

Fixpoint common_loop (E : Env) (colorBalance : bool) (n : nat) (pickedCommons : list string)
  : SM GenSt (list string) :=
  match n with
  | O => ret pickedCommons
  | S n' =>
      pickedCard <- pick_rarity common (Some pickedCommons) ;;
      (if colorBalance then remove_from_color E pickedCard else ret tt) ;;;
      common_loop E colorBalance n' (pickedCommons ++ [pickedCard])
  end.

(** [landSlot.pick()] *)
Definition land_pick : SM GenSt (list string) :=
  st <- gen_get ;;
  match land st with
  | None => ret []
  | Some a =>
      '(c, s', g') <- gen_rng (λ g, let '(c, s', g') := ls_pick (al_slot a) (al_state a) g
                                    in ((c, s', g'), g')) ;;
      put_land (Some {| al_slot := al_slot a; al_state := s' |}) ;;;
      ret [c]
  end.

(** The options [generateBoosters] reads. *)
Record GenOpts : Type :=
  { g_foil : bool; g_colorBalance : bool; g_maxRarity : string }.

(** One iteration of the loop "Generate Boosters"; [None] when the rare and
    mythic bags ran out. *)
Definition gen_booster (E : Env) (o : GenOpts) : SM GenSt (option (list string)) :=
  let targets := targets_of (g_maxRarity o) in
  foils <- (if g_foil o then
              roll <- gen_rng Math_random ;;
              if le_frac roll 15 63 then
                rarityCheck <- gen_rng Math_random ;;
                foil_loop E (g_colorBalance o) rarityCheck foilRarityFreq
              else ret []
            else ret []) ;;
  let addedFoils := Z.of_nat (length foils) in
  rares <- rare_loop (g_maxRarity o) (Z.to_nat (t_rare targets)) foils ;;
  match rares with
  | None => ret None
  | Some booster =>
      booster <- uncommon_loop (Z.to_nat (t_uncommon targets)) booster ;;
      pickedCommons <- (if g_colorBalance o
                        then balance_loop ["W"; "U"; "B"; "R"; "G"] []
                        else ret []) ;;
      pickedCommons <- common_loop E (g_colorBalance o)
                         (Z.to_nat (t_common targets - addedFoils
                                    - Z.of_nat (length pickedCommons)))
                         pickedCommons ;;
      pickedCommons <- gen_rng (shuffleArray pickedCommons) ;;
      lands <- land_pick ;;
      ret (Some (booster ++ pickedCommons ++ lands))
  end.

(** The loop over the boosters: the boosters pushed so far, and whether every
    booster was generated. *)
Fixpoint gen_loop (E : Env) (o : GenOpts) (n : nat) (boosters : list (list string))
  : SM GenSt (list (list string) * bool) :=
  match n with
  | O => ret (boosters, true)
  | S n' =>
      b <- gen_booster E o ;;
      match b with
      | None => ret (boosters, false)
      | Some booster => gen_loop E o n' (boosters ++ [booster])
      end
  end.

(** [commonsByColor]: the commons by colour identity. *)
Definition by_color (E : Env) (commons : gmap string Z) : Res (gmap string (gmap string Z)) :=
  foldl (λ acc kv,
      match acc with
      | Ret m =>
          match Cards E !! kv.1 with
          | None => Throw "Cards[card] is undefined"
          | Some f =>
              let ci := Card.color_identity f in
              Ret (<[ci := <[kv.1 := kv.2]> (default ∅ (m !! ci))]> m)
          end
      | other => other
      end) (Ret ∅) (map_to_list commons).

Definition not_enough (count wanted : Z) (what : string) : string :=
  "Not enough cards (" +:+ pretty count +:+ "/" +:+ pretty wanted +:+ " " +:+ what
  +:+ ") in collection.".

(** [generateBoosters(boosterQuantity)] on a session that does not use a
    custom card list; the custom paths are left out. *)
Definition generateBoosters (E : Env) (boosterQuantity : Z) : M bool :=
  s <- get_sess ;;
  if useCustomCardList s then stuck "generateBoosters: custom card lists are left out"
  else
    localCollection <- restrictedCollectionByRarity E ;;
    let '(commons, landSlot) :=
      match setRestriction s with
      | [code] =>
          match LandSlot E code with
          | Some l => let '(d, st) := ls_setup l (localCollection common)
                      in (d, Some {| al_slot := l; al_state := st |})
          | None => (localCollection common, None)
          end
      | _ => (localCollection common, None)
      end in
    let localCollection := set_bag common commons localCollection in
    match (if colorBalance s then by_color E commons else Ret ∅) with
    | Throw e => throw e
    | Stuck e => stuck e
    | Ret byColor =>
        let targets := targets_of (maxRarity s) in
        let comm_count := count_cards (localCollection common) in
        if comm_count <? t_common targets * boosterQuantity then
          SessionOps.emitMessage "Error generating boosters"
            (not_enough comm_count (t_common targets * boosterQuantity) "commons") true 1500 ;;;
          ret false
        else
        let unco_count := count_cards (localCollection uncommon) in
        if unco_count <? t_uncommon targets * boosterQuantity then
          SessionOps.emitMessage "Error generating boosters"
            (not_enough unco_count (t_uncommon targets * boosterQuantity) "uncommons") true 1500 ;;;
          ret false
        else
        let rm_count := count_cards (localCollection rare) + count_cards (localCollection mythic) in
        if rm_count <? t_rare targets * boosterQuantity then
          SessionOps.emitMessage "Error generating boosters"
            (not_enough rm_count (t_rare targets * boosterQuantity) "rares & mythics") true 1500 ;;;
          ret false
        else
          st <- (λ st, Ret (st, st)) ;;
          match gen_loop E {| g_foil := foil s; g_colorBalance := colorBalance s;
                              g_maxRarity := maxRarity s |}
                  (Z.to_nat boosterQuantity) []
                  {| lc := localCollection; commonsByColor := byColor;
                     land := landSlot; grng := rng st |} with
          | Throw e => throw e
          | Stuck e => stuck e
          | Ret ((boosters, complete), gst) =>
              with_rng (λ _, (tt, grng gst)) ;;;
              modify_sess (set_boosters boosters) ;;;
              if complete then ret true
              else
                SessionOps.emitMessage "Error generating boosters"
                  "Not enough rare or mythic cards in collection" true 1500 ;;;
                ret false
          end
    end.

End Generator.

(** ** The traditional draft *)

Module Draft.
Import Session SessionOps.

(** What [pickCard] returns: [undefined], [{code: 0}] or [{code: 1, error}]. *)
Inductive Ack : Type :=
| AckOk
| AckError (error : string).

(** A reference to a bot object: an element of [botsInstances], or the bot
    that replaces a disconnected player. *)
Inductive BotRef : Type :=
| Instance (idx : nat)
| Substitute (userID : string).

Definition get_bot (r : BotRef) : M Bot.t :=
  s <- get_sess ;;
  match r with
  | Instance idx =>
      match botsInstances s ≫= (λ l, l !! idx) with
      | Some b => ret b
      | None => throw "bot instance is undefined"
      end
  | Substitute u =>
      match JS.obj_get u (disconnectedUsers s) ≫= Disc.bot with
      | Some b => ret b
      | None => throw "disconnectedUsers[userID].bot is undefined"
      end
  end.

Definition put_bot (r : BotRef) (b : Bot.t) : M unit :=
  modify_sess (λ s,
    match r with
    | Instance idx =>
        set_botsInstances ((λ l, <[idx := b]> l) <$> botsInstances s) s
    | Substitute u =>
        match JS.obj_get u (disconnectedUsers s) with
        | Some d => set_disconnectedUsers
                      (JS.obj_set u (Disc.set_bot (Some b) d) (disconnectedUsers s)) s
        | None => s
        end
    end).

(** Modelled from the spec: [instance.pick(booster)] returns the index chosen
    by the policy and records the pick in the bot's [cards]. *)
Definition bot_pick (E : Env) (b : Bot.t) (booster : list string) : Z * Bot.t :=
  let idx := botPick E b booster in
  (idx, match JS.nth_Z booster idx with
        | Some c => {| Bot.name := Bot.name b; Bot.id := Bot.id b; Bot.cards := Bot.cards b ++ [c] |}
        | None => b
        end).

(** [this.boosters[boosterIndex]] *)
Definition booster_at (s : t) (boosterIndex : JsNum) : option (list string) :=
  match boosterIndex with
  | NaN => None
  | Num i => JS.nth_Z (boosters s) i
  end.

Definition set_booster_at (boosterIndex : Z) (b : list string) : M unit :=
  modify_sess (λ s, set_boosters (JS.set_nth_Z (boosters s) boosterIndex b) s).

(** [this.draftLog.users[userID].picks.push(p)] *)
Definition log_pick (userID : string) (p : Log.Pick) : M unit :=
  s <- get_sess ;;
  match draftLog s with
  | None => throw "this.draftLog is undefined"
  | Some l =>
      match JS.obj_get userID (Log.users l) with
      | None => throw "this.draftLog.users[userID] is undefined"
      | Some u =>
          modify_sess (set_draftLog
            (Some (Log.set_users (JS.obj_set userID (Log.push_pick p u) (Log.users l)) l)))
      end
  end.

(** The burn loop of [doBotPick]. *)
Fixpoint burn_loop (E : Env) (r : BotRef) (boosterIndex : Z) (n : nat)
    (burned : list (option string)) : M (list (option string)) :=
  match n with
  | O => ret burned
  | S n' =>
      s <- get_sess ;;
      b <- get_bot r ;;
      match JS.nth_Z (boosters s) boosterIndex with
      | None => throw "this.boosters[boosterIndex] is undefined"
      | Some booster =>
          let burnedIdx := botBurn E b booster in
          set_booster_at boosterIndex (JS.splice1 burnedIdx booster) ;;;
          burn_loop E r boosterIndex n' (burned ++ [JS.nth_Z booster burnedIdx])
      end
  end.

Definition doBotPick (E : Env) (r : BotRef) (boosterIndex : JsNum) : M string :=
  s <- get_sess ;;
  b <- get_bot r ;;
  match boosterIndex, booster_at s boosterIndex with
  | Num bi, Some startingBooster =>
      let '(removedIdx, b') := bot_pick E b startingBooster in
      put_bot r b' ;;;
      match JS.nth_Z startingBooster removedIdx with
      | None => stuck "doBotPick: the bot picked no card"
      | Some picked =>
          set_booster_at bi (JS.splice1 removedIdx startingBooster) ;;;
          burned <- burn_loop E r bi (Z.to_nat (burnedCardsPerRound s)) [] ;;
          log_pick (Bot.id b)
            {| Log.pick := picked; Log.burn := Some burned; Log.booster := startingBooster |} ;;;
          ret picked
      end
  | _, _ => throw "doBotPick: this.boosters[boosterIndex] is undefined"
  end.

(** [draftLog.users[userID].cards = cards] *)
Definition log_cards (userID : string) (cards : list string) : M unit :=
  s <- get_sess ;;
  match draftLog s with
  | None => throw "this.draftLog is undefined"
  | Some l =>
      match JS.obj_get userID (Log.users l) with
      | None => throw "this.draftLog.users[userID] is undefined"
      | Some u =>
          modify_sess (set_draftLog
            (Some (Log.set_users (JS.obj_set userID (Log.set_cards cards u) (Log.users l)) l)))
      end
  end.

Definition endDraft : M unit :=
  modify_sess (set_drafting false) ;;;
  stopCountdown ;;;
  modify_sess (set_boosters []) ;;;
  s <- get_sess ;;
  forM_ (getSortedVirtualPlayers s) (λ '(userID, v),
    s <- get_sess ;;
    match v with
    | BotSeat idx =>
        b <- get_bot (Instance idx) ;;
        log_cards userID (Bot.cards b)
    | Human true =>
        match JS.obj_get userID (disconnectedUsers s) with
        | Some d => log_cards userID (Disc.pickedCards d)
        | None => throw "this.disconnectedUsers[userID] is undefined"
        end
    | Human false =>
        c <- conn_of userID ;;
        log_cards userID (Conn.pickedCards c)
    end) ;;;
  s <- get_sess ;;
  (if String.eqb (draftLogRecipients s) "none" then ret tt
   else if String.eqb (draftLogRecipients s) "owner"
   then emit (owner s) (EvDraftLog false (draftLog s))
   else if String.eqb (draftLogRecipients s) "everyone"
   then forUsers (λ u, emit u (EvDraftLog false (draftLog s)))
   else emit (owner s) (EvDraftLog true (draftLog s))) ;;;
  forUsers (λ u, emit u EvEndDraft).

(** [(this.boosters.length / totalVirtualPlayers) % 2 == 0], a test on numbers
    that need not be integers: it holds when the quotient is an even integer. *)
Definition evenRound (len totalVirtualPlayers : Z) : bool :=
  negb (totalVirtualPlayers =? 0)
  && (Z.rem len totalVirtualPlayers =? 0)
  && (Z.rem (Z.quot len totalVirtualPlayers) 2 =? 0).

Definition boosterOffset (s : t) : Z :=
  if evenRound (Z.of_nat (length (boosters s))) (getVirtualPlayersCount s)
  then - round s else round s.

(** The body of the loop of [nextBooster] for the seat at position [index]. *)
Definition deal (E : Env) (offset totalVirtualPlayers : Z) (index : Z)
    (seat : string * VirtualPlayer) : M unit :=
  let '(userID, v) := seat in
  let boosterIndex := negMod (offset + index) totalVirtualPlayers in
  match v with
  | BotSeat idx => doBotPick E (Instance idx) boosterIndex ;;; ret tt
  | Human true =>
      s <- get_sess ;;
      match JS.obj_get userID (disconnectedUsers s) with
      | None => throw "this.disconnectedUsers[userID] is undefined"
      | Some d =>
          (if bool_decide (Disc.bot d = None)
           then put_bot (Substitute userID) (Bot.new "Bot" userID) else ret tt) ;;;
          pickedCard <- doBotPick E (Substitute userID) boosterIndex ;;
          modify_sess (λ s,
            match JS.obj_get userID (disconnectedUsers s) with
            | Some d =>
                set_disconnectedUsers
                  (JS.obj_set userID
                     (Disc.set_boosterIndex (Some boosterIndex)
                        (Disc.set_pickedCards (Disc.pickedCards d ++ [pickedCard])
                           (Disc.set_pickedThisRound true d)))
                     (disconnectedUsers s)) s
            | None => s
            end) ;;;
          modify_sess (λ s, set_pickedCardsThisRound (pickedCardsThisRound s + 1) s)
      end
  | Human false =>
      modify_conn userID (Conn.set_pickedThisRound false) ;;;
      modify_conn userID (Conn.set_boosterIndex (Some boosterIndex)) ;;;
      s <- get_sess ;;
      emit userID (EvNextBooster (Some (booster_at s boosterIndex))
                     (boosterNumber s) (round s + 1))
  end.

Fixpoint deal_all (E : Env) (offset totalVirtualPlayers : Z) (index : Z)
    (seats : list (string * VirtualPlayer)) : M unit :=
  match seats with
  | [] => ret tt
  | seat :: seats' =>
      deal E offset totalVirtualPlayers index seat ;;;
      deal_all E offset totalVirtualPlayers (index + 1) seats'
  end.

Definition nextBooster (E : Env) : M unit :=
  stopCountdown ;;;
  s <- get_sess ;;
  let totalVirtualPlayers := getVirtualPlayersCount s in
  match boosters s with
  | [] => throw "this.boosters[0] is undefined"
  | first :: _ =>
      (if bool_decide (length first = 0%nat) then
         modify_sess (set_round 0) ;;;
         modify_sess (λ s, set_boosters (JS.splice_front totalVirtualPlayers (boosters s)) s) ;;;
         modify_sess (λ s, set_boosterNumber (boosterNumber s + 1) s)
       else ret tt) ;;;
      s <- get_sess ;;
      if bool_decide (length (boosters s) = 0%nat) then endDraft
      else
        modify_sess (set_pickedCardsThisRound 0) ;;;
        let offset := boosterOffset s in
        deal_all E offset totalVirtualPlayers 0 (getSortedVirtualPlayers s) ;;;
        s <- get_sess ;;
        c <- get_conns ;;
        (if negb (ownerIsPlayer s) && bool_decide (is_Some (c !! owner s))
         then emit (owner s) (EvNextBooster None (boosterNumber s) (round s + 1))
         else ret tt) ;;;
        startCountdown ;;;
        modify_sess (λ s, set_round (round s + 1) s)
  end.

(** The test on [burnedCards] in [pickCard]: true when the burned cards are
    refused.  [None] is an absent ([undefined]) argument. *)
Definition invalid_burn (s : t) (booster : list string) (burnedCards : option (list string))
  : bool :=
  match burnedCards with
  | None => false
  | Some burned =>
      let n := Z.of_nat (length burned) in
      (burnedCardsPerRound s <? n)
      || (negb (n =? burnedCardsPerRound s)
          && negb (Z.of_nat (length booster) =? 1 + n))
      || bool_decide (Exists (λ c, JS.includes c booster = false) burned)
  end.

(** Removes the first occurrence of [cardID], then of every burned card. *)
Definition remove_card (cardID : string) (booster : list string) : list string :=
  JS.splice1 (JS.findIndex (λ c, bool_decide (c = cardID)) booster) booster.

Definition remove_picked (cardID : string) (burnedCards : option (list string))
    (booster : list string) : list string :=
  foldl (λ b burnID, remove_card burnID b) (remove_card cardID booster)
    (default [] burnedCards).

Definition pickCard (E : Env) (userID cardID : string) (burnedCards : option (list string))
  : M (option Ack) :=
  s <- get_sess ;;
  if negb (drafting s) || negb (bool_decide (userID ∈ users s)) then ret None
  else
    c <- conn_of userID ;;
    match Conn.boosterIndex c with
    | None => ret (Some (AckError "Session.pickCard: boosterIndex out of bounds."))
    | Some NaN => throw "this.boosters[boosterIndex] is undefined"
    | Some (Num boosterIndex) =>
        if (boosterIndex <? 0) || (Z.of_nat (length (boosters s)) <=? boosterIndex)
        then ret (Some (AckError "Session.pickCard: boosterIndex out of bounds."))
        else
          match JS.nth_Z (boosters s) boosterIndex with
          | None => throw "this.boosters[boosterIndex] is undefined"
          | Some booster =>
              if negb (JS.includes cardID booster)
              then ret (Some (AckError "Session.pickCard: cardID not found in booster."))
              else if Conn.pickedThisRound c
              then ret (Some (AckError "Session.pickCard: User already picked a card this round."))
              else if invalid_burn s booster burnedCards
              then ret (Some (AckError "Session.pickCard: Invalid burned cards."))
              else
                log_pick userID
                  {| Log.pick := cardID; Log.burn := option_map (map Some) burnedCards;
                     Log.booster := booster |} ;;;
                modify_conn userID (λ c, Conn.set_pickedCards (Conn.pickedCards c ++ [cardID]) c) ;;;
                modify_conn userID (Conn.set_pickedThisRound true) ;;;
                set_booster_at boosterIndex (remove_picked cardID burnedCards booster) ;;;
                forUsers (λ u, emit u (EvUpdateUserPickedThisRound userID)) ;;;
                modify_sess (λ s, set_pickedCardsThisRound (pickedCardsThisRound s + 1) s) ;;;
                s <- get_sess ;;
                (if pickedCardsThisRound s =? getHumanPlayerCount s
                 then nextBooster E else ret tt) ;;;
                ret (Some AckOk)
          end
    end.

(** The bots of [startDraft]: [new Bot(`Bot #${i}`, users[i % size].concat(i))]. *)
Fixpoint make_bots (us : list string) (n : nat) (i : nat) : option (list Bot.t) :=
  match n with
  | O => Some []
  | S n' =>
      match us !! (i mod length us)%nat with
      | Some u =>
          (λ l, Bot.new ("Bot #" +:+ pretty i) (u +:+ pretty i) :: l) <$> make_bots us n' (S i)
      | None => None
      end
  end.

Definition startDraft (E : Env) : M unit :=
  modify_sess (set_drafting true) ;;;
  emitMessage "Preparing draft!" "Your draft will start soon..." false 0 ;;;
  s <- get_sess ;;
  let boosterQuantity := (Z.of_nat (length (users s)) + bots s) * boostersPerPlayer s in
  modify_sess (set_disconnectedUsers []) ;;;
  match make_bots (users s) (Z.to_nat (bots s)) 0 with
  | None => throw "users[i % size] is undefined"
  | Some instances =>
      modify_sess (set_botsInstances (Some instances)) ;;;
      ok <- Generator.generateBoosters E boosterQuantity ;;
      if negb ok then modify_sess (set_drafting false)
      else
        s <- get_sess ;;
        let virtualPlayers := getSortedVirtualPlayers s in
        modify_sess (set_draftLog (Some
          {| Log.sessionID := id s; Log.setRestriction := setRestriction s;
             Log.boosters := boosters s; Log.users := [] |})) ;;;
        forM_ virtualPlayers (λ '(userID, v),
          entry <- match v with
                   | BotSeat idx =>
                       b <- get_bot (Instance idx) ;;
                       ret {| Log.isBot := true; Log.userName := Bot.name b;
                              Log.userID := Bot.id b; Log.picks := []; Log.cards := None |}
                   | Human _ =>
                       c <- conn_of userID ;;
                       ret {| Log.isBot := false; Log.userName := Conn.userName c;
                              Log.userID := userID; Log.picks := []; Log.cards := None |}
                   end ;;
          modify_sess (λ s,
            match draftLog s with
            | Some l => set_draftLog
                          (Some (Log.set_users (JS.obj_set userID entry (Log.users l)) l)) s
            | None => s
            end)) ;;;
        forM_ (users s) (λ user,
          modify_conn user (Conn.set_pickedCards []) ;;;
          emit user (EvSessionOptionsVirtualPlayers virtualPlayers) ;;;
          emit user EvStartDraft) ;;;
        (if negb (ownerIsPlayer s) then
           emit (owner s) (EvSessionOptionsVirtualPlayers virtualPlayers) ;;;
           emit (owner s) EvStartDraft
         else ret tt) ;;;
        modify_sess (set_round 0) ;;;
        modify_sess (set_boosterNumber 1) ;;;
        nextBooster E
  end.

Definition resumeDraft : M unit :=
  s <- get_sess ;;
  forUsers (λ user, emit user (EvSessionOptionsVirtualPlayers (getSortedVirtualPlayers s))) ;;;
  (if bool_decide (winstonDraftState s = None) then resumeCountdown else ret tt) ;;;
  emitMessage "Player reconnected" "Resuming draft..." true 1500.

(** [syncData()] of the Winston state. *)
Definition syncData (w : Winston.t) : WinstonSync :=
  {| ws_round := Winston.round w;
     ws_currentPlayer := JS.nth_Z (Winston.players w) (Z.rem (Winston.round w) 2);
     ws_piles := Winston.piles w;
     ws_currentPile := Winston.currentPile w;
     ws_remainingCards := Z.of_nat (length (Winston.cardPool w)) |}.

Definition reconnectUser (userID : string) : M unit :=
  s <- get_sess ;;
  match JS.obj_get userID (disconnectedUsers s) with
  | None =>
      if JS.inherited userID
      then stuck "reconnectUser: this.disconnectedUsers[userID] is an inherited property"
      else throw "this.disconnectedUsers[userID] is undefined"
  | Some d =>
      match winstonDraftState s with
      | Some w =>
          modify_conn userID (Conn.set_pickedCards (Disc.pickedCards d)) ;;;
          addUser userID ;;;
          emit userID (EvRejoinWinstonDraft (Disc.pickedCards d) (syncData w))
      | None =>
          modify_conn userID (Conn.set_pickedThisRound (Disc.pickedThisRound d)) ;;;
          modify_conn userID (Conn.set_pickedCards (Disc.pickedCards d)) ;;;
          modify_conn userID (Conn.set_boosterIndex (Disc.boosterIndex d)) ;;;
          addUser userID ;;;
          s <- get_sess ;;
          emit userID (EvRejoinDraft (Disc.pickedThisRound d) (Disc.pickedCards d)
                         (Disc.boosterIndex d ≫= booster_at s) (boosterNumber s) (round s))
      end ;;;
      modify_sess (λ s, set_disconnectedUsers (JS.obj_delete userID (disconnectedUsers s)) s) ;;;
      s <- get_sess ;;
      if bool_decide (length (JS.obj_keys (disconnectedUsers s)) = 0%nat)
      then resumeDraft else broadcastDisconnectedUsers
  end.

End Draft.

(** ** The Winston draft *)

Module WinstonDraft.
Import Session SessionOps.

(** [new WinstonDraftState(players, boosters)]: the pool is the shuffled
    concatenation of the boosters; the three piles take its last three cards
    when it has that many. *)
Definition new_state (players : list string) (boosters : list (list string)) (g : Rng)
  : Winston.t * Rng :=
  let '(cardPool, g') := shuffleArray (concat boosters) g in
  let '(pool, piles) :=
    if 3 <=? Z.of_nat (length cardPool) then
      let '(a, p1) := JS.pop cardPool in
      let '(b, p2) := JS.pop p1 in
      let '(c, p3) := JS.pop p2 in
      (p3, Some [option_list a; option_list b; option_list c])
    else (cardPool, None) in
  ({| Winston.players := players; Winston.round := -1; Winston.cardPool := pool;
      Winston.piles := piles; Winston.currentPile := 0 |}, g').

(** [s.currentPlayer()]: [players[round % 2]]. *)
Definition currentPlayer (w : Winston.t) : option string :=
  JS.nth_Z (Winston.players w) (Z.rem (Winston.round w) 2).

Definition put_w (w : Winston.t) : M unit :=
  modify_sess (set_winstonDraftState (Some w)).

(** [s.piles[i]], read for its [length] or to [push]: a [TypeError] when the
    piles or the pile are undefined. *)
Definition pile (w : Winston.t) (i : Z) : M (list string) :=
  match Winston.piles w with
  | None => throw "s.piles is undefined"
  | Some ps =>
      match JS.nth_Z ps i with
      | Some p => ret p
      | None => throw "s.piles[i] is undefined"
      end
  end.

Definition set_pile (i : Z) (p : list string) (w : Winston.t) : Winston.t :=
  Winston.set_piles ((λ ps, JS.set_nth_Z ps i p) <$> Winston.piles w) w.

Definition endWinstonDraft : M unit :=
  s <- get_sess ;;
  forM_ (users s) (λ user, emit user EvWinstonDraftEnd) ;;;
  modify_sess (set_winstonDraftState None) ;;;
  modify_sess (set_drafting false).

(** [while (s.currentPile < 3 && !s.piles[s.currentPile].length) ++s.currentPile],
    started at pile 0: at most three steps. *)
Fixpoint first_pile (w : Winston.t) (steps : nat) (currentPile : Z) : M Z :=
  match steps with
  | O => ret currentPile
  | S n =>
      if currentPile <? 3 then
        p <- pile w currentPile ;;
        if bool_decide (length p = 0%nat) then first_pile w n (currentPile + 1)
        else ret currentPile
      else ret currentPile
  end.

Definition winstonNextRound : M unit :=
  s <- get_sess ;;
  match winstonDraftState s with
  | None => throw "this.winstonDraftState is null"
  | Some w =>
      let w := Winston.set_currentPile 0 (Winston.set_round (Winston.round w + 1) w) in
      cp <- first_pile w 3 0 ;;
      let w := Winston.set_currentPile cp w in
      put_w w ;;;
      if 3 <=? cp then endWinstonDraft
      else
        forM_ (users s) (λ user,
          emit user (EvWinstonDraftSync (Draft.syncData w)) ;;;
          emit user (EvWinstonDraftNextRound (currentPlayer w)))
  end.

(** [winstonSkipPile]; it calls itself on the next pile when that pile is
    empty, so at most four calls are nested ([depth]). *)
Fixpoint winstonSkipPile_rec (depth : nat) : M bool :=
  match depth with
  | O => stuck "winstonSkipPile: more than four nested calls"
  | S depth' =>
      s <- get_sess ;;
      match winstonDraftState s with
      | None => ret false
      | Some w =>
          if negb (drafting s) then ret false
          else
            let cp := Winston.currentPile w in
            let pool_empty := bool_decide (length (Winston.cardPool w) = 0%nat) in
            (** the guard is evaluated left to right and reads only the piles
                it needs *)
            no_choice <-
              (if negb pool_empty then ret false
               else if cp =? 0 then
                 p1 <- pile w 1 ;;
                 if bool_decide (length p1 = 0%nat) then
                   p2 <- pile w 2 ;; ret (bool_decide (length p2 = 0%nat))
                 else ret false
               else if cp =? 1 then
                 p2 <- pile w 2 ;; ret (bool_decide (length p2 = 0%nat))
               else ret (cp =? 2)) ;;
            if (no_choice : bool) then ret false
            else
              w <- (if (1 <? Z.of_nat (length (Winston.cardPool w)))
                       || ((cp <? 2) && (0 <? Z.of_nat (length (Winston.cardPool w))))
                    then
                      p <- pile w cp ;;
                      let '(c, pool') := JS.pop (Winston.cardPool w) in
                      ret (set_pile cp (p ++ option_list c) (Winston.set_cardPool pool' w))
                    else ret w) ;;
              if cp =? 2 then
                let '(c, pool') := JS.pop (Winston.cardPool w) in
                put_w (Winston.set_cardPool pool' w) ;;;
                match currentPlayer w with
                | None => throw "Connections[undefined] is undefined"
                | Some u => emit u (EvWinstonDraftRandomCard c)
                end ;;;
                winstonNextRound ;;;
                ret true
              else
                let w := Winston.set_currentPile (cp + 1) w in
                put_w w ;;;
                p <- pile w (cp + 1) ;;
                (if bool_decide (length p = 0%nat) then winstonSkipPile_rec depth' ;;; ret tt
                 else forM_ (users s) (λ user, emit user (EvWinstonDraftSync (Draft.syncData w)))) ;;;
                ret true
      end
  end.

Definition winstonSkipPile : M bool := winstonSkipPile_rec 4.

Definition winstonTakePile : M bool :=
  s <- get_sess ;;
  match winstonDraftState s with
  | None => ret false
  | Some w =>
      if negb (drafting s) then ret false
      else
        match currentPlayer w with
        | None => throw "Connections[undefined] is undefined"
        | Some u =>
            c <- conn_of u ;;
            match Winston.piles w with
            | None => throw "s.piles is undefined"
            | Some ps =>
                match JS.nth_Z ps (Winston.currentPile w) with
                | None => stuck "winstonTakePile: concat(undefined)"
                | Some p =>
                    modify_conn u (Conn.set_pickedCards (Conn.pickedCards c ++ p)) ;;;
                    (if 0 <? Z.of_nat (length (Winston.cardPool w)) then
                       let '(x, pool') := JS.pop (Winston.cardPool w) in
                       put_w (set_pile (Winston.currentPile w) (option_list x)
                                (Winston.set_cardPool pool' w))
                     else put_w (set_pile (Winston.currentPile w) [] w)) ;;;
                    winstonNextRound ;;;
                    ret true
                end
            end
        end
  end.

(** [startWinstonDraft(boosterCount)]; [None] is the bare [return] after a
    failed generation. *)
Definition startWinstonDraft (E : Env) (boosterCount : Z) : M (option bool) :=
  s <- get_sess ;;
  if negb (bool_decide (length (users s) = 2%nat)) then ret (Some false)
  else
    modify_sess (set_drafting true) ;;;
    emitMessage "Preparing Winston draft!" "Your draft will start soon..." false 0 ;;;
    ok <- Generator.generateBoosters E boosterCount ;;
    if negb ok then modify_sess (set_drafting false) ;;; ret None
    else
      modify_sess (set_disconnectedUsers []) ;;;
      s <- get_sess ;;
      w <- with_rng (new_state (getSortedHumanPlayers s) (boosters s)) ;;
      put_w w ;;;
      forM_ (users s) (λ user,
        modify_conn user (Conn.set_pickedCards []) ;;;
        s <- get_sess ;;
        emit user (EvSessionOptionsVirtualPlayers (getSortedVirtualPlayers s)) ;;;
        emit user (EvStartWinstonDraft w)) ;;;
      winstonNextRound ;;;
      ret (Some true).

End WinstonDraft.

(** ** The server: connections, sessions and the socket handlers *)

Module Server.
Import Session.

Record World : Type :=
  { Connections : gmap string Conn.t;
    Sessions : gmap string Session.t;
    outbox : list (Target * Event);
    wrng : Rng }.

Definition W (A : Type) : Type := SM World A.

Definition get_world : W World := λ w, Ret (w, w).
Definition put_connections (c : gmap string Conn.t) : W unit :=
  λ w, Ret (tt, {| Connections := c; Sessions := Sessions w; outbox := outbox w; wrng := wrng w |}).
Definition put_sessions (s : gmap string Session.t) : W unit :=
  λ w, Ret (tt, {| Connections := Connections w; Sessions := s; outbox := outbox w; wrng := wrng w |}).
Definition wpush (t : Target) (e : Event) : W unit :=
  λ w, Ret (tt, {| Connections := Connections w; Sessions := Sessions w;
                   outbox := outbox w ++ [(t, e)]; wrng := wrng w |}).
Definition wrandom {A} (f : Rng → A * Rng) : W A :=
  λ w, let '(a, g) := f (wrng w) in
       Ret (a, {| Connections := Connections w; Sessions := Sessions w;
                  outbox := outbox w; wrng := g |}).

(** [Connections[userID]], used as an object. *)
Definition wconn (userID : string) : W Conn.t :=
  w <- get_world ;;
  match Connections w !! userID with
  | Some c => ret c
  | None => throw "Connections[userID] is undefined"
  end.

Definition wmodify_conn (userID : string) (f : Conn.t → Conn.t) : W unit :=
  c <- wconn userID ;;
  w <- get_world ;;
  put_connections (<[userID := f c]> (Connections w)).

(** [Connections[userID].socket.emit(event)] *)
Definition wemit (userID : string) (e : Event) : W unit :=
  wconn userID ;;; wpush (ToUser userID) e.

(** The property key a [sessionID] stands for; [null] is the key "null". *)
Definition key_of (sessionID : option string) : string := default "null" sessionID.

(** [Sessions[sessionID]], used as an object; [sessionID] may be [null]. *)
Definition wsession (sessionID : option string) : W Session.t :=
  w <- get_world ;;
  match Sessions w !! key_of sessionID with
  | Some s => ret s
  | None => throw "Sessions[sessionID] is undefined"
  end.

(** Runs a method of the session object [Sessions[sessionID]]. *)
Definition with_session {A} (sessionID : string) (m : M A) : W A :=
  λ w, match Sessions w !! sessionID with
       | None => Throw "Sessions[sessionID] is undefined"
       | Some s =>
           match m {| sess := s; conns := Connections w; out := outbox w; rng := wrng w |} with
           | Ret (a, st) =>
               Ret (a, {| Connections := conns st;
                          Sessions := <[sessionID := sess st]> (Sessions w);
                          outbox := out st; wrng := rng st |})
           | Throw e => Throw e
           | Stuck e => Stuck e
           end
       end.

Definition hex_digit (n : Z) : string :=
  match n with
  | 0 => "0" | 1 => "1" | 2 => "2" | 3 => "3" | 4 => "4" | 5 => "5" | 6 => "6" | 7 => "7"
  | 8 => "8" | 9 => "9" | 10 => "a" | 11 => "b" | 12 => "c" | 13 => "d" | 14 => "e"
  | _ => "f"
  end.

(** [n.toString(16)] for a natural number [n]: its hexadecimal digits, the
    most significant first. *)
Fixpoint hex_of (fuel : nat) (n : Z) : string :=
  match fuel with
  | O => ""
  | S fuel' =>
      (if n / 16 =? 0 then "" else hex_of fuel' (n / 16)) +:+ hex_digit (n `mod` 16)
  end.
Definition toString16 (n : Z) : string := hex_of (S (Z.to_nat (Z.log2 n))) n.

(** [s.substring(1)] *)
Definition substring1 (s : string) : string :=
  match s with
  | EmptyString => EmptyString
  | String _ s' => s'
  end.

(** [s4()]: [Math.floor((1 + Math.random()) * 0x10000).toString(16).substring(1)].
    The sum [1 + Math.random()] is rounded to a double; its product by
    [0x10000], a power of two, is exact. *)
Definition s4 (g : Rng) : string * Rng :=
  let x := to_double (RAND_DEN + sample g) in
  let n := x * 65536 / RAND_DEN in
  (substring1 (toString16 n), advance g).

Definition shortguid (g : Rng) : string * Rng :=
  let '(a, g1) := s4 g in
  let '(b, g2) := s4 g1 in
  let '(c, g3) := s4 g2 in
  (a +:+ b +:+ c, g3).

(** [getPublicSessions()]: the ids of the sessions that are public.  [Sessions]
    is a finite map here, and the list comes in the order of its keys, where
    the JavaScript object lists them in the order [for ... in] gives; the
    properties below speak of the members of the list only. *)
Definition getPublicSessions (w : World) : list string :=
  (filter (λ kv, isPublic kv.2 = true) (map_to_list (Sessions w))).*1.

(** [new Session(id, owner)] *)
Definition new_Session (E : Env) (id owner : string) : Session.t :=
  {| id := id; owner := owner; ownerIsPlayer := true; users := []; userOrder := [];
     setRestriction := option_list (last (MTGSets E));
     isPublic := false; ignoreCollections := false; boostersPerPlayer := 3; bots := 0;
     maxPlayers := 8; maxRarity := "mythic"; colorBalance := true;
     maxDuplicates := {| md_common := 8; md_uncommon := 4; md_rare := 2; md_mythic := 1 |};
     foil := false; useCustomCardList := false; customCardList := Cube [];
     burnedCardsPerRound := 0; draftLogRecipients := "everyone";
     drafting := false; boosters := []; round := 0; boosterNumber := 0;
     pickedCardsThisRound := 0; disconnectedUsers := []; botsInstances := None;
     draftLog := None; winstonDraftState := None;
     countdown := 75; maxTimer := 75; timerRunning := false |}.

(** "Remove user from previous session and cleanup if empty" *)
Definition removeUserFromSession (userID : string) : W unit :=
  c <- wconn userID ;;
  w <- get_world ;;
  let sessionID := key_of (Conn.sessionID c) in
  match Sessions w !! sessionID with
  | Some sess =>
      if bool_decide (userID ∈ users sess) then
        (if drafting sess then
           with_session sessionID SessionOps.stopCountdown ;;;
           with_session sessionID (modify_sess (λ s,
             set_disconnectedUsers
               (JS.obj_set userID
                  {| Disc.userName := None;
                     Disc.pickedThisRound := Conn.pickedThisRound c;
                     Disc.pickedCards := Conn.pickedCards c;
                     Disc.boosterIndex := None;
                     Disc.bot := None |}
                  (disconnectedUsers s)) s))
         else ret tt) ;;;
        with_session sessionID (modify_sess (λ s, set_users (JS.set_delete userID (users s)) s)) ;;;
        wmodify_conn userID (Conn.set_sessionID None) ;;;
        w <- get_world ;;
        sess <- wsession (Some sessionID) ;;
        if bool_decide (length (users sess) = 0%nat) then
          let wasPublic := isPublic sess in
          put_sessions (delete sessionID (Sessions w)) ;;;
          if wasPublic then
            w <- get_world ;;
            wpush ToAll (EvPublicSessions (getPublicSessions w))
          else ret tt
        else
          (if bool_decide (owner sess = userID) then
             match users sess with
             | first :: _ => with_session sessionID (modify_sess (set_owner first))
             | [] => ret tt
             end
           else ret tt) ;;;
          with_session sessionID SessionOps.notifyUserChange
      else ret tt
  | None =>
      if JS.inherited sessionID
      then throw "Sessions[sessionID].users is undefined"
      else ret tt
  end.

(** [sessionID in Sessions] also holds of a name that [Sessions] inherits:
    no session is created then, and the call of [addUser] on the inherited
    function throws. *)
Definition addUserToSession (E : Env) (userID sessionID : string) : W unit :=
  c <- wconn userID ;;
  (if bool_decide (Conn.sessionID c ≠ None) then removeUserFromSession userID else ret tt) ;;;
  w <- get_world ;;
  (if bool_decide (Sessions w !! sessionID = None) && negb (JS.inherited sessionID)
   then put_sessions (<[sessionID := new_Session E sessionID userID]> (Sessions w))
   else ret tt) ;;;
  with_session sessionID (SessionOps.addUser userID).

(** The fallback of [joinSession]: the previous session if there is one, a
    new random id otherwise. *)
Definition fallback_session (userID : string) : W string :=
  c <- wconn userID ;;
  match Conn.sessionID c with
  | None => wrandom shortguid
  | Some sid => ret sid
  end.

(** For a [sessionID] that [Sessions] inherits, [Sessions[sessionID].drafting]
    is [undefined] and [Sessions[sessionID].getHumanPlayerCount()] throws. *)
Definition joinSession (E : Env) (sessionID userID : string) : W unit :=
  w <- get_world ;;
  match Sessions w !! sessionID with
  | Some sess =>
      if drafting sess then
        if JS.obj_in userID (disconnectedUsers sess) then
          with_session sessionID (Draft.reconnectUser userID)
        else
          wemit userID (EvMessage "Cannot join session"
            ("This session (" +:+ sessionID
             +:+ ") is currently drafting. Please wait for them to finish.") None None) ;;;
          sid <- fallback_session userID ;;
          wemit userID (EvSetSession sid)
      else if maxPlayers sess <=? SessionOps.getHumanPlayerCount sess then
        wemit userID (EvMessage "Cannot join session"
          ("This session (" +:+ sessionID +:+ ") is full ("
           +:+ pretty (Z.of_nat (length (users sess))) +:+ "/" +:+ pretty (maxPlayers sess)
           +:+ " players).") None None) ;;;
        sid <- fallback_session userID ;;
        wemit userID (EvSetSession sid)
      else addUserToSession E userID sessionID
  | None =>
      if JS.inherited sessionID
      then throw "Sessions[sessionID].getHumanPlayerCount is not a function"
      else addUserToSession E userID sessionID
  end.

(** *** Socket handlers; [this_userID] is the user the socket belongs to. *)

Definition on_disconnect (this_userID : string) : W unit :=
  w <- get_world ;;
  if bool_decide (is_Some (Connections w !! this_userID)) then
    removeUserFromSession this_userID ;;;
    w <- get_world ;;
    put_connections (delete this_userID (Connections w))
  else ret tt.

Definition on_setSession (E : Env) (this_userID sessionID : string) : W unit :=
  c <- wconn this_userID ;;
  if bool_decide (Some sessionID = Conn.sessionID c) then ret tt
  else joinSession E sessionID this_userID.

(** The session of the user, as an owner-gated handler reads it. *)
Definition session_of (this_userID : string) : W (string * Session.t) :=
  c <- wconn this_userID ;;
  s <- wsession (Conn.sessionID c) ;;
  ret (key_of (Conn.sessionID c), s).

(** [for (let user of users) if (user != this.userID) emit(...)] *)
Definition emit_others (this_userID : string) (us : list string) (e : Event) : W unit :=
  forM_ us (λ user, if bool_decide (user ≠ this_userID) then wemit user e else ret tt).

(** The payload of [boostersPerPlayer], [bots], [setPickTimer] and
    [setMaxPlayers] after [parseInt]: an integer, or [NaN]. *)
Definition on_boostersPerPlayer (this_userID : string) (boostersPerPlayer : JsNum) : W unit :=
  '(sessionID, s) <- session_of this_userID ;;
  if bool_decide (owner s ≠ this_userID) then ret tt
  else
    match boostersPerPlayer with
    | NaN => ret tt
    | Num n =>
        if n =? Session.boostersPerPlayer s then ret tt
        else
          with_session sessionID (modify_sess (set_boostersPerPlayer n)) ;;;
          emit_others this_userID (users s) (EvBoostersPerPlayer n)
    end.

Definition on_bots (this_userID : string) (bots : JsNum) : W unit :=
  '(sessionID, s) <- session_of this_userID ;;
  if bool_decide (owner s ≠ this_userID) then ret tt
  else
    match bots with
    | NaN => ret tt
    | Num n =>
        if n =? Session.bots s then ret tt
        else
          with_session sessionID (modify_sess (set_bots n)) ;;;
          emit_others this_userID (users s) (EvBots n)
    end.

(** The payload is an array of strings; [same_object] tells whether it is the
    very array object the session holds, which is what [===] compares (an
    array decoded from the socket never is). *)
Definition on_setRestriction (E : Env) (this_userID : string)
    (setRestriction : list string) (same_object : bool) : W unit :=
  '(sessionID, s) <- session_of this_userID ;;
  if bool_decide (owner s ≠ this_userID) then ret tt
  else if bool_decide (Exists (λ x, JS.indexOf x (MTGSets E) = -1) setRestriction) then ret tt
  else if same_object then ret tt
  else
    with_session sessionID (modify_sess (set_setRestriction setRestriction)) ;;;
    emit_others this_userID (users s) (EvSetRestriction setRestriction).

Definition on_ignoreCollections (this_userID : string) (ignoreCollections : bool) : W unit :=
  '(sessionID, s) <- session_of this_userID ;;
  if bool_decide (owner s ≠ this_userID) then ret tt
  else
    with_session sessionID (modify_sess (set_ignoreCollections ignoreCollections)) ;;;
    emit_others this_userID (users s) (EvIgnoreCollections ignoreCollections).

Definition on_setPickTimer (this_userID : string) (timerValue : JsNum) : W unit :=
  '(sessionID, s) <- session_of this_userID ;;
  if bool_decide (owner s ≠ this_userID) then ret tt
  else
    match timerValue with
    | NaN => ret tt
    | Num n =>
        if n <? 0 then ret tt
        else
          with_session sessionID (modify_sess (set_maxTimer n)) ;;;
          emit_others this_userID (users s) (EvSetPickTimer n)
    end.

Definition on_setMaxPlayers (this_userID : string) (maxPlayers : JsNum) : W unit :=
  '(sessionID, s) <- session_of this_userID ;;
  if bool_decide (owner s ≠ this_userID) then ret tt
  else
    match maxPlayers with
    | NaN => ret tt
    | Num n =>
        if n <? 0 then ret tt
        else
          with_session sessionID (modify_sess (set_maxPlayers n)) ;;;
          emit_others this_userID (users s) (EvSetMaxPlayers n)
    end.

Definition on_setColorBalance (this_userID : string) (colorBalance : bool) : W unit :=
  '(sessionID, s) <- session_of this_userID ;;
  if bool_decide (owner s ≠ this_userID) then ret tt
  else if bool_decide (colorBalance = Session.colorBalance s) then ret tt
  else
    with_session sessionID (modify_sess (set_colorBalance colorBalance)) ;;;
    emit_others this_userID (users s) (EvSessionOptionsColorBalance colorBalance).

Definition on_setUseCustomCardList (this_userID : string) (useCustomCardList : bool) : W unit :=
  '(sessionID, s) <- session_of this_userID ;;
  if bool_decide (owner s ≠ this_userID) then ret tt
  else if bool_decide (useCustomCardList = Session.useCustomCardList s) then ret tt
  else
    with_session sessionID (modify_sess (set_useCustomCardList useCustomCardList)) ;;;
    emit_others this_userID (users s) (EvSessionOptionsUseCustomCardList useCustomCardList).

Definition on_setPublic (this_userID : string) (isPublic : bool) : W unit :=
  '(sessionID, s) <- session_of this_userID ;;
  if bool_decide (owner s ≠ this_userID) then ret tt
  else if bool_decide (isPublic = Session.isPublic s) then ret tt
  else
    with_session sessionID (modify_sess (set_isPublic isPublic)) ;;;
    emit_others this_userID (users s) (EvIsPublic isPublic) ;;;
    w <- get_world ;;
    wpush ToAll (EvPublicSessions (getPublicSessions w)).

End Server.

(** ** The tournament bracket ([Bracket] and the bracket component) *)

Module Bracket.

(** The server's [Bracket(players)]: the eight player names in bracket order
    (an empty string for a free place) and one pair of scores per match, all
    at 0.  The scores are integers; [results] may be missing ([None]) for the
    component. *)
Record t : Type :=
  { players : list string;
    results : option (list (Z * Z)) }.

Definition new (players : list string) : t :=
  {| players := players; results := Some (replicate 7 (0, 0)) |}.

(** A place in a match of the component: a player name, [{empty: true}] or
    [{tbd: true}]. *)
Inductive Slot : Type :=
| Player (name : string)
| Empty
| TBD.

Global Instance Slot_eq_dec : EqDecision Slot.
Proof. solve_decision. Defined.

(** [new Match(index, players)] *)
Record Match : Type :=
  { index : nat;
    places : Slot * Slot }.

(** [isValid()]: neither place is empty or to be determined. *)
Definition isValid (m : Match) : bool :=
  match places m with
  | (Player _, Player _) => true
  | _ => false
  end.

(** [players[i] === "" ? { empty: true } : players[i]] *)
Definition place_of (name : string) : Slot :=
  if String.eqb name "" then Empty else Player name.

(** [winner(match)] *)
Definition winner (b : t) (m : Match) : Res Slot :=
  match places m with
  | (Empty, Empty) => Ret Empty
  | (Empty, p1) => Ret p1
  | (p0, Empty) => Ret p0
  | (p0, p1) =>
      match results b with
      | None => Ret TBD
      | Some rs =>
          match rs !! index m with
          | None => Throw "this.bracket.results[match.index] is undefined"
          | Some (r0, r1) =>
              if r0 =? r1 then Ret TBD
              else if r1 <? r0 then Ret p0
              else Ret p1
          end
      end
  end.

Definition and_then {A B} (r : Res A) (k : A → Res B) : Res B :=
  match r with
  | Ret a => k a
  | Throw e => Throw e
  | Stuck e => Stuck e
  end.

(** The computed property [matches]: the four matches of the first round,
    the two of the second and the final.  A place past the end of [players]
    is [undefined], and [winner] fails on it. *)
Definition matches (b : t) : Res (list (list Match)) :=
  match players b with
  | p0 :: p1 :: p2 :: p3 :: p4 :: p5 :: p6 :: p7 :: _ =>
      let m0 := {| index := 0; places := (place_of p0, place_of p1) |} in
      let m1 := {| index := 1; places := (place_of p2, place_of p3) |} in
      let m2 := {| index := 2; places := (place_of p4, place_of p5) |} in
      let m3 := {| index := 3; places := (place_of p6, place_of p7) |} in
      and_then (winner b m0) (λ w0,
      and_then (winner b m1) (λ w1,
      let m4 := {| index := 4; places := (w0, w1) |} in
      and_then (winner b m2) (λ w2,
      and_then (winner b m3) (λ w3,
      let m5 := {| index := 5; places := (w2, w3) |} in
      and_then (winner b m4) (λ w4,
      and_then (winner b m5) (λ w5,
      let m6 := {| index := 6; places := (w4, w5) |} in
      Ret [[m0; m1; m2; m3]; [m4; m5]; [m6]]))))))
  | _ => Throw "this.bracket.players[i] is undefined"
  end.

End Bracket.

(** ** The HTTP endpoints of the server *)

Module Endpoints.
Import Session Server.

(** What an endpoint answers: [res.sendStatus(code)] or [res.send(body)]. *)
Inductive Response : Type :=
| Status (code : Z)
| SendCollection (collection : gmap string Z)
| SendUsers (users : list string).

(** A cookie or a route parameter; [None] is [undefined].  The test [!x]
    holds of [undefined] and of the empty string. *)
Definition missing (x : option string) : bool :=
  match x with
  | None => true
  | Some s => String.eqb s ""
  end.

(** The property key of [x in Sessions] and of [Sessions[x]]: [undefined] is
    the key "undefined". *)
Definition key (x : option string) : string := default "undefined" x.

(** [app.get('/getCollection', ...)].  The cookie [sessionID] is tested, then
    [req.params.sessionID in Sessions]; the route has no parameter, so
    [req.params.sessionID] is [undefined]. *)
Definition getCollection (E : Env) (cookie_sessionID : option string) : W Response :=
  if missing cookie_sessionID then ret (Status 400)
  else
    w <- get_world ;;
    if bool_decide (is_Some (Sessions w !! key None)) then
      c <- with_session (key cookie_sessionID) (Generator.collection E) ;;
      ret (SendCollection c)
    else ret (Status 404).

(** [app.get('/getCollection/:id', ...)].  The parameter of the route is
    [id]; [req.params.sessionID] is [undefined] here too. *)
Definition getCollection_id (E : Env) (id : option string) : W Response :=
  if missing id then ret (Status 400)
  else
    w <- get_world ;;
    if bool_decide (is_Some (Sessions w !! key None)) then
      c <- with_session (key id) (Generator.collection E) ;;
      ret (SendCollection c)
    else ret (Status 404).

(** [app.get('/getUsers/:sessionID', ...)]; the test [in Sessions] also holds
    of a name that [Sessions] inherits, whose [users] is [undefined]. *)
Definition getUsers (sessionID : option string) : W Response :=
  if missing sessionID then ret (Status 400)
  else
    w <- get_world ;;
    match Sessions w !! key sessionID with
    | Some s => ret (SendUsers (users s))
    | None =>
        if JS.inherited (key sessionID)
        then throw "Sessions[sessionID].users is not iterable"
        else ret (Status 404)
    end.

End Endpoints.

(** ** Concrete catalogs, sessions and connections used by the examples *)

Module Examples.
Import Session.

Definition card (set : string) (r : Rarity) (color : string) : Card.Facts :=
  {| Card.set := set; Card.rarity := r; Card.color_identity := color;
     Card.in_booster := true |}.

(** A bot policy: always the first card. *)
Definition first_card : Bot.t → list string → Z := λ _ _, 0.

(** A small catalog of one set: a rare, an uncommon and two commons. *)
Definition small_env : Env :=
  {| Cards := list_to_map
       [("r1", card "thb" rare "W"); ("u1", card "thb" uncommon "U");
        ("c1", card "thb" common "B"); ("c2", card "thb" common "R")];
     MTGSets := ["thb"];
     LandSlot := λ _, None;
     botPick := first_card;
     botBurn := first_card |}.

Definition conn (userID : string) (sessionID : option string) : Conn.t :=
  {| Conn.userID := userID; Conn.userName := userID; Conn.sessionID := sessionID;
     Conn.collection := ∅; Conn.useCollection := true; Conn.pickedCards := [];
     Conn.pickedThisRound := false; Conn.boosterIndex := None |}.

Definition seated (userID : string) (boosterIndex : Z) : Conn.t :=
  Conn.set_boosterIndex (Some (Num boosterIndex)) (conn userID (Some "s")).

Definition log_user (userID : string) : string * Log.User :=
  (userID, {| Log.isBot := false; Log.userName := userID; Log.userID := userID;
              Log.picks := []; Log.cards := None |}).

Definition zero_tape : Rng := {| tape := λ _, 0; pos := 0 |}.

(** Alice and Bob in session "s", owned by Alice. *)
Definition lobby : Session.t :=
  set_userOrder ["alice"; "bob"]
    (set_users ["alice"; "bob"] (Server.new_Session small_env "s" "alice")).

(** The same table in the middle of a draft with one burned card per pick:
    Alice holds booster 0, Bob booster 1. *)
Definition burn_table : Session.t :=
  {| id := "s"; owner := "alice"; ownerIsPlayer := true;
     users := ["alice"; "bob"]; userOrder := ["alice"; "bob"];
     setRestriction := ["thb"]; isPublic := false; ignoreCollections := false;
     boostersPerPlayer := 1; bots := 0; maxPlayers := 8; maxRarity := "mythic";
     colorBalance := true;
     maxDuplicates := {| md_common := 8; md_uncommon := 4; md_rare := 2; md_mythic := 1 |};
     foil := false; useCustomCardList := false; customCardList := Cube [];
     burnedCardsPerRound := 1; draftLogRecipients := "everyone";
     drafting := true; boosters := [["a"; "b"; "c"]; ["d"; "e"; "f"]];
     round := 1; boosterNumber := 1; pickedCardsThisRound := 0;
     disconnectedUsers := []; botsInstances := Some [];
     draftLog := Some {| Log.sessionID := "s"; Log.setRestriction := ["thb"];
                         Log.boosters := [["a"; "b"; "c"]; ["d"; "e"; "f"]];
                         Log.users := [log_user "alice"; log_user "bob"] |};
     winstonDraftState := None; countdown := 75; maxTimer := 75; timerRunning := true |}.

Definition burn_state : St :=
  {| sess := burn_table;
     conns := list_to_map [("alice", seated "alice" 0); ("bob", seated "bob" 1)];
     out := []; rng := zero_tape |}.

(** The drafting table again, with Dave seated but disconnected, and the
    server it lives in: Alice and Bob attached to "s", Carol and Dave
    connected to the server without a session. *)
Definition table_with_dave : Session.t :=
  set_disconnectedUsers
    [("dave", {| Disc.userName := None; Disc.pickedThisRound := false;
                 Disc.pickedCards := []; Disc.boosterIndex := None; Disc.bot := None |})]
    (set_userOrder ["alice"; "bob"; "dave"] burn_table).

Definition draft_world : Server.World :=
  {| Server.Connections :=
       list_to_map [("alice", seated "alice" 0); ("bob", seated "bob" 1);
                    ("carol", conn "carol" None); ("dave", conn "dave" None)];
     Server.Sessions := {["s" := table_with_dave]};
     Server.outbox := [];
     Server.wrng := zero_tape |}.

(** Alice (first in [users]) does not use her collection; Bob uses his and
    owns seven copies of the common "c1" and two of the rare "r1". *)
Definition alice_unused : Conn.t :=
  Conn.set_useCollection false (conn "alice" (Some "s")).
Definition bob_collector : Conn.t :=
  Conn.set_collection (list_to_map [("c1", 7); ("r1", 2)]) (conn "bob" (Some "s")).

Definition collector_state : St :=
  {| sess := lobby;
     conns := list_to_map [("alice", alice_unused); ("bob", bob_collector)];
     out := []; rng := zero_tape |}.

(** The same session with Bob first in [users]. *)
Definition collector_swapped_state : St :=
  {| sess := set_users ["bob"; "alice"] lobby;
     conns := list_to_map [("alice", alice_unused); ("bob", bob_collector)];
     out := []; rng := zero_tape |}.

(** Alice, Bob and Carol drafting four boosters each: the first pack is
    open and one pick has been made, twelve boosters are on the table. *)
Definition four_pack_table : Session.t :=
  set_boosters (replicate 12 ["a"; "b"])
    (set_boostersPerPlayer 4
       (set_userOrder ["alice"; "bob"; "carol"]
          (set_users ["alice"; "bob"; "carol"] burn_table))).

Definition four_pack_state : St :=
  {| sess := four_pack_table;
     conns := list_to_map [("alice", seated "alice" 0); ("bob", seated "bob" 1);
                           ("carol", seated "carol" 2)];
     out := []; rng := zero_tape |}.

(** The drafting table with two burned cards per pick, Alice holding a
    booster of two cards. *)
Definition two_burn_state : St :=
  {| sess := set_boosters [["a"; "b"]; ["d"; "e"; "f"]]
               (set_burnedCardsPerRound 2 burn_table);
     conns := list_to_map [("alice", seated "alice" 0); ("bob", seated "bob" 1)];
     out := []; rng := zero_tape |}.

(** The server holding the lobby "s" of Alice and Bob, before any draft. *)
Definition lobby_world : Server.World :=
  {| Server.Connections :=
       list_to_map [("alice", conn "alice" (Some "s")); ("bob", conn "bob" (Some "s"))];
     Server.Sessions := {["s" := lobby]};
     Server.outbox := [];
     Server.wrng := zero_tape |}.

(** The lobby as the session object sees it. *)
Definition lobby_state : St :=
  {| sess := lobby; conns := Server.Connections lobby_world; out := [];
     rng := zero_tape |}.

(** The lobby with foils enabled; and the same with a single copy of each
    rare allowed, which leaves one rare in the catalog of [small_env]. *)
Definition foil_state : St :=
  {| sess := set_foil true lobby; conns := Server.Connections lobby_world; out := [];
     rng := zero_tape |}.

(** The lobby with foils enabled and [maxRarity] "common". *)
Definition common_foil_state : St :=
  {| sess := set_maxRarity "common" (set_foil true lobby);
     conns := Server.Connections lobby_world; out := []; rng := zero_tape |}.

(** A land slot whose [setup] takes the land "l1" out of the commons and
    whose [pick] returns it. *)
Definition basic_slot : LandSlotT :=
  {| ls_state := unit;
     ls_setup := λ d, (delete "l1" d, tt);
     ls_pick := λ s g, ("l1", s, g) |}.

(** The small catalog with the land "l1", and the land slot of its set. *)
Definition land_env : Env :=
  {| Cards := <["l1" := card "thb" common "G"]> (Cards small_env);
     MTGSets := ["thb"];
     LandSlot := λ code, if String.eqb code "thb" then Some basic_slot else None;
     botPick := first_card;
     botBurn := first_card |}.

Definition scarce_state : St :=
  {| sess := set_maxDuplicates
               {| md_common := 8; md_uncommon := 4; md_rare := 1; md_mythic := 1 |}
               (set_foil true lobby);
     conns := Server.Connections lobby_world; out := []; rng := zero_tape |}.

(** The table of [burn_state] with one bot, created and logged as at the
    start of a draft. *)
Definition bot_seat_state : St :=
  {| sess :=
       Session.set_bots 1
         (Session.set_botsInstances (Some [Bot.new "Bot #0" "bot"])
            (Session.set_draftLog
               (Some {| Log.sessionID := "s"; Log.setRestriction := ["thb"];
                        Log.boosters := []; Log.users := [log_user "bot"] |})
               burn_table));
     conns := conns burn_state;
     out := [];
     rng := rng burn_state |}.

(** Alice and Bob in a Winston draft: Alice has just played round 0, the
    first pile is empty and one card is left in the pool. *)
Definition winston_state : St :=
  {| sess :=
       Session.set_winstonDraftState
         (Some {| Winston.players := ["alice"; "bob"]; Winston.round := 0;
                  Winston.cardPool := ["x"]; Winston.piles := Some [[]; ["a"]; ["b"]];
                  Winston.currentPile := 0 |})
         burn_table;
     conns := conns burn_state;
     out := [];
     rng := rng burn_state |}.

(** A public session with one member, its owner; and a server with two of
    them: "s", where Alice is alone, and "t", where Bob is. *)
Definition public_session (sessionID owner : string) : Session.t :=
  set_isPublic true
    (set_userOrder [owner]
       (set_users [owner] (Server.new_Session small_env sessionID owner))).

Definition solo_public : Session.t := public_session "s" "alice".

Definition public_world : Server.World :=
  {| Server.Connections :=
       list_to_map [("alice", conn "alice" (Some "s")); ("bob", conn "bob" (Some "t"))];
     Server.Sessions := list_to_map [("s", solo_public); ("t", public_session "t" "bob")];
     Server.outbox := [];
     Server.wrng := zero_tape |}.

(** A drafting session of Alice and Bob under the identifier that [shortguid]
    spells from a tape of zeros, with Carol connected without a session. *)
Definition zero_id_world : Server.World :=
  {| Server.Connections :=
       list_to_map [("alice", conn "alice" (Some "000000000000"));
                    ("bob", conn "bob" (Some "000000000000"));
                    ("carol", conn "carol" None)];
     Server.Sessions :=
       {["000000000000" :=
           set_drafting true
             (set_userOrder ["alice"; "bob"]
                (set_users ["alice"; "bob"]
                   (Server.new_Session small_env "000000000000" "alice")))]};
     Server.outbox := [];
     Server.wrng := zero_tape |}.

(** Alice alone in the drafting session "s". *)
Definition solo_draft_world : Server.World :=
  {| Server.Connections := list_to_map [("alice", conn "alice" (Some "s"))];
     Server.Sessions :=
       {["s" := set_drafting true
                  (set_userOrder ["alice"]
                     (set_users ["alice"] (Server.new_Session small_env "s" "alice")))]};
     Server.outbox := [];
     Server.wrng := zero_tape |}.

(** The table of [burn_state] once Alice has picked "a": one pick is counted
    and the round waits for Bob. *)
Definition last_pick_state : St :=
  {| sess := set_pickedCardsThisRound 1 (set_boosters [["b"; "c"]; ["d"; "e"; "f"]] burn_table);
     conns := list_to_map
                [("alice", Conn.set_pickedThisRound true
                             (Conn.set_pickedCards ["a"] (seated "alice" 0)));
                 ("bob", seated "bob" 1)];
     out := []; rng := zero_tape |}.

End Examples.

(** ** Notions used to state and prove the properties *)

Module Frame.

(** The result of a computation that returns. *)
Definition returned {S A} (r : Res (A * S)) : option A :=
  match r with Ret (a, _) => Some a | _ => None end.

(** The state after some more events were sent. *)
Definition add_out (o : list (Target * Event)) (st : St) : St :=
  {| sess := sess st; conns := conns st; out := out st ++ o; rng := rng st |}.

Definition with_sess (s : Session.t) (st : St) : St :=
  {| sess := s; conns := conns st; out := out st; rng := rng st |}.

Definition with_conns (c : gmap string Conn.t) (st : St) : St :=
  {| sess := sess st; conns := c; out := out st; rng := rng st |}.

(** A computation that, with connections [C], returns and only sends events. *)
Definition emits_only (C : gmap string Conn.t) (m : M unit) : Prop :=
  ∀ st, conns st = C → ∃ o, m st = Ret (tt, add_out o st).

(** Every member of [users] has a connection. *)
Definition users_connected (st : St) : Prop :=
  ∀ u, u ∈ Session.users (sess st) → is_Some (conns st !! u).

(** The session with its timer fields blanked: two sessions with the same
    image differ at most in [countdown] and [timerRunning]. *)
Definition timer_erase (s : Session.t) : Session.t :=
  Session.set_countdown 0 (Session.set_timerRunning false s).

(** A computation that returns and changes nothing but the timer fields of
    the session and the events sent, whenever every user is connected. *)
Definition steady (m : M unit) : Prop :=
  ∀ st, users_connected st →
    ∃ st', m st = Ret (tt, st') ∧ conns st' = conns st ∧ rng st' = rng st
           ∧ timer_erase (sess st') = timer_erase (sess st)
           ∧ ∃ o, out st' = out st ++ o.

(** The world after some more events were sent. *)
Definition wadd_out (o : list (Target * Event)) (w : Server.World) : Server.World :=
  {| Server.Connections := Server.Connections w; Server.Sessions := Server.Sessions w;
     Server.outbox := Server.outbox w ++ o; Server.wrng := Server.wrng w |}.

Definition with_sessions (m : gmap string Session.t) (w : Server.World) : Server.World :=
  {| Server.Connections := Server.Connections w; Server.Sessions := m;
     Server.outbox := Server.outbox w; Server.wrng := Server.wrng w |}.

Definition with_connections (c : gmap string Conn.t) (w : Server.World) : Server.World :=
  {| Server.Connections := c; Server.Sessions := Server.Sessions w;
     Server.outbox := Server.outbox w; Server.wrng := Server.wrng w |}.

(** The events [emit_others] sends: one to each listed user but the sender. *)
Definition others (u : string) (us : list string) (e : Event) : list (Target * Event) :=
  (λ v, (ToUser v, e)) <$> filter (λ v, v ≠ u) us.

(** The entry [removeUserFromSession] writes in [disconnectedUsers]. *)
Definition snapshot (c : Conn.t) : Disc.t :=
  {| Disc.userName := None;
     Disc.pickedThisRound := Conn.pickedThisRound c;
     Disc.pickedCards := Conn.pickedCards c;
     Disc.boosterIndex := None;
     Disc.bot := None |}.

(** The session object once [removeUserFromSession] has taken [userID] out of
    [users]: while drafting the timer is stopped and the snapshot recorded. *)
Definition without_user (userID : string) (c : Conn.t) (s : Session.t) : Session.t :=
  let s1 :=
    if Session.drafting s
    then Session.set_disconnectedUsers
           (JS.obj_set userID (snapshot c) (Session.disconnectedUsers s))
           (Session.set_timerRunning false s)
    else s in
  Session.set_users (JS.set_delete userID (Session.users s1)) s1.

(** The same with the ownership passed on when the owner left. *)
Definition handed_over (userID : string) (s : Session.t) : Session.t :=
  if bool_decide (Session.owner s = userID) then
    match Session.users s with
    | first :: _ => Session.set_owner first s
    | [] => s
    end
  else s.

End Frame.

(** The session identifiers [shortguid] draws. *)
Module Ids.

(** The number a call of [s4] spells: what follows the leading digit of
    [floor((1 + r) * 0x10000)], that is sixteen bits of the sample [r]. *)
Definition drawn (g : Rng) : Z :=
  (to_double (RAND_DEN + sample g) * 65536 / RAND_DEN) `mod` 65536.

(** The four hexadecimal digits of a number below [0x10000]. *)
Definition hex4 (n : Z) : string :=
  Server.hex_digit (n / 4096) +:+ Server.hex_digit ((n / 256) `mod` 16)
  +:+ Server.hex_digit ((n / 16) `mod` 16) +:+ Server.hex_digit (n `mod` 16).

(** The identifier made of three draws. *)
Definition spelled (g : Rng) : string :=
  hex4 (drawn g) +:+ hex4 (drawn (advance g)) +:+ hex4 (drawn (advance (advance g))).

(** The session [joinSession] sends a refused user to: the previous one, or
    a new identifier. *)
Definition fallback (c : Conn.t) (g : Rng) : string :=
  match Conn.sessionID c with
  | Some previous => previous
  | None => spelled g
  end.

End Ids.

(** Frame conditions on session methods. *)
Module Keeps.

(** The computation leaves [Connections] alone whenever it returns. *)
Definition keeps_conns {A} (m : M A) : Prop :=
  ∀ st a st', m st = Ret (a, st') → conns st' = conns st.

(** The computation only adds to the events sent whenever it returns. *)
Definition grows_out {A} (m : M A) : Prop :=
  ∀ st a st', m st = Ret (a, st') → ∃ o, out st' = out st ++ o.

(** The computation leaves booster [j] alone whenever it returns. *)
Definition keeps_booster (j : Z) {A} (m : M A) : Prop :=
  ∀ st a st', m st = Ret (a, st') →
    JS.nth_Z (Session.boosters (sess st')) j = JS.nth_Z (Session.boosters (sess st)) j.

(** The computation leaves the entry of [u] in [disconnectedUsers] alone
    whenever it returns. *)
Definition keeps_disc (u : string) {A} (m : M A) : Prop :=
  ∀ st a st', m st = Ret (a, st') →
    JS.obj_get u (Session.disconnectedUsers (sess st'))
    = JS.obj_get u (Session.disconnectedUsers (sess st)).

(** The computation leaves the connection of [u] alone whenever it returns. *)
Definition keeps_conn_of (u : string) {A} (m : M A) : Prop :=
  ∀ st a st', m st = Ret (a, st') → conns st' !! u = conns st !! u.

End Keeps.

(** The rotation of the boosters, in the words of the claim and as the code
    computes it. *)
Module Rotation.

(** The offset the claim describes: minus the pick number when the pack
    number is even, plus the pick number when it is odd. *)
Definition claimed_offset (s : Session.t) : Z :=
  if Z.even (Session.boosterNumber s) then - Session.round s else Session.round s.

(** The number of packs each seat still has to open, the current one
    included, when the boosters divide evenly among the seats. *)
Definition packs_left (s : Session.t) : Z :=
  Z.quot (Z.of_nat (length (Session.boosters s))) (SessionOps.getVirtualPlayersCount s).

(** The index [nextBooster] hands to the seat at position [p]. *)
Definition assigned (s : Session.t) (p : Z) : JsNum :=
  negMod (Draft.boosterOffset s + p) (SessionOps.getVirtualPlayersCount s).

(** The session when [nextBooster] starts dealing: the drained pack removed. *)
Definition at_deal (s : Session.t) : Session.t :=
  match Session.boosters s with
  | first :: _ =>
      if bool_decide (length first = 0%nat) then
        Session.set_boosterNumber (Session.boosterNumber s + 1)
          (Session.set_boosters
             (JS.splice_front (SessionOps.getVirtualPlayersCount s) (Session.boosters s))
             (Session.set_round 0 (Session.set_timerRunning false s)))
      else Session.set_timerRunning false s
  | [] => s
  end.

(** What [nextBooster] does once the boosters are dealt: the owner who does
    not play is told, the countdown starts and the pick number advances. *)
Definition finish_deal : M unit :=
  s <- get_sess ;;
  c <- get_conns ;;
  (if negb (Session.ownerIsPlayer s) && bool_decide (is_Some (c !! Session.owner s))
   then emit (Session.owner s)
          (EvNextBooster None (Session.boosterNumber s) (Session.round s + 1))
   else ret tt) ;;;
  SessionOps.startCountdown ;;;
  modify_sess (λ s, Session.set_round (Session.round s + 1) s).

(** A seat held by a connected human. *)
Definition connected_seat (C : gmap string Conn.t) (seat : string * VirtualPlayer) : Prop :=
  seat.2 = Human false ∧ is_Some (C !! seat.1).

End Rotation.

(** The words of the specification about the effective collection. *)
Module CollectionSpec.

(** The counts of card [c] owned by the participants whose collection is
    used, in the order of [users]. *)
Definition owned_counts (cs : list Conn.t) (c : string) : list Z :=
  omap (λ x, if Generator.uses x then Conn.collection x !! c else None) cs.

(** The minimum of a list of counts; none for the empty list. *)
Definition minimum (l : list Z) : option Z :=
  match l with
  | [] => None
  | x :: l' => Some (foldl Z.min x l')
  end.

(** Card [c] is in the collection of every participant whose collection is
    used. *)
Definition owned_by_all (cs : list Conn.t) (c : string) : Prop :=
  ∀ x, x ∈ cs → Generator.uses x = true → is_Some (Conn.collection x !! c).

(** The first member of [users] does not have their collection used. *)
Definition first_unused (cs : list Conn.t) : bool :=
  match cs with
  | c0 :: _ => negb (Generator.uses c0)
  | [] => true
  end.

(** The count the catalog alone gives a card: [maxDuplicates[rarity]] for a
    card found in boosters. *)
Definition catalog_count (E : Env) (md : MaxDuplicates) (c : string) : option Z :=
  Cards E !! c ≫= (λ f, if Card.in_booster f
                         then Some (maxDuplicates_at md (Card.rarity f)) else None).

End CollectionSpec.

(** The validations of [pickCard], as the code applies them and as the
    specification words them. *)
Module PickSpec.
Import Session.

(** The user is a participant of a session that is drafting. *)
Definition participant (s : Session.t) (userID : string) : bool :=
  drafting s && bool_decide (userID ∈ users s).

(** The booster the connection points at, with its index, when the index is
    in range. *)
Definition held (s : Session.t) (c : Conn.t) : option (Z * list string) :=
  match Conn.boosterIndex c with
  | Some (Num bi) =>
      if (bi <? 0) || (Z.of_nat (length (boosters s)) <=? bi) then None
      else (λ b, (bi, b)) <$> JS.nth_Z (boosters s) bi
  | _ => None
  end.

(** The remaining tests of [pickCard] on a participant's pick. *)
Definition accepted (s : Session.t) (c : Conn.t) (cardID : string)
    (burnedCards : option (list string)) : bool :=
  match held s c with
  | Some (_, booster) =>
      JS.includes cardID booster && negb (Conn.pickedThisRound c)
      && negb (Draft.invalid_burn s booster burnedCards)
  | None => false
  end.

(** The rule on burned cards the code enforces on the array it is given:
    exactly [burnedCardsPerRound] of them, or fewer when they are all the
    cards the booster keeps beside the picked one; every one of them in the
    booster. *)
Definition burn_rule (s : Session.t) (booster burned : list string) : Prop :=
  let n := Z.of_nat (length burned) in
  (n = burnedCardsPerRound s
   ∨ (n < burnedCardsPerRound s ∧ Z.of_nat (length booster) = 1 + n))
  ∧ ∀ x, x ∈ burned → x ∈ booster.

(** The burned cards an argument stands for: none when it is left out. *)
Definition burned_of (burnedCards : option (list string)) : list string :=
  default [] burnedCards.

(** The call gives its burned cards: it does not leave the argument out
    where the rule asks for burned cards. *)
Definition burn_given (s : Session.t) (c : Conn.t) (burnedCards : option (list string))
  : Prop :=
  burnedCards = None →
  ∀ bi booster, held s c = Some (bi, booster) → burn_rule s booster [].

(** A valid pick: the booster index is in range, the card is in that
    booster, the user has not picked this round, and the burned cards obey
    the rule. *)
Definition valid (s : Session.t) (c : Conn.t) (cardID : string) (burned : list string)
  : Prop :=
  ∃ bi booster, held s c = Some (bi, booster) ∧ cardID ∈ booster
    ∧ Conn.pickedThisRound c = false ∧ burn_rule s booster burned.

(** The rule on burned cards in the words of the claim: at most
    [burnedCardsPerRound], equal to it unless the booster has fewer than
    [1 + burnedCardsPerRound] cards, every burned card in the booster. *)
Definition claimed_burn_ok (s : Session.t) (booster burned : list string) : bool :=
  let n := Z.of_nat (length burned) in
  (n <=? burnedCardsPerRound s)
  && ((n =? burnedCardsPerRound s)
      || (Z.of_nat (length booster) <? 1 + burnedCardsPerRound s))
  && forallb (λ x, JS.includes x booster) burned.

(** All the validations of the claim. *)
Definition claimed_valid (s : Session.t) (c : Conn.t) (userID cardID : string)
    (burned : list string) : bool :=
  participant s userID
  && match held s c with
     | Some (_, booster) =>
         JS.includes cardID booster && negb (Conn.pickedThisRound c)
         && claimed_burn_ok s booster burned
     | None => false
     end.

(** The state an accepted pick leaves before the users are told and the
    round is possibly closed: the pick logged, the card in the user's picks,
    the booster without the removed cards, one more pick counted. *)
Definition picked (userID cardID : string) (burnedCards : option (list string))
    (bi : Z) (booster : list string) (c : Conn.t) (l : Log.t) (u : Log.User) (st : St) : St :=
  let s := sess st in
  let entry := {| Log.pick := cardID; Log.burn := option_map (map Some) burnedCards;
                  Log.booster := booster |} in
  {| sess :=
       set_pickedCardsThisRound (pickedCardsThisRound s + 1)
         (set_boosters
            (JS.set_nth_Z (boosters s) bi (Draft.remove_picked cardID burnedCards booster))
            (set_draftLog
               (Some (Log.set_users (JS.obj_set userID (Log.push_pick entry u) (Log.users l)) l))
               s));
     conns := <[userID := Conn.set_pickedThisRound true
                            (Conn.set_pickedCards (Conn.pickedCards c ++ [cardID]) c)]>
                (conns st);
     out := out st;
     rng := rng st |}.

End PickSpec.

(** Games of Winston draft: the moves the two players send in turn. *)
Module WinstonSpec.

Inductive Move : Type := Take | Skip.

Definition move (m : Move) : M bool :=
  match m with
  | Take => WinstonDraft.winstonTakePile
  | Skip => WinstonDraft.winstonSkipPile
  end.

Definition play (ms : list Move) : M unit := forM_ ms (λ m, move m ;;; ret tt).

(** The number of cards the players have picked. *)
Definition picked_total (st : St) : nat :=
  sum_list (length ∘ Conn.pickedCards <$> (map_to_list (conns st)).*2).

(** The cards sent to a client by [winstonDraftRandomCard]. *)
Definition random_cards (o : list (Target * Event)) : list (option string) :=
  omap (λ te, match te.2 with EvWinstonDraftRandomCard c => Some c | _ => None end) o.

End WinstonSpec.

(** The make-up of a generated booster. *)
Module BoosterSpec.
Import Generator.

Definition rarity_of (E : Env) (c : string) : option Rarity :=
  Card.rarity <$> Cards E !! c.

(** The number of cards of rarity [r] in a booster. *)
Definition rarity_count (E : Env) (r : Rarity) (b : list string) : nat :=
  length (filter (λ c, rarity_of E c = Some r) b).

(** Every bag holds cards of its rarity only, and the bags by colour hold
    commons only. *)
Definition sound_bags (E : Env) (st : GenSt) : Prop :=
  (∀ r c, is_Some (lc st r !! c) → rarity_of E c = Some r)
  ∧ (∀ col bag c, commonsByColor st !! col = Some bag → is_Some (bag !! c) →
       rarity_of E c = Some common).

(** A land slot's [setup] only takes cards out of the common bag. *)
Definition setup_shrinks (E : Env) : Prop :=
  ∀ code l d c, LandSlot E code = Some l →
    is_Some ((ls_setup l d).1 !! c) → is_Some (d !! c).

(** A card that fills a rare slot: a rare, or a mythic when [maxRarity] is
    "mythic". *)
Definition rare_slot (E : Env) (maxRarity : string) (c : string) : Prop :=
  rarity_of E c = Some rare ∨ (rarity_of E c = Some mythic ∧ maxRarity = "mythic").

(** The land slot of a session: the one of its set, when it is restricted
    to a single set that has one. *)
Definition land_slot_of (E : Env) (s : Session.t) : option LandSlotT :=
  match Session.setRestriction s with
  | [code] => LandSlot E code
  | _ => None
  end.

(** The land slot a generator state draws its lands from. *)
Definition slot_of (st : GenSt) : option LandSlotT := al_slot <$> land st.

(** A card that [pick] of the land slot [l] returns. *)
Definition land_card (l : LandSlotT) (c : string) : Prop :=
  ∃ s g, (ls_pick l s g).1.1 = c.

(** The lands of a booster: none without a land slot, one card picked by the
    land slot otherwise. *)
Definition land_shape (slot : option LandSlotT) (lands : list string) : Prop :=
  match slot with
  | None => lands = []
  | Some l => ∃ c, lands = [c] ∧ land_card l c
  end.

(** [m] leaves the land slot and its state alone. *)
Definition keeps_land {A} (m : SM GenSt A) : Prop :=
  ∀ st a st', m st = Ret (a, st') → land st' = land st.

(** The booster as the generator builds it: at most one foil of any rarity,
    the rare slots, the uncommons, the commons (one fewer when a foil was
    added) and the land of the land slot [slot]. *)
Definition booster_shape (E : Env) (maxRarity : string) (foil : bool)
    (slot : option LandSlotT) (b : list string) : Prop :=
  let targets := targets_of maxRarity in
  ∃ foils rares uncommons commons lands,
    b = foils ++ rares ++ uncommons ++ commons ++ lands
    ∧ (length foils ≤ 1)%nat
    ∧ (foil = false → foils = [])
    ∧ Forall (λ c, is_Some (rarity_of E c)) foils
    ∧ Z.of_nat (length rares) = t_rare targets
    ∧ Forall (rare_slot E maxRarity) rares
    ∧ Z.of_nat (length uncommons) = t_uncommon targets
    ∧ Forall (λ c, rarity_of E c = Some uncommon) uncommons
    ∧ Z.of_nat (length commons) = t_common targets - Z.of_nat (length foils)
    ∧ Forall (λ c, rarity_of E c = Some common) commons
    ∧ land_shape slot lands.

(** The count of card [c] as the bag of colour [col] sees it: cards of
    another colour are not in that bag. *)
Definition color_filter (E : Env) (col c : string) (n : Z) : option Z :=
  match Cards E !! c with
  | Some f => if decide (Card.color_identity f = col) then Some n else None
  | None => None
  end.

(** The bags by colour mirror the common bag: every common is in the bag of
    its colour, with the same count, and in no other. *)
Definition synced (E : Env) (commons : gmap string Z) (byColor : gmap string (gmap string Z))
  : Prop :=
  (∀ c, is_Some (commons !! c) →
     ∃ f, Cards E !! c = Some f ∧ is_Some (byColor !! Card.color_identity f))
  ∧ (∀ col bag c, byColor !! col = Some bag →
       bag !! c = commons !! c ≫= color_filter E col c).

(** A generator state without a land slot whose bags by colour, when colours
    are balanced, mirror the common bag. *)
Definition stocked (E : Env) (balance : bool) (st : GenSt) : Prop :=
  (balance = true → synced E (lc st common) (commonsByColor st))
  ∧ land st = None.

(** The text of the message [generateBoosters] sends when a bag is short:
    the count of the first bag found short, in the order commons, uncommons,
    rares and mythics. *)
Definition shortage_text (maxRarity : string) (boosterQuantity : Z)
    (buckets : Rarity → gmap string Z) : string :=
  let targets := targets_of maxRarity in
  if count_cards (buckets common) <? t_common targets * boosterQuantity then
    not_enough (count_cards (buckets common)) (t_common targets * boosterQuantity) "commons"
  else if count_cards (buckets uncommon) <? t_uncommon targets * boosterQuantity then
    not_enough (count_cards (buckets uncommon)) (t_uncommon targets * boosterQuantity)
      "uncommons"
  else
    not_enough (count_cards (buckets rare) + count_cards (buckets mythic))
      (t_rare targets * boosterQuantity) "rares & mythics".

(** From a generator state satisfying [P], whenever [m] returns, its result
    and the state it leaves satisfy [Q]. *)
Definition triple {A} (P : GenSt → Prop) (m : SM GenSt A) (Q : A → GenSt → Prop) : Prop :=
  ∀ st a st', P st → m st = Ret (a, st') → Q a st'.

End BoosterSpec.

(** The state in which [startDraft] calls [generateBoosters]. *)
Module StartSpec.

Definition before_generation (instances : list Bot.t) (o : list (Target * Event)) (st : St)
  : St :=
  {| sess := Session.set_botsInstances (Some instances)
               (Session.set_disconnectedUsers [] (Session.set_drafting true (sess st)));
     conns := conns st; out := out st ++ o; rng := rng st |}.

Definition boosterQuantity (s : Session.t) : Z :=
  (Z.of_nat (length (Session.users s)) + Session.bots s) * Session.boostersPerPlayer s.

End StartSpec.

(** ** Notions used for the seating, the timer and the end of a draft *)

Module Seating.
Import Session SessionOps.

(** The computation leaves the part [f] of the session object alone whenever
    it returns. *)
Definition keeps_field {F A} (f : t → F) (m : M A) : Prop :=
  ∀ st a st', m st = Ret (a, st') → f (sess st') = f (sess st).

(** The users [forUsers] runs over: the owner first when they do not play
    and are connected, then the members of [users]. *)
Definition audience (st : St) : list string :=
  (if negb (ownerIsPlayer (sess st)) && bool_decide (is_Some (conns st !! owner (sess st)))
   then [owner (sess st)] else [])
  ++ users (sess st).

(** Every member of the session has a seat in [userOrder]. *)
Definition seated (s : t) : Prop := Forall (λ u, u ∈ userOrder s) (users s).

(** The operations that change the membership or the seating. *)
Inductive Op : Type :=
| Join (userID : string)
| Leave (userID : string)
| Seat (seating : list string)
| Shuffle.

Definition run (op : Op) : M unit :=
  match op with
  | Join u => addUser u
  | Leave u => remUser u
  | Seat seating => setSeating seating ;;; ret tt
  | Shuffle => randomizeSeating ;;; ret tt
  end.

(** [remUser] is meant for a member of the session. *)
Definition legal (op : Op) (s : t) : Prop :=
  match op with
  | Leave u => u ∈ users s
  | _ => True
  end.

(** The entry [remUser] writes in [disconnectedUsers]. *)
Definition saved (c : Conn.t) : Disc.t :=
  {| Disc.userName := Some (Conn.userName c);
     Disc.pickedThisRound := Conn.pickedThisRound c;
     Disc.pickedCards := Conn.pickedCards c;
     Disc.boosterIndex := Conn.boosterIndex c;
     Disc.bot := None |}.

End Seating.

Module Seats.
Import Session SessionOps.

(** The seats in the order [getSortedVirtualPlayers] builds them when no
    identifier is used twice: the human and the bot of rank 0, those of rank
    1, and so on, until both lists are used up. *)
Fixpoint bots_from (idx : nat) (bs : list Bot.t) : list (string * VirtualPlayer) :=
  match bs with
  | [] => []
  | b :: bs' => (Bot.id b, BotSeat idx) :: bots_from (S idx) bs'
  end.

Fixpoint alternate (human : string → VirtualPlayer) (hs : list string) (bs : list Bot.t)
    (idx : nat) : list (string * VirtualPlayer) :=
  match hs with
  | [] => bots_from idx bs
  | h :: hs' =>
      (h, human h)
      :: match bs with
         | [] => alternate human hs' [] (S idx)
         | b :: bs' => (Bot.id b, BotSeat idx) :: alternate human hs' bs' (S idx)
         end
  end.

(** The step of the loop of [getSortedVirtualPlayers] at rank [idx]. *)
Definition seat_step (human : string → VirtualPlayer) (hs : list string) (bs : list Bot.t)
    (tmp : list (string * VirtualPlayer)) (idx : nat) : list (string * VirtualPlayer) :=
  let tmp := match hs !! idx with
             | Some userID => JS.obj_set userID (human userID) tmp
             | None => tmp
             end in
  match bs !! idx with
  | Some bot => JS.obj_set (Bot.id bot) (BotSeat idx) tmp
  | None => tmp
  end.

(** The seats of rank [k]: the human, then the bot. *)
Definition rank_seats (human : string → VirtualPlayer) (hs : list string) (bs : list Bot.t)
    (k : nat) : list (string * VirtualPlayer) :=
  option_list ((λ h, (h, human h)) <$> hs !! k)
  ++ option_list ((λ b, (Bot.id b, BotSeat k)) <$> bs !! k).

(** The [isBot: false] entry of a human player. *)
Definition human_seat (s : t) (userID : string) : VirtualPlayer :=
  Human (JS.obj_has userID (disconnectedUsers s)).

(** The bots of the session ([botsInstances] is undefined before the first
    draft). *)
Definition instances (s : t) : list Bot.t := default [] (botsInstances s).

(** What a seat of the table stands for: a human player of the session with
    its [disconnected] flag, or a bot of [botsInstances] under its identifier. *)
Definition sound (s : t) (seat : string * VirtualPlayer) : Prop :=
  match seat.2 with
  | Human d => d = JS.obj_has seat.1 (disconnectedUsers s) ∧ seat.1 ∈ getSortedHumanPlayers s
  | BotSeat idx => ∃ b, botsInstances s ≫= (λ l, l !! idx) = Some b ∧ Bot.id b = seat.1
  end.

End Seats.

Module EndSpec.
Import Session SessionOps.

(** The cards [endDraft] records for a seat: the picks of the bot, of the
    disconnected player, or of the connected player. *)
Definition cards_of (st : St) (seat : string * VirtualPlayer) : option (list string) :=
  match seat.2 with
  | BotSeat idx => Bot.cards <$> (botsInstances (sess st) ≫= (λ l, l !! idx))
  | Human true => Disc.pickedCards <$> JS.obj_get seat.1 (disconnectedUsers (sess st))
  | Human false => Conn.pickedCards <$> conns st !! seat.1
  end.

(** Who is sent the draft log, and whether it is marked as delayed. *)
Definition log_events (st : St) (log : option Log.t) : list (Target * Event) :=
  let s := sess st in
  if String.eqb (draftLogRecipients s) "none" then []
  else if String.eqb (draftLogRecipients s) "owner"
  then [(ToUser (owner s), EvDraftLog false log)]
  else if String.eqb (draftLogRecipients s) "everyone"
  then (λ u, (ToUser u, EvDraftLog false log)) <$> Seating.audience st
  else [(ToUser (owner s), EvDraftLog true log)].

(** The owner has to be reachable when the log goes to them alone. *)
Definition owner_reachable (st : St) : Prop :=
  String.eqb (draftLogRecipients (sess st)) "none" = false →
  String.eqb (draftLogRecipients (sess st)) "everyone" = false →
  is_Some (conns st !! owner (sess st)).

End EndSpec.

(** The table at which a pick is made. *)
Module PickTable.
Import Session SessionOps.

(** What every user is told of a pick. *)
Definition told (userID : string) (st : St) : list (Target * Event) :=
  (λ u, (ToUser u, EvUpdateUserPickedThisRound userID)) <$> Seating.audience st.

(** A table at which [nextBooster] can close a round: every seat is held by
    a connected human, the draft log knows every seat, and the owner can be
    sent the log. *)
Definition ready (st : St) (l : Log.t) : Prop :=
  Forall (Rotation.connected_seat (conns st)) (getSortedVirtualPlayers (sess st))
  ∧ (∀ seat, seat ∈ getSortedVirtualPlayers (sess st) →
       is_Some (JS.obj_get seat.1 (Log.users l)))
  ∧ EndSpec.owner_reachable st.

End PickTable.

Module BracketSpec.
Import Bracket.

(** The names that stand for a player: the places left free hold [""]. *)
Definition real (names : list string) : list string := filter (λ n, n ≠ "") names.

(** What a place fed by the players [names] may hold: nothing when none of
    them is real, one of the real ones, or a pending result, which takes two
    real players at least. *)
Definition fed_by (names : list string) (s : Slot) : Prop :=
  match s with
  | Player n => n ∈ real names
  | Empty => real names = []
  | TBD => (2 ≤ length (real names))%nat
  end.

(** The same when no score separates two players: only a player without
    any opponent moves on. *)
Definition unopposed (names : list string) (s : Slot) : Prop :=
  match s with
  | Player n => real names = [n]
  | Empty => real names = []
  | TBD => (2 ≤ length (real names))%nat
  end.

(** No match has a decisive score. *)
Definition undecided (b : t) : Prop :=
  ∀ rs i r0 r1, results b = Some rs → rs !! i = Some (r0, r1) → r0 = r1.

End BracketSpec.

Module WinstonTurn.

(** The pile a Winston player is offered first: the first of the three piles
    that holds a card; 3 when none does. *)
Definition offered (p0 p1 p2 : list string) : Z :=
  if bool_decide (p0 ≠ []) then 0
  else if bool_decide (p1 ≠ []) then 1
  else if bool_decide (p2 ≠ []) then 2
  else 3.

(** The state after [winstonNextRound] moved on to the next round. *)
Definition next (w : Winston.t) (p0 p1 p2 : list string) : Winston.t :=
  Winston.set_currentPile (offered p0 p1 p2) (Winston.set_round (Winston.round w + 1) w).

End WinstonTurn.

(** * Properties *)

(** ** Computations that only send events *)

(** Unfolds the monad and its primitive operations. *)
Ltac munfold :=
  repeat (progress (unfold bind, ret, throw, stuck, get_sess, modify_sess, get_conns,
                    put_conns, push_out, with_rng, conn_of, modify_conn, emit;
                    cbv beta iota)).

Ltac wunfold :=
  repeat (progress (unfold bind, ret, throw, stuck, Server.get_world, Server.put_connections,
                    Server.put_sessions, Server.wpush, Server.wrandom, Server.wconn,
                    Server.wmodify_conn, Server.wemit, Server.wsession;
                    cbv beta iota;
                    cbn [Server.Connections Server.Sessions Server.outbox Server.wrng])).

Section FrameFacts.
Import Frame.

Lemma add_out_nil st : add_out [] st = st.
Proof. unfold add_out. rewrite app_nil_r. by destruct st. Qed.

Lemma add_out_app o1 o2 st : add_out o2 (add_out o1 st) = add_out (o1 ++ o2) st.
Proof. unfold add_out; simpl. by rewrite app_assoc. Qed.

Lemma emits_only_ret C : emits_only C (ret tt).
Proof. intros st _. exists []. unfold ret. by rewrite add_out_nil. Qed.

Lemma emits_only_emit C u e : is_Some (C !! u) → emits_only C (emit u e).
Proof.
  intros [c Hc] st <-. exists [(ToUser u, e)].
  unfold emit, conn_of, bind, get_conns, push_out, ret. by rewrite Hc.
Qed.

Lemma emits_only_bind C (m k : M unit) :
  emits_only C m → emits_only C k → emits_only C (m ;;; k).
Proof.
  intros Hm Hk st HC. destruct (Hm st HC) as [o1 E1].
  destruct (Hk (add_out o1 st)) as [o2 E2]; [done|].
  exists (o1 ++ o2). unfold bind. rewrite E1, E2. by rewrite add_out_app.
Qed.

Lemma emits_only_forM {A} C (l : list A) (f : A → M unit) :
  (∀ x, x ∈ l → emits_only C (f x)) → emits_only C (forM_ l f).
Proof.
  induction l as [|x l IH]; intros H; simpl.
  - apply emits_only_ret.
  - apply emits_only_bind; [apply H; left | apply IH; intros y Hy; apply H; by right].
Qed.

Lemma forUsers_emits st (fn : string → M unit) :
  (∀ u, is_Some (conns st !! u) → emits_only (conns st) (fn u)) →
  (∀ u, u ∈ Session.users (sess st) → emits_only (conns st) (fn u)) →
  ∃ o, SessionOps.forUsers fn st = Ret (tt, add_out o st).
Proof.
  intros Hown Hus. unfold SessionOps.forUsers.
  unfold bind at 1. unfold get_sess. unfold bind at 1. unfold get_conns.
  refine (emits_only_bind (conns st) _ _ _ _ st eq_refl).
  - destruct (negb _ && _) eqn:Hc; [| apply emits_only_ret].
    apply andb_true_iff in Hc as [_ Hc]. apply bool_decide_eq_true in Hc.
    by apply Hown.
  - apply emits_only_forM. intros u Hu. by apply Hus.
Qed.

Lemma notifyUserChange_emits st :
  ∃ o, SessionOps.notifyUserChange st = Ret (tt, add_out o st).
Proof.
  unfold SessionOps.notifyUserChange.
  unfold bind at 1. unfold get_sess. unfold bind at 1. unfold get_conns.
  apply forUsers_emits.
  - intros u Hu. rewrite bool_decide_eq_true_2 by done.
    apply emits_only_bind; by apply emits_only_emit.
  - intros u _. case_bool_decide as Hu; [| apply emits_only_ret].
    apply emits_only_bind; by apply emits_only_emit.
Qed.

End FrameFacts.

(** ** Computations that only touch the timer and send events *)

Section SteadyFacts.
Import Frame Session.

Lemma timer_erase_users s s' : timer_erase s' = timer_erase s → users s' = users s.
Proof. intros H. by apply (f_equal users) in H. Qed.

Lemma steady_ret : steady (ret tt).
Proof. intros st _. exists st. repeat split; try done. exists []. by rewrite app_nil_r. Qed.

Lemma steady_bind (m k : M unit) : steady m → steady k → steady (m ;;; k).
Proof.
  intros Hm Hk st Hst. destruct (Hm st Hst) as (st1 & E1 & Hc1 & Hr1 & Hs1 & o1 & Ho1).
  destruct (Hk st1) as (st2 & E2 & Hc2 & Hr2 & Hs2 & o2 & Ho2).
  { intros u Hu. rewrite Hc1. apply Hst. by rewrite <- (timer_erase_users _ _ Hs1). }
  exists st2. unfold bind. rewrite E1, E2. repeat split; try congruence.
  exists (o1 ++ o2). rewrite Ho2, Ho1. by rewrite app_assoc.
Qed.

Lemma steady_modify_timer (f : Session.t → Session.t) :
  (∀ s, timer_erase (f s) = timer_erase s) → steady (modify_sess f).
Proof.
  intros Hf st _. eexists. split; [reflexivity|]. simpl. repeat split; try done.
  exists []. by rewrite app_nil_r.
Qed.

Lemma steady_emits (m : M unit) :
  (∀ st, users_connected st → ∃ o, m st = Ret (tt, add_out o st)) → steady m.
Proof.
  intros H st Hst. destruct (H st Hst) as [o ->].
  eexists. split; [reflexivity|]. simpl. repeat split; try done. by exists o.
Qed.

Lemma steady_forUsers_emit (ev : string → Event) :
  steady (SessionOps.forUsers (λ u, emit u (ev u))).
Proof.
  apply steady_emits. intros st Hst. apply forUsers_emits.
  - intros u Hu. by apply emits_only_emit.
  - intros u Hu. apply emits_only_emit. by apply Hst.
Qed.

Lemma steady_emitMessage title text b t : steady (SessionOps.emitMessage title text b t).
Proof. apply (steady_forUsers_emit (λ _, EvMessage title text (Some b) (Some t))). Qed.

Lemma steady_broadcastDisconnectedUsers : steady SessionOps.broadcastDisconnectedUsers.
Proof.
  intros st Hst. unfold SessionOps.broadcastDisconnectedUsers, bind at 1, get_sess.
  by apply (steady_forUsers_emit (λ _, EvUserDisconnected _)).
Qed.

Lemma steady_stopCountdown : steady SessionOps.stopCountdown.
Proof. by apply steady_modify_timer. Qed.

Lemma steady_resumeCountdown : steady SessionOps.resumeCountdown.
Proof.
  unfold SessionOps.resumeCountdown. apply steady_bind; [apply steady_stopCountdown|].
  intros st Hst. unfold bind at 1, get_sess. destruct (maxTimer (sess st) <=? 0).
  - by apply (steady_forUsers_emit (λ _, EvDisableTimer)).
  - apply steady_bind; [apply (steady_forUsers_emit (λ _, EvTimer _)) | | done].
    by apply steady_modify_timer.
Qed.

Lemma steady_startCountdown : steady SessionOps.startCountdown.
Proof.
  intros st Hst. unfold SessionOps.startCountdown, bind at 1, get_sess.
  apply steady_bind; [by apply steady_modify_timer | apply steady_resumeCountdown | done].
Qed.

Lemma steady_resumeDraft : steady Draft.resumeDraft.
Proof.
  intros st Hst. unfold Draft.resumeDraft, bind at 1, get_sess.
  apply steady_bind; [apply (steady_forUsers_emit (λ _, EvSessionOptionsVirtualPlayers _)) | | done].
  apply steady_bind; [| apply steady_emitMessage].
  case_bool_decide; [apply steady_resumeCountdown | apply steady_ret].
Qed.

End SteadyFacts.

(** ** Objects used as dictionaries *)

Section ObjectFacts.
Context {V : Type}.
Implicit Types (k : string) (v : V) (o : list (string * V)).

Lemma obj_has_true k o : JS.obj_has k o = true ↔ k ∈ JS.obj_keys o.
Proof. unfold JS.obj_has. apply bool_decide_eq_true. Qed.

Lemma obj_has_false k o : JS.obj_has k o = false ↔ k ∉ JS.obj_keys o.
Proof. unfold JS.obj_has. apply bool_decide_eq_false. Qed.

Lemma obj_get_None k o : k ∉ JS.obj_keys o → JS.obj_get k o = None.
Proof.
  unfold JS.obj_keys. induction o as [|[k' v'] o IH]; simpl; [done|].
  intros [Hne H]%not_elem_of_cons. rewrite bool_decide_eq_false_2 by done. by apply IH.
Qed.

Lemma obj_get_Some k o : k ∈ JS.obj_keys o → is_Some (JS.obj_get k o).
Proof.
  unfold JS.obj_keys. induction o as [|[k' v'] o IH]; simpl.
  - by intros ?%elem_of_nil.
  - intros H. case_bool_decide as Hk; [by eexists|].
    apply IH. apply elem_of_cons in H as [->|H]; done.
Qed.

Lemma obj_has_get k o : JS.obj_has k o = true → ∃ v, JS.obj_get k o = Some v.
Proof. intros H%obj_has_true. by apply obj_get_Some. Qed.

Lemma obj_has_false_get k o : JS.obj_has k o = false → JS.obj_get k o = None.
Proof. intros H%obj_has_false. by apply obj_get_None. Qed.

Lemma obj_has_delete k o : JS.obj_has k (JS.obj_delete k o) = false.
Proof.
  apply bool_decide_eq_false. unfold JS.obj_keys, JS.obj_delete.
  rewrite list_elem_of_fmap. intros ([k' v] & -> & H).
  apply list_elem_of_filter in H as [H _]. by apply H.
Qed.

(** *** Writing a property the object has *)

Lemma obj_put_keys k v o : JS.obj_keys (JS.obj_put k v o) = JS.obj_keys o.
Proof.
  unfold JS.obj_keys. induction o as [|[k' v'] o IH]; [done|].
  cbn [JS.obj_put]. case_bool_decide as Hk; rewrite !fmap_cons; cbn [fst].
  - by subst k'.
  - by rewrite IH.
Qed.

Lemma obj_put_get k v o : k ∈ JS.obj_keys o → JS.obj_get k (JS.obj_put k v o) = Some v.
Proof.
  unfold JS.obj_keys. induction o as [|[k' v'] o IH]; simpl.
  - by intros ?%elem_of_nil.
  - intros H. case_bool_decide as Hk; simpl.
    + by rewrite bool_decide_eq_true_2.
    + rewrite bool_decide_eq_false_2 by done. apply IH.
      apply elem_of_cons in H as [->|H]; done.
Qed.

Lemma obj_put_other k k' v o : k' ≠ k → JS.obj_get k' (JS.obj_put k v o) = JS.obj_get k' o.
Proof.
  intros Hne. induction o as [|[k0 v0] o IH]; simpl; [done|].
  case_bool_decide as H; simpl.
  - subst k0. by rewrite !bool_decide_eq_false_2.
  - case_bool_decide; [done | apply IH].
Qed.

Lemma obj_put_Forall (P : string * V → Prop) k v o :
  P (k, v) → Forall P o → Forall P (JS.obj_put k v o).
Proof.
  intros Hkv. induction o as [|[k' v'] o IH]; intros Ho; simpl; [done|].
  apply Forall_cons in Ho as [Hk Ho]. case_bool_decide; apply Forall_cons; auto.
Qed.

(** *** Creating a property *)

Lemma obj_add_perm k v o : JS.obj_add k v o ≡ₚ (k, v) :: o.
Proof.
  induction o as [|[k' v'] o IH]; simpl; [done|].
  destruct (JS.listed_before k k'); [done|]. rewrite IH. apply perm_swap.
Qed.

Lemma obj_add_keys k v o : JS.obj_keys (JS.obj_add k v o) ≡ₚ k :: JS.obj_keys o.
Proof. unfold JS.obj_keys. by rewrite obj_add_perm. Qed.

Lemma obj_add_get k v o : k ∉ JS.obj_keys o → JS.obj_get k (JS.obj_add k v o) = Some v.
Proof.
  unfold JS.obj_keys. induction o as [|[k' v'] o IH]; simpl.
  - intros _. by rewrite bool_decide_eq_true_2.
  - intros [Hne H]%not_elem_of_cons. destruct (JS.listed_before k k'); simpl.
    + by rewrite bool_decide_eq_true_2.
    + rewrite bool_decide_eq_false_2 by done. by apply IH.
Qed.

Lemma obj_add_other k k' v o : k' ≠ k → JS.obj_get k' (JS.obj_add k v o) = JS.obj_get k' o.
Proof.
  intros Hne. induction o as [|[k0 v0] o IH]; simpl.
  - by rewrite bool_decide_eq_false_2.
  - destruct (JS.listed_before k k0); simpl.
    + by rewrite (bool_decide_eq_false_2 (k = k')).
    + case_bool_decide; [done | apply IH].
Qed.

Lemma obj_add_delete k v o : k ∉ JS.obj_keys o → JS.obj_delete k (JS.obj_add k v o) = o.
Proof.
  unfold JS.obj_keys, JS.obj_delete. induction o as [|[k' v'] o IH]; simpl.
  - intros _. rewrite filter_cons, decide_False by (simpl; intros H; by apply H). done.
  - intros [Hne H]%not_elem_of_cons.
    assert (filter (λ kv : string * V, kv.1 ≠ k) o = o) as Ho.
    { clear -H. induction o as [|[k0 v0] o IH]; [done|].
      simpl in H. apply not_elem_of_cons in H as [Hne H].
      rewrite filter_cons, decide_True by (simpl; congruence). f_equal. by apply IH. }
    destruct (JS.listed_before k k').
    + rewrite filter_cons, decide_False by (simpl; intros H0; by apply H0).
      rewrite filter_cons, decide_True by (simpl; congruence). by rewrite Ho.
    + rewrite filter_cons, decide_True by (simpl; congruence). f_equal. by apply IH.
Qed.

(** A key that is not an array index goes to the end. *)
Lemma listed_before_other k k' : JS.array_index k = None → JS.listed_before k k' = false.
Proof. unfold JS.listed_before. by intros ->. Qed.

Lemma obj_add_last k v o : JS.array_index k = None → JS.obj_add k v o = o ++ [(k, v)].
Proof.
  intros Hk. induction o as [|[k' v'] o IH]; simpl; [done|].
  rewrite listed_before_other by done. by rewrite IH.
Qed.

(** *** [o[k] = v] *)

Lemma obj_get_set k v o : JS.obj_get k (JS.obj_set k v o) = Some v.
Proof.
  unfold JS.obj_set. destruct (JS.obj_has k o) eqn:H.
  - apply obj_put_get. by apply obj_has_true.
  - apply obj_add_get. by apply obj_has_false.
Qed.

Lemma obj_set_other k k' v o : k' ≠ k → JS.obj_get k' (JS.obj_set k v o) = JS.obj_get k' o.
Proof.
  intros Hne. unfold JS.obj_set. destruct (JS.obj_has k o).
  - by apply obj_put_other.
  - by apply obj_add_other.
Qed.

Lemma obj_get_is_Some_set k k' v o :
  is_Some (JS.obj_get k' o) → is_Some (JS.obj_get k' (JS.obj_set k v o)).
Proof.
  intros H. destruct (decide (k' = k)) as [->|Hne].
  - rewrite obj_get_set. by eexists.
  - by rewrite obj_set_other.
Qed.

Lemma obj_set_Forall (P : string * V → Prop) k v o :
  P (k, v) → Forall P o → Forall P (JS.obj_set k v o).
Proof.
  intros Hkv Ho. unfold JS.obj_set. destruct (JS.obj_has k o).
  - by apply obj_put_Forall.
  - rewrite obj_add_perm. by apply Forall_cons.
Qed.

(** The keys after [o[k] = v]: those of [o], and [k] when it is new. *)
Lemma obj_set_keys k v o :
  JS.obj_keys (JS.obj_set k v o)
  ≡ₚ if JS.obj_has k o then JS.obj_keys o else k :: JS.obj_keys o.
Proof.
  unfold JS.obj_set. destruct (JS.obj_has k o).
  - by rewrite obj_put_keys.
  - apply obj_add_keys.
Qed.

Lemma obj_set_keys_new k v o :
  k ∉ JS.obj_keys o → JS.obj_keys (JS.obj_set k v o) ≡ₚ k :: JS.obj_keys o.
Proof.
  intros H. rewrite obj_set_keys. by rewrite (proj2 (obj_has_false k o)).
Qed.

Lemma obj_keys_set k v o (x : string) :
  x ∈ JS.obj_keys (JS.obj_set k v o) ↔ x = k ∨ x ∈ JS.obj_keys o.
Proof.
  rewrite obj_set_keys. destruct (JS.obj_has k o) eqn:H.
  - apply obj_has_true in H. split; [by right | by intros [->|?]].
  - by rewrite elem_of_cons.
Qed.

Lemma obj_set_keys_length k v o :
  k ∉ JS.obj_keys o → length (JS.obj_keys (JS.obj_set k v o)) = S (length (JS.obj_keys o)).
Proof. intros H. by rewrite (obj_set_keys_new k v o H). Qed.

Lemma obj_set_keys_NoDup k v o :
  NoDup (JS.obj_keys o) → NoDup (JS.obj_keys (JS.obj_set k v o)).
Proof.
  intros Hnd. rewrite obj_set_keys. destruct (JS.obj_has k o) eqn:H; [done|].
  apply NoDup_cons. split; [|done]. by apply obj_has_false.
Qed.

Lemma obj_set_new k v o : k ∉ JS.obj_keys o → JS.obj_set k v o ≡ₚ (k, v) :: o.
Proof.
  intros H. unfold JS.obj_set. rewrite (proj2 (obj_has_false k o)) by done.
  apply obj_add_perm.
Qed.

(** A new key that is not an array index is listed last. *)
Lemma obj_set_fresh k v o :
  JS.array_index k = None → k ∉ JS.obj_keys o → JS.obj_set k v o = o ++ [(k, v)].
Proof.
  intros Hk H. unfold JS.obj_set. rewrite (proj2 (obj_has_false k o)) by done.
  by apply obj_add_last.
Qed.

(** Deleting a property just created gives the object back. *)
Lemma obj_delete_fresh k v o : k ∉ JS.obj_keys o → JS.obj_delete k (JS.obj_set k v o) = o.
Proof.
  intros H. unfold JS.obj_set. rewrite (proj2 (obj_has_false k o)) by done.
  by apply obj_add_delete.
Qed.

End ObjectFacts.

(** ** The identifiers drawn by [shortguid] *)

Section IdFacts.
Import Server Ids.

Lemma append_assoc (a b c : string) : (a +:+ b) +:+ c = a +:+ (b +:+ c).
Proof.
  induction a as [|x a IH]; [done|].
  change (String x ((a +:+ b) +:+ c) = String x (a +:+ (b +:+ c))). by f_equal.
Qed.

Lemma append_nil_l (a : string) : "" +:+ a = a.
Proof. done. Qed.

Lemma hex_digit_single (n : Z) : ∃ a, hex_digit n = String a "".
Proof.
  unfold hex_digit. destruct n as [|p|p]; [by eexists | | by eexists].
  do 4 (destruct p as [p|p|]; try by eexists).
Qed.

Lemma sample_range g : 0 <= sample g < RAND_DEN.
Proof. unfold sample, RAND_DEN. apply Z.mod_pos_bound. lia. Qed.

(** The double [1 + r] lies in [[1, 2]]. *)
Lemma to_double_one_plus (r : Z) :
  0 <= r < 2 ^ 53 → 2 ^ 53 <= to_double (2 ^ 53 + r) <= 2 ^ 54.
Proof.
  intros Hr. unfold to_double.
  rewrite (proj2 (Z.ltb_ge _ _)) by lia.
  rewrite (Z.log2_unique (2 ^ 53 + r) 53) by lia.
  change (2 ^ (53 - 52)) with 2. cbv zeta. unfold round_half_even. cbv zeta.
  change (2 ^ 53) with 9007199254740992 in *. change (2 ^ 54) with 18014398509481984.
  repeat match goal with |- context [if ?b then _ else _] => destruct b end;
    Z.div_mod_to_equations; lia.
Qed.

(** The five hexadecimal digits of a number from [0x10000] to [0xfffff]. *)
Lemma hex_of_five (fuel : nat) (n : Z) :
  65536 <= n < 1048576 →
  hex_of (S (S (S (S (S fuel))))) n = hex_digit (n / 65536) +:+ hex4 (n `mod` 65536).
Proof.
  intros Hn. cbn [hex_of].
  rewrite (proj2 (Z.eqb_neq (n / 16) 0)) by (Z.div_mod_to_equations; lia).
  rewrite (proj2 (Z.eqb_neq (n / 16 / 16) 0)) by (Z.div_mod_to_equations; lia).
  rewrite (proj2 (Z.eqb_neq (n / 16 / 16 / 16) 0)) by (Z.div_mod_to_equations; lia).
  rewrite (proj2 (Z.eqb_neq (n / 16 / 16 / 16 / 16) 0)) by (Z.div_mod_to_equations; lia).
  rewrite (proj2 (Z.eqb_eq (n / 16 / 16 / 16 / 16 / 16) 0)) by (Z.div_mod_to_equations; lia).
  unfold hex4. rewrite !append_assoc, append_nil_l.
  replace ((n / 16 / 16 / 16 / 16) `mod` 16) with (n / 65536)
    by (Z.div_mod_to_equations; lia).
  replace ((n / 16 / 16 / 16) `mod` 16) with (n `mod` 65536 / 4096)
    by (Z.div_mod_to_equations; lia).
  replace ((n / 16 / 16) `mod` 16) with ((n `mod` 65536 / 256) `mod` 16)
    by (Z.div_mod_to_equations; lia).
  replace ((n / 16) `mod` 16) with ((n `mod` 65536 / 16) `mod` 16)
    by (Z.div_mod_to_equations; lia).
  replace (n `mod` 16) with ((n `mod` 65536) `mod` 16)
    by (Z.div_mod_to_equations; lia).
  done.
Qed.

Lemma toString16_five (n : Z) :
  65536 <= n < 1048576 →
  toString16 n = hex_digit (n / 65536) +:+ hex4 (n `mod` 65536).
Proof.
  intros Hn. unfold toString16.
  assert (16 <= Z.log2 n) as Hlog.
  { change 16 with (Z.log2 65536). apply Z.log2_le_mono. lia. }
  destruct (Z.to_nat (Z.log2 n)) as [|[|[|[|fuel]]]] eqn:Hf; try lia.
  by apply hex_of_five.
Qed.

(** [s4] spells the number it draws with four hexadecimal digits. *)
Lemma s4_spelled (g : Rng) : s4 g = (hex4 (drawn g), advance g).
Proof.
  unfold s4, drawn. cbv zeta. f_equal.
  pose proof (sample_range g) as Hs. unfold RAND_DEN in *.
  pose proof (to_double_one_plus (sample g) Hs) as Hx.
  set (x := to_double (2 ^ 53 + sample g)) in *.
  rewrite toString16_five.
  - destruct (hex_digit_single (x * 65536 / 2 ^ 53 / 65536)) as [a ->]. done.
  - change (2 ^ 53) with 9007199254740992 in *. change (2 ^ 54) with 18014398509481984 in *.
    Z.div_mod_to_equations. lia.
Qed.

(** [shortguid] spells three draws, one after the other. *)
Lemma shortguid_spelled (g : Rng) :
  shortguid g = (spelled g, advance (advance (advance g))).
Proof. unfold shortguid, spelled. by rewrite !s4_spelled. Qed.

End IdFacts.

(** ** Leaving a session ([removeUserFromSession]) *)

Section ServerFacts.
Import Frame Server Session.

Lemma with_session_modify sid s f w :
  Sessions w !! sid = Some s →
  with_session sid (modify_sess f) w = Ret (tt, with_sessions (<[sid := f s]> (Sessions w)) w).
Proof. intros H. unfold with_session, modify_sess. by rewrite H. Qed.

Lemma with_session_notify sid s w :
  Sessions w !! sid = Some s →
  ∃ o, with_session sid SessionOps.notifyUserChange w = Ret (tt, wadd_out o w).
Proof.
  intros H. unfold with_session. rewrite H.
  destruct (notifyUserChange_emits
              {| sess := s; conns := Connections w; out := outbox w; rng := wrng w |})
    as [o ->].
  exists o. simpl. unfold wadd_out. by rewrite insert_id.
Qed.

Lemma set_delete_elem x y l : x ∈ JS.set_delete y l ↔ x ∈ l ∧ x ≠ y.
Proof. unfold JS.set_delete. by rewrite list_elem_of_filter, (comm and). Qed.

Lemma without_user_users userID c s :
  users (without_user userID c s) = JS.set_delete userID (users s).
Proof. unfold without_user. by destruct (drafting s). Qed.

Lemma without_user_owner userID c s : owner (without_user userID c s) = owner s.
Proof. unfold without_user. by destruct (drafting s). Qed.

Lemma without_user_isPublic userID c s : isPublic (without_user userID c s) = isPublic s.
Proof. unfold without_user. by destruct (drafting s). Qed.

(** What [removeUserFromSession] does to the world when [userID] is a member
    of the session their connection names. *)
Lemma removeUserFromSession_result (w : World) (userID : string) (c : Conn.t)
    (sess : Session.t) :
  Connections w !! userID = Some c →
  Sessions w !! key_of (Conn.sessionID c) = Some sess →
  userID ∈ users sess →
  let sid := key_of (Conn.sessionID c) in
  let w1 := with_connections (<[userID := Conn.set_sessionID None c]> (Connections w)) w in
  ∃ o, removeUserFromSession userID w = Ret (tt,
    match JS.set_delete userID (users sess) with
    | [] =>
        let w2 := with_sessions (delete sid (Sessions w)) w1 in
        wadd_out (if isPublic sess
                  then [(ToAll, EvPublicSessions (getPublicSessions w2))] else []) w2
    | _ :: _ =>
        wadd_out o
          (with_sessions
             (<[sid := handed_over userID (without_user userID c sess)]> (Sessions w)) w1)
    end).
Proof.
  intros Hc Hs Hin sid w1. subst w1. fold sid in Hs.
  unfold removeUserFromSession.
  unfold bind at 1. unfold wconn at 1, bind at 1, get_world at 1. rewrite Hc. unfold ret at 1.
  unfold bind at 1. unfold get_world at 1. fold sid. rewrite Hs.
  rewrite bool_decide_eq_true_2 by done.
  unfold bind at 1.
  match goal with |- context [match ?m w with _ => _ end] =>
    assert (m w = Ret (tt, with_sessions
              (<[sid := if drafting sess
                        then set_disconnectedUsers
                               (JS.obj_set userID (snapshot c) (disconnectedUsers sess))
                               (set_timerRunning false sess)
                        else sess]> (Sessions w)) w)) as E1 end.
  { destruct (drafting sess).
    - unfold bind at 1. unfold SessionOps.stopCountdown.
      rewrite (with_session_modify _ sess) by done.
      rewrite (with_session_modify _ (set_timerRunning false sess))
        by (cbn; apply lookup_insert_eq).
      unfold with_sessions; cbn. by rewrite insert_insert_eq.
    - unfold ret, with_sessions. rewrite insert_id by done. by destruct w. }
  rewrite E1. clear E1.
  unfold bind at 1.
  erewrite with_session_modify by (cbn; apply lookup_insert_eq).
  cbn [Sessions with_sessions]. rewrite insert_insert_eq.
  change (set_users _ _) with (without_user userID c sess).
  unfold bind at 1. unfold wmodify_conn, bind at 1, wconn, bind at 1, get_world at 1.
  cbn [Connections with_sessions]. rewrite Hc. unfold ret at 1.
  unfold bind at 1, get_world at 1, put_connections.
  cbn [Connections Sessions outbox wrng with_sessions].
  unfold bind at 1, get_world at 1.
  unfold bind at 1, wsession, bind at 1, get_world at 1. cbn [Sessions key_of default].
  rewrite lookup_insert_eq. unfold ret at 1.
  rewrite without_user_users.
  destruct (JS.set_delete userID (users sess)) as [|first remaining] eqn:Hrem.
  - (* the session is deleted *)
    exists []. rewrite (bool_decide_eq_true_2 (length (@nil string) = 0%nat)) by done.
    unfold bind at 1, put_sessions. cbn [Connections Sessions outbox wrng].
    rewrite delete_insert_eq.
    rewrite without_user_isPublic.
    destruct (isPublic sess).
    + unfold bind, get_world, wpush. done.
    + unfold ret, wadd_out, with_sessions, with_connections. cbn. by rewrite app_nil_r.
  - (* the session survives *)
    rewrite (bool_decide_eq_false_2 (length (first :: remaining) = 0%nat)) by done.
    unfold bind at 1.
    match goal with |- context [match ?m ?w2 with _ => _ end] =>
      assert (m w2 = Ret (tt, with_sessions
                (<[sid := handed_over userID (without_user userID c sess)]> (Sessions w)) w2))
        as E3 end.
    { unfold handed_over. rewrite without_user_users, Hrem. case_bool_decide as Ho.
      - erewrite with_session_modify by (cbn; apply lookup_insert_eq).
        unfold with_sessions; cbn. by rewrite insert_insert_eq.
      - done. }
    rewrite E3. clear E3.
    edestruct with_session_notify as [o ->]; [cbn; apply lookup_insert_eq|].
    exists o. done.
Qed.

(** The ids [getPublicSessions] lists: every session that is public, once. *)
Lemma getPublicSessions_members (w : World) :
  NoDup (getPublicSessions w)
  ∧ ∀ sid, sid ∈ getPublicSessions w ↔ ∃ s, Sessions w !! sid = Some s ∧ isPublic s = true.
Proof.
  unfold getPublicSessions. split.
  - apply (sublist_NoDup _ (map_to_list (Sessions w)).*1).
    + apply NoDup_fst_map_to_list.
    + apply fmap_sublist, sublist_filter.
  - intros sid. rewrite list_elem_of_fmap. split.
    + intros ([k s0] & -> & [Hp Hin]%list_elem_of_filter).
      apply elem_of_map_to_list in Hin. by exists s0.
    + intros (s0 & Hs & Hp). exists (sid, s0). split; [done|].
      apply list_elem_of_filter. split; [done|]. by apply elem_of_map_to_list.
Qed.

(** C9: removing a member [userID] of a session has one of two outcomes.
    When no user remains, the session is deleted from [Sessions] and, if it
    was public, every connected client ([io.emit]) is sent the list of the
    public sessions: the ids of the sessions that are left and public, each
    once.  Otherwise the session survives with the remaining users; when the
    leaver was the owner, the first remaining user (in the iteration order of
    the [users] set) becomes the owner, so an owner that was a member of
    [users] before the removal is a member of [users] after it. *)
Theorem removeUserFromSession_outcome (w : World) (userID : string) (c : Conn.t)
    (sess : Session.t) :
  Connections w !! userID = Some c →
  Sessions w !! key_of (Conn.sessionID c) = Some sess →
  userID ∈ users sess →
  ∃ w', removeUserFromSession userID w = Ret (tt, w') ∧
    match JS.set_delete userID (users sess) with
    | [] =>
        Sessions w' = delete (key_of (Conn.sessionID c)) (Sessions w)
        ∧ if isPublic sess then
            ∃ l, outbox w' = outbox w ++ [(ToAll, EvPublicSessions l)]
              ∧ NoDup l
              ∧ ∀ sid, sid ∈ l ↔ ∃ s, Sessions w' !! sid = Some s ∧ isPublic s = true
          else outbox w' = outbox w
    | first :: remaining =>
        ∃ sess', Sessions w' !! key_of (Conn.sessionID c) = Some sess'
          ∧ users sess' = first :: remaining
          ∧ owner sess' = (if decide (owner sess = userID) then first else owner sess)
          ∧ (owner sess ∈ users sess → owner sess' ∈ users sess')
    end.
Proof.
  intros Hc Hs Hin.
  destruct (removeUserFromSession_result w userID c sess Hc Hs Hin) as [o E].
  cbv zeta in E. rewrite E. eexists. split; [done|].
  destruct (JS.set_delete userID (users sess)) as [|first remaining] eqn:Hrem.
  - split; [by destruct (isPublic sess)|]. destruct (isPublic sess).
    + match type of E with
      | context [getPublicSessions ?w2] =>
          exists (getPublicSessions w2); split; [done|];
          apply (getPublicSessions_members w2)
      end.
    + cbn. by rewrite app_nil_r.
  - eexists. split; [cbn; apply lookup_insert_eq|].
    assert (users (without_user userID c sess) = first :: remaining) as Hu
      by (by rewrite without_user_users).
    pose proof (without_user_owner userID c sess) as Ho.
    unfold handed_over. rewrite Hu, Ho.
    case_bool_decide as Hown.
    + rewrite decide_True by done. cbn [users owner set_owner]. rewrite Hu.
      split; [done|]. split; [done|]. intros _. left.
    + rewrite decide_False by done. rewrite Hu, Ho. split; [done|]. split; [done|].
      intros Howner. rewrite <- Hrem. by apply set_delete_elem.
Qed.

(** C9, at a concrete server with two public sessions: Alice, alone in "s",
    leaves; "s" is deleted and every client is sent a list of public sessions
    that names "t", the session of Bob, and no longer "s". *)
Lemma removeUserFromSession_outcome_witness :
  ∃ w' l, removeUserFromSession "alice" Examples.public_world = Ret (tt, w')
    ∧ Sessions w' !! "s" = None
    ∧ outbox w' = [(ToAll, EvPublicSessions l)]
    ∧ "t" ∈ l ∧ "s" ∉ l.
Proof.
  destruct (removeUserFromSession_outcome Examples.public_world "alice"
              (Examples.conn "alice" (Some "s")) Examples.solo_public)
    as (w' & E & Hs & l & Ho & _ & Hl); [reflexivity | reflexivity | | ].
  - vm_compute. apply list_elem_of_here.
  - exists w', l. split; [exact E|]. cbn [key_of default Conn.sessionID Examples.conn] in Hs.
    assert (Sessions w' !! "s" = None) as Hnone by (rewrite Hs; apply lookup_delete_eq).
    split; [exact Hnone|]. split; [exact Ho|]. split.
    + apply Hl. exists (Examples.public_session "t" "bob"). split; [|reflexivity].
      rewrite Hs. reflexivity.
    + intros (s0 & H0 & _)%Hl. by rewrite Hnone in H0.
Defined.

End ServerFacts.

(** ** Membership while drafting ([joinSession], [removeUserFromSession]) *)

Section MembershipFacts.
Import Frame Server Session.

Lemma modify_conn_ok u f c st :
  conns st !! u = Some c →
  modify_conn u f st = Ret (tt, with_conns (<[u := f c]> (conns st)) st).
Proof.
  intros H. munfold. by rewrite H.
Qed.

Lemma emit_ok u e c st :
  conns st !! u = Some c → emit u e st = Ret (tt, add_out [(ToUser u, e)] st).
Proof. intros H. munfold. by rewrite H. Qed.

Lemma indexOf_from_elem (x : string) (l : list string) i : x ∈ l → 0 ≤ i → 0 ≤ JS.findIndex_from (λ y, bool_decide (y = x)) l i.
Proof.
  revert i. induction l as [|y l IH]; intros i Hin Hi; [by apply elem_of_nil in Hin|].
  simpl. case_bool_decide; [done|]. apply IH; [|lia].
  apply elem_of_cons in Hin as [->|]; done.
Qed.

Lemma indexOf_elem (x : string) (l : list string) : x ∈ l → (JS.indexOf x l <? 0) = false.
Proof. intros H. apply Z.ltb_ge. by apply indexOf_from_elem. Qed.

Lemma set_add_elem (x : string) (l : list string) : x ∈ JS.set_add x l.
Proof.
  unfold JS.set_add. case_bool_decide; [done|]. apply elem_of_app. right. by left.
Qed.

Lemma set_add_elem_old (x y : string) (l : list string) : y ∈ l → y ∈ JS.set_add x l.
Proof.
  unfold JS.set_add. case_bool_decide; [done|]. intros. apply elem_of_app. by left.
Qed.

(** [addUser] on a connected user: the user enters [users], takes a seat at
    the end of [userOrder] unless already seated, and events are sent. *)
Lemma addUser_spec userID c st :
  conns st !! userID = Some c →
  ∃ o, SessionOps.addUser userID st =
    Ret (tt, add_out o
      (with_conns (<[userID := Conn.set_sessionID (Some (id (sess st))) c]> (conns st))
        (with_sess
          (let s1 := set_users (JS.set_add userID (users (sess st))) (sess st) in
           if JS.indexOf userID (userOrder s1) <? 0
           then set_userOrder (userOrder s1 ++ [userID]) s1 else s1) st))).
Proof.
  intros Hc. unfold SessionOps.addUser.
  unfold bind at 1, get_sess. unfold bind at 1. rewrite (modify_conn_ok _ _ c) by done.
  unfold bind at 1, modify_sess at 1. unfold bind at 1, modify_sess at 1.
  cbn [sess conns out rng with_conns].
  match goal with |- context [bind SessionOps.notifyUserChange _ ?st] => set (st1 := st) end.
  unfold bind at 1. destruct (notifyUserChange_emits st1) as [o1 ->].
  unfold SessionOps.syncSessionOptions, bind at 1, get_sess.
  rewrite (emit_ok _ _ (Conn.set_sessionID (Some (id (sess st))) c))
    by (subst st1; cbn; apply lookup_insert_eq).
  exists (o1 ++ [(ToUser userID, EvSessionOptionsAll (sess (add_out o1 st1)))]).
  rewrite add_out_app. done.
Qed.

Lemma set_add_inv (x y : string) (l : list string) : y ∈ JS.set_add x l → y = x ∨ y ∈ l.
Proof.
  unfold JS.set_add. case_bool_decide; [by right|].
  intros [Hy|Hy%list_elem_of_singleton]%elem_of_app; [by right | by left].
Qed.

(** What the tail of [reconnectUser] (resume or broadcast) leaves in place. *)
Lemma reconnect_tail_steady :
  steady (s <- get_sess ;;
          if bool_decide (length (JS.obj_keys (disconnectedUsers s)) = 0%nat)
          then Draft.resumeDraft else SessionOps.broadcastDisconnectedUsers).
Proof.
  intros st Hst. unfold bind at 1, get_sess. case_bool_decide.
  - by apply steady_resumeDraft.
  - by apply steady_broadcastDisconnectedUsers.
Qed.

(** [reconnectUser] on a connected, seated user found in [disconnectedUsers]:
    the user is back in [users] and gone from [disconnectedUsers]; the seating
    is untouched. *)
Lemma reconnectUser_spec userID c d st :
  conns st !! userID = Some c →
  JS.obj_get userID (disconnectedUsers (sess st)) = Some d →
  users_connected st →
  userID ∈ userOrder (sess st) →
  ∃ st', Draft.reconnectUser userID st = Ret (tt, st')
    ∧ users (sess st') = JS.set_add userID (users (sess st))
    ∧ disconnectedUsers (sess st') = JS.obj_delete userID (disconnectedUsers (sess st))
    ∧ userOrder (sess st') = userOrder (sess st).
Proof.
  intros Hc Hd Hst Hseat. unfold Draft.reconnectUser.
  pose proof (indexOf_elem _ _ Hseat) as Hidx. unfold JS.indexOf, JS.findIndex in Hidx.
  unfold bind at 1, get_sess. rewrite Hd.
  (* the part before the final resume or broadcast *)
  unfold bind at 1.
  match goal with |- context [match ?m st with _ => _ end] =>
  assert (∃ st1, m st = Ret (tt, st1)
            ∧ sess st1 = set_users (JS.set_add userID (users (sess st))) (sess st)
            ∧ ∃ c', conns st1 = <[userID := c']> (conns st)) as (st1 & E1 & Hs1 & c' & Hc1)
  end.
  { destruct (winstonDraftState (sess st)) as [w|].
    - unfold bind at 1. rewrite (modify_conn_ok _ _ c) by done.
      unfold bind at 1.
      edestruct (addUser_spec userID) as [o ->]; [cbn; apply lookup_insert_eq|].
      erewrite emit_ok by (cbn; apply lookup_insert_eq).
      eexists. split; [done|]. cbn. rewrite Hidx.
      split; [done|]. eexists. by rewrite insert_insert_eq.
    - unfold bind at 1. rewrite (modify_conn_ok _ _ c) by done.
      unfold bind at 1. erewrite modify_conn_ok by (cbn; apply lookup_insert_eq).
      unfold bind at 1. erewrite modify_conn_ok by (cbn; apply lookup_insert_eq).
      unfold bind at 1.
      edestruct (addUser_spec userID) as [o ->]; [cbn; apply lookup_insert_eq|].
      unfold bind at 1, get_sess.
      erewrite emit_ok by (cbn; apply lookup_insert_eq).
      eexists. split; [done|]. cbn. rewrite Hidx.
      split; [done|]. eexists. by rewrite !insert_insert_eq. }
  rewrite E1. unfold bind at 1, modify_sess at 1.
  edestruct reconnect_tail_steady as (st2 & -> & _ & _ & Hs2 & _).
  { intros u Hu. cbn in Hu |- *. rewrite Hs1 in Hu. cbn in Hu. rewrite Hc1.
    apply set_add_inv in Hu as [->|Hu].
    - rewrite lookup_insert_eq. by eexists.
    - apply lookup_insert_is_Some'. right. by apply Hst. }
  exists st2. split; [done|]. cbn in Hs2. rewrite Hs1 in Hs2.
  split; [|split].
  - by apply (f_equal users) in Hs2.
  - by apply (f_equal disconnectedUsers) in Hs2.
  - by apply (f_equal userOrder) in Hs2.
Qed.

Lemma handed_over_fields userID s :
  users (handed_over userID s) = users s
  ∧ disconnectedUsers (handed_over userID s) = disconnectedUsers s
  ∧ userOrder (handed_over userID s) = userOrder s.
Proof.
  unfold handed_over. case_bool_decide; [|done].
  by destruct (users s) eqn:Hu; cbn [users disconnectedUsers userOrder set_owner]; rewrite ?Hu.
Qed.

(** C8 (amended): while a session is drafting, its membership is stable.
    - Leaving: when [removeUserFromSession] takes a member out of [users],
      the member's snapshot is recorded in [disconnectedUsers] and
      [userOrder] is unchanged, unless the member was the last one: the
      session is then deleted from [Sessions].
    - A join by a user who is not in [disconnectedUsers] changes no session
      and no connection: the user is sent a message and [setSession] with
      their previous session or, having none, with the identifier that
      [shortguid] spells from three draws.  Nothing compares that identifier
      with the drafting session's: the two are the same only when the user
      was still attached to the session, or when the draws spell its
      identifier.
    - A join by a user who is in [disconnectedUsers] (and therefore seated)
      reconnects them: they are back in [users], gone from
      [disconnectedUsers], and [userOrder] is unchanged.
    - [setSeating] and [randomizeSeating] refuse to change the seating. *)
Theorem drafting_membership_stable (E : Env) (w : World) (sessionID userID : string)
    (s0 : Session.t) (c : Conn.t) :
  Sessions w !! sessionID = Some s0 →
  drafting s0 = true →
  Connections w !! userID = Some c →
  (key_of (Conn.sessionID c) = sessionID → userID ∈ users s0 →
   ∃ w', removeUserFromSession userID w = Ret (tt, w')
     ∧ match JS.set_delete userID (users s0) with
       | [] => Sessions w' = delete sessionID (Sessions w)
       | _ :: _ =>
           ∃ sess', Sessions w' !! sessionID = Some sess'
             ∧ users sess' = JS.set_delete userID (users s0)
             ∧ JS.obj_get userID (disconnectedUsers sess') = Some (snapshot c)
             ∧ userOrder sess' = userOrder s0
       end)
  ∧ (JS.obj_in userID (disconnectedUsers s0) = false →
     ∃ w' text, joinSession E sessionID userID w = Ret (tt, w')
       ∧ Sessions w' = Sessions w
       ∧ Connections w' = Connections w
       ∧ outbox w' = outbox w ++
           [(ToUser userID, EvMessage "Cannot join session" text None None);
            (ToUser userID, EvSetSession (Ids.fallback c (wrng w)))]
       ∧ (Ids.fallback c (wrng w) = sessionID →
          Conn.sessionID c = Some sessionID
          ∨ (Conn.sessionID c = None ∧ Ids.spelled (wrng w) = sessionID)))
  ∧ (JS.obj_has userID (disconnectedUsers s0) = true → userID ∈ userOrder s0 →
     (∀ u, u ∈ users s0 → is_Some (Connections w !! u)) →
     ∃ w' sess', joinSession E sessionID userID w = Ret (tt, w')
       ∧ Sessions w' !! sessionID = Some sess'
       ∧ users sess' = JS.set_add userID (users s0)
       ∧ userID ∈ users sess'
       ∧ JS.obj_has userID (disconnectedUsers sess') = false
       ∧ userOrder sess' = userOrder s0)
  ∧ (∀ seating st, sess st = s0 →
       SessionOps.setSeating seating st = Ret (false, st)
       ∧ SessionOps.randomizeSeating st = Ret (false, st)).
Proof.
  intros Hs Hdraft Hc. split; [|split; [|split]].
  - (* leaving *)
    intros Hkey Hin. subst sessionID.
    destruct (removeUserFromSession_result w userID c s0 Hc Hs Hin) as [o E1].
    cbv zeta in E1. rewrite E1. eexists. split; [done|].
    destruct (JS.set_delete userID (users s0)) as [|first remaining] eqn:Hdel.
    { by destruct (isPublic s0). }
    eexists. split; [cbn; apply lookup_insert_eq|].
    destruct (handed_over_fields userID (without_user userID c s0)) as (-> & -> & ->).
    rewrite without_user_users. unfold without_user. rewrite Hdraft. cbn.
    split; [done|]. split; [apply obj_get_set | done].
  - (* a stranger *)
    intros Hno. unfold joinSession. unfold bind at 1, get_world. rewrite Hs, Hdraft, Hno.
    unfold fallback_session. wunfold. rewrite Hc. wunfold. rewrite Hc. wunfold.
    unfold Ids.fallback.
    destruct (Conn.sessionID c) as [previous|] eqn:Hprev.
    + wunfold. rewrite Hc.
      eexists _, _. split; [done|]. cbn. split; [done|]. split; [done|].
      split; [by rewrite <- app_assoc |]. intros ->. by left.
    + wunfold. rewrite shortguid_spelled. wunfold. rewrite Hc.
      eexists _, _. split; [done|]. cbn. split; [done|]. split; [done|].
      split; [by rewrite <- app_assoc |]. intros Heq. by right.
  - (* a disconnected player *)
    intros Hyes Hseat Hconn. unfold joinSession. unfold bind at 1, get_world.
    rewrite Hs, Hdraft. unfold JS.obj_in. rewrite Hyes. cbn [orb].
    unfold with_session. rewrite Hs.
    destruct (obj_has_get _ _ Hyes) as [d Hd].
    edestruct (reconnectUser_spec userID c d) as (st' & -> & Hu & Hdisc & Ho);
      [exact Hc | exact Hd | exact Hconn | exact Hseat |].
    eexists _, _. split; [done|]. cbn [Sessions]. rewrite lookup_insert_eq.
    split; [done|]. rewrite Hu, Hdisc, Ho. split; [done|].
    split; [apply set_add_elem|]. split; [apply obj_has_delete | done].
  - (* the seating *)
    intros seating st <-. unfold SessionOps.setSeating, SessionOps.randomizeSeating.
    unfold bind, get_sess. by rewrite Hdraft.
Qed.

(** C8 as stated fails.  Carol, who has no session and is not in
    [disconnectedUsers], asks to join the drafting session whose identifier
    is the one [shortguid] spells next: [setSession] sends her to that very
    session, not to a different one.  Moreover, when Alice, the only member
    of a drafting session, is removed, the session is deleted, and with it
    the snapshot just taken: no session is left that lists her in
    [disconnectedUsers]. *)
Lemma join_sent_back_to_drafting_session :
  (∃ w' text,
     (drafting <$> Sessions Examples.zero_id_world !! "000000000000") = Some true
     ∧ (JS.obj_in "carol" ∘ disconnectedUsers <$> Sessions Examples.zero_id_world
          !! "000000000000") = Some false
     ∧ joinSession Examples.small_env "000000000000" "carol" Examples.zero_id_world
       = Ret (tt, w')
     ∧ outbox w' = [(ToUser "carol", EvMessage "Cannot join session" text None None);
                    (ToUser "carol", EvSetSession "000000000000")])
  ∧ (∃ w',
       (drafting <$> Sessions Examples.solo_draft_world !! "s") = Some true
       ∧ removeUserFromSession "alice" Examples.solo_draft_world = Ret (tt, w')
       ∧ Sessions w' = ∅).
Proof.
  split.
  - eexists _, _. split; [reflexivity|]. split; [reflexivity|].
    split; vm_compute; reflexivity.
  - eexists. split; [reflexivity|]. split; vm_compute; reflexivity.
Qed.

(** C8 (amended), at a concrete server with the session "s" drafting: Bob
    leaves and is recorded; Carol, a stranger, is sent a new identifier and
    changes nothing; Dave, who was disconnected, is reconnected. *)
Lemma drafting_membership_stable_witness :
  (∃ w' sess', removeUserFromSession "bob" Examples.draft_world = Ret (tt, w')
     ∧ Sessions w' !! "s" = Some sess'
     ∧ users sess' = ["alice"]
     ∧ JS.obj_get "bob" (disconnectedUsers sess') = Some (snapshot (Examples.seated "bob" 1))
     ∧ userOrder sess' = ["alice"; "bob"; "dave"])
  ∧ (∃ w' text, joinSession Examples.small_env "s" "carol" Examples.draft_world = Ret (tt, w')
       ∧ Sessions w' = Sessions Examples.draft_world
       ∧ outbox w' =
           [(ToUser "carol", EvMessage "Cannot join session" text None None);
            (ToUser "carol", EvSetSession "000000000000")])
  ∧ (∃ w' sess', joinSession Examples.small_env "s" "dave" Examples.draft_world = Ret (tt, w')
       ∧ Sessions w' !! "s" = Some sess'
       ∧ users sess' = ["alice"; "bob"; "dave"]
       ∧ JS.obj_has "dave" (disconnectedUsers sess') = false
       ∧ userOrder sess' = ["alice"; "bob"; "dave"]).
Proof.
  split; [|split].
  - destruct (drafting_membership_stable Examples.small_env Examples.draft_world "s" "bob"
                Examples.table_with_dave (Examples.seated "bob" 1))
      as (H & _); [reflexivity | reflexivity | reflexivity |].
    destruct H as (w' & E & H);
      [reflexivity | vm_compute; apply list_elem_of_further, list_elem_of_here |].
    change (JS.set_delete "bob" (users Examples.table_with_dave)) with ["alice"] in H.
    cbv iota in H. destruct H as (sess' & Hs & Hu & Hd & Ho).
    exists w', sess'. split; [exact E|]. split; [exact Hs|]. split; [exact Hu|].
    split; [exact Hd | exact Ho].
  - destruct (drafting_membership_stable Examples.small_env Examples.draft_world "s" "carol"
                Examples.table_with_dave (Examples.conn "carol" None))
      as (_ & H & _); [reflexivity | reflexivity | reflexivity |].
    destruct H as (w' & text & E & Hs & _ & Ho & _); [reflexivity|].
    exists w', text. split; [exact E|]. split; [exact Hs|]. exact Ho.
  - destruct (drafting_membership_stable Examples.small_env Examples.draft_world "s" "dave"
                Examples.table_with_dave (Examples.conn "dave" None))
      as (_ & _ & H & _); [reflexivity | reflexivity | reflexivity |].
    destruct H as (w' & sess' & E & Hs & Hu & _ & Hd & Ho);
      [reflexivity | vm_compute; apply list_elem_of_further, list_elem_of_further,
                       list_elem_of_here | |].
    + intros u Hu. vm_compute in Hu.
      apply elem_of_cons in Hu as [->|Hu]; [by eexists|].
      apply elem_of_cons in Hu as [->|Hu]; [by eexists|]. by apply elem_of_nil in Hu.
    + exists w', sess'. split; [exact E|]. split; [exact Hs|]. split; [exact Hu|].
      split; [exact Hd | exact Ho].
Defined.

End MembershipFacts.

(** ** The effective collection ([Session.collection]) *)

Section CollectionFacts.
Import Frame Generator CollectionSpec Session.

Lemma keys_elem {V} (m : gmap string V) (c : string) : c ∈ JS.keys m ↔ is_Some (m !! c).
Proof.
  unfold JS.keys. rewrite list_elem_of_fmap. split.
  - intros ([k v] & -> & H). apply elem_of_map_to_list in H. by eexists.
  - intros [v H]. exists (c, v). split; [done|]. by apply elem_of_map_to_list.
Qed.

Lemma bool_decide_elem_of_cons_ne (c k : string) (l : list string) :
  c ≠ k → bool_decide (c ∈ k :: l) = bool_decide (c ∈ l).
Proof.
  intros Hne. apply bool_decide_ext. rewrite elem_of_cons.
  split; [intros [Heq|Hin]; [by destruct Hne | done] | by right].
Qed.

Lemma keys_NoDup {V} (m : gmap string V) : NoDup (JS.keys m).
Proof. apply NoDup_fst_map_to_list. Qed.

Lemma in_booster_card_catalog E md c :
  in_booster_card E c = true ↔ is_Some (catalog_count E md c).
Proof.
  unfold in_booster_card, catalog_count. destruct (Cards E !! c) as [f|]; simpl.
  - destruct (Card.in_booster f); split; try done; by intros [].
  - split; [done | by intros []].
Qed.

(** The map built when no collection is used. *)
Lemma all_cards_collection_lookup E md c :
  all_cards_collection E md !! c = catalog_count E md c.
Proof.
  unfold all_cards_collection.
  assert (∀ l (m0 : gmap string Z), foldl (λ collection c,
              match Cards E !! c with
              | Some f => if Card.in_booster f
                          then <[c := maxDuplicates_at md (Card.rarity f)]> collection
                          else collection
              | None => collection
              end) m0 l !! c
            = if bool_decide (c ∈ l)
              then match catalog_count E md c with Some v => Some v | None => m0 !! c end
              else m0 !! c) as Hfold.
  { induction l as [|k l IH]; intros m0; [done|]. simpl. rewrite IH.
    unfold catalog_count. destruct (decide (c = k)) as [->|Hne].
    - rewrite (bool_decide_eq_true_2 (k ∈ k :: l)) by left.
      destruct (Cards E !! k) as [f|]; simpl; [destruct (Card.in_booster f)|];
        rewrite ?lookup_insert_eq; by case_bool_decide as Hk.
    - rewrite bool_decide_elem_of_cons_ne by done.
      destruct (Cards E !! k) as [f|]; [destruct (Card.in_booster f)|];
        rewrite ?lookup_insert_ne by done; done. }
  rewrite Hfold, lookup_empty. case_bool_decide as Hin.
  - by destruct (catalog_count E md c).
  - unfold catalog_count. rewrite keys_elem in Hin.
    destruct (Cards E !! c); [by destruct Hin | done].
Qed.

(** The cards left by the shaving loop. *)
Lemma shave_elem (rest : list Conn.t) (start : list string) (c : string) :
  c ∈ foldl (λ inter ci,
        if uses ci then filter (λ value, value ∈ inter) (JS.keys (Conn.collection ci))
        else inter) start rest
  ↔ c ∈ start ∧ ∀ x, x ∈ rest → uses x = true → is_Some (Conn.collection x !! c).
Proof.
  revert start. induction rest as [|ci rest IH]; intros start; simpl.
  - split; [intros H; split; [done|]; intros x Hx; by apply elem_of_nil in Hx | by intros [H _]].
  - rewrite IH. destruct (uses ci) eqn:Hci.
    + rewrite list_elem_of_filter, keys_elem. split.
      * intros [[H1 H2] H3]. split; [done|]. intros x [->|Hx]%elem_of_cons; auto.
      * intros [H1 H2]. split; [split; [done|]; apply H2; [left | done]|].
        intros x Hx. apply H2. by right.
    + split.
      * intros [H1 H2]. split; [done|]. intros x [->|Hx]%elem_of_cons; [congruence | auto].
      * intros [H1 H2]. split; [done|]. intros x Hx. apply H2. by right.
Qed.

Lemma shave_NoDup (rest : list Conn.t) (start : list string) :
  NoDup start →
  NoDup (foldl (λ inter ci,
           if uses ci then filter (λ value, value ∈ inter) (JS.keys (Conn.collection ci))
           else inter) start rest).
Proof.
  revert start. induction rest as [|ci rest IH]; intros start Hnd; simpl; [done|].
  apply IH. destruct (uses ci); [|done]. apply NoDup_filter, keys_NoDup.
Qed.

Lemma intersection_elem E cs c :
  c ∈ intersection E cs ↔ in_booster_card E c = true ∧ owned_by_all cs c.
Proof.
  unfold intersection, owned_by_all. destruct cs as [|c0 rest].
  - rewrite list_elem_of_filter, keys_elem. split.
    + intros [H _]. split; [by apply Is_true_true|]. intros x Hx. by apply elem_of_nil in Hx.
    + intros [H _]. split; [by apply Is_true_true|].
      unfold in_booster_card in H. by destruct (Cards E !! c).
  - rewrite shave_elem. destruct (uses c0) eqn:H0; simpl;
      rewrite list_elem_of_filter, keys_elem, Is_true_true.
    + split.
      * intros [[H1 H2] H3]. split; [done|]. intros x [->|Hx]%elem_of_cons; auto.
      * intros [H1 H2]. split; [split; [done|]; apply H2; [left|done]|].
        intros x Hx. apply H2. by right.
    + split.
      * intros [[H1 H2] H3]. split; [done|].
        intros x [->|Hx]%elem_of_cons; [congruence | auto].
      * intros [H1 H2]. split; [split; [done|]|].
        -- unfold in_booster_card in H1. by destruct (Cards E !! c).
        -- intros x Hx. apply H2. by right.
Qed.

Lemma intersection_NoDup E cs : NoDup (intersection E cs).
Proof.
  unfold intersection. destruct cs as [|c0 rest].
  - apply NoDup_filter, keys_NoDup.
  - apply shave_NoDup. destruct (negb (uses c0)); apply NoDup_filter, keys_NoDup.
Qed.

Lemma owned_counts_cons x rest c :
  owned_counts (x :: rest) c =
  match (if uses x then Conn.collection x !! c else None) with
  | Some k => k :: owned_counts rest c
  | None => owned_counts rest c
  end.
Proof. done. Qed.

(** The loop taking the minimum over the other used collections. *)
Lemma min_loop rest c a :
  (∀ x, x ∈ rest → uses x = true → is_Some (Conn.collection x !! c)) →
  foldl (λ acc ci,
      if uses ci then
        match acc, Conn.collection ci !! c with
        | Some a, Some n => Some (Z.min a n)
        | _, _ => None
        end
      else acc) (Some a) rest
  = Some (foldl Z.min a (owned_counts rest c)).
Proof.
  revert a. induction rest as [|ci rest IH]; intros a H; [done|].
  rewrite owned_counts_cons. cbn [foldl]. destruct (uses ci) eqn:Hci.
  - destruct (H ci) as [n Hn]; [left | done |]. rewrite Hn. cbn [foldl].
    apply IH. intros x Hx. apply H. by right.
  - apply IH. intros x Hx. apply H. by right.
Qed.

Lemma min_count_spec cs c :
  owned_by_all cs c →
  min_count cs c = minimum ((if first_unused cs then [4] else []) ++ owned_counts cs c).
Proof.
  intros H. destruct cs as [|c0 rest]; [done|].
  unfold min_count, first_unused. rewrite owned_counts_cons.
  assert (∀ x, x ∈ rest → uses x = true → is_Some (Conn.collection x !! c)) as Hrest
    by (intros x Hx; apply H; by right).
  destruct (uses c0) eqn:H0; cbn [negb app minimum].
  - destruct (H c0) as [k Hk]; [left | done |]. rewrite Hk. by apply min_loop.
  - by apply min_loop.
Qed.

Lemma min_count_is_Some cs c : owned_by_all cs c → is_Some (min_count cs c).
Proof.
  intros H. rewrite min_count_spec by done. destruct cs as [|c0 rest]; [done|].
  unfold first_unused. rewrite owned_counts_cons. destruct (uses c0) eqn:H0; [|done].
  destruct (H c0) as [k ->]; [left | done | done].
Qed.

(** The loop that fills the result with the count of every remaining card. *)
Lemma fill_loop cs (l : list string) (m0 : gmap string Z) :
  (∀ c, c ∈ l → is_Some (min_count cs c)) →
  ∃ m, foldl (λ collection c,
           match collection, min_count cs c with
           | Some m, Some n => Some (<[c := n]> m)
           | _, _ => None
           end) (Some m0) l = Some m
       ∧ ∀ c, m !! c = if bool_decide (c ∈ l) then min_count cs c else m0 !! c.
Proof.
  revert m0. induction l as [|k l IH]; intros m0 H; simpl.
  - exists m0. split; [done|]. intros c. done.
  - destruct (H k) as [n Hn]; [left|]. rewrite Hn.
    destruct (IH (<[k := n]> m0)) as (m & -> & Hm); [intros c Hc; apply H; by right|].
    exists m. split; [done|]. intros c. rewrite Hm.
    destruct (decide (c = k)) as [->|Hne].
    + rewrite (bool_decide_eq_true_2 (k ∈ k :: l)) by left.
      rewrite lookup_insert_eq. by case_bool_decide as Hk.
    + rewrite lookup_insert_ne by done.
      by rewrite bool_decide_elem_of_cons_ne.
Qed.

Lemma all_cards_loop_spec (us : list string) (cs : list Conn.t) (b : bool) st :
  Forall2 (λ u c, conns st !! u = Some c) us cs →
  all_cards_loop us b st = Ret (b && forallb (λ c, negb (uses c)) cs, st).
Proof.
  intros H. revert b. induction H as [|u c us cs Hu H IH]; intros b; simpl.
  - by rewrite andb_true_r.
  - destruct b; simpl.
    + munfold. rewrite Hu. rewrite IH. unfold uses.
      by rewrite negb_andb, negb_involutive.
    + rewrite IH. done.
Qed.

Lemma mapM_conn_spec (us : list string) (cs : list Conn.t) st :
  Forall2 (λ u c, conns st !! u = Some c) us cs →
  mapM_conn us st = Ret (cs, st).
Proof.
  induction 1 as [|u c us cs Hu H IH]; simpl; [done|].
  munfold. rewrite Hu. by rewrite IH.
Qed.

(** What [collection()] computes on a session that does not use a custom
    card list and whose users are all connected; the state is unchanged.
    - When [ignoreCollections] is set or no user has a used, non-empty
      collection: the map sending every card of the catalog found in boosters
      to [maxDuplicates[rarity]];
    - otherwise: the map defined exactly on the cards found in boosters that
      every used collection holds, sending each to the minimum of the counts
      owned by the users whose collection is used, the loop starting from 4
      when the first member of [users] is not one of them. *)
Lemma collection_spec (E : Env) (st : St) (cs : list Conn.t) :
  useCustomCardList (sess st) = false →
  Forall2 (λ u c, conns st !! u = Some c) (users (sess st)) cs →
  ∃ m, collection E st = Ret (m, st)
    ∧ if ignoreCollections (sess st) || forallb (λ c, negb (uses c)) cs
      then ∀ c, m !! c = catalog_count E (maxDuplicates (sess st)) c
      else ∀ c n, m !! c = Some n ↔
             in_booster_card E c = true
             ∧ owned_by_all cs c
             ∧ minimum ((if first_unused cs then [4] else []) ++ owned_counts cs c) = Some n.
Proof.
  intros Hcustom Hcs. unfold collection.
  unfold bind at 1, get_sess. rewrite Hcustom.
  unfold bind at 1. rewrite (all_cards_loop_spec _ cs) by done. rewrite andb_true_l.
  destruct (ignoreCollections (sess st) || forallb (λ c, negb (uses c)) cs) eqn:Hall.
  - eexists. split; [done|]. apply all_cards_collection_lookup.
  - unfold bind at 1. rewrite (mapM_conn_spec _ cs) by done.
    unfold intersect_collections.
    destruct (fill_loop cs (intersection E cs) ∅) as (m & -> & Hm).
    { intros c [_ Hc]%intersection_elem. by apply min_count_is_Some. }
    exists m. split; [done|]. intros c n. rewrite Hm, lookup_empty.
    case_bool_decide as Hin.
    + apply intersection_elem in Hin as [H1 H2]. rewrite min_count_spec by done.
      split; [by intros -> | by intros (_ & _ & ->)].
    + split; [done|]. intros (H1 & H2 & _). destruct Hin. by apply intersection_elem.
Qed.

(** C4: the code breaks the claim, and its own comment "Compute the minimum
    count of each remaining card".  Bob is the only participant whose
    collection is used and he owns seven copies of "c1".  With Alice, who
    does not use her collection, first in [users], [collection()] gives "c1"
    four copies; with Bob first it gives the seven copies he owns, which is
    the minimum owned count that the claim states. *)
Theorem collection_count_depends_on_user_order :
  minimum (owned_counts [Examples.alice_unused; Examples.bob_collector] "c1") = Some 7
  ∧ (∃ m, collection Examples.small_env Examples.collector_state
          = Ret (m, Examples.collector_state)
       ∧ m !! "c1" = Some 4)
  ∧ (∃ m, collection Examples.small_env Examples.collector_swapped_state
          = Ret (m, Examples.collector_swapped_state)
       ∧ m !! "c1" = Some 7).
Proof.
  split; [vm_compute; reflexivity|].
  split; eexists; (split; [vm_compute; reflexivity|]); vm_compute; reflexivity.
Qed.

End CollectionFacts.

(** ** Handing out the boosters ([nextBooster]) *)

Section KeepsFacts.
Import Keeps Session.

Lemma keeps_conns_ret {A} (a : A) : keeps_conns (ret a).
Proof. intros st a' st' [= _ <-]. done. Qed.

Lemma keeps_conns_throw {A} e : keeps_conns (throw (A:=A) e).
Proof. intros st a st' [=]. Qed.

Lemma keeps_conns_stuck {A} e : keeps_conns (stuck (A:=A) e).
Proof. intros st a st' [=]. Qed.

Lemma keeps_conns_get_sess : keeps_conns get_sess.
Proof. intros st a st' [= _ <-]. done. Qed.

Lemma keeps_conns_get_conns : keeps_conns get_conns.
Proof. intros st a st' [= _ <-]. done. Qed.

Lemma keeps_conns_modify_sess f : keeps_conns (modify_sess f).
Proof. intros st a st' [= _ <-]. done. Qed.

Lemma keeps_conns_push_out t e : keeps_conns (push_out t e).
Proof. intros st a st' [= _ <-]. done. Qed.

Lemma keeps_conns_bind {A B} (m : M A) (k : A → M B) :
  keeps_conns m → (∀ a, keeps_conns (k a)) → keeps_conns (bind m k).
Proof.
  intros Hm Hk st b st' H. unfold bind in H.
  destruct (m st) as [[a st1]| |] eqn:E; try discriminate.
  apply Hk in H. apply Hm in E. congruence.
Qed.

Lemma keeps_conns_forM {A} (l : list A) (f : A → M unit) :
  (∀ x, keeps_conns (f x)) → keeps_conns (forM_ l f).
Proof.
  intros H. induction l as [|x l IH]; simpl.
  - apply keeps_conns_ret.
  - apply keeps_conns_bind; [apply H | intros _; apply IH].
Qed.

Lemma keeps_conns_conn_of u : keeps_conns (conn_of u).
Proof.
  unfold conn_of. apply keeps_conns_bind; [apply keeps_conns_get_conns|].
  intros c. destruct (c !! u); [apply keeps_conns_ret | apply keeps_conns_throw].
Qed.

Lemma keeps_conns_emit u e : keeps_conns (emit u e).
Proof.
  unfold emit. apply keeps_conns_bind; [apply keeps_conns_conn_of|].
  intros _. apply keeps_conns_push_out.
Qed.

End KeepsFacts.

(** Proves that a computation built from the session-level operations leaves
    the connections alone. *)
Ltac keeps_conns_step :=
  first
    [ apply keeps_conns_ret | apply keeps_conns_throw | apply keeps_conns_stuck
    | apply keeps_conns_get_sess | apply keeps_conns_get_conns
    | apply keeps_conns_modify_sess | apply keeps_conns_push_out
    | apply keeps_conns_conn_of | apply keeps_conns_emit
    | apply keeps_conns_forM; intros ?
    | apply keeps_conns_bind; [| intros ?]
    | match goal with
      | |- Keeps.keeps_conns (if ?b then _ else _) => destruct b
      | |- Keeps.keeps_conns (match ?x with _ => _ end) => destruct x
      | |- Keeps.keeps_conns (let '(_, _) := ?x in _) => destruct x
      end ].

Ltac keeps_conns_tac := repeat keeps_conns_step.

Section KeepsSession.
Import Keeps Session SessionOps.

Lemma keeps_conns_forUsers fn : (∀ u, keeps_conns (fn u)) → keeps_conns (forUsers fn).
Proof. intros H. unfold forUsers. keeps_conns_tac; apply H. Qed.

Lemma keeps_conns_startCountdown : keeps_conns startCountdown.
Proof. unfold startCountdown. keeps_conns_tac. Qed.

Lemma keeps_conns_burn_loop E r bi n burned : keeps_conns (Draft.burn_loop E r bi n burned).
Proof.
  revert burned. induction n as [|n IH]; intros burned; simpl; keeps_conns_tac. apply IH.
Qed.

Lemma keeps_conns_doBotPick E r bi : keeps_conns (Draft.doBotPick E r bi).
Proof. unfold Draft.doBotPick. keeps_conns_tac. apply keeps_conns_burn_loop. Qed.

End KeepsSession.

Ltac keeps_draft_tac :=
  repeat first
    [ apply keeps_conns_doBotPick | apply keeps_conns_burn_loop
    | apply keeps_conns_startCountdown | apply keeps_conns_forUsers
    | keeps_conns_step ].

Section DealFacts.
Import Keeps Rotation Session SessionOps.

Lemma getSortedVirtualPlayers_NoDup s : NoDup (JS.obj_keys (getSortedVirtualPlayers s)).
Proof.
  unfold getSortedVirtualPlayers.
  assert (∀ {B} (f : list (string * VirtualPlayer) → B → list (string * VirtualPlayer))
            (l : list B) (acc : list (string * VirtualPlayer)),
            (∀ a b, NoDup (JS.obj_keys a) → NoDup (JS.obj_keys (f a b))) →
            NoDup (JS.obj_keys acc) → NoDup (JS.obj_keys (foldl f acc l))) as Hfold.
  { intros B f l. induction l as [|b l IH]; intros acc Hf Hacc; simpl; [done|].
    apply IH; [done|]. by apply Hf. }
  destruct (botsInstances s) as [instances|].
  - apply Hfold; [|apply NoDup_nil_2]. intros a idx Ha.
    destruct (instances !! idx); destruct (getSortedHumanPlayers s !! idx);
      repeat apply obj_set_keys_NoDup; done.
  - apply Hfold; [|apply NoDup_nil_2]. intros a u Ha. by apply obj_set_keys_NoDup.
Qed.

(** Dealing to a connected human: the booster index is recorded in their
    connection and the booster is sent; the session is untouched. *)
Lemma deal_human E off V i u st st' :
  Draft.deal E off V i (u, Human false) st = Ret (tt, st') →
  ∃ c, conns st !! u = Some c
    ∧ st' = {| sess := sess st;
               conns := <[u := Conn.set_boosterIndex (Some (negMod (off + i) V))
                                 (Conn.set_pickedThisRound false c)]> (conns st);
               out := out st ++
                 [(ToUser u, EvNextBooster (Some (Draft.booster_at (sess st) (negMod (off + i) V)))
                               (boosterNumber (sess st)) (round (sess st) + 1))];
               rng := rng st |}.
Proof.
  unfold Draft.deal. munfold. destruct (conns st !! u) as [c|] eqn:Hc; [|done].
  cbn [conns]. rewrite lookup_insert_eq. cbn [conns sess out rng].
  rewrite lookup_insert_eq. intros [= <-]. exists c. split; [done|].
  by rewrite insert_insert_eq.
Qed.

(** Dealing to a seat leaves the connection of every other user alone. *)
Lemma deal_keeps_other E off V i u' v u :
  u ≠ u' → keeps_conn_of u (Draft.deal E off V i (u', v)).
Proof.
  intros Hne st [] st' H. destruct v as [[|]|idx].
  - assert (keeps_conns (Draft.deal E off V i (u', Human true))) as Hk.
    { unfold Draft.deal. keeps_draft_tac. }
    by rewrite (Hk _ _ _ H).
  - apply deal_human in H as (c & Hc & ->). cbn. by rewrite lookup_insert_ne.
  - assert (keeps_conns (Draft.deal E off V i (u', BotSeat idx))) as Hk.
    { unfold Draft.deal. keeps_draft_tac. }
    by rewrite (Hk _ _ _ H).
Qed.

Lemma deal_all_cons E off V i seat seats :
  Draft.deal_all E off V i (seat :: seats)
  = (Draft.deal E off V i seat ;;; Draft.deal_all E off V (i + 1) seats).
Proof. reflexivity. Qed.

Lemma deal_all_keeps_other E off V seats u :
  u ∉ JS.obj_keys seats → ∀ i, keeps_conn_of u (Draft.deal_all E off V i seats).
Proof.
  unfold JS.obj_keys.
  induction seats as [|[u1 v1] seats IH]; intros Hu i st [] st' H.
  - simpl in H. by injection H as <-.
  - rewrite deal_all_cons in H. unfold bind at 1 in H.
    destruct (Draft.deal E off V i (u1, v1) st) as [[[] st1]| |] eqn:E1; try discriminate.
    simpl in Hu. apply not_elem_of_cons in Hu as [Hne Hu].
    rewrite (IH Hu _ _ _ _ H).
    by apply (deal_keeps_other E off V i u1 v1 u Hne _ _ _ E1).
Qed.

(** The loop of [nextBooster]: each connected human seat ends up with the
    index computed from its position. *)
Lemma deal_all_assigns E off V seats :
  ∀ i st st',
    NoDup (JS.obj_keys seats) →
    Draft.deal_all E off V i seats st = Ret (tt, st') →
    ∀ (p : nat) u, seats !! p = Some (u, Human false) →
      ∃ c', conns st' !! u = Some c'
        ∧ Conn.boosterIndex c' = Some (negMod (off + (i + Z.of_nat p)) V)
        ∧ Conn.pickedThisRound c' = false.
Proof.
  induction seats as [|[u0 v0] seats IH]; intros i st st' Hnd H p u Hp; [done|].
  rewrite deal_all_cons in H. unfold bind at 1 in H.
  destruct (Draft.deal E off V i (u0, v0) st) as [[[] st1]| |] eqn:E1; try discriminate.
  unfold JS.obj_keys in Hnd. simpl in Hnd. apply NoDup_cons in Hnd as [Hu0 Hnd].
  destruct p as [|p]; simpl in Hp.
  - injection Hp as -> ->.
    apply deal_human in E1 as (c & Hc & ->).
    rewrite (deal_all_keeps_other E off V seats u Hu0 _ _ _ _ H).
    cbn [conns]. rewrite lookup_insert_eq. eexists. split; [done|].
    rewrite Z.add_0_r. done.
  - destruct (IH (i + 1) st1 st' Hnd H p u Hp) as (c' & Hc' & Hb & Hpk).
    exists c'. split; [done|]. split; [|done]. rewrite Hb. do 3 f_equal. lia.
Qed.

End DealFacts.

Section RotationFacts.
Import Keeps Rotation Session SessionOps.

Lemma getVirtualPlayersCount_at_deal s :
  getVirtualPlayersCount (at_deal s) = getVirtualPlayersCount s.
Proof.
  unfold at_deal. destruct (boosters s) as [|b bs]; [done|].
  by case_bool_decide.
Qed.

Lemma finish_deal_keeps : keeps_conns finish_deal.
Proof. unfold finish_deal. keeps_draft_tac. Qed.

(** [nextBooster] with boosters left: the dealing loop run from the session
    [at_deal], then [finish_deal]. *)
Lemma nextBooster_unfold E st :
  boosters (at_deal (sess st)) ≠ [] →
  Draft.nextBooster E st
  = (Draft.deal_all E (Draft.boosterOffset (at_deal (sess st)))
       (getVirtualPlayersCount (sess st)) 0
       (getSortedVirtualPlayers (at_deal (sess st))) ;;; finish_deal)
      (Frame.with_sess (set_pickedCardsThisRound 0 (at_deal (sess st))) st).
Proof.
  intros Hne. unfold Draft.nextBooster, stopCountdown.
  unfold bind at 1. unfold modify_sess at 1. cbv beta iota.
  unfold bind at 1. unfold get_sess at 1. cbv beta iota.
  cbn [sess]. unfold at_deal in Hne |- *.
  change (boosters (set_timerRunning false (sess st))) with (boosters (sess st)).
  change (getVirtualPlayersCount (set_timerRunning false (sess st)))
    with (getVirtualPlayersCount (sess st)).
  destruct (boosters (sess st)) as [|first rest] eqn:Hb; [done|].
  unfold bind at 1.
  case_bool_decide as Hfirst.
  - unfold bind at 1. unfold bind at 1. unfold modify_sess at 1 2 3. cbv beta iota.
    cbn [sess conns out rng].
    unfold bind at 1. unfold get_sess at 1. cbv beta iota. cbn [sess].
    rewrite <- Hb in Hne |- *.
    rewrite bool_decide_eq_false_2.
    2:{ intros Hl. apply Hne. apply length_zero_iff_nil. exact Hl. }
    unfold bind at 1. unfold modify_sess at 1. cbv beta iota. cbn [sess conns out rng].
    unfold finish_deal, Frame.with_sess. reflexivity.
  - unfold ret at 1. unfold bind at 1. unfold get_sess at 1. cbv beta iota. cbn [sess].
    rewrite bool_decide_eq_false_2.
    2:{ intros Hl. apply Hne. apply length_zero_iff_nil. exact Hl. }
    unfold bind at 1. unfold modify_sess at 1. cbv beta iota. cbn [sess conns out rng].
    unfold finish_deal, Frame.with_sess. reflexivity.
Qed.

Lemma nextBooster_deals E st st' :
  Draft.nextBooster E st = Ret (tt, st') →
  boosters (at_deal (sess st)) ≠ [] →
  ∃ st2,
    Draft.deal_all E (Draft.boosterOffset (at_deal (sess st)))
        (getVirtualPlayersCount (sess st)) 0
        (getSortedVirtualPlayers (at_deal (sess st)))
        (Frame.with_sess (set_pickedCardsThisRound 0 (at_deal (sess st))) st) = Ret (tt, st2)
    ∧ conns st' = conns st2.
Proof.
  intros H Hne. rewrite (nextBooster_unfold E st Hne) in H. unfold bind at 1 in H.
  match type of H with
  | match ?m ?x with _ => _ end = _ =>
      destruct (m x) as [[[] st2]| |] eqn:E2; try discriminate
  end.
  exists st2. split; [done|]. by rewrite (finish_deal_keeps _ _ _ H).
Qed.

(** With every seat held by a connected human, the dealing loop returns,
    sends events only to change the connections of the seats. *)
Lemma deal_all_returns E off V seats :
  ∀ i st, Forall (connected_seat (conns st)) seats →
    ∃ st', Draft.deal_all E off V i seats st = Ret (tt, st')
      ∧ sess st' = sess st
      ∧ ∀ u, is_Some (conns st !! u) → is_Some (conns st' !! u).
Proof.
  induction seats as [|[u0 v0] seats IH]; intros i st Hall.
  - exists st. done.
  - apply Forall_cons in Hall as [[Hv [c Hc]] Hall]. simpl in Hv, Hc. subst v0.
    set (st1 := {| sess := sess st;
                   conns := <[u0 := Conn.set_boosterIndex (Some (negMod (off + i) V))
                                  (Conn.set_pickedThisRound false c)]> (conns st);
                   out := out st ++
                     [(ToUser u0, EvNextBooster (Some (Draft.booster_at (sess st) (negMod (off + i) V)))
                                    (boosterNumber (sess st)) (round (sess st) + 1))];
                   rng := rng st |}).
    assert (Draft.deal E off V i (u0, Human false) st = Ret (tt, st1)) as E1.
    { unfold Draft.deal. munfold. rewrite Hc. cbn [conns]. rewrite lookup_insert_eq.
      cbn [conns sess out rng]. rewrite lookup_insert_eq. unfold st1.
      by rewrite insert_insert_eq. }
    assert (∀ u, is_Some (conns st !! u) → is_Some (conns st1 !! u)) as Hdom.
    { intros u Hu. unfold st1. cbn [conns]. apply lookup_insert_is_Some'. by right. }
    destruct (IH (i + 1) st1) as (st' & E' & Hs' & Hd').
    { eapply Forall_impl; [exact Hall|]. intros [u v] [Hv Hu]. split; [done|].
      by apply Hdom. }
    exists st'. rewrite deal_all_cons. unfold bind. rewrite E1, E'.
    split; [done|]. split; [by rewrite Hs'|]. intros u Hu. by apply Hd', Hdom.
Qed.

(** [finish_deal] returns at a table whose users are all connected. *)
Lemma finish_deal_returns st :
  Frame.users_connected st → ∃ st', finish_deal st = Ret (tt, st').
Proof.
  intros Hst. unfold finish_deal. unfold bind at 1, get_sess at 1. cbv beta iota.
  unfold bind at 1, get_conns at 1. cbv beta iota.
  unfold bind at 1.
  match goal with
  | |- context [match ?m st with _ => _ end] =>
      assert (∃ o, m st = Ret (tt, Frame.add_out o st)) as [o Eo]
  end.
  { destruct (negb (ownerIsPlayer (sess st))); simpl.
    - case_bool_decide as Ho.
      + by apply (emits_only_emit (conns st)).
      + by apply (emits_only_ret (conns st)).
    - by apply (emits_only_ret (conns st)). }
  rewrite Eo.
  destruct (steady_startCountdown (Frame.add_out o st)) as (st1 & E1 & _); [exact Hst|].
  unfold bind at 1. rewrite E1. eexists. reflexivity.
Qed.

Lemma evenRound_packs (k V : Z) :
  0 < V → 0 <= k → Draft.evenRound (k * V) V = Z.even k.
Proof.
  intros HV Hk. unfold Draft.evenRound.
  rewrite (proj2 (Z.eqb_neq V 0)) by lia.
  rewrite Z.rem_mul by lia. rewrite Z.quot_mul by lia. simpl.
  rewrite Zeven_mod. rewrite Z.rem_mod_nonneg by lia. done.
Qed.

End RotationFacts.

Section RotationClaim.
Import Keeps Rotation Session SessionOps.

(** A drained pack taken off the table: one pack fewer per seat, and the
    pack number one higher. *)
Lemma at_deal_drained s (k : Z) first rest :
  boosters s = first :: rest → length first = 0%nat →
  0 < getVirtualPlayersCount s → 1 <= k →
  Z.of_nat (length (boosters s)) = k * getVirtualPlayersCount s →
  Z.of_nat (length (boosters (at_deal s))) = (k - 1) * getVirtualPlayersCount s
  ∧ boosterNumber (at_deal s) = boosterNumber s + 1.
Proof.
  intros Hb Hfirst HV Hk Hlen. unfold at_deal. rewrite Hb, bool_decide_eq_true_2 by done.
  cbn [boosters boosterNumber set_boosterNumber set_boosters set_round set_timerRunning].
  split; [|done]. rewrite <- Hb. unfold JS.splice_front. rewrite length_drop. nia.
Qed.

(** C6 (amended).  When boosters are left after the drained pack is
    removed, [nextBooster] gives the connected human seated at position [p]
    the booster of index [negMod (boosterOffset + p) V], [V] being the
    number of virtual players, and clears their [pickedThisRound]; at a
    table whose seats are all connected humans it returns.  The sign of the
    offset is decided by the number [k] of packs left per seat
    ([boosters.length = k * V]), not by [boosterNumber]: minus the pick
    number when [k] is even, plus the pick number when [k] is odd.  The two
    readings agree exactly when [k + boosterNumber] is even or the pick
    number is 0.  Taking a drained pack off the table leaves
    [k + boosterNumber] as it was; in a draft where it is
    [boostersPerPlayer + 1], the two readings agree exactly when
    [boostersPerPlayer] is odd or the pick number is 0. *)
Theorem nextBooster_rotation (E : Env) (st : St) :
  let s1 := at_deal (sess st) in
  let V := getVirtualPlayersCount s1 in
  boosters s1 ≠ [] →
  (∀ st' (p : nat) u,
      Draft.nextBooster E st = Ret (tt, st') →
      getSortedVirtualPlayers s1 !! p = Some (u, Human false) →
      ∃ c, conns st' !! u = Some c
        ∧ Conn.boosterIndex c = Some (assigned s1 (Z.of_nat p))
        ∧ Conn.pickedThisRound c = false)
  ∧ (Frame.users_connected st →
     Forall (connected_seat (conns st)) (getSortedVirtualPlayers s1) →
     ∃ st', Draft.nextBooster E st = Ret (tt, st'))
  ∧ (∀ k, 0 < V → 0 <= k → Z.of_nat (length (boosters s1)) = k * V →
       Draft.boosterOffset s1 = (if Z.even k then - round s1 else round s1)
       ∧ (Draft.boosterOffset s1 = claimed_offset s1
          ↔ Z.even (k + boosterNumber s1) = true ∨ round s1 = 0)
       ∧ (k + boosterNumber s1 = boostersPerPlayer s1 + 1 →
          (Draft.boosterOffset s1 = claimed_offset s1
           ↔ Z.odd (boostersPerPlayer s1) = true ∨ round s1 = 0)))
  ∧ (∀ k first rest,
       boosters (sess st) = first :: rest → length first = 0%nat → 0 < V → 1 <= k →
       Z.of_nat (length (boosters (sess st))) = k * V →
       Z.of_nat (length (boosters s1)) = (k - 1) * V
       ∧ (k - 1) + boosterNumber s1 = k + boosterNumber (sess st)).
Proof.
  intros s1 V Hne. split; [|split; [|split]].
  - intros st' p u H Hp.
    destruct (nextBooster_deals E st st' H Hne) as (st2 & E2 & ->).
    destruct (deal_all_assigns E _ _ _ 0 _ _ (getSortedVirtualPlayers_NoDup s1) E2 p u Hp)
      as (c & Hc & Hb & Hpk).
    exists c. split; [done|]. split; [|done].
    rewrite Hb. unfold assigned. subst s1.
    by rewrite getVirtualPlayersCount_at_deal, Z.add_0_l.
  - intros Hconn Hseats. rewrite (nextBooster_unfold E st Hne).
    destruct (deal_all_returns E (Draft.boosterOffset s1) (getVirtualPlayersCount (sess st))
                (getSortedVirtualPlayers s1) 0
                (Frame.with_sess (set_pickedCardsThisRound 0 s1) st) Hseats)
      as (st2 & E2 & Hs2 & Hd2).
    destruct (finish_deal_returns st2) as [st' E'].
    { intros u Hu. apply Hd2. cbn [Frame.with_sess conns]. apply Hconn.
      rewrite Hs2 in Hu. cbn [Frame.with_sess sess] in Hu.
      revert Hu. unfold s1, at_deal. destruct (boosters (sess st)); [done|].
      by case_bool_decide. }
    exists st'. unfold bind. fold s1. by rewrite E2.
  - intros k HV Hk Hlen.
    assert (Draft.boosterOffset s1 = (if Z.even k then - round s1 else round s1)) as Hoff.
    { unfold Draft.boosterOffset. fold V. rewrite Hlen. by rewrite evenRound_packs. }
    assert (Draft.boosterOffset s1 = claimed_offset s1
            ↔ Z.even (k + boosterNumber s1) = true ∨ round s1 = 0) as Hagree.
    { rewrite Hoff. unfold claimed_offset. rewrite Z.even_add.
      destruct (Z.even k), (Z.even (boosterNumber s1)); cbn [Bool.eqb]; split;
        intros H; try (by left); try done; try (right; lia);
        destruct H as [H|H]; try discriminate H; lia. }
    split; [done|]. split; [done|].
    intros Hinv. rewrite Hagree, Hinv.
    change (boostersPerPlayer s1 + 1) with (Z.succ (boostersPerPlayer s1)).
    by rewrite Z.even_succ.
  - intros k first rest Hb Hfirst HV Hk Hlen. subst V s1.
    rewrite getVirtualPlayersCount_at_deal in *.
    destruct (at_deal_drained (sess st) k first rest Hb Hfirst HV Hk Hlen) as [H1 H2].
    split; [done|]. lia.
Qed.

(** C6 as stated fails with four boosters per player: in the first pack
    ([boosterNumber = 1], odd) after the first pick, Alice at position 0 of
    three seats receives booster 2 (offset [-1]), where the claim's offset
    [+1] designates booster 1. *)
Lemma nextBooster_direction_not_by_pack_number :
  ∃ st' c,
    Draft.nextBooster Examples.small_env Examples.four_pack_state = Ret (tt, st')
    ∧ boosterNumber (at_deal Examples.four_pack_table) = 1
    ∧ conns st' !! "alice" = Some c
    ∧ Conn.boosterIndex c = Some (Num 2)
    ∧ negMod (claimed_offset (at_deal Examples.four_pack_table) + 0)
        (getVirtualPlayersCount (at_deal Examples.four_pack_table)) = Num 1.
Proof.
  eexists. eexists. split; [vm_compute; reflexivity|].
  split; [reflexivity|]. split; [vm_compute; reflexivity|]. split; reflexivity.
Qed.

(** C6 (amended), at the table of Alice, Bob and Carol: [nextBooster]
    returns and Bob, at position 1, receives booster 0. *)
Lemma nextBooster_rotation_witness :
  ∃ st' c,
    Draft.nextBooster Examples.small_env Examples.four_pack_state = Ret (tt, st')
    ∧ conns st' !! "bob" = Some c
    ∧ Conn.boosterIndex c = Some (Num 0)
    ∧ Draft.boosterOffset (at_deal Examples.four_pack_table) = -1.
Proof.
  destruct (nextBooster_rotation Examples.small_env Examples.four_pack_state)
    as (Hidx & Hret & Hoff & _).
  { vm_compute. discriminate. }
  destruct Hret as [st' E'].
  { intros u Hu. vm_compute in Hu.
    repeat (apply elem_of_cons in Hu as [->|Hu]; [vm_compute; eauto|]).
    by apply elem_of_nil in Hu. }
  { vm_compute. repeat constructor; vm_compute; eauto. }
  destruct (Hidx st' 1%nat "bob" E') as (c & Hc & Hb & _); [reflexivity|].
  exists st', c. split; [exact E'|]. split; [exact Hc|]. split; [exact Hb|].
  destruct (Hoff 4) as [Ho _]; [reflexivity | lia | reflexivity |]. exact Ho.
Defined.

End RotationClaim.

(** ** The cards [pickCard] removes *)

Section RemovalFacts.
Import Session.

Lemma findIndex_from_lookup (x : string) (l : list string) :
  x ∈ l → ∀ i, ∃ n : nat,
    JS.findIndex_from (λ c, bool_decide (c = x)) l i = i + Z.of_nat n ∧ l !! n = Some x.
Proof.
  induction l as [|y l IH]; intros Hin i; [by apply elem_of_nil in Hin|].
  simpl. case_bool_decide as Hy.
  - exists 0%nat. subst y. split; [lia|done].
  - apply elem_of_cons in Hin as [->|Hin]; [done|].
    destruct (IH Hin (i + 1)) as (n & Hn & Hl). exists (S n). split; [lia|done].
Qed.

(** Removing a card that is in the booster removes one copy of it. *)
Lemma remove_card_present (x : string) (b : list string) :
  x ∈ b → b ≡ₚ x :: Draft.remove_card x b.
Proof.
  intros Hin. unfold Draft.remove_card, JS.findIndex.
  destruct (findIndex_from_lookup x b Hin 0) as (n & -> & Hn).
  unfold JS.splice1. cbv zeta.
  pose proof (lookup_lt_Some _ _ _ Hn) as Hlt.
  rewrite (proj2 (Z.ltb_ge _ _)) by lia.
  rewrite Z.min_l by lia. replace (Z.to_nat (0 + Z.of_nat n)) with n by lia.
  by apply delete_Permutation.
Qed.

(** Removing a card that is not in a non-empty booster removes its last
    card: [findIndex] answers [-1] and [splice(-1, 1)] counts from the end. *)
Lemma remove_card_absent (x : string) (b : list string) (y : string) :
  x ∉ b ++ [y] → Draft.remove_card x (b ++ [y]) = b.
Proof.
  intros Hno. unfold Draft.remove_card, JS.findIndex.
  assert (∀ l i, x ∉ l → JS.findIndex_from (λ c, bool_decide (c = x)) l i = -1) as Habs.
  { induction l as [|z l IH]; intros i Hl; [done|]. simpl.
    apply not_elem_of_cons in Hl as [Hz Hl]. rewrite bool_decide_eq_false_2 by done.
    by apply IH. }
  rewrite Habs by done. unfold JS.splice1. cbv zeta.
  rewrite length_app. simpl.
  replace (Z.to_nat (Z.max (Z.of_nat (length b + 1) + -1) 0)) with (length b) by lia.
  rewrite delete_middle. by rewrite app_nil_r.
Qed.

End RemovalFacts.

Section RemovalClaim.
Import Session.

(** C10 does not hold of the code.  With one burned card per pick Alice
    picks "a" from the booster a, b, c and lists the same "a" as burned: the
    pick is acknowledged, and the booster is left with "b" alone.  The card
    "c", neither picked nor listed as burned, was removed; the removed cards
    are a and c, not a and a. *)
Lemma pickCard_burn_removes_unlisted_card :
  ∃ st1,
    Draft.pickCard Examples.small_env "alice" "a" (Some ["a"]) Examples.burn_state
    = Ret (Some Draft.AckOk, st1)
    ∧ Draft.booster_at (sess Examples.burn_state) (Num 0) = Some ["a"; "b"; "c"]
    ∧ Draft.booster_at (sess st1) (Num 0) = Some ["b"]
    ∧ Draft.remove_picked "a" (Some ["a"]) ["a"; "b"; "c"] = ["b"].
Proof.
  eexists. split; [vm_compute; reflexivity|]. repeat split; vm_compute; reflexivity.
Qed.

(** What does hold: when the picked card and the burned cards, counted with
    their multiplicities, are all in the booster, [pickCard] removes exactly
    them. *)
Lemma remove_picked_exact (cardID : string) (burned booster : list string) :
  cardID :: burned ⊆+ booster →
  booster ≡ₚ cardID :: burned ++ Draft.remove_picked cardID (Some burned) booster.
Proof.
  intros Hsub. unfold Draft.remove_picked. simpl.
  assert (cardID ∈ booster) as Hin.
  { eapply elem_of_submseteq; [|exact Hsub]. left. }
  pose proof (remove_card_present cardID booster Hin) as Hp.
  rewrite Hp in Hsub. apply submseteq_app_inv_l with (k := [cardID]) in Hsub.
  rewrite Hp at 1. f_equiv.
  revert Hsub. generalize (Draft.remove_card cardID booster). clear.
  induction burned as [|x burned IH]; intros b Hsub; simpl; [done|].
  assert (x ∈ b) as Hx.
  { eapply elem_of_submseteq; [|exact Hsub]. left. }
  pose proof (remove_card_present x b Hx) as Hp.
  rewrite Hp in Hsub. apply submseteq_app_inv_l with (k := [x]) in Hsub.
  rewrite Hp at 1. f_equiv. by apply IH.
Qed.

Lemma remove_picked_exact_witness :
  ["a"; "b"; "c"] ≡ₚ "a" :: ["b"] ++ Draft.remove_picked "a" (Some ["b"]) ["a"; "b"; "c"].
Proof.
  apply remove_picked_exact. do 2 apply submseteq_skip. apply submseteq_nil_l.
Defined.

End RemovalClaim.

(** ** The option setters of the owner *)

Section OptionFacts.
Import Frame Server Session.

Lemma session_of_ok u c s w :
  Connections w !! u = Some c →
  Sessions w !! key_of (Conn.sessionID c) = Some s →
  session_of u w = Ret ((key_of (Conn.sessionID c), s), w).
Proof.
  intros Hc Hs. unfold session_of, wconn, wsession. wunfold. rewrite Hc. wunfold.
  by rewrite Hs.
Qed.

Lemma emit_others_ok u us e w :
  (∀ v, v ∈ us → v ≠ u → is_Some (Connections w !! v)) →
  emit_others u us e w = Ret (tt, wadd_out (others u us e) w).
Proof.
  unfold emit_others, others. revert w.
  induction us as [|v us IH]; intros w Hus.
  - simpl. unfold ret, wadd_out. rewrite app_nil_r. by destruct w.
  - cbn [forM_]. unfold bind at 1. rewrite filter_cons. case_bool_decide as Hv.
    + destruct (Hus v) as [c Hc]; [left | done |].
      destruct (decide (v ≠ u)) as [_|]; [|done].
      unfold wemit, wconn. wunfold. rewrite Hc. wunfold.
      rewrite IH.
      * unfold wadd_out. cbn [Connections Sessions outbox wrng].
        rewrite fmap_cons. by rewrite <- app_assoc.
      * intros v' Hv' Hne. cbn [Connections]. apply Hus; [by right | done].
    + destruct (decide (v ≠ u)) as [|_]; [done|]. unfold ret at 1. cbv beta iota.
      apply IH. intros v' Hv' Hne. apply Hus; [by right | done].
Qed.

End OptionFacts.

Section OptionClaim.
Import Frame Server Session.

(** C5 does not hold of the code for [ignoreCollections] and
    [setRestriction].  In the lobby of Alice (the owner) and Bob,
    [ignoreCollections] is false and the restriction is the set "thb"; Alice
    sends the same values again, and Bob is sent both events: the handler of
    [ignoreCollections] has no test on the current value, and that of
    [setRestriction] compares the received array with the stored one by
    identity. *)
Lemma unguarded_setters_echo :
  ignoreCollections Examples.lobby = false
  ∧ on_ignoreCollections "alice" false Examples.lobby_world
    = Ret (tt, wadd_out [(ToUser "bob", EvIgnoreCollections false)] Examples.lobby_world)
  ∧ setRestriction Examples.lobby = ["thb"]
  ∧ on_setRestriction Examples.small_env "alice" ["thb"] false Examples.lobby_world
    = Ret (tt, wadd_out [(ToUser "bob", EvSetRestriction ["thb"])] Examples.lobby_world).
Proof. repeat split; vm_compute; reflexivity. Qed.

(** The setters that do test the current value: sent the value the session
    already has, they change nothing and send nothing. *)
Lemma guarded_setters_idempotent (w : World) (u : string) (c : Conn.t) (s : Session.t) :
  Connections w !! u = Some c →
  Sessions w !! key_of (Conn.sessionID c) = Some s →
  on_bots u (Num (bots s)) w = Ret (tt, w)
  ∧ on_boostersPerPlayer u (Num (boostersPerPlayer s)) w = Ret (tt, w)
  ∧ on_setColorBalance u (colorBalance s) w = Ret (tt, w)
  ∧ on_setUseCustomCardList u (useCustomCardList s) w = Ret (tt, w)
  ∧ on_setPublic u (isPublic s) w = Ret (tt, w).
Proof.
  intros Hc Hs.
  unfold on_bots, on_boostersPerPlayer, on_setColorBalance, on_setUseCustomCardList,
    on_setPublic.
  unfold bind. rewrite (session_of_ok u c s w Hc Hs). cbv beta iota.
  rewrite !Z.eqb_refl. rewrite !(bool_decide_eq_true_2 (_ = _)) by done.
  repeat split; by case_bool_decide.
Qed.

Lemma guarded_setters_idempotent_witness :
  on_bots "alice" (Num 0) Examples.lobby_world = Ret (tt, Examples.lobby_world)
  ∧ on_setColorBalance "alice" true Examples.lobby_world = Ret (tt, Examples.lobby_world).
Proof.
  destruct (guarded_setters_idempotent Examples.lobby_world "alice"
              (Examples.conn "alice" (Some "s")) Examples.lobby) as (H1 & _ & H3 & _);
    [reflexivity | reflexivity |].
  split; [exact H1 | exact H3].
Defined.

(** Sent a new value by the owner, they store it and send the event to
    every user of the session but the owner. *)
Lemma guarded_setters_broadcast (w : World) (u : string) (c : Conn.t) (s : Session.t)
    (n : Z) (b : bool) :
  Connections w !! u = Some c →
  Sessions w !! key_of (Conn.sessionID c) = Some s →
  owner s = u →
  (∀ v, v ∈ users s → v ≠ u → is_Some (Connections w !! v)) →
  let k := key_of (Conn.sessionID c) in
  (n ≠ bots s →
   on_bots u (Num n) w
   = Ret (tt, wadd_out (others u (users s) (EvBots n))
                (with_sessions (<[k := set_bots n s]> (Sessions w)) w)))
  ∧ (n ≠ boostersPerPlayer s →
     on_boostersPerPlayer u (Num n) w
     = Ret (tt, wadd_out (others u (users s) (EvBoostersPerPlayer n))
                  (with_sessions (<[k := set_boostersPerPlayer n s]> (Sessions w)) w)))
  ∧ (b ≠ colorBalance s →
     on_setColorBalance u b w
     = Ret (tt, wadd_out (others u (users s) (EvSessionOptionsColorBalance b))
                  (with_sessions (<[k := set_colorBalance b s]> (Sessions w)) w))).
Proof.
  intros Hc Hs Ho Hus k.
  unfold on_bots, on_boostersPerPlayer, on_setColorBalance.
  unfold bind at 1 3 5. rewrite (session_of_ok u c s w Hc Hs). cbv beta iota.
  rewrite !(bool_decide_eq_false_2 (owner s ≠ u)) by (intros H; by apply H).
  split; [|split]; intros Hne.
  - rewrite (proj2 (Z.eqb_neq _ _)) by done. unfold bind.
    rewrite (with_session_modify _ s) by done. by rewrite emit_others_ok.
  - rewrite (proj2 (Z.eqb_neq _ _)) by done. unfold bind.
    rewrite (with_session_modify _ s) by done. by rewrite emit_others_ok.
  - rewrite bool_decide_eq_false_2 by done. unfold bind.
    rewrite (with_session_modify _ s) by done. by rewrite emit_others_ok.
Qed.

Lemma guarded_setters_broadcast_witness :
  on_bots "alice" (Num 2) Examples.lobby_world
  = Ret (tt, wadd_out [(ToUser "bob", EvBots 2)]
               (with_sessions {["s" := set_bots 2 Examples.lobby]} Examples.lobby_world)).
Proof.
  destruct (guarded_setters_broadcast Examples.lobby_world "alice"
              (Examples.conn "alice" (Some "s")) Examples.lobby 2 false) as (H1 & _);
    [reflexivity | reflexivity | reflexivity | |].
  { intros v Hv Hne. vm_compute in Hv.
    repeat (apply elem_of_cons in Hv as [->|Hv]; [vm_compute; eauto|]).
    by apply elem_of_nil in Hv. }
  rewrite H1 by done. vm_compute. reflexivity.
Defined.

End OptionClaim.

(** ** Winston draft *)

Section WinstonFacts.
Import Keeps Session SessionOps WinstonDraft.

Lemma keeps_conns_pile w i : keeps_conns (pile w i).
Proof. unfold pile. keeps_conns_tac. Qed.

Lemma keeps_conns_first_pile w n : ∀ cp, keeps_conns (first_pile w n cp).
Proof.
  induction n as [|n IH]; intros cp; cbn [first_pile]; [apply keeps_conns_ret|].
  destruct (cp <? 3); [|apply keeps_conns_ret].
  apply keeps_conns_bind; [apply keeps_conns_pile|]. intros p.
  destruct (bool_decide (length p = 0%nat)); [apply IH | apply keeps_conns_ret].
Qed.

Lemma keeps_conns_endWinstonDraft : keeps_conns endWinstonDraft.
Proof. unfold endWinstonDraft. keeps_conns_tac. Qed.

Lemma keeps_conns_winstonNextRound : keeps_conns winstonNextRound.
Proof.
  unfold winstonNextRound.
  apply keeps_conns_bind; [apply keeps_conns_get_sess|]. intros s.
  destruct (winstonDraftState s) as [w|]; [|apply keeps_conns_throw].
  apply keeps_conns_bind; [apply keeps_conns_first_pile|]. intros cp.
  apply keeps_conns_bind; [unfold put_w; apply keeps_conns_modify_sess|]. intros _.
  destruct (3 <=? cp); [apply keeps_conns_endWinstonDraft|].
  apply keeps_conns_forM. intros u. keeps_conns_tac.
Qed.

End WinstonFacts.

Section WinstonClaim.
Import Keeps Session SessionOps WinstonDraft WinstonSpec.

(** C7 does not hold of the code.  Alice and Bob start a Winston draft of
    one booster (fourteen cards); Alice skips the three piles, then the
    players take piles until the draft ends.  The card popped from the pool
    when the last pile is skipped is sent to Alice's client by
    [winstonDraftRandomCard] and recorded nowhere: at the end of the draft
    the two players hold thirteen cards, one fewer than were generated. *)
Lemma winston_random_card_not_recorded :
  ∃ st0 st1,
    WinstonDraft.startWinstonDraft Examples.small_env 1 Examples.lobby_state
    = Ret (Some true, st0)
    ∧ length (concat (boosters (sess st0))) = 14%nat
    ∧ play ([Skip; Skip; Skip] ++ replicate 10 Take) st0 = Ret (tt, st1)
    ∧ winstonDraftState (sess st1) = None
    ∧ drafting (sess st1) = false
    ∧ last (out st1) = Some (ToUser "bob", EvWinstonDraftEnd)
    ∧ random_cards (out st1) = [Some "c1"]
    ∧ picked_total st1 = 13%nat.
Proof.
  eexists. eexists. split; [vm_compute; reflexivity|].
  split; [reflexivity|]. split; [vm_compute; reflexivity|].
  repeat split; vm_compute; reflexivity.
Qed.

(** When no pile is ever skipped the count is right: with fourteen takes
    the same draft ends with all fourteen cards picked. *)
Lemma winston_takes_only :
  ∃ st0 st1,
    WinstonDraft.startWinstonDraft Examples.small_env 1 Examples.lobby_state
    = Ret (Some true, st0)
    ∧ play (replicate 14 Take) st0 = Ret (tt, st1)
    ∧ winstonDraftState (sess st1) = None
    ∧ random_cards (out st1) = []
    ∧ picked_total st1 = length (concat (boosters (sess st0))).
Proof.
  eexists. eexists. split; [vm_compute; reflexivity|].
  split; [vm_compute; reflexivity|]. repeat split; vm_compute; reflexivity.
Qed.

(** In general: [winstonSkipPile] never changes a connection, so no card is
    ever added to a player's [pickedCards] by a skip; the card popped for
    [winstonDraftRandomCard] leaves the pool and reaches no list. *)
Lemma winstonSkipPile_keeps_picks (st : St) (r : bool) (st' : St) :
  winstonSkipPile st = Ret (r, st') → conns st' = conns st.
Proof.
  assert (∀ depth, keeps_conns (winstonSkipPile_rec depth)) as Hrec.
  { induction depth as [|depth IH]; cbn [winstonSkipPile_rec]; [apply keeps_conns_stuck|].
    apply keeps_conns_bind; [apply keeps_conns_get_sess|]. intros s.
    destruct (winstonDraftState s) as [w|]; [|apply keeps_conns_ret].
    destruct (negb (drafting s)); [apply keeps_conns_ret|].
    cbv zeta.
    apply keeps_conns_bind.
    { destruct (negb (bool_decide (length (Winston.cardPool w) = 0%nat)));
        [apply keeps_conns_ret|].
      destruct (Winston.currentPile w =? 0).
      - apply keeps_conns_bind; [apply keeps_conns_pile|]. intros p1.
        destruct (bool_decide (length p1 = 0%nat)); [|apply keeps_conns_ret].
        apply keeps_conns_bind; [apply keeps_conns_pile|]. intros p2. apply keeps_conns_ret.
      - destruct (Winston.currentPile w =? 1); [|apply keeps_conns_ret].
        apply keeps_conns_bind; [apply keeps_conns_pile|]. intros p2. apply keeps_conns_ret. }
    intros no_choice. destruct no_choice; [apply keeps_conns_ret|].
    apply keeps_conns_bind.
    { match goal with |- keeps_conns (if ?b then _ else _) => destruct b end;
        [|apply keeps_conns_ret].
      apply keeps_conns_bind; [apply keeps_conns_pile|]. intros p.
      destruct (JS.pop (Winston.cardPool w)). apply keeps_conns_ret. }
    intros w1. destruct (Winston.currentPile w =? 2).
    - destruct (JS.pop (Winston.cardPool w1)) as [c pool'].
      apply keeps_conns_bind; [unfold put_w; apply keeps_conns_modify_sess|]. intros _.
      apply keeps_conns_bind.
      { destruct (currentPlayer w1); [apply keeps_conns_emit | apply keeps_conns_throw]. }
      intros _. apply keeps_conns_bind; [apply keeps_conns_winstonNextRound|].
      intros _. apply keeps_conns_ret.
    - apply keeps_conns_bind; [unfold put_w; apply keeps_conns_modify_sess|]. intros _.
      apply keeps_conns_bind; [apply keeps_conns_pile|]. intros p.
      apply keeps_conns_bind; [|intros _; apply keeps_conns_ret].
      destruct (bool_decide (length p = 0%nat)).
      + apply keeps_conns_bind; [apply IH | intros _; apply keeps_conns_ret].
      + apply keeps_conns_forM. intros u. apply keeps_conns_emit. }
  apply (Hrec 4%nat).
Qed.

(** [winstonTakePile] gives the whole current pile to the current player,
    and changes no other connection. *)
Lemma winstonTakePile_appends (st : St) (w : Winston.t) (u : string) (c : Conn.t)
    (ps : list (list string)) (p : list string) (r : bool) (st' : St) :
  winstonDraftState (sess st) = Some w →
  drafting (sess st) = true →
  currentPlayer w = Some u →
  conns st !! u = Some c →
  Winston.piles w = Some ps →
  JS.nth_Z ps (Winston.currentPile w) = Some p →
  winstonTakePile st = Ret (r, st') →
  r = true
  ∧ conns st' = <[u := Conn.set_pickedCards (Conn.pickedCards c ++ p) c]> (conns st).
Proof.
  intros Hw Hd Hu Hc Hps Hp. unfold winstonTakePile.
  unfold bind at 1, get_sess at 1. cbv beta iota. rewrite Hw, Hd. cbn [negb].
  rewrite Hu. unfold bind at 1, conn_of at 1, bind at 1, get_conns at 1. cbv beta iota.
  rewrite Hc. unfold ret at 1. cbv beta iota. rewrite Hps, Hp.
  unfold bind at 1. rewrite (modify_conn_ok u _ c st Hc).
  unfold bind at 1.
  match goal with
  | |- match ?m ?x with _ => _ end = _ → _ =>
      destruct (m x) as [[[] st1]| |] eqn:E1; [|done..];
      assert (conns st1 = conns x) as Hc1
  end.
  { revert E1. destruct (0 <? Z.of_nat (length (Winston.cardPool w))).
    - destruct (JS.pop (Winston.cardPool w)) as [x pool']. unfold put_w, modify_sess.
      by intros [= <-].
    - unfold put_w, modify_sess. by intros [= <-]. }
  unfold bind at 1.
  destruct (winstonNextRound st1) as [[[] st2]| |] eqn:E2; [|done..].
  unfold ret. intros [= <- <-]. split; [done|].
  rewrite (keeps_conns_winstonNextRound _ _ _ E2), Hc1. reflexivity.
Qed.

Lemma winstonSkipPile_keeps_picks_witness :
  ∃ st0 st1,
    startWinstonDraft Examples.small_env 1 Examples.lobby_state = Ret (Some true, st0)
    ∧ play [Skip; Skip] st0 = Ret (tt, st1)
    ∧ ∃ st2, winstonSkipPile st1 = Ret (true, st2) ∧ conns st2 = conns st1.
Proof.
  eexists. eexists. split; [vm_compute; reflexivity|]. split; [vm_compute; reflexivity|].
  eexists. split; [vm_compute; reflexivity|].
  eapply winstonSkipPile_keeps_picks. vm_compute. reflexivity.
Defined.

Lemma winstonTakePile_appends_witness :
  ∃ st0 st1,
    startWinstonDraft Examples.small_env 1 Examples.lobby_state = Ret (Some true, st0)
    ∧ winstonTakePile st0 = Ret (true, st1)
    ∧ conns st1
      = <["alice" := Conn.set_pickedCards ["r1"] (Examples.conn "alice" (Some "s"))]>
          (conns st0).
Proof.
  eexists. eexists. split; [vm_compute; reflexivity|]. split; [vm_compute; reflexivity|].
  refine (proj2 (winstonTakePile_appends _ _ "alice" (Examples.conn "alice" (Some "s"))
                   _ ["r1"] true _ _ _ _ _ _ _ _)); vm_compute; reflexivity.
Defined.

End WinstonClaim.

(** ** The boosters [generateBoosters] builds *)

Section DrawFacts.
Import Generator BoosterSpec.

Lemma getRandomKey_key (d : gmap string Z) g x g' :
  getRandomKey d g = (Some x, g') → is_Some (d !! x).
Proof.
  unfold getRandomKey, random_below. cbv beta zeta iota. intros [= H _].
  apply keys_elem. unfold JS.nth_Z in H.
  match type of H with (if ?b then _ else _) = _ => destruct b; [done|] end.
  by eapply list_elem_of_lookup_2.
Qed.

Lemma redraw_key n (d : gmap string Z) booster c g x g' :
  (∀ y, c = Some y → is_Some (d !! y)) →
  redraw n d booster c g = (Some x, g') → is_Some (d !! x).
Proof.
  revert c g. induction n as [|n IH]; intros c g Hc; cbn [redraw].
  - intros [= -> _]. by apply Hc.
  - destruct c as [y|]; [|done].
    destruct (JS.indexOf y booster =? -1).
    + intros [= -> _]. by apply Hc.
    + destruct (getRandomKey d g) as [c' g1] eqn:Hk. apply IH.
      intros z ->. by eapply getRandomKey_key.
Qed.

Lemma removeCardFromDict_shrinks c (d d' : gmap string Z) x :
  removeCardFromDict c d = Some d' → is_Some (d' !! x) → is_Some (d !! x).
Proof.
  unfold removeCardFromDict. destruct (d !! c) as [n|] eqn:Hc; [|done].
  intros [= <-]. destruct (n - 1 =? 0).
  - intros [v Hv]. apply lookup_delete_Some in Hv as [_ Hv]. by eexists.
  - destruct (decide (x = c)) as [->|Hne]; [by eexists|].
    by rewrite lookup_insert_ne.
Qed.

(** The bags of two generator states are the same. *)
Lemma pick_card_spec dict booster st c d' st' :
  pick_card dict booster st = Ret ((c, d'), st') →
  is_Some (dict !! c)
  ∧ (∀ x, is_Some (d' !! x) → is_Some (dict !! x))
  ∧ lc st' = lc st ∧ commonsByColor st' = commonsByColor st ∧ land st' = land st.
Proof.
  unfold pick_card, bind, gen_rng.
  destruct (getRandomKey dict (grng st)) as [c0 g0] eqn:H0.
  destruct booster as [b|].
  - cbn [grng]. destruct (redraw _ dict b c0 g0) as [c1 g1] eqn:H1.
    destruct c1 as [x|]; [|done].
    destruct (removeCardFromDict x dict) as [d1|] eqn:Hr; [|done].
    unfold ret. intros [= <- <- <-]. cbn.
    split; [|split; [|done]].
    + eapply redraw_key; [|exact H1]. intros y ->. by eapply getRandomKey_key.
    + intros y. by eapply removeCardFromDict_shrinks.
  - unfold ret at 1. destruct c0 as [x|]; [|done].
    destruct (removeCardFromDict x dict) as [d1|] eqn:Hr; [|done].
    unfold ret. intros [= <- <- <-]. cbn.
    split; [|split; [|done]].
    + by eapply getRandomKey_key.
    + intros y. by eapply removeCardFromDict_shrinks.
Qed.

End DrawFacts.

Section TripleFacts.
Import Generator BoosterSpec.
Context (E : Env).

Lemma triple_ret {A} (P : GenSt → Prop) (a : A) (Q : A → GenSt → Prop) :
  (∀ st, P st → Q a st) → triple P (ret a) Q.
Proof. intros H st a' st' HP [= <- <-]. by apply H. Qed.

Lemma triple_bind {A B} (P : GenSt → Prop) (m : SM GenSt A) (R : A → GenSt → Prop)
    (k : A → SM GenSt B) (Q : B → GenSt → Prop) :
  triple P m R → (∀ a, triple (R a) (k a) Q) → triple P (x <- m ;; k x) Q.
Proof.
  intros Hm Hk st b st' HP. unfold bind.
  destruct (m st) as [[a st1]| |] eqn:E1; [|done..].
  intros H. eapply Hk; [|exact H]. by eapply Hm.
Qed.

Lemma triple_weaken {A} (P P' : GenSt → Prop) (m : SM GenSt A) (Q Q' : A → GenSt → Prop) :
  triple P' m Q' → (∀ st, P st → P' st) → (∀ a st, Q' a st → Q a st) → triple P m Q.
Proof. intros H HP HQ st a st' Hst Hm. apply HQ. eapply H; [by apply HP | done]. Qed.

Lemma triple_get (P : GenSt → Prop) : triple P gen_get (λ a st, a = st ∧ P st).
Proof. by intros st a st' HP [= <- <-]. Qed.

Lemma triple_rng {A} (f : Rng → A * Rng) :
  triple (sound_bags E) (gen_rng f) (λ _ st, sound_bags E st).
Proof.
  intros st a st' HP. unfold gen_rng. destruct (f (grng st)) as [a0 g].
  by intros [= <- <-].
Qed.

(** A draw from the bag of rarity [r] gives a card of that rarity. *)
Lemma triple_pick_rarity r booster :
  triple (sound_bags E) (pick_rarity r booster)
    (λ c st, sound_bags E st ∧ rarity_of E c = Some r).
Proof.
  intros st c st' [Hlc Hcol]. unfold pick_rarity, bind, gen_get.
  destruct (pick_card (lc st r) booster st) as [[[c0 d] st1]| |] eqn:Hp; [|done..].
  unfold put_bag, ret. intros [= <- <-].
  apply pick_card_spec in Hp as (Hin & Hsub & Hl & Hc & _).
  split; [split|].
  - intros r' x. cbn [lc]. unfold set_bag. destruct (decide (r' = r)) as [->|_].
    + intros Hx. apply Hlc. by apply Hsub.
    + rewrite Hl. apply Hlc.
  - cbn [commonsByColor]. rewrite Hc. apply Hcol.
  - by apply Hlc.
Qed.

Lemma triple_remove_from_color card :
  triple (sound_bags E) (remove_from_color E card) (λ _ st, sound_bags E st).
Proof.
  intros st [] st' [Hlc Hcol]. unfold remove_from_color, bind, gen_get.
  destruct (Cards E !! card) as [f|]; [|done].
  destruct (commonsByColor st !! Card.color_identity f) as [d|] eqn:Hd; [|done].
  destruct (removeCardFromDict card d) as [d'|] eqn:Hr; [|done].
  unfold put_color. intros [= <-]. split; [done|].
  intros col bag c. cbn [commonsByColor].
  destruct (decide (col = Card.color_identity f)) as [->|Hne].
  - rewrite lookup_insert_eq. intros [= <-] Hc.
    apply (Hcol (Card.color_identity f) d); [done|].
    by eapply removeCardFromDict_shrinks.
  - rewrite lookup_insert_ne by done. apply Hcol.
Qed.

Lemma triple_remove_from_common card :
  triple (sound_bags E) (remove_from_common card) (λ _ st, sound_bags E st).
Proof.
  intros st [] st' [Hlc Hcol]. unfold remove_from_common, bind, gen_get.
  destruct (removeCardFromDict card (lc st common)) as [d'|] eqn:Hr; [|done].
  unfold put_bag. intros [= <-]. split; [|done].
  intros r c. cbn [lc]. unfold set_bag. destruct (decide (r = common)) as [->|_].
  - intros Hc. apply Hlc. by eapply removeCardFromDict_shrinks.
  - apply Hlc.
Qed.

End TripleFacts.

Section LoopFacts.
Import Generator BoosterSpec.
Context (E : Env).

Lemma triple_foil_loop colorBalance rarityCheck freqs :
  triple (sound_bags E) (foil_loop E colorBalance rarityCheck freqs)
    (λ foils st, sound_bags E st ∧ (length foils ≤ 1)%nat
                 ∧ Forall (λ c, is_Some (rarity_of E c)) foils).
Proof.
  induction freqs as [|[r [num den]] freqs IH]; cbn [foil_loop].
  - apply triple_ret. intros st Hs. split; [done|]. split; [simpl; lia | constructor].
  - eapply triple_bind; [apply (triple_get (sound_bags E))|].
    intros st0. cbv beta.
    destruct (le_frac rarityCheck num den && negb (isEmpty (lc st0 r))).
    + eapply triple_bind.
      { eapply triple_weaken; [apply (triple_pick_rarity E r None) | by intros st [_ H] | ].
        intros a st H. exact H. }
      intros c. cbv beta. destruct (Cards E !! c) as [f|] eqn:Hf.
      2:{ intros st a st' _. done. }
      eapply triple_bind with (R := λ _ st, sound_bags E st ∧ rarity_of E c = Some r).
      { destruct (colorBalance && bool_decide (Card.rarity f = common)).
        - intros st a st' [Hs Hr] H. split; [|done].
          by eapply (triple_remove_from_color E c).
        - apply triple_ret. by intros st H. }
      intros _. apply triple_ret. intros st [Hs Hr]. split; [done|].
      split; [simpl; lia|]. constructor; [|constructor]. rewrite Hr. by eexists.
    + eapply triple_weaken; [exact IH | by intros st [_ H] | by intros a st H].
Qed.

Lemma triple_rare_loop maxRarity n :
  ∀ booster,
    triple (sound_bags E) (rare_loop maxRarity n booster)
      (λ r st, sound_bags E st
               ∧ ∀ b, r = Some b →
                   ∃ rares, b = booster ++ rares ∧ length rares = n
                            ∧ Forall (rare_slot E maxRarity) rares).
Proof.
  induction n as [|n IH]; intros booster; cbn [rare_loop].
  - apply triple_ret. intros st Hs. split; [done|]. intros b [= <-].
    exists []. by rewrite app_nil_r.
  - eapply triple_bind; [apply (triple_get (sound_bags E))|].
    intros st0. cbv beta.
    destruct (isEmpty (lc st0 mythic) && isEmpty (lc st0 rare)).
    { apply triple_ret. intros st [_ Hs]. split; [done|]. by intros b. }
    eapply triple_bind with (R := λ c st, sound_bags E st ∧ rare_slot E maxRarity c).
    { assert (triple (λ st, st0 = st ∧ sound_bags E st) (pick_rarity rare None)
                (λ c st, sound_bags E st ∧ rare_slot E maxRarity c)) as Hrare.
      { eapply triple_weaken; [apply (triple_pick_rarity E rare None) | by intros st [_ H] |].
        intros c st [Hs Hr]. split; [done|]. by left. }
      destruct (isEmpty (lc st0 mythic)); [exact Hrare|].
      destruct (String.eqb maxRarity "mythic") eqn:Hmax; [|exact Hrare].
      apply String.eqb_eq in Hmax.
      assert (triple (sound_bags E) (pick_rarity mythic None)
                (λ c st, sound_bags E st ∧ rare_slot E maxRarity c)) as Hmythic.
      { eapply triple_weaken; [apply (triple_pick_rarity E mythic None) | done |].
        intros c st [Hs Hr]. split; [done|]. by right. }
      destruct (isEmpty (lc st0 rare)); cbn [andb].
      - eapply triple_weaken; [exact Hmythic | by intros st [_ H] | done].
      - eapply triple_bind with (R := λ _ st, sound_bags E st).
        + eapply triple_weaken; [apply (triple_rng E) | by intros st [_ H] | done].
        + intros x. destruct (times_lt1 x 8); [exact Hmythic|].
          eapply triple_weaken; [apply (triple_pick_rarity E rare None) | done |].
          intros c st [Hs Hr]. split; [done|]. by left. }
    intros c. intros st r st' [Hs Hc] H.
    destruct (IH (booster ++ [c]) st r st' Hs H) as [Hs' Hr]. split; [done|].
    intros b Hb. destruct (Hr b Hb) as (rares & -> & Hlen & Hall).
    exists (c :: rares). rewrite <- app_assoc. split; [done|].
    split; [simpl; lia|]. by constructor.
Qed.

Lemma triple_uncommon_loop n :
  ∀ booster,
    triple (sound_bags E) (uncommon_loop n booster)
      (λ b st, sound_bags E st
               ∧ ∃ cs, b = booster ++ cs ∧ length cs = n
                       ∧ Forall (λ c, rarity_of E c = Some uncommon) cs).
Proof.
  induction n as [|n IH]; intros booster; cbn [uncommon_loop].
  - apply triple_ret. intros st Hs. split; [done|]. exists []. by rewrite app_nil_r.
  - eapply triple_bind; [apply (triple_pick_rarity E uncommon)|].
    intros c st b st' [Hs Hc] H.
    destruct (IH (booster ++ [c]) st b st' Hs H) as [Hs' (cs & -> & Hlen & Hall)].
    split; [done|]. exists (c :: cs). rewrite <- app_assoc. split; [done|].
    split; [simpl; lia|]. by constructor.
Qed.

Lemma triple_common_loop colorBalance n :
  ∀ pickedCommons,
    triple (sound_bags E) (common_loop E colorBalance n pickedCommons)
      (λ b st, sound_bags E st
               ∧ ∃ cs, b = pickedCommons ++ cs ∧ length cs = n
                       ∧ Forall (λ c, rarity_of E c = Some common) cs).
Proof.
  induction n as [|n IH]; intros picked; cbn [common_loop].
  - apply triple_ret. intros st Hs. split; [done|]. exists []. by rewrite app_nil_r.
  - eapply triple_bind; [apply (triple_pick_rarity E common)|].
    intros c. cbv beta.
    eapply triple_bind with (R := λ _ st, sound_bags E st ∧ rarity_of E c = Some common).
    { destruct colorBalance.
      - intros st a st' [Hs Hr] H. split; [|done].
        by eapply (triple_remove_from_color E c).
      - apply triple_ret. by intros st H. }
    intros _ st b st' [Hs Hc] H.
    destruct (IH (picked ++ [c]) st b st' Hs H) as [Hs' (cs & -> & Hlen & Hall)].
    split; [done|]. exists (c :: cs). rewrite <- app_assoc. split; [done|].
    split; [simpl; lia|]. by constructor.
Qed.

End LoopFacts.

Section BoosterFacts.
Import Generator BoosterSpec.
Context (E : Env).

Lemma triple_balance_loop colors :
  ∀ pickedCommons,
    triple (sound_bags E) (balance_loop colors pickedCommons)
      (λ b st, sound_bags E st
               ∧ ∃ cs, b = pickedCommons ++ cs ∧ (length cs ≤ length colors)%nat
                       ∧ Forall (λ c, rarity_of E c = Some common) cs).
Proof.
  induction colors as [|col colors IH]; intros picked; cbn [balance_loop].
  - apply triple_ret. intros st Hs. split; [done|]. exists []. by rewrite app_nil_r.
  - assert (triple (sound_bags E) (balance_loop colors picked)
              (λ b st, sound_bags E st
                 ∧ ∃ cs, b = picked ++ cs ∧ (length cs ≤ length (col :: colors))%nat
                         ∧ Forall (λ c, rarity_of E c = Some common) cs)) as Hskip.
    { eapply triple_weaken; [apply IH | done |].
      intros b st [Hs (cs & -> & Hlen & Hall)]. split; [done|].
      exists cs. split; [done|]. split; [simpl; lia | done]. }
    intros st b st' Hs. unfold bind at 1, gen_get at 1.
    destruct (commonsByColor st !! col) as [bag|] eqn:Hbag; [|by apply Hskip].
    destruct (isEmpty bag); cbn [negb]; [by apply Hskip|].
    unfold bind at 1.
    destruct (pick_card bag (Some picked) st) as [[[c bag'] st1]| |] eqn:Hp; [|done..].
    apply pick_card_spec in Hp as (Hin & Hsub & Hl & Hc & _).
    destruct Hs as [Hlc Hcol].
    assert (rarity_of E c = Some common) as Hcommon by (by apply (Hcol col bag)).
    unfold bind at 1, put_color at 1.
    unfold bind at 1.
    match goal with
    | |- match remove_from_common c ?x with _ => _ end = _ → _ =>
        destruct (remove_from_common c x) as [[[] st3]| |] eqn:H3; [|done..];
        assert (sound_bags E x) as Hs2
    end.
    { split; cbn [lc commonsByColor].
      - rewrite Hl. apply Hlc.
      - intros col' bag0 x. rewrite Hc.
        destruct (decide (col' = col)) as [->|Hne].
        + rewrite lookup_insert_eq. intros [= <-] Hx. apply (Hcol col bag); [done|].
          by apply Hsub.
        + rewrite lookup_insert_ne by done. apply Hcol. }
    pose proof (triple_remove_from_common E c _ _ _ Hs2 H3) as Hs3.
    intros H. destruct (IH (picked ++ [c]) st3 b st' Hs3 H) as [Hs' (cs & -> & Hlen & Hall)].
    split; [done|]. exists (c :: cs). rewrite <- app_assoc. split; [done|].
    split; [simpl; lia|]. by constructor.
Qed.

Lemma triple_land_pick :
  triple (sound_bags E) land_pick (λ lands st, sound_bags E st ∧ (length lands ≤ 1)%nat).
Proof.
  intros st lands st' Hs. unfold land_pick, bind, gen_get.
  destruct (land st) as [a|].
  - unfold gen_rng. destruct (ls_pick (al_slot a) (al_state a) (grng st)) as [[c s'] g'].
    unfold put_land, ret. intros [= <- <-]. split; [done|]. simpl. lia.
  - unfold ret. intros [= <- <-]. split; [done|]. simpl. lia.
Qed.

Lemma swap_Forall {A} (P : A → Prop) i j (l : list A) :
  Forall P l → Forall P (swap i j l).
Proof.
  intros H. unfold swap.
  destruct (l !! i) as [x|] eqn:Hi; [|done]. destruct (l !! j) as [y|] eqn:Hj; [|done].
  apply Forall_insert; [apply Forall_insert; [done|]|].
  - by eapply Forall_lookup_1.
  - by eapply Forall_lookup_1.
Qed.

Lemma swap_length {A} i j (l : list A) : length (swap i j l) = length l.
Proof.
  unfold swap. destruct (l !! i); [|done]. destruct (l !! j); [|done].
  by rewrite !length_insert.
Qed.

(** [shuffleArray] keeps the length of the array and moves its elements. *)
Lemma shuffleArray_keeps {A} (P : A → Prop) (l : list A) g :
  length (shuffleArray l g).1 = length l
  ∧ (Forall P l → Forall P (shuffleArray l g).1).
Proof.
  unfold shuffleArray. generalize (length l - 1)%nat. intros n. revert l g.
  induction n as [|n IH]; intros l g; cbn [shuffle_from]; [done|].
  destruct (floor_random_times (Z.of_nat (S n) + 1) g) as [j g'].
  destruct (IH (swap (S n) (Z.to_nat j) l) g') as [Hlen Hall].
  split.
  - by rewrite Hlen, swap_length.
  - intros H. by apply Hall, swap_Forall.
Qed.

End BoosterFacts.

Section LandFacts.
Import Generator BoosterSpec.
Context (E : Env).

Lemma keeps_ret {A} (a : A) : keeps_land (ret a).
Proof. by intros st a' st' [= _ <-]. Qed.

Lemma keeps_bind {A B} (m : SM GenSt A) (k : A → SM GenSt B) :
  keeps_land m → (∀ a, keeps_land (k a)) → keeps_land (x <- m ;; k x).
Proof.
  intros Hm Hk st b st'. unfold bind.
  destruct (m st) as [[a st1]| |] eqn:E1; [|done..].
  intros H. rewrite (Hk a _ _ _ H). by eapply Hm.
Qed.

Lemma keeps_get : keeps_land gen_get.
Proof. by intros st a st' [= _ <-]. Qed.

Lemma keeps_rng {A} (f : Rng → A * Rng) : keeps_land (gen_rng f).
Proof.
  intros st a st'. unfold gen_rng. destruct (f (grng st)) as [a0 g].
  by intros [= _ <-].
Qed.

Lemma keeps_put_bag r d : keeps_land (put_bag r d).
Proof. by intros st a st' [= _ <-]. Qed.

Lemma keeps_put_color col d : keeps_land (put_color col d).
Proof. by intros st a st' [= _ <-]. Qed.

Lemma keeps_pick_card dict booster : keeps_land (pick_card dict booster).
Proof.
  intros st [c d] st' H. by apply pick_card_spec in H as (_ & _ & _ & _ & ->).
Qed.

Lemma keeps_pick_rarity r booster : keeps_land (pick_rarity r booster).
Proof.
  unfold pick_rarity. apply keeps_bind; [apply keeps_get|]. intros st0.
  apply keeps_bind; [apply keeps_pick_card|]. intros [c d].
  apply keeps_bind; [apply keeps_put_bag|]. intros _. apply keeps_ret.
Qed.

Lemma keeps_remove_from_color card : keeps_land (remove_from_color E card).
Proof.
  unfold remove_from_color. apply keeps_bind; [apply keeps_get|]. intros st0.
  destruct (Cards E !! card) as [f|]; [|done].
  destruct (commonsByColor st0 !! Card.color_identity f) as [d|]; [|done].
  destruct (removeCardFromDict card d) as [d'|]; [|done].
  apply keeps_put_color.
Qed.

Lemma keeps_remove_from_common card : keeps_land (remove_from_common card).
Proof.
  unfold remove_from_common. apply keeps_bind; [apply keeps_get|]. intros st0.
  destruct (removeCardFromDict card (lc st0 common)) as [d'|]; [|done].
  apply keeps_put_bag.
Qed.

Lemma keeps_foil_loop colorBalance rarityCheck freqs :
  keeps_land (foil_loop E colorBalance rarityCheck freqs).
Proof.
  induction freqs as [|[r [num den]] freqs IH]; cbn [foil_loop]; [apply keeps_ret|].
  apply keeps_bind; [apply keeps_get|]. intros st0.
  destruct (le_frac rarityCheck num den && negb (isEmpty (lc st0 r))); [|exact IH].
  apply keeps_bind; [apply keeps_pick_rarity|]. intros c.
  destruct (Cards E !! c) as [f|]; [|done].
  apply keeps_bind; [|intros _; apply keeps_ret].
  destruct (colorBalance && bool_decide (Card.rarity f = common));
    [apply keeps_remove_from_color | apply keeps_ret].
Qed.

Lemma keeps_rare_loop maxRarity n booster : keeps_land (rare_loop maxRarity n booster).
Proof.
  revert booster. induction n as [|n IH]; intros booster; cbn [rare_loop];
    [apply keeps_ret|].
  apply keeps_bind; [apply keeps_get|]. intros st0.
  destruct (isEmpty (lc st0 mythic) && isEmpty (lc st0 rare)); [apply keeps_ret|].
  apply keeps_bind; [|intros c; apply IH].
  destruct (isEmpty (lc st0 mythic)); [apply keeps_pick_rarity|].
  destruct (String.eqb maxRarity "mythic" && isEmpty (lc st0 rare));
    [apply keeps_pick_rarity|].
  destruct (String.eqb maxRarity "mythic"); [|apply keeps_pick_rarity].
  apply keeps_bind; [apply keeps_rng|]. intros x.
  destruct (times_lt1 x 8); apply keeps_pick_rarity.
Qed.

Lemma keeps_uncommon_loop n booster : keeps_land (uncommon_loop n booster).
Proof.
  revert booster. induction n as [|n IH]; intros booster; cbn [uncommon_loop];
    [apply keeps_ret|].
  apply keeps_bind; [apply keeps_pick_rarity|]. intros c. apply IH.
Qed.

Lemma keeps_balance_loop colors picked : keeps_land (balance_loop colors picked).
Proof.
  revert picked. induction colors as [|col colors IH]; intros picked; cbn [balance_loop];
    [apply keeps_ret|].
  apply keeps_bind; [apply keeps_get|]. intros st0.
  destruct (commonsByColor st0 !! col) as [bag|]; [|apply IH].
  destruct (negb (isEmpty bag)); [|apply IH].
  apply keeps_bind; [apply keeps_pick_card|]. intros [c bag'].
  apply keeps_bind; [apply keeps_put_color|]. intros _.
  apply keeps_bind; [apply keeps_remove_from_common|]. intros _. apply IH.
Qed.

Lemma keeps_common_loop colorBalance n picked :
  keeps_land (common_loop E colorBalance n picked).
Proof.
  revert picked. induction n as [|n IH]; intros picked; cbn [common_loop];
    [apply keeps_ret|].
  apply keeps_bind; [apply keeps_pick_rarity|]. intros c.
  apply keeps_bind; [|intros _; apply IH].
  destruct colorBalance; [apply keeps_remove_from_color | apply keeps_ret].
Qed.

(** The foil slot of a booster leaves the land slot alone. *)
Lemma keeps_foil_slot (o : GenOpts) :
  keeps_land (if g_foil o then
                roll <- gen_rng Math_random ;;
                if le_frac roll 15 63 then
                  rarityCheck <- gen_rng Math_random ;;
                  foil_loop E (g_colorBalance o) rarityCheck foilRarityFreq
                else ret []
              else ret []).
Proof.
  destruct (g_foil o); [|apply keeps_ret].
  apply keeps_bind; [apply keeps_rng|]. intros roll.
  destruct (le_frac roll 15 63); [|apply keeps_ret].
  apply keeps_bind; [apply keeps_rng|]. intros rc. apply keeps_foil_loop.
Qed.

(** [landSlot.pick()] gives the land of the slot, and keeps the slot. *)
Lemma land_pick_spec st lands st' :
  land_pick st = Ret (lands, st') →
  land_shape (slot_of st) lands ∧ slot_of st' = slot_of st
  ∧ lc st' = lc st ∧ commonsByColor st' = commonsByColor st.
Proof.
  unfold land_pick, bind, gen_get, slot_of.
  destruct (land st) as [[l s]|] eqn:Hl.
  - unfold gen_rng. cbn [al_slot al_state].
    destruct (ls_pick l s (grng st)) as [[c s'] g'] eqn:Hp.
    unfold put_land, ret. intros [= <- <-]. cbn [land lc commonsByColor fmap option_fmap option_map al_slot].
    split; [|done]. exists c. split; [done|]. exists s, (grng st). by rewrite Hp.
  - unfold ret. intros [= <- <-]. by rewrite Hl.
Qed.

End LandFacts.

Section ShapeFacts.
Import Generator BoosterSpec.
Context (E : Env).

Lemma targets_common_large maxRarity : 10 <= t_common (targets_of maxRarity).
Proof.
  unfold targets_of. destruct (String.eqb maxRarity "uncommon"); [simpl; lia|].
  destruct (String.eqb maxRarity "common"); simpl; lia.
Qed.

Lemma targets_nonneg maxRarity :
  0 <= t_rare (targets_of maxRarity) ∧ 0 <= t_uncommon (targets_of maxRarity).
Proof.
  unfold targets_of. destruct (String.eqb maxRarity "uncommon"); [simpl; lia|].
  destruct (String.eqb maxRarity "common"); simpl; lia.
Qed.

(** One booster: when it is generated it has the shape [booster_shape], and
    the bags stay sound. *)
Lemma triple_gen_booster o slot :
  triple (λ st, sound_bags E st ∧ slot_of st = slot) (gen_booster E o)
    (λ r st, sound_bags E st
             ∧ ∀ b, r = Some b →
                 slot_of st = slot ∧ booster_shape E (g_maxRarity o) (g_foil o) slot b).
Proof.
  intros st r st' [Hs Hslot]. unfold gen_booster. cbv zeta. unfold bind at 1.
  pose proof (keeps_foil_slot E o) as Hk1.
  match goal with
  | |- match ?m st with _ => _ end = _ → _ =>
      destruct (m st) as [[foils st1]| |] eqn:E1; [|done..];
      assert (sound_bags E st1 ∧ (length foils ≤ 1)%nat ∧ (g_foil o = false → foils = [])
              ∧ Forall (λ c, is_Some (rarity_of E c)) foils) as (Hs1 & Hf1 & Hf0 & Hfall)
  end.
  { clear Hk1. destruct (g_foil o).
    - revert E1. unfold bind at 1.
      destruct (gen_rng Math_random st) as [[roll st0]| |] eqn:E0; [|done..].
      pose proof (triple_rng E _ _ _ _ Hs E0) as Hs0. cbv beta in Hs0.
      destruct (le_frac roll 15 63).
      + unfold bind at 1.
        destruct (gen_rng Math_random st0) as [[rc st00]| |] eqn:E00; [|done..].
        pose proof (triple_rng E _ _ _ _ Hs0 E00) as Hs00. cbv beta in Hs00.
        intros H. destruct (triple_foil_loop E _ _ _ _ _ _ Hs00 H) as (? & ? & ?).
        done.
      + unfold ret. intros [= <- <-]. split; [done|]. split; [simpl; lia|].
        split; [done | constructor].
    - revert E1. unfold ret. intros [= <- <-]. split; [done|]. split; [simpl; lia|].
      split; [done | constructor]. }
  unfold bind at 1.
  destruct (rare_loop (g_maxRarity o) (Z.to_nat (t_rare (targets_of (g_maxRarity o)))) foils st1)
    as [[rares st2]| |] eqn:E2; [|done..].
  destruct (triple_rare_loop E _ _ _ _ _ _ Hs1 E2) as [Hs2 Hr].
  pose proof (Hk1 _ _ _ E1) as Hl1. pose proof (keeps_rare_loop _ _ _ _ _ _ E2) as Hl2.
  destruct rares as [booster|].
  2:{ unfold ret. intros [= <- <-]. split; [done|]. by intros b. }
  destruct (Hr booster eq_refl) as (rares & -> & Hrlen & Hrall).
  unfold bind at 1.
  destruct (uncommon_loop (Z.to_nat (t_uncommon (targets_of (g_maxRarity o))))
              (foils ++ rares) st2) as [[booster2 st3]| |] eqn:E3; [|done..].
  destruct (triple_uncommon_loop E _ _ _ _ _ Hs2 E3) as [Hs3 (uncommons & -> & Hulen & Huall)].
  pose proof (keeps_uncommon_loop _ _ _ _ _ E3) as Hl3.
  unfold bind at 1.
  match goal with
  | |- match ?m st3 with _ => _ end = _ → _ =>
      destruct (m st3) as [[balanced st4]| |] eqn:E4; [|done..];
      assert (sound_bags E st4 ∧ (length balanced ≤ 5)%nat
              ∧ Forall (λ c, rarity_of E c = Some common) balanced
              ∧ land st4 = land st3) as (Hs4 & Hblen & Hball & Hl4)
  end.
  { destruct (g_colorBalance o).
    - destruct (triple_balance_loop E _ _ _ _ _ Hs3 E4) as [? (cs & -> & Hlen & Hall)].
      pose proof (keeps_balance_loop _ _ _ _ _ E4). done.
    - revert E4. unfold ret. intros [= <- <-]. split; [done|]. split; [simpl; lia|].
      split; [constructor | done]. }
  unfold bind at 1.
  match goal with
  | |- match common_loop E ?cb ?n balanced st4 with _ => _ end = _ → _ =>
      destruct (common_loop E cb n balanced st4) as [[commons st5]| |] eqn:E5; [|done..]
  end.
  destruct (triple_common_loop E _ _ _ _ _ _ Hs4 E5) as [Hs5 (cs & -> & Hclen & Hcall)].
  pose proof (keeps_common_loop E _ _ _ _ _ _ E5) as Hl5.
  unfold bind at 1.
  destruct (gen_rng (shuffleArray (balanced ++ cs)) st5) as [[shuffled st6]| |] eqn:E6;
    [|done..].
  pose proof (triple_rng E _ _ _ _ Hs5 E6) as Hs6. cbv beta in Hs6.
  pose proof (keeps_rng _ _ _ _ E6) as Hl6.
  assert (shuffled = (shuffleArray (balanced ++ cs) (grng st5)).1) as Hsh.
  { revert E6. unfold gen_rng. destruct (shuffleArray (balanced ++ cs) (grng st5)).
    by intros [= <- _]. }
  destruct (shuffleArray_keeps (λ c, rarity_of E c = Some common) (balanced ++ cs) (grng st5))
    as [Hshlen Hshall].
  rewrite <- Hsh in Hshlen, Hshall.
  unfold bind at 1.
  destruct (land_pick st6) as [[lands st7]| |] eqn:E7; [|done..].
  destruct (triple_land_pick E _ _ _ Hs6 E7) as [Hs7 Hllen].
  destruct (land_pick_spec _ _ _ E7) as (Hland & Hslot7 & _).
  assert (slot_of st6 = slot) as Hslot6.
  { rewrite <- Hslot. unfold slot_of. by rewrite Hl6, Hl5, Hl4, Hl3, Hl2, Hl1. }
  rewrite Hslot6 in Hland, Hslot7.
  unfold ret. intros [= <- <-]. split; [done|].
  intros b [= <-]. split; [done|]. exists foils, rares, uncommons, shuffled, lands.
  split; [by rewrite <- !app_assoc|].
  pose proof (targets_common_large (g_maxRarity o)) as Hbig.
  pose proof (targets_nonneg (g_maxRarity o)) as [Hr0 Hu0].
  repeat split; try done; try lia.
  - rewrite Hshlen, length_app, Hclen. lia.
  - apply Hshall. by apply Forall_app.
Qed.

(** The loop over the boosters. *)
Lemma triple_gen_loop o slot n :
  ∀ boosters,
    Forall (booster_shape E (g_maxRarity o) (g_foil o) slot) boosters →
    triple (λ st, sound_bags E st ∧ slot_of st = slot) (gen_loop E o n boosters)
      (λ r st, Forall (booster_shape E (g_maxRarity o) (g_foil o) slot) r.1
               ∧ (r.2 = true → length r.1 = (length boosters + n)%nat)).
Proof.
  induction n as [|n IH]; intros boosters Hall; cbn [gen_loop].
  - apply triple_ret. intros st _. split; [done|]. simpl. lia.
  - intros st r st' Hs. unfold bind at 1.
    destruct (gen_booster E o st) as [[b st1]| |] eqn:E1; [|done..].
    destruct (triple_gen_booster o slot _ _ _ Hs E1) as [Hs1 Hb].
    destruct b as [booster|].
    + intros H. destruct (Hb booster eq_refl) as [Hslot1 Hshape].
      assert (Forall (booster_shape E (g_maxRarity o) (g_foil o) slot) (boosters ++ [booster]))
        as Hall'.
      { apply Forall_app. split; [done|]. constructor; [done | constructor]. }
      destruct (IH (boosters ++ [booster]) Hall' st1 r st' (conj Hs1 Hslot1) H) as [H1 H2].
      split; [done|]. intros Hr. rewrite (H2 Hr), length_app. simpl. lia.
    + unfold ret. intros [= <- <-]. by split.
Qed.

End ShapeFacts.

Section GenerateFacts.
Import Generator BoosterSpec Session.
Context (E : Env).

Lemma in_bucket_rarity restriction r c :
  in_bucket E restriction r c = true → rarity_of E c = Some r.
Proof.
  unfold in_bucket, rarity_of. destruct (Cards E !! c) as [f|]; [|done].
  intros [Hr _]%andb_true_iff. apply bool_decide_eq_true in Hr. simpl. by rewrite Hr.
Qed.

Lemma restricted_sound st buckets st1 :
  restrictedCollectionByRarity E st = Ret (buckets, st1) →
  ∀ r c, is_Some (buckets r !! c) → rarity_of E c = Some r.
Proof.
  unfold restrictedCollectionByRarity, bind.
  destruct (collection E st) as [[coll st0]| |]; [|done..].
  unfold get_sess, ret. intros [= <- <-] r c [v Hv].
  apply map_lookup_filter_Some in Hv as [_ Hb]. cbn [fst] in Hb.
  apply Is_true_true in Hb. by eapply in_bucket_rarity.
Qed.

Lemma by_color_sound (commons : gmap string Z) m :
  by_color E commons = Ret m →
  ∀ col bag c, m !! col = Some bag → is_Some (bag !! c) → is_Some (commons !! c).
Proof.
  unfold by_color.
  set (f := λ (acc : Res (gmap string (gmap string Z))) (kv : string * Z),
              match acc with
              | Ret m =>
                  match Cards E !! kv.1 with
                  | None => Throw "Cards[card] is undefined"
                  | Some f =>
                      let ci := Card.color_identity f in
                      Ret (<[ci := <[kv.1 := kv.2]> (default ∅ (m !! ci))]> m)
                  end
              | other => other
              end).
  set (inv := λ m : gmap string (gmap string Z),
                ∀ col bag c, m !! col = Some bag → is_Some (bag !! c) → is_Some (commons !! c)).
  assert (∀ l acc, (∀ kv, kv ∈ l → is_Some (commons !! kv.1)) →
                   (∀ m0, acc = Ret m0 → inv m0) →
                   ∀ m1, foldl f acc l = Ret m1 → inv m1) as Hfold.
  { induction l as [|kv l IH]; intros acc Hl Hacc m1; cbn [foldl]; [by apply Hacc|].
    apply IH.
    - intros kv' Hkv'. apply Hl. by right.
    - intros m0. unfold f at 1. clear IH.
      destruct acc as [m2| |] eqn:Hm2; [|done..].
      destruct (Cards E !! kv.1) as [fc|]; [|done].
      intros [= <-] col bag c.
      destruct (decide (col = Card.color_identity fc)) as [->|Hne].
      + rewrite lookup_insert_eq. intros [= <-].
        destruct (decide (c = kv.1)) as [->|Hc].
        * intros _. apply Hl. left.
        * rewrite lookup_insert_ne by done.
          destruct (m2 !! Card.color_identity fc) as [b0|] eqn:Hb0; cbn [default].
          -- by apply (Hacc m2 eq_refl (Card.color_identity fc) b0).
          -- rewrite lookup_empty. by intros [? ?].
      + rewrite lookup_insert_ne by done. apply (Hacc m2 eq_refl). }
  intros H. apply (Hfold (map_to_list commons) (Ret ∅)); [| |exact H].
  - intros [k v] Hkv. apply elem_of_map_to_list in Hkv. by eexists.
  - intros m0 [= <-] col bag c. by rewrite lookup_empty.
Qed.

End GenerateFacts.

Section GenerateClaim.
Import Generator BoosterSpec Session.

(** C2 (amended).  When [generateBoosters] returns true on the path without
    a custom card list, no bag having been drawn from while empty, it has
    generated [boosterQuantity] boosters, and each is made, in this order, of
    at most one foil (none when foils are disabled) of any rarity,
    [targets.rare] cards that are rares, or mythics when [maxRarity] is
    "mythic", [targets.uncommon] uncommons, the commons, and the land picked
    by the land slot of the session's set when it is restricted to one set
    that has a land slot, no land otherwise.  The foil always takes the place
    of a common: the commons number [targets.common] minus the number of
    foils, whatever the rarity of the foil.  A land slot's [setup] is assumed
    only to remove cards from the common bag. *)
Theorem generateBoosters_shape (E : Env) (boosterQuantity : Z) (st st' : St) :
  setup_shrinks E →
  generateBoosters E boosterQuantity st = Ret (true, st') →
  length (boosters (sess st')) = Z.to_nat boosterQuantity
  ∧ Forall (booster_shape E (maxRarity (sess st)) (foil (sess st))
              (land_slot_of E (sess st)))
      (boosters (sess st')).
Proof.
  intros Hsetup. unfold generateBoosters. unfold bind at 1, get_sess at 1. cbv beta iota.
  destruct (useCustomCardList (sess st)); [done|].
  unfold bind at 1.
  destruct (restrictedCollectionByRarity E st) as [[buckets st1]| |] eqn:Hb; [|done..].
  pose proof (restricted_sound E _ _ _ Hb) as Hbuckets.
  match goal with
  | |- context [let '(_, _) := ?x in _] =>
      destruct x as [commons landSlot] eqn:Hland;
      assert ((∀ c, is_Some (commons !! c) → is_Some (buckets common !! c))
              ∧ al_slot <$> landSlot = land_slot_of E (sess st)) as [Hcommons Hslot]
  end.
  { unfold land_slot_of.
    destruct (setRestriction (sess st)) as [|code [|]]; try by injection Hland as <- <-.
    destruct (LandSlot E code) as [l|] eqn:Hl; [|by injection Hland as <- <-].
    destruct (ls_setup l (buckets common)) as [d ls] eqn:Hset.
    injection Hland as <- <-. split; [|done].
    intros c Hc. apply (Hsetup code l (buckets common) c Hl).
    by rewrite Hset. }
  match goal with
  | |- context [match ?x with Ret _ => _ | Throw _ => _ | Stuck _ => _ end st1] =>
      destruct x as [byColor| |] eqn:Hcol; [|done..];
      assert (∀ col bag c, byColor !! col = Some bag → is_Some (bag !! c) →
                           is_Some (commons !! c)) as Hcolors
  end.
  { destruct (colorBalance (sess st)).
    - by apply (by_color_sound E).
    - injection Hcol as <-. intros col bag c. by rewrite lookup_empty. }
  cbv zeta.
  repeat match goal with
  | |- (if ?b then _ else _) st1 = _ → _ =>
      destruct b;
      [unfold bind at 1;
       match goal with
       | |- match ?m st1 with _ => _ end = _ → _ => by destruct (m st1) as [[[] ?]| |]
       end|]
  end.
  unfold bind at 1. cbv beta iota.
  match goal with
  | |- match gen_loop E ?o ?n [] ?g with _ => _ end st1 = _ → _ =>
      destruct (gen_loop E o n [] g) as [[[bs complete] gst]| |] eqn:Hgen; [|done..];
      assert (sound_bags E g) as Hsound
  end.
  { split; cbn [lc commonsByColor].
    - intros r c. unfold set_bag. destruct (decide (r = common)) as [->|_].
      + intros Hc. by apply Hbuckets, Hcommons.
      + apply Hbuckets.
    - intros col bag c Hbag Hc. by apply Hbuckets, Hcommons, (Hcolors col bag). }
  destruct (triple_gen_loop E _ (land_slot_of E (sess st)) _ [] (Forall_nil_2 _) _ _ _
              (conj Hsound Hslot) Hgen) as [Hall Hlen].
  cbn [fst snd] in Hall, Hlen.
  unfold bind at 1, with_rng at 1. cbv beta iota.
  unfold bind at 1, modify_sess at 1. cbv beta iota.
  destruct complete.
  - unfold ret. intros [= <-]. cbn [sess boosters set_boosters]. split; [|done].
    by rewrite Hlen.
  - unfold bind at 1.
    match goal with
    | |- match ?m ?x with _ => _ end = _ → _ => by destruct (m x) as [[[] ?]| |]
    end.
Qed.

(** C2 as stated fails when the foil is not a common.  With foils enabled
    and [maxRarity] "mythic", the booster generated from the small catalog
    holds two rares, three uncommons and nine commons: the foil rare did not
    replace the rare slot, it took the place of a common.  With [maxRarity]
    "common", whose table has no rare slot, the booster holds one rare and
    thirteen commons. *)
Lemma foil_takes_common_slot :
  (∃ st' b,
     generateBoosters Examples.small_env 1 Examples.foil_state = Ret (true, st')
     ∧ boosters (sess st') = [b]
     ∧ maxRarity (sess Examples.foil_state) = "mythic"
     ∧ length b = 14%nat
     ∧ rarity_count Examples.small_env rare b = 2%nat
     ∧ rarity_count Examples.small_env mythic b = 0%nat
     ∧ rarity_count Examples.small_env uncommon b = 3%nat
     ∧ rarity_count Examples.small_env common b = 9%nat)
  ∧ (∃ st' b,
       generateBoosters Examples.small_env 1 Examples.common_foil_state = Ret (true, st')
       ∧ boosters (sess st') = [b]
       ∧ maxRarity (sess Examples.common_foil_state) = "common"
       ∧ length b = 14%nat
       ∧ rarity_count Examples.small_env rare b = 1%nat
       ∧ rarity_count Examples.small_env mythic b = 0%nat
       ∧ rarity_count Examples.small_env uncommon b = 0%nat
       ∧ rarity_count Examples.small_env common b = 13%nat).
Proof.
  split.
  - eexists. eexists. split; [vm_compute; reflexivity|].
    split; [reflexivity|]. repeat split; vm_compute; reflexivity.
  - eexists. eexists. split; [vm_compute; reflexivity|].
    split; [reflexivity|]. repeat split; vm_compute; reflexivity.
Qed.

(** C2 (amended), on the catalog with a land slot and with foils enabled:
    one booster is generated; it has the shape of the theorem and ends with
    the land of the slot. *)
Lemma generateBoosters_shape_witness :
  ∃ st' b,
    generateBoosters Examples.land_env 1 Examples.foil_state = Ret (true, st')
    ∧ boosters (sess st') = [b]
    ∧ length b = 15%nat
    ∧ last b = Some "l1"
    ∧ length (boosters (sess st')) = 1%nat
    ∧ Forall (booster_shape Examples.land_env "mythic" true (Some Examples.basic_slot))
        (boosters (sess st')).
Proof.
  eexists. eexists. split; [vm_compute; reflexivity|].
  split; [reflexivity|]. split; [reflexivity|]. split; [reflexivity|].
  apply (generateBoosters_shape Examples.land_env 1 Examples.foil_state).
  - intros code l d c Hl. cbn [LandSlot Examples.land_env] in Hl.
    destruct (String.eqb code "thb"); [|discriminate Hl].
    injection Hl as <-. cbn [ls_setup Examples.basic_slot fst].
    intros [v Hv]. apply lookup_delete_Some in Hv as [_ Hv]. by eexists.
  - vm_compute. reflexivity.
Defined.

End GenerateClaim.

(** ** Failures of [generateBoosters] *)

Section ShortageFacts.
Import Generator BoosterSpec Session SessionOps.

(** The bags by colour can be built from a bag of cards of the catalog. *)
Lemma by_color_returns (E : Env) (commons : gmap string Z) :
  (∀ c, is_Some (commons !! c) → is_Some (Cards E !! c)) →
  ∃ m, by_color E commons = Ret m.
Proof.
  intros Hcat. unfold by_color.
  assert (∀ l m0, (∀ kv, kv ∈ l → is_Some (Cards E !! kv.1)) →
            ∃ m, foldl (λ (acc : Res (gmap string (gmap string Z))) (kv : string * Z),
                     match acc with
                     | Ret m =>
                         match Cards E !! kv.1 with
                         | None => Throw "Cards[card] is undefined"
                         | Some f =>
                             let ci := Card.color_identity f in
                             Ret (<[ci := <[kv.1 := kv.2]> (default ∅ (m !! ci))]> m)
                         end
                     | other => other
                     end) (Ret m0) l = Ret m) as Hfold.
  { induction l as [|kv l IH]; intros m0 Hl; cbn [foldl]; [by eexists|].
    destruct (Hl kv) as [f Hf]; [left|]. rewrite Hf. cbv zeta.
    apply IH. intros kv' Hkv'. apply Hl. by right. }
  apply Hfold. intros [k v] Hkv. apply elem_of_map_to_list in Hkv.
  apply Hcat. by eexists.
Qed.

Lemma rarity_of_catalog (E : Env) r c : rarity_of E c = Some r → is_Some (Cards E !! c).
Proof. unfold rarity_of. destruct (Cards E !! c); [by eexists | done]. Qed.

End ShortageFacts.

Section ShortageClaim.
Import Generator BoosterSpec StartSpec Session SessionOps.

(** C3 does not hold of the code when foils are enabled.  The catalog
    restricted to the session holds 16 commons, 4 uncommons and 1 rare, so
    every bag meets its target for one booster (10, 3 and 1).  The foil drawn
    first is the rare; the rare slot then finds the rare and mythic bags
    empty and [generateBoosters] returns false, after the check of the
    counts has passed, telling the users "Not enough rare or mythic cards in
    collection". *)
Lemma generateBoosters_fails_without_shortage :
  targets_of (maxRarity (sess Examples.scarce_state))
  = {| t_rare := 1; t_uncommon := 3; t_common := 10 |}
  ∧ (λ buckets, (count_cards (buckets common), count_cards (buckets uncommon),
                 count_cards (buckets rare) + count_cards (buckets mythic)))
      <$> Frame.returned
            (restrictedCollectionByRarity Examples.small_env Examples.scarce_state)
    = Some (16, 4, 1)
  ∧ ∃ st',
      generateBoosters Examples.small_env 1 Examples.scarce_state = Ret (false, st')
      ∧ boosters (sess st') = []
      ∧ last (out st')
        = Some (ToUser "bob",
                EvMessage "Error generating boosters"
                  "Not enough rare or mythic cards in collection" (Some true) (Some 1500)).
Proof.
  split; [reflexivity|]. split; [vm_compute; reflexivity|].
  eexists. split; [vm_compute; reflexivity|]. split; vm_compute; reflexivity.
Qed.

(** The last part of C3 does hold: when the generation fails, [startDraft]
    returns with the session out of [drafting]. *)
Lemma startDraft_failed_generation (E : Env) (st : St) (instances : list Bot.t) :
  Frame.users_connected st →
  Draft.make_bots (users (sess st)) (Z.to_nat (bots (sess st))) 0 = Some instances →
  ∃ o, ∀ st2,
    generateBoosters E (boosterQuantity (sess st)) (before_generation instances o st)
    = Ret (false, st2) →
    Draft.startDraft E st = Ret (tt, Frame.with_sess (set_drafting false (sess st2)) st2)
    ∧ drafting (set_drafting false (sess st2)) = false.
Proof.
  intros Hconn Hbots.
  set (st0 := {| sess := set_drafting true (sess st); conns := conns st; out := out st;
                 rng := rng st |}).
  destruct (forUsers_emits st0
              (λ u, emit u (EvMessage "Preparing draft!" "Your draft will start soon..."
                              (Some false) (Some 0)))) as [o Ho].
  { intros u Hu. by apply emits_only_emit. }
  { intros u Hu. apply emits_only_emit. by apply Hconn. }
  exists o. intros st2 Hgen. split; [|done].
  unfold Draft.startDraft. unfold bind at 1, modify_sess at 1. cbv beta iota.
  unfold bind at 1, emitMessage at 1. fold st0. rewrite Ho.
  unfold bind at 1, get_sess at 1. cbv beta iota.
  unfold bind at 1, modify_sess at 1. cbv beta iota.
  cbn [Frame.add_out sess conns out rng st0 Frame.with_sess].
  change (users (set_drafting true (sess st))) with (users (sess st)).
  change (bots (set_drafting true (sess st))) with (bots (sess st)).
  rewrite Hbots.
  unfold bind at 1, modify_sess at 1. cbv beta iota. cbn [sess conns out rng].
  unfold bind at 1.
  unfold before_generation, boosterQuantity in Hgen.
  change (boostersPerPlayer (set_drafting true (sess st))) with (boostersPerPlayer (sess st)).
  rewrite Hgen. cbn [negb]. unfold modify_sess, Frame.with_sess. reflexivity.
Qed.

Lemma startDraft_failed_generation_witness :
  ∃ st', Draft.startDraft Examples.small_env Examples.scarce_state = Ret (tt, st')
    ∧ drafting (sess st') = false.
Proof.
  destruct (startDraft_failed_generation Examples.small_env Examples.scarce_state [])
    as [o Ho].
  { intros u Hu. vm_compute in Hu.
    repeat (apply elem_of_cons in Hu as [->|Hu]; [vm_compute; eauto|]).
    by apply elem_of_nil in Hu. }
  { reflexivity. }
  destruct (generateBoosters Examples.small_env
              (boosterQuantity (sess Examples.scarce_state))
              (before_generation [] o Examples.scarce_state)) as [[[] st2]| |] eqn:Hgen.
  - exfalso. revert Hgen. unfold generateBoosters.
    vm_compute. discriminate.
  - destruct (Ho st2 eq_refl) as [H1 H2]. eexists. split; [exact H1|exact H2].
  - exfalso. revert Hgen. vm_compute. discriminate.
  - exfalso. revert Hgen. vm_compute. discriminate.
Defined.

End ShortageClaim.

(** ** Generation without foils succeeds *)

Section CountFacts.
Import Generator BoosterSpec.

Lemma count_list_perm (l l' : list (string * Z)) :
  l ≡ₚ l' →
  foldr (λ kv acc, acc + kv.2) 0 l = foldr (λ kv acc, acc + kv.2) 0 l'.
Proof.
  induction 1 as [|x l l' _ IH|x y l|l l' l'' _ IH1 _ IH2]; simpl; [done|lia|lia|congruence].
Qed.

Lemma count_cards_empty : count_cards ∅ = 0.
Proof. unfold count_cards. by rewrite map_to_list_empty. Qed.

Lemma count_cards_delete (d : gmap string Z) c n :
  d !! c = Some n → count_cards (delete c d) = count_cards d - n.
Proof.
  intros Hc. unfold count_cards.
  rewrite <- (count_list_perm _ _ (map_to_list_delete d c n Hc)). simpl. lia.
Qed.

Lemma count_cards_insert (d : gmap string Z) c n v :
  d !! c = Some n → count_cards (<[c := v]> d) = count_cards d - n + v.
Proof.
  intros Hc. rewrite <- (count_cards_delete d c n Hc).
  rewrite <- (insert_delete_eq d c v). unfold count_cards at 1.
  rewrite (count_list_perm _ _ (map_to_list_insert (delete c d) c v (lookup_delete_eq d c))).
  simpl. unfold count_cards. lia.
Qed.

Lemma removeCardFromDict_lookup c (d d' : gmap string Z) :
  removeCardFromDict c d = Some d' →
  ∃ n, d !! c = Some n
    ∧ ∀ x, d' !! x = if decide (x = c) then (if n - 1 =? 0 then None else Some (n - 1))
                     else d !! x.
Proof.
  unfold removeCardFromDict. destruct (d !! c) as [n|] eqn:Hc; [|done].
  intros [= <-]. exists n. split; [done|]. intros x.
  destruct (decide (x = c)) as [->|Hne]; destruct (n - 1 =? 0).
  - apply lookup_delete_eq.
  - apply lookup_insert_eq.
  - by rewrite lookup_delete_ne.
  - by rewrite lookup_insert_ne.
Qed.

(** A draw takes one card out of the bag. *)
Lemma removeCardFromDict_count c (d d' : gmap string Z) :
  removeCardFromDict c d = Some d' → count_cards d' = count_cards d - 1.
Proof.
  unfold removeCardFromDict. destruct (d !! c) as [n|] eqn:Hc; [|done].
  intros [= <-]. destruct (n - 1 =? 0) eqn:Hn.
  - apply Z.eqb_eq in Hn. rewrite (count_cards_delete d c n Hc). lia.
  - rewrite (count_cards_insert d c n _ Hc). lia.
Qed.

Lemma removeCardFromDict_present c (d : gmap string Z) :
  is_Some (d !! c) → is_Some (removeCardFromDict c d).
Proof. intros [n Hn]. unfold removeCardFromDict. rewrite Hn. by eexists. Qed.

Lemma count_positive_nonempty (d : gmap string Z) : 0 < count_cards d → isEmpty d = false.
Proof.
  intros H. unfold isEmpty. apply bool_decide_eq_false. intros ->.
  rewrite count_cards_empty in H. lia.
Qed.

End CountFacts.

Section DrawTotal.
Import Generator BoosterSpec.

Lemma random_below_range n g : 0 < n → 0 <= (random_below n g).1 < n.
Proof.
  intros Hn. unfold random_below. cbn [fst]. pose proof (sample_range g) as [H0 H1].
  assert (0 < RAND_DEN) as Hden by reflexivity.
  split.
  - apply Z.div_pos; [nia | done].
  - apply Z.div_lt_upper_bound; [done | nia].
Qed.

Lemma getRandomKey_total (d : gmap string Z) g :
  isEmpty d = false → ∃ x, (getRandomKey d g).1 = Some x ∧ is_Some (d !! x).
Proof.
  intros Hne. unfold isEmpty in Hne. apply bool_decide_eq_false in Hne.
  assert (0 < Z.of_nat (length (JS.keys d))) as Hlen.
  { unfold JS.keys. rewrite length_fmap.
    destruct (map_to_list d) as [|kv l] eqn:Hl; [|simpl; lia].
    by apply map_to_list_empty_iff in Hl. }
  pose proof (random_below_range _ g Hlen) as [H0 H1].
  destruct (getRandomKey d g) as [c g'] eqn:Hk.
  assert (is_Some c) as [x ->].
  { revert Hk. unfold getRandomKey. destruct (random_below _ g) as [i g1]. cbn [fst] in H0, H1.
    intros [= <- _]. unfold JS.nth_Z. rewrite (proj2 (Z.ltb_ge _ _)) by lia.
    apply lookup_lt_is_Some. lia. }
  exists x. split; [done|]. by eapply getRandomKey_key.
Qed.

Lemma redraw_total n (d : gmap string Z) booster x g :
  isEmpty d = false → is_Some (d !! x) →
  ∃ y, (redraw n d booster (Some x) g).1 = Some y ∧ is_Some (d !! y).
Proof.
  intros Hne. revert x g. induction n as [|n IH]; intros x g Hx; cbn [redraw].
  - by exists x.
  - destruct (JS.indexOf x booster =? -1); [by exists x|].
    destruct (getRandomKey_total d g Hne) as (y & Hy & Hin).
    destruct (getRandomKey d g) as [c g']. cbn [fst] in Hy. subst c. by apply IH.
Qed.

(** A draw from a bag that is not empty returns one of its cards and the
    bag without one copy of it; only the random source moves. *)
Lemma pick_card_total dict booster st :
  isEmpty dict = false →
  ∃ c d' g', pick_card dict booster st
             = Ret ((c, d'), {| lc := lc st; commonsByColor := commonsByColor st;
                                land := land st; grng := g' |})
    ∧ removeCardFromDict c dict = Some d'.
Proof.
  intros Hne. unfold pick_card, bind, gen_rng.
  destruct (getRandomKey_total dict (grng st) Hne) as (x & Hx & Hin).
  destruct (getRandomKey dict (grng st)) as [c0 g0]. cbn [fst] in Hx. subst c0.
  destruct booster as [b|].
  - cbn [grng lc commonsByColor land].
    destruct (redraw_total (length (JS.keys dict)) dict b x g0 Hne Hin) as (y & Hy & Hyin).
    destruct (redraw _ dict b (Some x) g0) as [c1 g1]. cbn [fst] in Hy. subst c1.
    destruct (removeCardFromDict_present y dict Hyin) as [d' Hd']. rewrite Hd'.
    exists y, d', g1. done.
  - unfold ret at 1. destruct (removeCardFromDict_present x dict Hin) as [d' Hd'].
    rewrite Hd'. exists x, d', g0. done.
Qed.

End DrawTotal.

Section SyncFacts.
Import Generator BoosterSpec.
Context (E : Env).

(** Taking one copy of a common out of the common bag and out of the bag
    of its colour keeps the two in step. *)
Lemma synced_remove (C C' : gmap string Z) (B : gmap string (gmap string Z))
    c f (bag bag' : gmap string Z) :
  synced E C B →
  Cards E !! c = Some f →
  B !! Card.color_identity f = Some bag →
  removeCardFromDict c C = Some C' →
  removeCardFromDict c bag = Some bag' →
  synced E C' (<[Card.color_identity f := bag']> B).
Proof.
  intros [Hin Hbag] Hf HB HC Hb.
  apply removeCardFromDict_lookup in HC as (n & Hn & HC').
  apply removeCardFromDict_lookup in Hb as (m & Hm & Hb').
  assert (m = n) as ->.
  { rewrite (Hbag _ _ c HB), Hn in Hm. cbn in Hm. unfold color_filter in Hm.
    rewrite Hf in Hm. destruct (decide _); [by injection Hm | done]. }
  split.
  - intros x [v Hx]. rewrite HC' in Hx.
    destruct (Hin x) as (fx & Hfx & Hsome).
    { destruct (decide (x = c)) as [->|_]; by eexists. }
    exists fx. split; [done|]. apply lookup_insert_is_Some'. by right.
  - intros col bag0 x. destruct (decide (col = Card.color_identity f)) as [->|Hne].
    + rewrite lookup_insert_eq. intros [= <-]. rewrite Hb', HC'.
      destruct (decide (x = c)) as [->|_]; [|by apply Hbag].
      destruct (n - 1 =? 0); [done|]. cbn. unfold color_filter. rewrite Hf.
      by destruct (decide _).
    + rewrite lookup_insert_ne by done. intros Hb0. rewrite (Hbag _ _ x Hb0), HC'.
      destruct (decide (x = c)) as [->|_]; [|done].
      rewrite Hn. cbn. unfold color_filter. rewrite Hf.
      destruct (decide (Card.color_identity f = col)) as [Heq|_]; [by destruct Hne|].
      by destruct (n - 1 =? 0).
Qed.

(** What a card of a bag by colour tells about the common bag. *)
Lemma synced_bag_card (C : gmap string Z) (B : gmap string (gmap string Z)) col bag c :
  synced E C B → B !! col = Some bag → is_Some (bag !! c) →
  is_Some (C !! c) ∧ ∃ f, Cards E !! c = Some f ∧ Card.color_identity f = col.
Proof.
  intros [_ Hbag] HB [n Hn]. rewrite (Hbag _ _ c HB) in Hn.
  destruct (C !! c) as [v|]; [|done]. split; [by eexists|].
  cbn in Hn. unfold color_filter in Hn. destruct (Cards E !! c) as [f|]; [|done].
  destruct (decide _); [|done]. by exists f.
Qed.

Lemma synced_common_card (C : gmap string Z) (B : gmap string (gmap string Z)) c :
  synced E C B → is_Some (C !! c) →
  ∃ f bag, Cards E !! c = Some f ∧ B !! Card.color_identity f = Some bag
           ∧ is_Some (bag !! c).
Proof.
  intros [Hin Hbag] [n Hn]. destruct (Hin c) as (f & Hf & [bag HB]); [by eexists|].
  exists f, bag. split; [done|]. split; [done|].
  rewrite (Hbag _ _ c HB), Hn. cbn. unfold color_filter. rewrite Hf.
  destruct (decide _); [by eexists | done].
Qed.

End SyncFacts.

Section LoopTotal.
Import Generator BoosterSpec.
Context (E : Env).

Lemma set_bag_same r d (bags : Rarity → gmap string Z) : set_bag r d bags r = d.
Proof. unfold set_bag. by destruct (decide (r = r)). Qed.

Lemma set_bag_other r r' d (bags : Rarity → gmap string Z) :
  r' ≠ r → set_bag r d bags r' = bags r'.
Proof. intros H. unfold set_bag. by destruct (decide (r' = r)). Qed.

Lemma pick_rarity_total r booster st :
  isEmpty (lc st r) = false →
  ∃ c d' g',
    pick_rarity r booster st
    = Ret (c, {| lc := set_bag r d' (lc st); commonsByColor := commonsByColor st;
                 land := land st; grng := g' |})
    ∧ removeCardFromDict c (lc st r) = Some d'.
Proof.
  intros Hne. unfold pick_rarity, bind, gen_get.
  destruct (pick_card_total (lc st r) booster st Hne) as (c & d' & g' & -> & Hd').
  exists c, d', g'. done.
Qed.

(** The uncommon slots. *)
Lemma uncommon_loop_total n :
  ∀ booster st,
    Z.of_nat n <= count_cards (lc st uncommon) →
    ∃ b st', uncommon_loop n booster st = Ret (b, st')
      ∧ count_cards (lc st' uncommon) = count_cards (lc st uncommon) - Z.of_nat n
      ∧ (∀ r, r ≠ uncommon → lc st' r = lc st r)
      ∧ commonsByColor st' = commonsByColor st ∧ land st' = land st.
Proof.
  induction n as [|n IH]; intros booster st Hcount; cbn [uncommon_loop].
  - exists booster, st. split; [done|]. split; [lia | done].
  - destruct (pick_rarity_total uncommon (Some booster) st) as (c & d' & g' & Hp & Hd').
    { apply count_positive_nonempty. lia. }
    unfold bind. rewrite Hp.
    apply removeCardFromDict_count in Hd'.
    match goal with
    | |- context [uncommon_loop n _ ?st1] =>
        destruct (IH (booster ++ [c]) st1) as (b & st' & -> & Hc' & Hr' & Hb' & Hl')
    end.
    { cbn [lc]. rewrite set_bag_same. lia. }
    exists b, st'. split; [done|]. cbn [lc commonsByColor land] in *.
    rewrite set_bag_same in Hc'. split; [lia|]. split; [|done].
    intros r Hr. rewrite (Hr' r Hr). by apply set_bag_other.
Qed.

(** The rare slots, when mythics may fill them. *)
Lemma rare_loop_total maxRarity n :
  maxRarity = "mythic" ∨ n = 0%nat →
  ∀ booster st,
    Z.of_nat n <= count_cards (lc st rare) + count_cards (lc st mythic) →
    ∃ b st', rare_loop maxRarity n booster st = Ret (Some b, st')
      ∧ count_cards (lc st' rare) + count_cards (lc st' mythic)
        = count_cards (lc st rare) + count_cards (lc st mythic) - Z.of_nat n
      ∧ lc st' uncommon = lc st uncommon ∧ lc st' common = lc st common
      ∧ commonsByColor st' = commonsByColor st ∧ land st' = land st.
Proof.
  intros Hmax. induction n as [|n IH]; intros booster st Hcount; cbn [rare_loop].
  - exists booster, st. split; [done|]. split; [lia | done].
  - destruct Hmax as [->|?]; [|done].
    assert (maxRarity_ok : "mythic" = "mythic" ∨ n = 0%nat) by (by left).
    specialize (IH maxRarity_ok).
    unfold bind at 1, gen_get at 1. cbv beta iota.
    assert (∀ r st1, r = rare ∨ r = mythic → lc st1 = lc st →
              commonsByColor st1 = commonsByColor st → land st1 = land st →
              isEmpty (lc st r) = false →
              ∃ b st', (c <- pick_rarity r None ;; rare_loop "mythic" n (booster ++ [c])) st1
                       = Ret (Some b, st')
                ∧ count_cards (lc st' rare) + count_cards (lc st' mythic)
                  = count_cards (lc st rare) + count_cards (lc st mythic) - Z.of_nat (S n)
                ∧ lc st' uncommon = lc st uncommon ∧ lc st' common = lc st common
                ∧ commonsByColor st' = commonsByColor st ∧ land st' = land st) as Hpick.
    { intros r st1 Hr Hlc Hcb Hla Hne. rewrite <- Hlc in Hne.
      destruct (pick_rarity_total r None st1 Hne) as (c & d' & g' & Hp & Hd').
      unfold bind. rewrite Hp. apply removeCardFromDict_count in Hd'.
      rewrite Hlc in Hd'. rewrite Hlc, Hcb, Hla.
      match goal with
      | |- context [rare_loop "mythic" n _ ?st2] =>
          destruct (IH (booster ++ [c]) st2) as (b & st' & -> & Hc' & Hu' & Hcm' & Hb' & Hl')
      end.
      { cbn [lc]. destruct Hr as [-> | ->].
        - rewrite set_bag_same, set_bag_other by done. lia.
        - rewrite set_bag_same, set_bag_other by done. lia. }
      exists b, st'. split; [done|]. cbn [lc commonsByColor land] in *.
      rewrite Hu', Hcm', Hc'. destruct Hr as [-> | ->].
      - rewrite set_bag_same, !set_bag_other by done. split; [lia | done].
      - rewrite set_bag_same, !set_bag_other by done. split; [lia | done]. }
    destruct (isEmpty (lc st mythic)) eqn:Hm; destruct (isEmpty (lc st rare)) eqn:Hr;
      cbn [andb].
    + exfalso. unfold isEmpty in Hm, Hr. apply bool_decide_eq_true in Hm, Hr.
      rewrite Hm, Hr, !count_cards_empty in Hcount. lia.
    + by apply (Hpick rare st); [left|..].
    + rewrite String.eqb_refl. cbn [andb]. by apply (Hpick mythic st); [right|..].
    + rewrite String.eqb_refl. cbn [andb].
      unfold bind at 1. unfold bind at 1. unfold gen_rng at 1, Math_random at 1.
      cbv beta iota zeta.
      match goal with
      | |- context [times_lt1 ?x 8] => destruct (times_lt1 x 8)
      end.
      * by apply (Hpick mythic); [right|..].
      * by apply (Hpick rare); [left|..].
Qed.

End LoopTotal.

Section CommonTotal.
Import Generator BoosterSpec.
Context (E : Env).

Lemma removeCardFromDict_Some_present c (d d' : gmap string Z) :
  removeCardFromDict c d = Some d' → is_Some (d !! c).
Proof. unfold removeCardFromDict. destruct (d !! c); [by eexists | done]. Qed.

(** One common of each colour that has some: the bags stay in step. *)
Lemma balance_loop_total colors :
  ∀ pickedCommons st,
    synced E (lc st common) (commonsByColor st) →
    ∃ b st' (k : nat),
      balance_loop colors pickedCommons st = Ret (b, st')
      ∧ (k ≤ length colors)%nat
      ∧ length b = (length pickedCommons + k)%nat
      ∧ count_cards (lc st' common) = count_cards (lc st common) - Z.of_nat k
      ∧ synced E (lc st' common) (commonsByColor st')
      ∧ (∀ r, r ≠ common → lc st' r = lc st r)
      ∧ land st' = land st.
Proof.
  induction colors as [|col colors IH]; intros picked st Hsync; cbn [balance_loop].
  - exists picked, st, 0%nat. split; [done|]. split; [done|]. split; [lia|].
    split; [lia|]. done.
  - assert (∃ b st' (k : nat),
              balance_loop colors picked st = Ret (b, st')
              ∧ (k ≤ length (col :: colors))%nat
              ∧ length b = (length picked + k)%nat
              ∧ count_cards (lc st' common) = count_cards (lc st common) - Z.of_nat k
              ∧ synced E (lc st' common) (commonsByColor st')
              ∧ (∀ r, r ≠ common → lc st' r = lc st r)
              ∧ land st' = land st) as Hskip.
    { destruct (IH picked st Hsync) as (b & st' & k & Hb & Hk & Hrest).
      exists b, st', k. split; [done|]. split; [simpl; lia | done]. }
    unfold bind at 1, gen_get at 1. cbv beta iota.
    destruct (commonsByColor st !! col) as [bag|] eqn:Hbag; [|exact Hskip].
    destruct (isEmpty bag) eqn:Hempty; cbn [negb]; [exact Hskip|].
    destruct (pick_card_total bag (Some picked) st Hempty) as (c & bag' & g' & Hp & Hbag').
    unfold bind at 1. rewrite Hp. unfold bind at 1, put_color at 1. cbv beta iota.
    cbn [lc commonsByColor land grng].
    destruct (synced_bag_card E _ _ col bag c Hsync Hbag
                (removeCardFromDict_Some_present _ _ _ Hbag')) as (Hin & f & Hf & Hcol).
    destruct (removeCardFromDict_present c (lc st common) Hin) as [C' HC'].
    unfold bind at 1, remove_from_common at 1, bind at 1, gen_get at 1. cbv beta iota.
    cbn [lc commonsByColor land grng]. rewrite HC'. unfold put_bag at 1. cbv beta iota.
    cbn [lc commonsByColor land grng].
    match goal with
    | |- context [balance_loop colors _ ?st1] =>
        destruct (IH (picked ++ [c]) st1) as (b & st' & k & -> & Hk & Hlen & Hcount & Hs' & Hr' & Hl')
    end.
    { cbn [lc commonsByColor]. rewrite set_bag_same. subst col.
      by apply (synced_remove E (lc st common) C' (commonsByColor st) c f bag bag'). }
    cbn [lc commonsByColor land] in *. rewrite set_bag_same in Hcount.
    exists b, st', (S k). split; [done|]. split; [simpl; lia|].
    split; [rewrite Hlen, length_app; simpl; lia|].
    split; [rewrite Hcount, (removeCardFromDict_count _ _ _ HC'); lia|].
    split; [done|]. split; [|done].
    intros r Hr. rewrite (Hr' r Hr). by apply set_bag_other.
Qed.

(** The remaining commons. *)
Lemma common_loop_total balance n :
  ∀ pickedCommons st,
    (balance = true → synced E (lc st common) (commonsByColor st)) →
    Z.of_nat n <= count_cards (lc st common) →
    ∃ b st',
      common_loop E balance n pickedCommons st = Ret (b, st')
      ∧ length b = (length pickedCommons + n)%nat
      ∧ count_cards (lc st' common) = count_cards (lc st common) - Z.of_nat n
      ∧ (balance = true → synced E (lc st' common) (commonsByColor st'))
      ∧ (∀ r, r ≠ common → lc st' r = lc st r)
      ∧ land st' = land st.
Proof.
  induction n as [|n IH]; intros picked st Hsync Hcount; cbn [common_loop].
  - exists picked, st. split; [done|]. split; [lia|]. split; [lia|]. done.
  - destruct (pick_rarity_total common (Some picked) st) as (c & C' & g' & Hp & HC').
    { apply count_positive_nonempty. lia. }
    unfold bind at 1. rewrite Hp.
    pose proof (removeCardFromDict_count _ _ _ HC') as Hless.
    assert (∃ B', (if balance then remove_from_color E c else ret tt)
                    {| lc := set_bag common C' (lc st); commonsByColor := commonsByColor st;
                       land := land st; grng := g' |}
                  = Ret (tt, {| lc := set_bag common C' (lc st); commonsByColor := B';
                                land := land st; grng := g' |})
                ∧ (balance = true → synced E C' B')) as (B' & HB' & Hs').
    { destruct balance.
      - specialize (Hsync eq_refl).
        destruct (synced_common_card E _ _ c Hsync
                    (removeCardFromDict_Some_present _ _ _ HC')) as (f & bag & Hf & Hbag & Hin).
        destruct (removeCardFromDict_present c bag Hin) as [bag' Hbag'].
        exists (<[Card.color_identity f := bag']> (commonsByColor st)).
        unfold remove_from_color, bind, gen_get. cbn [lc commonsByColor land grng].
        rewrite Hf, Hbag, Hbag'. split; [done|]. intros _.
        by apply (synced_remove E (lc st common) C' (commonsByColor st) c f bag bag').
      - exists (commonsByColor st). split; [done|]. done. }
    unfold bind at 1. rewrite HB'.
    match goal with
    | |- context [common_loop E balance n _ ?st1] =>
        destruct (IH (picked ++ [c]) st1) as (b & st' & -> & Hlen & Hcnt & Hsy & Hr' & Hl')
    end.
    { cbn [lc commonsByColor]. by rewrite set_bag_same. }
    { cbn [lc]. rewrite set_bag_same. lia. }
    cbn [lc commonsByColor land] in *. rewrite set_bag_same in Hcnt.
    exists b, st'. split; [done|]. split; [rewrite Hlen, length_app; simpl; lia|].
    split; [lia|]. split; [done|]. split; [|done].
    intros r Hr. rewrite (Hr' r Hr). by apply set_bag_other.
Qed.

End CommonTotal.

Section BoosterTotal.
Import Generator BoosterSpec.
Context (E : Env).

(** One booster without a foil: it is generated, and each bag gives exactly
    its target. *)
Lemma gen_booster_total o st :
  g_foil o = false →
  g_maxRarity o = "mythic" ∨ t_rare (targets_of (g_maxRarity o)) = 0 →
  stocked E (g_colorBalance o) st →
  let targets := targets_of (g_maxRarity o) in
  t_common targets <= count_cards (lc st common) →
  t_uncommon targets <= count_cards (lc st uncommon) →
  t_rare targets <= count_cards (lc st rare) + count_cards (lc st mythic) →
  ∃ b st',
    gen_booster E o st = Ret (Some b, st')
    ∧ stocked E (g_colorBalance o) st'
    ∧ count_cards (lc st' common) = count_cards (lc st common) - t_common targets
    ∧ count_cards (lc st' uncommon) = count_cards (lc st uncommon) - t_uncommon targets
    ∧ count_cards (lc st' rare) + count_cards (lc st' mythic)
      = count_cards (lc st rare) + count_cards (lc st mythic) - t_rare targets.
Proof.
  intros Hfoil Hmax [Hsync Hland] targets Hc Hu Hr.
  pose proof (targets_common_large (g_maxRarity o)) as Hbig.
  pose proof (targets_nonneg (g_maxRarity o)) as [Hr0 Hu0].
  fold targets in Hbig, Hr0, Hu0.
  unfold gen_booster. cbv zeta. fold targets. rewrite Hfoil.
  unfold bind at 1, ret at 1. cbv beta iota. cbn [length].
  destruct (rare_loop_total (g_maxRarity o) (Z.to_nat (t_rare targets))) with
    (booster := @nil string) (st := st) as (b1 & st1 & E1 & Hrm1 & Hu1 & Hc1 & Hb1 & Hl1).
  { destruct Hmax as [?|H0]; [by left|]. right. fold targets in H0. lia. }
  { lia. }
  unfold bind at 1. rewrite E1.
  destruct (uncommon_loop_total (Z.to_nat (t_uncommon targets)) b1 st1)
    as (b2 & st2 & E2 & Hu2 & Hr2 & Hb2 & Hl2).
  { rewrite Hu1. lia. }
  unfold bind at 1. rewrite E2.
  assert (∃ balanced st3 (k : nat),
            (if g_colorBalance o then balance_loop ["W"; "U"; "B"; "R"; "G"] []
             else ret []) st2 = Ret (balanced, st3)
            ∧ (k ≤ 5)%nat ∧ length balanced = k
            ∧ count_cards (lc st3 common) = count_cards (lc st2 common) - Z.of_nat k
            ∧ (g_colorBalance o = true → synced E (lc st3 common) (commonsByColor st3))
            ∧ (∀ r, r ≠ common → lc st3 r = lc st2 r)
            ∧ land st3 = land st2)
    as (balanced & st3 & k & E3 & Hk & Hlen3 & Hc3 & Hs3 & Hr3 & Hl3).
  { destruct (g_colorBalance o).
    - destruct (balance_loop_total E ["W"; "U"; "B"; "R"; "G"] [] st2)
        as (b & st3 & k & Eb & Hk & Hlen & Hcnt & Hs & Hr' & Hl').
      { rewrite (Hr2 common) by done. rewrite Hb2, Hc1, Hb1. by apply Hsync. }
      exists b, st3, k. split; [done|]. split; [done|]. split; [done|].
      split; [done|]. split; [by intros _ | done].
    - exists [], st2, 0%nat. split; [done|]. split; [lia|]. split; [done|].
      split; [lia|]. done. }
  unfold bind at 1. rewrite E3.
  assert (count_cards (lc st2 common) = count_cards (lc st common)) as Hc2.
  { rewrite (Hr2 common) by done. by rewrite Hc1. }
  match goal with
  | |- context [common_loop E _ ?n balanced] =>
      destruct (common_loop_total E (g_colorBalance o) n balanced st3 Hs3)
        as (commons & st4 & E4 & Hlen4 & Hc4 & Hs4 & Hr4 & Hl4)
  end.
  { rewrite Hc3, Hc2, Hlen3. lia. }
  unfold bind at 1. rewrite E4.
  unfold bind at 1, gen_rng at 1.
  destruct (shuffleArray commons (grng st4)) as [shuffled g5].
  unfold bind at 1, land_pick at 1, bind at 1, gen_get at 1. cbv beta iota.
  cbn [lc commonsByColor land grng].
  rewrite Hl4, Hl3, Hl2, Hl1, Hland. unfold ret.
  eexists. eexists. split; [reflexivity|]. cbn [lc commonsByColor land grng].
  split; [split; [exact Hs4 | done]|].
  split; [rewrite Hc4, Hc3, Hc2, Hlen3; lia|].
  split.
  - rewrite (Hr4 uncommon), (Hr3 uncommon) by done. rewrite Hu2, Hu1. lia.
  - rewrite (Hr4 rare), (Hr3 rare), (Hr4 mythic), (Hr3 mythic) by done.
    rewrite (Hr2 rare), (Hr2 mythic) by done. rewrite Hrm1. lia.
Qed.

(** The loop over the boosters, without foils. *)
Lemma gen_loop_total o n :
  g_foil o = false →
  g_maxRarity o = "mythic" ∨ t_rare (targets_of (g_maxRarity o)) = 0 →
  let targets := targets_of (g_maxRarity o) in
  ∀ boosters st,
    stocked E (g_colorBalance o) st →
    t_common targets * Z.of_nat n <= count_cards (lc st common) →
    t_uncommon targets * Z.of_nat n <= count_cards (lc st uncommon) →
    t_rare targets * Z.of_nat n <= count_cards (lc st rare) + count_cards (lc st mythic) →
    ∃ bs st', gen_loop E o n boosters st = Ret ((bs, true), st')
      ∧ length bs = (length boosters + n)%nat.
Proof.
  intros Hfoil Hmax targets.
  pose proof (targets_common_large (g_maxRarity o)) as Hbig.
  pose proof (targets_nonneg (g_maxRarity o)) as [Hr0 Hu0].
  fold targets in Hbig, Hr0, Hu0.
  induction n as [|n IH]; intros boosters st Hst Hc Hu Hr; cbn [gen_loop].
  - exists boosters, st. split; [done|]. lia.
  - destruct (gen_booster_total o st Hfoil Hmax Hst) as (b & st1 & E1 & Hst1 & Hc1 & Hu1 & Hr1).
    { fold targets. nia. }
    { fold targets. nia. }
    { fold targets. nia. }
    fold targets in Hc1, Hu1, Hr1.
    unfold bind at 1. rewrite E1.
    destruct (IH (boosters ++ [b]) st1 Hst1) as (bs & st' & -> & Hlen); [nia..|].
    exists bs, st'. split; [done|]. rewrite Hlen, length_app. simpl. lia.
Qed.

End BoosterTotal.

Section ByColorFacts.
Import Generator BoosterSpec.
Context (E : Env).

Lemma by_color_fold (l : list (string * Z)) :
  NoDup l.*1 →
  (∀ kv, kv ∈ l → is_Some (Cards E !! kv.1)) →
  ∀ m0 m,
    foldl (λ (acc : Res (gmap string (gmap string Z))) (kv : string * Z),
        match acc with
        | Ret m =>
            match Cards E !! kv.1 with
            | None => Throw "Cards[card] is undefined"
            | Some f =>
                let ci := Card.color_identity f in
                Ret (<[ci := <[kv.1 := kv.2]> (default ∅ (m !! ci))]> m)
            end
        | other => other
        end) (Ret m0) l = Ret m →
    (∀ col c, m !! col ≫= (λ bag, bag !! c)
              = match (list_to_map l : gmap string Z) !! c ≫= color_filter E col c with
                | Some v => Some v
                | None => m0 !! col ≫= (λ bag, bag !! c)
                end)
    ∧ (∀ col, is_Some (m0 !! col) → is_Some (m !! col))
    ∧ (∀ kv, kv ∈ l → ∃ f, Cards E !! kv.1 = Some f ∧ is_Some (m !! Card.color_identity f)).
Proof.
  induction l as [|[k v] l IH]; intros Hnd Hcat m0 m; cbn [foldl].
  - intros [= <-]. split; [|split].
    + intros col c. cbn [list_to_map foldr]. by rewrite lookup_empty.
    + done.
    + intros kv Hkv. by apply elem_of_nil in Hkv.
  - cbn [fmap list_fmap fst] in Hnd. apply NoDup_cons in Hnd as [Hk Hnd].
    destruct (Hcat (k, v)) as [f Hf]; [left|]. cbn [fst snd] in *. rewrite Hf. cbv zeta.
    intros Hfold.
    destruct (IH Hnd (λ kv Hkv, Hcat kv (list_elem_of_further _ _ _ Hkv)) _ _ Hfold)
      as (Ha & Hb & Hc).
    assert ((list_to_map l : gmap string Z) !! k = None) as Hfresh.
    { by apply not_elem_of_list_to_map_1. }
    split; [|split].
    + intros col c. rewrite Ha. cbn [list_to_map foldr uncurry fst snd].
      destruct (decide (c = k)) as [->|Hne].
      * rewrite Hfresh, lookup_insert_eq. cbn. unfold color_filter. rewrite Hf.
        destruct (decide (Card.color_identity f = col)) as [<-|Hcol].
        -- rewrite lookup_insert_eq. cbn. by rewrite lookup_insert_eq.
        -- by rewrite lookup_insert_ne.
      * rewrite (lookup_insert_ne _ k c) by done.
        destruct ((list_to_map l : gmap string Z) !! c ≫= color_filter E col c); [done|].
        destruct (decide (Card.color_identity f = col)) as [<-|Hcol].
        -- rewrite lookup_insert_eq. cbn. rewrite lookup_insert_ne by done.
           destruct (m0 !! Card.color_identity f); cbn; [done|]. by rewrite lookup_empty.
        -- by rewrite lookup_insert_ne.
    + intros col Hcol. apply Hb. apply lookup_insert_is_Some'. by right.
    + intros kv Hkv. apply elem_of_cons in Hkv as [->|Hkv]; [|by apply Hc].
      exists f. split; [done|]. apply Hb. rewrite lookup_insert_eq. by eexists.
Qed.

(** The bags by colour that [generateBoosters] builds mirror the commons. *)
Lemma by_color_synced (commons : gmap string Z) B :
  (∀ c, is_Some (commons !! c) → is_Some (Cards E !! c)) →
  by_color E commons = Ret B → synced E commons B.
Proof.
  intros Hcat HB. unfold by_color in HB.
  destruct (by_color_fold (map_to_list commons)) with (m0 := (∅ : gmap string (gmap string Z)))
    (m := B) as (Ha & _ & Hc).
  - apply NoDup_fst_map_to_list.
  - intros [k v] Hkv. apply elem_of_map_to_list in Hkv. apply Hcat. by eexists.
  - exact HB.
  - rewrite list_to_map_to_list in Ha. split.
    + intros c [n Hn]. destruct (Hc (c, n)) as (f & Hf & Hsome).
      { by apply elem_of_map_to_list. }
      by exists f.
    + intros col bag c Hbag. specialize (Ha col c). rewrite Hbag in Ha. cbn in Ha.
      rewrite Ha. rewrite lookup_empty. cbn.
      by destruct (commons !! c ≫= color_filter E col c).
Qed.

End ByColorFacts.

Section SucceedsClaim.
Import Generator BoosterSpec Session.

(** The part of C3 that holds: with foils disabled, no land slot set up,
    and rare slots that mythics may fill (or no rare slot), a session whose
    bags all meet their target times the quantity gets all its boosters. *)
Lemma generateBoosters_succeeds (E : Env) (boosterQuantity : Z) (st st1 : St)
    (buckets : Rarity → gmap string Z) :
  useCustomCardList (sess st) = false →
  foil (sess st) = false →
  (∀ code, LandSlot E code = None) →
  restrictedCollectionByRarity E st = Ret (buckets, st1) →
  let targets := targets_of (maxRarity (sess st)) in
  maxRarity (sess st) = "mythic" ∨ t_rare targets = 0 →
  0 <= boosterQuantity →
  t_common targets * boosterQuantity <= count_cards (buckets common) →
  t_uncommon targets * boosterQuantity <= count_cards (buckets uncommon) →
  t_rare targets * boosterQuantity
    <= count_cards (buckets rare) + count_cards (buckets mythic) →
  ∃ st', generateBoosters E boosterQuantity st = Ret (true, st')
    ∧ length (boosters (sess st')) = Z.to_nat boosterQuantity.
Proof.
  intros Hcustom Hfoil Hland Hb targets Hmax Hq Hc Hu Hr.
  unfold generateBoosters. unfold bind at 1, get_sess at 1. cbv beta iota.
  rewrite Hcustom. unfold bind at 1. rewrite Hb.
  assert ((match setRestriction (sess st) with
           | [code] =>
               match LandSlot E code with
               | Some l => let '(d, s0) := ls_setup l (buckets common)
                           in (d, Some {| al_slot := l; al_state := s0 |})
               | None => (buckets common, None)
               end
           | _ => (buckets common, None)
           end) = (buckets common, None)) as ->.
  { destruct (setRestriction (sess st)) as [|code [|]]; try done. by rewrite Hland. }
  assert (∀ c, is_Some (buckets common !! c) → is_Some (Cards E !! c)) as Hcat.
  { intros c Hin. apply (rarity_of_catalog E common). by apply (restricted_sound E _ _ _ Hb). }
  assert (∃ byColor, (if colorBalance (sess st) then by_color E (buckets common) else Ret ∅)
                     = Ret byColor
                     ∧ (colorBalance (sess st) = true → synced E (buckets common) byColor))
    as (byColor & -> & Hsync).
  { destruct (colorBalance (sess st)).
    - destruct (by_color_returns E (buckets common) Hcat) as [B HB].
      exists B. split; [done|]. intros _. by apply by_color_synced.
    - by eexists. }
  cbv zeta. rewrite !set_bag_same. rewrite !(set_bag_other common) by done.
  fold targets.
  rewrite (proj2 (Z.ltb_ge _ _)) by lia.
  rewrite (proj2 (Z.ltb_ge _ _)) by lia.
  rewrite (proj2 (Z.ltb_ge _ _)) by lia.
  unfold bind at 1. cbv beta iota.
  match goal with
  | |- context [gen_loop E ?o ?n [] ?g] =>
      destruct (gen_loop_total E o n) with (boosters := @nil (list string)) (st := g)
        as (bs & gst & Hgen & Hlen)
  end.
  - exact Hfoil.
  - exact Hmax.
  - split; [|done]. cbn [g_colorBalance lc commonsByColor]. rewrite set_bag_same. exact Hsync.
  - cbn [g_maxRarity lc]. rewrite set_bag_same, Z2Nat.id by done. exact Hc.
  - cbn [g_maxRarity lc]. rewrite set_bag_other, Z2Nat.id by done. exact Hu.
  - cbn [g_maxRarity lc]. rewrite !(set_bag_other common), Z2Nat.id by done. exact Hr.
  - rewrite Hgen. unfold bind, with_rng, modify_sess, ret.
    eexists. split; [reflexivity|]. cbn [sess boosters set_boosters]. by rewrite Hlen.
Qed.

Lemma generateBoosters_succeeds_witness :
  ∃ st', generateBoosters Examples.small_env 1 Examples.lobby_state = Ret (true, st')
    ∧ length (boosters (sess st')) = 1%nat.
Proof.
  assert (∃ m, collection Examples.small_env Examples.lobby_state
               = Ret (m, Examples.lobby_state)
             ∧ (λ r, count_cards
                       (filter (λ kv : string * Z,
                                  in_bucket Examples.small_env ["thb"] r kv.1) m))
                 <$> [common; uncommon; rare; mythic]
               = [16; 4; 2; 0]) as (m & Hm & Hcount).
  { eexists. split; vm_compute; reflexivity. }
  cbn [fmap list_fmap] in Hcount. injection Hcount as Hc Hu Hr Hmy.
  apply (generateBoosters_succeeds Examples.small_env 1 Examples.lobby_state
           Examples.lobby_state
           (λ r, filter (λ kv : string * Z,
                           in_bucket Examples.small_env ["thb"] r kv.1) m)).
  - reflexivity.
  - reflexivity.
  - reflexivity.
  - unfold restrictedCollectionByRarity, bind. rewrite Hm. reflexivity.
  - left. reflexivity.
  - lia.
  - rewrite Hc. apply Z.leb_le. reflexivity.
  - rewrite Hu. apply Z.leb_le. reflexivity.
  - rewrite Hr, Hmy. apply Z.leb_le. reflexivity.
Defined.

End SucceedsClaim.

(** ** The seats of bots and of disconnected players *)

Section BoosterFrame.
Import Keeps Session SessionOps.

Lemma keeps_booster_ret j {A} (a : A) : keeps_booster j (ret a).
Proof. by intros st a' st' [= _ <-]. Qed.

Lemma keeps_booster_throw j {A} e : keeps_booster j (throw e : M A).
Proof. intros st a st' H. discriminate H. Qed.

Lemma keeps_booster_stuck j {A} e : keeps_booster j (stuck e : M A).
Proof. intros st a st' H. discriminate H. Qed.

Lemma keeps_booster_get_sess j : keeps_booster j get_sess.
Proof. by intros st a st' [= _ <-]. Qed.

Lemma keeps_booster_bind j {A B} (m : M A) (k : A → M B) :
  keeps_booster j m → (∀ a, keeps_booster j (k a)) → keeps_booster j (bind m k).
Proof.
  intros Hm Hk st b st' H. unfold bind in H.
  destruct (m st) as [[a st1]| |] eqn:E; try discriminate.
  rewrite (Hk _ _ _ _ H). by apply (Hm _ _ _ E).
Qed.

Lemma keeps_booster_modify_sess j (f : Session.t → Session.t) :
  (∀ s, boosters (f s) = boosters s) → keeps_booster j (modify_sess f).
Proof. intros Hf st a st' [= _ <-]. cbn [sess]. by rewrite Hf. Qed.

Lemma keeps_booster_set_booster_at j bi b : j ≠ bi → keeps_booster j (Draft.set_booster_at bi b).
Proof.
  intros Hne st a st' [= _ <-]. cbn [sess boosters set_boosters].
  unfold JS.set_nth_Z, JS.nth_Z. destruct (bi <? 0) eqn:Hbi; [done|].
  destruct (j <? 0) eqn:Hj; [done|]. apply Z.ltb_ge in Hbi, Hj.
  apply list_lookup_insert_ne. lia.
Qed.

Lemma keeps_booster_get_bot j r : keeps_booster j (Draft.get_bot r).
Proof.
  unfold Draft.get_bot. apply keeps_booster_bind; [apply keeps_booster_get_sess|].
  intros s. destruct r as [idx|u].
  - destruct (botsInstances s ≫= _); [apply keeps_booster_ret | apply keeps_booster_throw].
  - destruct (JS.obj_get u (disconnectedUsers s) ≫= Disc.bot);
      [apply keeps_booster_ret | apply keeps_booster_throw].
Qed.

Lemma keeps_booster_put_bot j r b : keeps_booster j (Draft.put_bot r b).
Proof.
  unfold Draft.put_bot. apply keeps_booster_modify_sess. intros s.
  destruct r as [idx|u]; [done|]. by destruct (JS.obj_get u (disconnectedUsers s)).
Qed.

Lemma keeps_booster_log_pick j u p : keeps_booster j (Draft.log_pick u p).
Proof.
  unfold Draft.log_pick. apply keeps_booster_bind; [apply keeps_booster_get_sess|].
  intros s. destruct (draftLog s) as [l|]; [|apply keeps_booster_throw].
  destruct (JS.obj_get u (Log.users l)); [|apply keeps_booster_throw].
  by apply keeps_booster_modify_sess.
Qed.

Lemma keeps_booster_burn_loop E j r bi n :
  j ≠ bi → ∀ burned, keeps_booster j (Draft.burn_loop E r bi n burned).
Proof.
  intros Hne. induction n as [|n IH]; intros burned; cbn [Draft.burn_loop].
  - apply keeps_booster_ret.
  - apply keeps_booster_bind; [apply keeps_booster_get_sess|]. intros s.
    apply keeps_booster_bind; [apply keeps_booster_get_bot|]. intros b.
    destruct (JS.nth_Z (boosters s) bi); [|apply keeps_booster_throw].
    apply keeps_booster_bind; [by apply keeps_booster_set_booster_at|]. intros _. apply IH.
Qed.

(** A bot's pick touches the booster it is given and no other. *)
Lemma keeps_booster_doBotPick E j r boosterIndex :
  Num j ≠ boosterIndex → keeps_booster j (Draft.doBotPick E r boosterIndex).
Proof.
  intros Hne. unfold Draft.doBotPick.
  apply keeps_booster_bind; [apply keeps_booster_get_sess|]. intros s.
  apply keeps_booster_bind; [apply keeps_booster_get_bot|]. intros b.
  destruct boosterIndex as [|bi]; [apply keeps_booster_throw|].
  assert (j ≠ bi) as Hj by (intros ->; by apply Hne).
  destruct (Draft.booster_at s (Num bi)) as [startingBooster|]; [|apply keeps_booster_throw].
  destruct (Draft.bot_pick E b startingBooster) as [removedIdx b'].
  apply keeps_booster_bind; [apply keeps_booster_put_bot|]. intros _.
  destruct (JS.nth_Z startingBooster removedIdx); [|apply keeps_booster_stuck].
  apply keeps_booster_bind; [by apply keeps_booster_set_booster_at|]. intros _.
  apply keeps_booster_bind; [by apply keeps_booster_burn_loop|]. intros burned.
  apply keeps_booster_bind; [apply keeps_booster_log_pick|]. intros _.
  apply keeps_booster_ret.
Qed.

End BoosterFrame.

Section SeatClaim.
Import Keeps Rotation Session SessionOps.

(** Whatever the kind of the seat, dealing to the seat at position [p]
    leaves every booster alone but the one of index
    [negMod (boosterOffset + p) V]: a bot, or the bot standing in for a
    disconnected player, picks from that booster and from no other. *)
Lemma deal_touches_assigned (E : Env) (off V p : Z) (seat : string * VirtualPlayer)
    (st st' : St) (j : Z) :
  Draft.deal E off V p seat st = Ret (tt, st') →
  Num j ≠ negMod (off + p) V →
  JS.nth_Z (boosters (sess st')) j = JS.nth_Z (boosters (sess st)) j.
Proof.
  intros H Hne. revert H. destruct seat as [u [[|]|idx]].
  - assert (keeps_booster j (Draft.deal E off V p (u, Human true))) as Hk; [|apply Hk].
    unfold Draft.deal.
    apply keeps_booster_bind; [apply keeps_booster_get_sess|]. intros s.
    destruct (JS.obj_get u (disconnectedUsers s)); [|apply keeps_booster_throw].
    apply keeps_booster_bind.
    { destruct (bool_decide _); [apply keeps_booster_put_bot | apply keeps_booster_ret]. }
    intros _. apply keeps_booster_bind; [by apply keeps_booster_doBotPick|]. intros c.
    apply keeps_booster_bind.
    { apply keeps_booster_modify_sess. intros s0.
      by destruct (JS.obj_get u (disconnectedUsers s0)). }
    intros _. by apply keeps_booster_modify_sess.
  - intros H. apply deal_human in H as (c & _ & ->). done.
  - assert (keeps_booster j (Draft.deal E off V p (u, BotSeat idx))) as Hk; [|apply Hk].
    unfold Draft.deal.
    apply keeps_booster_bind; [by apply keeps_booster_doBotPick|]. intros c.
    apply keeps_booster_ret.
Qed.

Lemma deal_touches_assigned_witness :
  ∃ st',
    Draft.deal Examples.small_env (-1) 2 0 ("bot", BotSeat 0) Examples.bot_seat_state
    = Ret (tt, st')
    ∧ JS.nth_Z (boosters (sess st')) 0 = Some ["a"; "b"; "c"]
    ∧ JS.nth_Z (boosters (sess st')) 1 = Some ["f"].
Proof.
  eexists. split; [vm_compute; reflexivity|]. split; [|vm_compute; reflexivity].
  eapply eq_trans.
  - apply (deal_touches_assigned Examples.small_env (-1) 2 0 ("bot", BotSeat 0)
             Examples.bot_seat_state).
    + vm_compute. reflexivity.
    + discriminate.
  - reflexivity.
Defined.

End SeatClaim.

(** ** Shuffling: [shuffleArray] and the Winston card pool *)

Section ShuffleFacts.

Lemma swap_Permutation {A} i j (l : list A) : swap i j l ≡ₚ l.
Proof.
  unfold swap.
  destruct (l !! i) as [x|] eqn:Hi; [|done]. destruct (l !! j) as [y|] eqn:Hj; [|done].
  apply Permutation_inj. split; [by rewrite !length_insert|].
  exists (λ k, if decide (k = i) then j else if decide (k = j) then i else k). split.
  - intros a b. repeat case_decide; lia.
  - intros k. destruct (decide (k = j)) as [->|Hkj].
    + rewrite list_lookup_insert_eq.
      * repeat case_decide; subst; congruence.
      * rewrite length_insert. by eapply lookup_lt_Some.
    + rewrite list_lookup_insert_ne by done.
      destruct (decide (k = i)) as [->|Hki].
      * rewrite list_lookup_insert_eq by (by eapply lookup_lt_Some).
        repeat case_decide; subst; congruence.
      * rewrite list_lookup_insert_ne by done. repeat case_decide; subst; congruence.
Qed.

Lemma shuffle_from_Permutation {A} n (l : list A) g : (shuffle_from n l g).1 ≡ₚ l.
Proof.
  revert l g. induction n as [|n IH]; intros l g; cbn [shuffle_from]; [done|].
  destruct (floor_random_times (Z.of_nat (S n) + 1) g) as [j g'].
  rewrite IH. apply swap_Permutation.
Qed.

(** [shuffleArray] only rearranges the array: whatever the random source
    gives, the result holds the same elements, each as many times as before. *)
Lemma shuffleArray_permutation {A} (l : list A) (g : Rng) :
  (shuffleArray l g).1 ≡ₚ l.
Proof. apply shuffle_from_Permutation. Qed.

Lemma pop_snoc {A} (l : list A) x : JS.pop (l ++ [x]) = (Some x, l).
Proof. unfold JS.pop. by rewrite last_snoc, removelast_last. Qed.

Lemma three_last {A} (l : list A) :
  (3 ≤ length l)%nat → ∃ r a b c, l = r ++ [c; b; a].
Proof.
  intros Hl. rewrite <- (rev_involutive l) in *. rewrite length_rev in Hl.
  destruct (rev l) as [|a [|b [|c r]]]; simpl in Hl; try lia.
  exists (rev r), a, b, c. simpl. by rewrite <- !app_assoc.
Qed.

(** [new WinstonDraftState(players, boosters)] loses no card and invents
    none: the three piles and the card pool together hold exactly the cards
    of the boosters.  With three cards or more each pile starts with one
    card; with fewer, [piles] stays undefined and the pool holds everything.
    The state starts at round -1 on pile 0. *)
Lemma WinstonDraftState_deals_the_boosters (players : list string)
    (boosters : list (list string)) (g : Rng) :
  let w := (WinstonDraft.new_state players boosters g).1 in
  concat (default [] (Winston.piles w)) ++ Winston.cardPool w ≡ₚ concat boosters
  ∧ (if 3 <=? Z.of_nat (length (concat boosters))
     then ∃ a b c, Winston.piles w = Some [[a]; [b]; [c]]
     else Winston.piles w = None)
  ∧ Winston.players w = players ∧ Winston.round w = -1 ∧ Winston.currentPile w = 0.
Proof.
  unfold WinstonDraft.new_state.
  pose proof (shuffle_from_Permutation (length (concat boosters) - 1) (concat boosters) g) as Hp.
  fold (shuffleArray (concat boosters) g) in Hp.
  destruct (shuffleArray (concat boosters) g) as [cardPool g'] eqn:Hs. cbn [fst] in Hp.
  rewrite <- (Permutation_length Hp).
  destruct (3 <=? Z.of_nat (length cardPool)) eqn:H3.
  - apply Z.leb_le in H3. destruct (three_last cardPool) as (r & a & b & c & ->); [lia|].
    replace (r ++ [c; b; a]) with (((r ++ [c]) ++ [b]) ++ [a]) in * by by rewrite <- !app_assoc.
    rewrite !pop_snoc. cbn. split_and!; eauto.
    rewrite <- Hp. rewrite <- !app_assoc. cbn.
    rewrite (Permutation_app_comm r). cbn.
    rewrite (Permutation_swap c b), (Permutation_swap c a), (Permutation_swap b a). done.
  - cbn. by split_and!.
Qed.

End ShuffleFacts.

(** ** Membership and seating ([addUser], [remUser], [setSeating],
    [randomizeSeating]) *)

Section SessFrame.
Import Frame Seating Session SessionOps.
Context {F : Type} (f : Session.t → F).

Lemma keeps_field_ret {A} (a : A) : keeps_field f (ret a).
Proof. by intros st a' st' [= _ <-]. Qed.

Lemma keeps_field_throw {A} e : keeps_field f (throw (A:=A) e).
Proof. intros st a st' [=]. Qed.

Lemma keeps_field_get_sess : keeps_field f get_sess.
Proof. by intros st a st' [= _ <-]. Qed.

Lemma keeps_field_get_conns : keeps_field f get_conns.
Proof. by intros st a st' [= _ <-]. Qed.

Lemma keeps_field_push_out t e : keeps_field f (push_out t e).
Proof. by intros st a st' [= _ <-]. Qed.

Lemma keeps_field_bind {A B} (m : M A) (k : A → M B) :
  keeps_field f m → (∀ a, keeps_field f (k a)) → keeps_field f (bind m k).
Proof.
  intros Hm Hk st b st' H. unfold bind in H.
  destruct (m st) as [[a st1]| |] eqn:E; try discriminate.
  apply Hk in H. apply Hm in E. congruence.
Qed.

Lemma keeps_field_forM {A} (l : list A) (h : A → M unit) :
  (∀ x, keeps_field f (h x)) → keeps_field f (forM_ l h).
Proof.
  intros H. induction l as [|x l IH]; simpl.
  - apply keeps_field_ret.
  - apply keeps_field_bind; [apply H | intros _; apply IH].
Qed.

Lemma keeps_field_conn_of u : keeps_field f (conn_of u).
Proof.
  unfold conn_of. apply keeps_field_bind; [apply keeps_field_get_conns|].
  intros c. destruct (c !! u); [apply keeps_field_ret | apply keeps_field_throw].
Qed.

Lemma keeps_field_emit u e : keeps_field f (emit u e).
Proof.
  unfold emit. apply keeps_field_bind; [apply keeps_field_conn_of|].
  intros _. apply keeps_field_push_out.
Qed.

Lemma keeps_field_forUsers fn : (∀ u, keeps_field f (fn u)) → keeps_field f (forUsers fn).
Proof.
  intros H. unfold forUsers.
  apply keeps_field_bind; [apply keeps_field_get_sess|]. intros s.
  apply keeps_field_bind; [apply keeps_field_get_conns|]. intros c.
  apply keeps_field_bind; [|intros _; by apply keeps_field_forM].
  destruct (_ && _); [apply H | apply keeps_field_ret].
Qed.

Lemma keeps_field_broadcastDisconnectedUsers : keeps_field f broadcastDisconnectedUsers.
Proof.
  unfold broadcastDisconnectedUsers.
  apply keeps_field_bind; [apply keeps_field_get_sess|]. intros s.
  apply keeps_field_forUsers. intros u. apply keeps_field_emit.
Qed.

End SessFrame.

Section AudienceFacts.
Import Frame Seating Session SessionOps.

(** What [forUsers] sends when its function only emits: one event to each
    member of the audience, in order. *)
Lemma forUsers_emit_exact (ev : string → Event) st :
  users_connected st →
  forUsers (λ u, emit u (ev u)) st
  = Ret (tt, add_out ((λ u, (ToUser u, ev u)) <$> audience st) st).
Proof.
  intros Hst. unfold forUsers, audience.
  unfold bind at 1, get_sess. unfold bind at 1, get_conns.
  assert (∀ l st0, (∀ u, u ∈ l → is_Some (conns st0 !! u)) →
            forM_ l (λ u, emit u (ev u)) st0
            = Ret (tt, add_out ((λ u, (ToUser u, ev u)) <$> l) st0)) as Hloop.
  { induction l as [|u l IH]; intros st0 Hl; simpl.
    - unfold ret. by rewrite add_out_nil.
    - destruct (Hl u) as [c Hc]; [left|]. unfold bind at 1.
      rewrite (emit_ok _ _ c) by done. rewrite IH.
      + by rewrite add_out_app.
      + intros v Hv. cbn. apply Hl. by right. }
  unfold bind at 1.
  destruct (negb (ownerIsPlayer (sess st)) && _) eqn:Hown.
  - apply andb_true_iff in Hown as [_ [c Hc]%bool_decide_eq_true].
    rewrite (emit_ok _ _ c) by done. rewrite Hloop.
    + by rewrite add_out_app.
    + intros v Hv. cbn. by apply Hst.
  - unfold ret. rewrite Hloop by (intros v Hv; by apply Hst). done.
Qed.

End AudienceFacts.

Section SeatingFacts.
Import Frame Seating Session SessionOps.

Lemma indexOf_from_absent (x : string) (l : list string) i :
  x ∉ l → JS.findIndex_from (λ y, bool_decide (y = x)) l i = -1.
Proof.
  revert i. induction l as [|z l IH]; intros i Hl; [done|]. simpl.
  apply not_elem_of_cons in Hl as [Hz Hl]. rewrite bool_decide_eq_false_2 by done.
  by apply IH.
Qed.

Lemma indexOf_absent (x : string) (l : list string) : x ∉ l → JS.indexOf x l = -1.
Proof. apply indexOf_from_absent. Qed.

Lemma indexOf_from_first (x : string) (l : list string) i :
  x ∈ l → ∃ l1 l2, l = l1 ++ x :: l2 ∧ (x ∉ l1)
                   ∧ JS.findIndex_from (λ y, bool_decide (y = x)) l i = i + Z.of_nat (length l1).
Proof.
  revert i. induction l as [|y l IH]; intros i Hin; [by apply elem_of_nil in Hin|].
  simpl. case_bool_decide as Hy.
  - subst y. exists [], l. split; [done|]. split; [apply not_elem_of_nil | simpl; lia].
  - apply elem_of_cons in Hin as [->|Hin]; [done|].
    destruct (IH (i + 1) Hin) as (l1 & l2 & -> & Hno & Hidx).
    exists (y :: l1), l2. split; [done|]. split.
    + apply not_elem_of_cons. split; [congruence | done].
    + rewrite Hidx. simpl. lia.
Qed.

(** [splice(indexOf(x), 1)] takes out the first occurrence of a listed [x]. *)
Lemma splice1_indexOf_first (x : string) (l1 l2 : list string) :
  x ∉ l1 → JS.splice1 (JS.indexOf x (l1 ++ x :: l2)) (l1 ++ x :: l2) = l1 ++ l2.
Proof.
  intros Hno. destruct (indexOf_from_first x (l1 ++ x :: l2) 0) as (k1 & k2 & Heq & Hk & Hidx).
  { apply elem_of_app. right. left. }
  assert (k1 = l1) as ->.
  { clear Hidx. revert k1 Heq Hk. induction l1 as [|a l1 IH]; intros [|b k1] Heq Hk.
    - done.
    - simpl in Heq. injection Heq as -> _. exfalso. apply Hk. left.
    - simpl in Heq. injection Heq as -> _. exfalso. apply Hno. left.
    - simpl in Heq. injection Heq as -> Heq. f_equal.
      apply not_elem_of_cons in Hno as [_ Hno]. apply not_elem_of_cons in Hk as [_ Hk].
      by apply IH. }
  unfold JS.indexOf, JS.findIndex. rewrite Hidx. unfold JS.splice1. cbv zeta.
  rewrite (proj2 (Z.ltb_ge _ _)) by lia.
  rewrite length_app. simpl.
  rewrite Z.min_l by lia. replace (Z.to_nat (0 + Z.of_nat (length l1))) with (length l1) by lia.
  apply delete_middle.
Qed.

(** [splice(-1, 1)] takes out the last element. *)
Lemma splice1_minus_one {A} (l : list A) : JS.splice1 (-1) l = removelast l.
Proof.
  unfold JS.splice1. cbv zeta. simpl.
  destruct l as [|a l] using rev_ind; [done|].
  rewrite removelast_last, length_app. simpl.
  replace (Z.to_nat (Z.max (Z.of_nat (length l + 1) + -1) 0)) with (length l) by lia.
  rewrite delete_middle. by rewrite app_nil_r.
Qed.

(** [remUser] outside a draft. *)
Lemma remUser_lobby userID st :
  drafting (sess st) = false →
  (userID = owner (sess st) → ownerIsPlayer (sess st) = true) →
  remUser userID st
  = Ret (tt, with_sess
               (set_userOrder
                  (JS.splice1 (JS.indexOf userID (userOrder (sess st))) (userOrder (sess st)))
                  (set_users (JS.set_delete userID (users (sess st))) (sess st))) st).
Proof.
  intros Hd Hown. unfold remUser. unfold bind at 1, get_sess.
  destruct (bool_decide (userID = owner (sess st)) && negb (ownerIsPlayer (sess st))) eqn:Hg.
  { apply andb_true_iff in Hg as [Ho%bool_decide_eq_true Hp]. rewrite Hown in Hp; done. }
  rewrite Hd. by munfold.
Qed.

(** [remUser] during a draft. *)
Lemma remUser_drafting userID c st :
  drafting (sess st) = true →
  (userID = owner (sess st) → ownerIsPlayer (sess st) = true) →
  conns st !! userID = Some c →
  remUser userID st
  = broadcastDisconnectedUsers
      (with_sess
         (set_disconnectedUsers
            (JS.obj_set userID (saved c) (disconnectedUsers (sess st)))
            (set_timerRunning false
               (set_users (JS.set_delete userID (users (sess st))) (sess st)))) st).
Proof.
  intros Hd Hown Hc. unfold remUser. unfold bind at 1, get_sess.
  destruct (bool_decide (userID = owner (sess st)) && negb (ownerIsPlayer (sess st))) eqn:Hg.
  { apply andb_true_iff in Hg as [Ho%bool_decide_eq_true Hp]. rewrite Hown in Hp; done. }
  rewrite Hd. unfold bind at 1, modify_sess at 1. unfold stopCountdown.
  unfold bind at 1, modify_sess at 1. unfold getDisconnectedUserData.
  unfold bind at 1. unfold bind at 1. unfold conn_of, bind at 1, get_conns.
  cbn [conns]. rewrite Hc. unfold ret at 1. unfold ret at 1.
  unfold bind at 1, modify_sess at 1. done.
Qed.

End SeatingFacts.

Section SeatingClaims.
Import Frame Seating Session SessionOps.

Lemma remUser_organizer userID st :
  userID = owner (sess st) → ownerIsPlayer (sess st) = false →
  remUser userID st = Ret (tt, st).
Proof.
  intros Ho Hp. unfold remUser, bind at 1, get_sess.
  by rewrite bool_decide_eq_true_2, Hp.
Qed.

Lemma set_delete_filter (x : string) (l : list string) :
  JS.set_delete x l = filter (λ u, u ≠ x) l.
Proof. done. Qed.

Lemma set_userOrder_same s : set_userOrder (userOrder s) s = s.
Proof. by destruct s. Qed.

(** Outside a draft a leaving member frees a seat: their first seat when
    they have one; when they have none, [indexOf] answers [-1] and
    [splice(-1, 1)] takes the seat of the last player instead. *)
Lemma remUser_frees_a_seat (userID : string) (st : St) :
  drafting (sess st) = false →
  (userID = owner (sess st) → ownerIsPlayer (sess st) = true) →
  ∃ st', remUser userID st = Ret (tt, st')
    ∧ users (sess st') = filter (λ u, u ≠ userID) (users (sess st))
    ∧ (userID ∈ userOrder (sess st) →
       ∃ l1 l2, userOrder (sess st) = l1 ++ userID :: l2 ∧ (userID ∉ l1)
                ∧ userOrder (sess st') = l1 ++ l2)
    ∧ (userID ∉ userOrder (sess st) →
       userOrder (sess st') = removelast (userOrder (sess st)))
    ∧ conns st' = conns st ∧ out st' = out st.
Proof.
  intros Hd Hown. eexists. split; [by apply remUser_lobby|].
  cbn. split_and!; try done.
  - intros Hin. destruct (indexOf_from_first userID _ 0 Hin) as (l1 & l2 & Heq & Hno & _).
    exists l1, l2. split_and!; try done. rewrite Heq. by apply splice1_indexOf_first.
  - intros Hno. rewrite indexOf_absent by done. apply splice1_minus_one.
Qed.

Lemma remUser_frees_a_seat_witness :
  ∃ st', remUser "bob" Examples.lobby_state = Ret (tt, st')
    ∧ users (sess st') = ["alice"] ∧ userOrder (sess st') = ["alice"].
Proof.
  destruct (remUser_frees_a_seat "bob" Examples.lobby_state) as (st' & H & Hu & Hs & _).
  - reflexivity.
  - intros H. discriminate H.
  - exists st'. split; [exact H|]. split; [exact Hu|].
    destruct Hs as (l1 & l2 & Heq & Hno & ->); [by right; left|].
    destruct l1 as [|a [|b l1]]; simpl in Heq.
    + discriminate Heq.
    + by injection Heq as <- <-.
    + injection Heq as _ _ Heq. by destruct l1.
Defined.

Lemma filter_ne_length (x : string) (l : list string) :
  NoDup l → x ∈ l → S (length (filter (λ u, u ≠ x) l)) = length l.
Proof.
  induction l as [|y l IH]; intros Hnd Hin; [by apply elem_of_nil in Hin|].
  apply NoDup_cons in Hnd as [Hy Hnd]. rewrite filter_cons. case_decide as Hyx.
  - simpl. f_equal. apply IH; [done|]. apply elem_of_cons in Hin as [->|Hin]; done.
  - subst y. simpl. f_equal. f_equal.
    clear IH Hin Hnd. induction l as [|z l IH]; [done|].
    apply not_elem_of_cons in Hy as [Hz Hy]. rewrite filter_cons.
    rewrite decide_True by done. f_equal. by apply IH.
Qed.

(** During a draft a leaving member keeps their seat: they move from [users]
    to [disconnectedUsers] with a copy of their picks and of the booster they
    hold, the timer stops, the remaining members are told, and the count and
    the order of the human players stay what they were. *)
Lemma remUser_keeps_the_seat (userID : string) (c : Conn.t) (st : St) :
  drafting (sess st) = true →
  (userID = owner (sess st) → ownerIsPlayer (sess st) = true) →
  conns st !! userID = Some c →
  users_connected st →
  ∃ st', remUser userID st = Ret (tt, st')
    ∧ users (sess st') = filter (λ u, u ≠ userID) (users (sess st))
    ∧ userOrder (sess st') = userOrder (sess st)
    ∧ JS.obj_get userID (disconnectedUsers (sess st')) = Some (saved c)
    ∧ timerRunning (sess st') = false
    ∧ conns st' = conns st
    ∧ out st' = out st
                ++ ((λ u, (ToUser u, EvUserDisconnected
                                       ((λ kv, Disc.userName kv.2) <$> disconnectedUsers (sess st'))))
                    <$> audience st')
    ∧ (userID ∈ users (sess st) →
       getSortedHumanPlayers (sess st') = getSortedHumanPlayers (sess st))
    ∧ (NoDup (users (sess st)) → userID ∈ users (sess st) →
       userID ∉ JS.obj_keys (disconnectedUsers (sess st)) →
       getHumanPlayerCount (sess st') = getHumanPlayerCount (sess st)).
Proof.
  intros Hd Hown Hc Hst. rewrite (remUser_drafting _ c) by done.
  unfold broadcastDisconnectedUsers, bind at 1, get_sess.
  rewrite forUsers_emit_exact.
  2:{ intros u Hu. cbn in Hu |- *. apply list_elem_of_filter in Hu as [_ Hu]. by apply Hst. }
  eexists. split; [done|]. cbn [sess conns out add_out with_sess].
  cbn [users userOrder disconnectedUsers timerRunning set_disconnectedUsers
       set_timerRunning set_users].
  split_and!; try done.
  - apply obj_get_set.
  - intros Hin. unfold getSortedHumanPlayers. cbn [users userOrder disconnectedUsers set_disconnectedUsers set_timerRunning set_users].
    apply list_filter_iff. intros e. unfold JS.set_delete.
    rewrite !elem_of_app, obj_keys_set, list_elem_of_filter.
    destruct (decide (e = userID)) as [->|]; tauto.
  - intros Hnd Hin Hno. unfold getHumanPlayerCount. cbn [users userOrder disconnectedUsers set_disconnectedUsers set_timerRunning set_users].
    rewrite obj_set_keys_length by done.
    pose proof (filter_ne_length userID _ Hnd Hin). unfold JS.set_delete. lia.
Qed.

Lemma remUser_keeps_the_seat_witness :
  ∃ st', remUser "bob" Examples.burn_state = Ret (tt, st')
    ∧ users (sess st') = ["alice"]
    ∧ userOrder (sess st') = ["alice"; "bob"]
    ∧ getHumanPlayerCount (sess st') = 2.
Proof.
  destruct (remUser_keeps_the_seat "bob" (Examples.seated "bob" 1) Examples.burn_state)
    as (st' & H & Hu & Ho & _ & _ & _ & _ & _ & Hn).
  - reflexivity.
  - intros H. discriminate H.
  - reflexivity.
  - intros u Hu. cbn in Hu.
    apply elem_of_cons in Hu as [->|Hu]; [by eexists|].
    apply elem_of_cons in Hu as [->|Hu]; [by eexists|]. by apply elem_of_nil in Hu.
  - exists st'. split; [exact H|]. split; [exact Hu|]. split; [exact Ho|].
    rewrite Hn; [reflexivity| | |].
    + cbn. apply NoDup_cons. split; [|apply NoDup_singleton].
      intros H1. apply list_elem_of_singleton in H1. discriminate H1.
    + cbn. right. left.
    + cbn. apply not_elem_of_nil.
Defined.

Lemma setSeating_refused (seating : list string) (st : St) :
  drafting (sess st) = true ∨ ¬ Forall (λ u, u ∈ seating) (users (sess st)) →
  setSeating seating st = Ret (false, st).
Proof.
  intros H. unfold setSeating, bind at 1, get_sess.
  destruct (drafting (sess st)); [done|]. destruct H as [H|H]; [done|].
  rewrite bool_decide_eq_true_2; [done|].
  apply not_Forall_Exists in H; [|apply _]. done.
Qed.

Lemma setSeating_accepted (seating : list string) (st : St) :
  drafting (sess st) = false → Forall (λ u, u ∈ seating) (users (sess st)) →
  ∃ o, setSeating seating st
       = Ret (true, add_out o (with_sess (set_userOrder seating (sess st)) st)).
Proof.
  intros Hd Hall. unfold setSeating, bind at 1, get_sess. rewrite Hd.
  rewrite bool_decide_eq_false_2.
  2:{ intros (u & Hu & Hno)%Exists_exists. apply Hno. by eapply Forall_forall in Hall. }
  unfold bind at 1, modify_sess at 1. unfold bind at 1.
  match goal with |- context [notifyUserChange ?st1] =>
    destruct (notifyUserChange_emits st1) as [o ->] end.
  by exists o.
Qed.

Lemma randomizeSeating_lobby (st : St) :
  drafting (sess st) = false →
  ∃ o, randomizeSeating st
       = Ret (true, add_out o
           {| sess := set_userOrder (shuffleArray (userOrder (sess st)) (rng st)).1 (sess st);
              conns := conns st; out := out st;
              rng := (shuffleArray (userOrder (sess st)) (rng st)).2 |}).
Proof.
  intros Hd. unfold randomizeSeating, bind at 1, get_sess. rewrite Hd.
  unfold bind at 1, with_rng.
  destruct (shuffleArray (userOrder (sess st)) (rng st)) as [o g'].
  unfold bind at 1, modify_sess at 1. unfold bind at 1.
  match goal with |- context [notifyUserChange ?st1] =>
    destruct (notifyUserChange_emits st1) as [ev ->] end.
  by exists ev.
Qed.

(** [setSeating] is total.  It accepts a seating exactly when no draft is
    running and every member of the session is listed; then the seating
    becomes the new [userOrder] and nothing else of the session changes.  A
    refused seating leaves everything as it was. *)
Lemma setSeating_outcome (seating : list string) (st : St) :
  ∃ b st', setSeating seating st = Ret (b, st')
    ∧ (b = true ↔ drafting (sess st) = false ∧ Forall (λ u, u ∈ seating) (users (sess st)))
    ∧ (b = false → st' = st)
    ∧ (b = true → sess st' = set_userOrder seating (sess st) ∧ conns st' = conns st).
Proof.
  destruct (decide (drafting (sess st) = false ∧ Forall (λ u, u ∈ seating) (users (sess st))))
    as [[Hd Hall]|Hno].
  - destruct (setSeating_accepted seating st Hd Hall) as [o Ho].
    eexists true, _. split; [exact Ho|]. split; [done|]. split; [done|]. done.
  - exists false, st. split.
    + apply setSeating_refused. destruct (drafting (sess st)); [by left|right].
      intros Hall. by apply Hno.
    + split; [|done]. split; [done|]. intros H. by destruct Hno.
Qed.

(** [randomizeSeating] is total.  During a draft it answers [false] and
    changes nothing; otherwise it answers [true], the new [userOrder] seats
    the same players as before, each as often, and nothing else of the
    session changes. *)
Lemma randomizeSeating_outcome (st : St) :
  ∃ b st', randomizeSeating st = Ret (b, st')
    ∧ b = negb (drafting (sess st))
    ∧ (b = false → st' = st)
    ∧ userOrder (sess st') ≡ₚ userOrder (sess st)
    ∧ set_userOrder (userOrder (sess st)) (sess st') = sess st
    ∧ conns st' = conns st.
Proof.
  destruct (drafting (sess st)) eqn:Hd.
  { exists false, st. unfold randomizeSeating, bind at 1, get_sess. rewrite Hd.
    split; [done|]. split_and!; try done. apply set_userOrder_same. }
  destruct (randomizeSeating_lobby st Hd) as [o Ho].
  eexists true, _. split; [exact Ho|]. cbn. split_and!; try done.
  - apply shuffle_from_Permutation.
  - by destruct (sess st).
Qed.

Lemma addUser_disconnected u st :
  conns st !! u = None → ∀ st', addUser u st ≠ Ret (tt, st').
Proof.
  intros Hc st'. unfold addUser, bind at 1, get_sess. unfold bind at 1.
  unfold modify_conn, bind at 1, conn_of, bind at 1, get_conns. by rewrite Hc.
Qed.

Lemma remUser_disconnected u st :
  drafting (sess st) = true →
  (u = owner (sess st) → ownerIsPlayer (sess st) = true) →
  conns st !! u = None → ∀ st', remUser u st ≠ Ret (tt, st').
Proof.
  intros Hd Hown Hc st'. unfold remUser, bind at 1, get_sess.
  destruct (bool_decide (u = owner (sess st)) && negb (ownerIsPlayer (sess st))) eqn:Hg.
  { apply andb_true_iff in Hg as [Ho%bool_decide_eq_true Hp]. rewrite Hown in Hp; done. }
  rewrite Hd. unfold bind at 1, modify_sess at 1. unfold stopCountdown.
  unfold bind at 1, modify_sess at 1. unfold getDisconnectedUserData.
  unfold bind at 1. unfold bind at 1. unfold conn_of, bind at 1, get_conns.
  cbn [conns]. by rewrite Hc.
Qed.

(** Every member of a session has a seat, and the operations on the
    membership and on the seating keep it so: if [users] is included in
    [userOrder] before [addUser], [remUser] (of a member), [setSeating] or
    [randomizeSeating], it still is when the call returns. *)
Lemma seating_operations_keep_seats (op : Op) (st st' : St) :
  seated (sess st) → legal op (sess st) →
  run op st = Ret (tt, st') →
  seated (sess st').
Proof.
  unfold seated. intros Hs Hl Hrun. destruct op as [u|u|seating|]; cbn [run legal] in *.
  - (* addUser *)
    destruct (conns st !! u) as [c|] eqn:Hc; [|by apply addUser_disconnected in Hrun].
    destruct (addUser_spec u c st Hc) as [o Ho]. rewrite Ho in Hrun.
    injection Hrun as <-. cbn [sess add_out with_conns with_sess].
    cbn [users userOrder set_users].
    destruct (JS.indexOf u (userOrder (sess st)) <? 0) eqn:Hidx;
      cbn [users userOrder set_users set_userOrder]; apply Forall_forall; intros v Hv.
    + apply elem_of_app. apply set_add_inv in Hv as [->|Hv]; [right; left|left].
      by eapply Forall_forall in Hs.
    + apply set_add_inv in Hv as [->|Hv]; [|by eapply Forall_forall in Hs].
      destruct (decide (u ∈ userOrder (sess st))) as [|Hno]; [done|].
      rewrite indexOf_absent in Hidx by done. done.
  - (* remUser *)
    destruct (decide (u = owner (sess st) ∧ ownerIsPlayer (sess st) = false)) as [[Ho Hp]|Hown].
    { rewrite remUser_organizer in Hrun by done. by injection Hrun as <-. }
    assert (u = owner (sess st) → ownerIsPlayer (sess st) = true) as Hown'.
    { intros Ho. destruct (ownerIsPlayer (sess st)); [done|]. by destruct Hown. }
    destruct (drafting (sess st)) eqn:Hd.
    + destruct (conns st !! u) as [c|] eqn:Hc; [|by apply remUser_disconnected in Hrun].
      rewrite (remUser_drafting _ c) in Hrun by done.
      apply (keeps_field_broadcastDisconnectedUsers (λ s, s)) in Hrun. rewrite Hrun.
      cbn. apply Forall_forall. intros v Hv. apply list_elem_of_filter in Hv as [_ Hv].
      by eapply Forall_forall in Hs.
    + rewrite remUser_lobby in Hrun by done. injection Hrun as <-. cbn.
      assert (u ∈ userOrder (sess st)) as Hin by by eapply Forall_forall in Hs.
      destruct (indexOf_from_first u _ 0 Hin) as (l1 & l2 & Heq & Hno & _).
      assert (JS.splice1 (JS.indexOf u (userOrder (sess st))) (userOrder (sess st)) = l1 ++ l2)
        as -> by (rewrite Heq; by apply splice1_indexOf_first).
      apply Forall_forall. intros v Hv. apply list_elem_of_filter in Hv as [Hne Hv].
      eapply Forall_forall in Hs; [|exact Hv]. rewrite Heq in Hs.
      apply elem_of_app in Hs as [Hs|Hs]; apply elem_of_app; [by left|].
      apply elem_of_cons in Hs as [->|Hs]; [done | by right].
  - (* setSeating *)
    unfold bind in Hrun.
    destruct (decide (drafting (sess st) = false
                      ∧ Forall (λ u, u ∈ seating) (users (sess st)))) as [[Hd Hall]|Hno].
    + destruct (setSeating_accepted seating st Hd Hall) as [o Ho]. rewrite Ho in Hrun.
      by injection Hrun as <-.
    + rewrite setSeating_refused in Hrun; [by injection Hrun as <-|].
      destruct (drafting (sess st)); [by left|right]. intros Hall. by apply Hno.
  - (* randomizeSeating *)
    unfold bind in Hrun. destruct (drafting (sess st)) eqn:Hd.
    + revert Hrun. unfold randomizeSeating, bind at 1, get_sess. rewrite Hd.
      by intros [= <-].
    + destruct (randomizeSeating_lobby st Hd) as [o Ho]. rewrite Ho in Hrun.
      injection Hrun as <-. cbn [sess add_out userOrder set_userOrder users].
      pose proof (shuffle_from_Permutation (length (userOrder (sess st)) - 1)
                    (userOrder (sess st)) (rng st)) as Hp.
      fold (shuffleArray (userOrder (sess st)) (rng st)) in Hp.
      apply Forall_forall. intros v Hv. rewrite Hp.
      by eapply Forall_forall in Hs.
Qed.

Lemma seating_operations_keep_seats_witness :
  ∃ st', run (Leave "bob") Examples.lobby_state = Ret (tt, st') ∧ seated (sess st').
Proof.
  eexists. split; [vm_compute; reflexivity|].
  eapply (seating_operations_keep_seats (Leave "bob") Examples.lobby_state).
  - repeat constructor.
  - cbn. repeat constructor.
  - vm_compute. reflexivity.
Defined.

End SeatingClaims.

(** ** A shortage of cards in [generateBoosters] *)

Section ShortageMessage.
Import Frame Seating Generator BoosterSpec StartSpec Session SessionOps.

(** When a bag is short of its target times the quantity (no land slot being
    set up), [generateBoosters] sends every user the message "Error
    generating boosters" with the count of the first bag found short, and
    returns false without touching the boosters. *)
Lemma generateBoosters_shortage (E : Env) (boosterQuantity : Z) (st st1 : St)
    (buckets : Rarity → gmap string Z) :
  useCustomCardList (sess st) = false →
  (∀ code, LandSlot E code = None) →
  restrictedCollectionByRarity E st = Ret (buckets, st1) →
  users_connected st1 →
  let targets := targets_of (maxRarity (sess st)) in
  count_cards (buckets common) < t_common targets * boosterQuantity
  ∨ count_cards (buckets uncommon) < t_uncommon targets * boosterQuantity
  ∨ count_cards (buckets rare) + count_cards (buckets mythic)
    < t_rare targets * boosterQuantity →
  generateBoosters E boosterQuantity st
  = Ret (false,
         add_out
           ((λ u, (ToUser u,
                   EvMessage "Error generating boosters"
                     (shortage_text (maxRarity (sess st)) boosterQuantity buckets)
                     (Some true) (Some 1500)))
              <$> audience st1)
           st1).
Proof.
  intros Hcustom Hland Hb Hconn targets Hshort.
  unfold generateBoosters. unfold bind at 1, get_sess at 1. cbv beta iota.
  rewrite Hcustom. unfold bind at 1. rewrite Hb.
  assert ((match setRestriction (sess st) with
           | [code] =>
               match LandSlot E code with
               | Some l => let '(d, s0) := ls_setup l (buckets common)
                           in (d, Some {| al_slot := l; al_state := s0 |})
               | None => (buckets common, None)
               end
           | _ => (buckets common, None)
           end) = (buckets common, None)) as ->.
  { destruct (setRestriction (sess st)) as [|code [|]]; try done. by rewrite Hland. }
  assert (∃ byColor, (if colorBalance (sess st) then by_color E (buckets common) else Ret ∅)
                     = Ret byColor) as [byColor ->].
  { destruct (colorBalance (sess st)); [|by eexists].
    apply by_color_returns. intros c Hc. apply (rarity_of_catalog E common).
    by apply (restricted_sound E _ _ _ Hb). }
  cbv zeta.
  assert (set_bag common (buckets common) buckets common = buckets common) as ->.
  { unfold set_bag. by destruct (decide (common = common)). }
  change (set_bag common (buckets common) buckets uncommon) with (buckets uncommon).
  change (set_bag common (buckets common) buckets rare) with (buckets rare).
  change (set_bag common (buckets common) buckets mythic) with (buckets mythic).
  unfold shortage_text. cbv zeta. fold targets.
  assert (∀ text, (emitMessage "Error generating boosters" text true 1500 ;;; ret false) st1
                  = Ret (false,
                         add_out
                           ((λ u, (ToUser u,
                                   EvMessage "Error generating boosters" text
                                     (Some true) (Some 1500))) <$> audience st1) st1))
    as Hmsg.
  { intros text. unfold bind, emitMessage.
    by rewrite (forUsers_emit_exact
                  (λ _, EvMessage "Error generating boosters" text (Some true) (Some 1500))
                  st1 Hconn). }
  destruct (count_cards (buckets common) <? t_common targets * boosterQuantity) eqn:H1;
    [apply Hmsg|].
  destruct (count_cards (buckets uncommon) <? t_uncommon targets * boosterQuantity) eqn:H2;
    [apply Hmsg|].
  destruct (count_cards (buckets rare) + count_cards (buckets mythic)
            <? t_rare targets * boosterQuantity) eqn:H3; [apply Hmsg|].
  apply Z.ltb_ge in H1, H2, H3. lia.
Qed.

Lemma generateBoosters_shortage_witness :
  generateBoosters Examples.small_env 6 Examples.scarce_state
  = Ret (false,
         add_out
           [(ToUser "alice",
             EvMessage "Error generating boosters"
               "Not enough cards (16/60 commons) in collection." (Some true) (Some 1500));
            (ToUser "bob",
             EvMessage "Error generating boosters"
               "Not enough cards (16/60 commons) in collection." (Some true) (Some 1500))]
           Examples.scarce_state).
Proof.
  assert (∃ m, collection Examples.small_env Examples.scarce_state
               = Ret (m, Examples.scarce_state)
             ∧ count_cards
                 (filter (λ kv, in_bucket Examples.small_env
                                  (setRestriction (sess Examples.scarce_state)) common kv.1) m)
               = 16) as (m & Hm & Hcount).
  { eexists. split; vm_compute; reflexivity. }
  rewrite (generateBoosters_shortage Examples.small_env 6 Examples.scarce_state
             Examples.scarce_state
             (λ r, filter (λ kv, in_bucket Examples.small_env
                                   (setRestriction (sess Examples.scarce_state)) r kv.1) m)).
  - unfold shortage_text. cbv zeta. rewrite Hcount. reflexivity.
  - reflexivity.
  - reflexivity.
  - unfold restrictedCollectionByRarity, bind. rewrite Hm. reflexivity.
  - intros u Hu. vm_compute in Hu.
    repeat (apply elem_of_cons in Hu as [->|Hu]; [vm_compute; eauto|]).
    apply elem_of_nil in Hu. destruct Hu.
  - left. cbv beta. rewrite Hcount. reflexivity.
Defined.

End ShortageMessage.

(** ** The pick timer ([startCountdown], [resumeCountdown]) *)

Section TimerClaims.
Import Frame Seating Session SessionOps.

Lemma resumeCountdown_result (st : St) :
  users_connected st →
  resumeCountdown st
  = Ret (tt,
      if maxTimer (sess st) <=? 0
      then add_out ((λ u, (ToUser u, EvDisableTimer)) <$> audience st)
             (with_sess (set_timerRunning false (sess st)) st)
      else add_out ((λ u, (ToUser u, EvTimer (countdown (sess st)))) <$> audience st)
             (with_sess (set_timerRunning true (sess st)) st)).
Proof.
  intros Hst. unfold resumeCountdown, stopCountdown.
  unfold bind at 1, modify_sess at 1. unfold bind at 1, get_sess.
  cbn [sess maxTimer set_timerRunning countdown].
  destruct (maxTimer (sess st) <=? 0).
  - by rewrite (forUsers_emit_exact (λ _, EvDisableTimer)).
  - unfold bind at 1. rewrite (forUsers_emit_exact (λ _, EvTimer _)) by done.
    unfold modify_sess. cbn. unfold add_out, with_sess, audience. cbn.
    by destruct (sess st).
Qed.

(** [startCountdown] gives each pick [maxTimer - round * floor(maxTimer / 15)]
    seconds and tells every member (and a non-playing owner): the allowance
    shrinks by a fifteenth of [maxTimer] with each pick of a pack and is still
    positive, and at most [maxTimer], for the first fifteen picks.  With
    [maxTimer] at 0 or below no timer runs and the clients are told to disable
    theirs. *)
Lemma startCountdown_allowance (st : St) :
  users_connected st →
  ∃ st', startCountdown st = Ret (tt, st')
    ∧ countdown (sess st')
      = maxTimer (sess st) - round (sess st) * (maxTimer (sess st) / 15)
    ∧ (0 < maxTimer (sess st) →
       timerRunning (sess st') = true
       ∧ out st' = out st ++ ((λ u, (ToUser u, EvTimer (countdown (sess st')))) <$> audience st))
    ∧ (maxTimer (sess st) <= 0 →
       timerRunning (sess st') = false
       ∧ out st' = out st ++ ((λ u, (ToUser u, EvDisableTimer)) <$> audience st))
    ∧ (0 < maxTimer (sess st) → 0 <= round (sess st) < 15 →
       0 < countdown (sess st') <= maxTimer (sess st))
    ∧ conns st' = conns st.
Proof.
  intros Hst. unfold startCountdown, bind at 1, get_sess. cbv zeta.
  unfold bind at 1, modify_sess at 1. rewrite resumeCountdown_result by done.
  cbn [sess maxTimer set_countdown countdown].
  assert (∀ m r, 0 < m → 0 <= r < 15 → 0 < m - r * (m / 15) <= m) as Harith.
  { intros m r Hm Hr. pose proof (Z.mul_div_le m 15 ltac:(lia)).
    pose proof (Z.div_pos m 15 ltac:(lia) ltac:(lia)). nia. }
  destruct (maxTimer (sess st) <=? 0) eqn:Hm; [apply Z.leb_le in Hm|apply Z.leb_gt in Hm];
    eexists; (split; [done|]); cbn; split_and!; try done; try lia.
  intros _ Hr. by apply Harith.
Qed.

Lemma startCountdown_allowance_witness :
  ∃ st', startCountdown Examples.burn_state = Ret (tt, st')
    ∧ countdown (sess st') = 70 ∧ timerRunning (sess st') = true.
Proof.
  destruct (startCountdown_allowance Examples.burn_state) as (st' & H & Hc & Hr & _).
  - intros u Hu. cbn in Hu.
    apply elem_of_cons in Hu as [->|Hu]; [by eexists|].
    apply elem_of_cons in Hu as [->|Hu]; [by eexists|]. by apply elem_of_nil in Hu.
  - exists st'. split; [exact H|]. split; [exact Hc|]. apply Hr. reflexivity.
Defined.

End TimerClaims.

(** ** The table ([getSortedVirtualPlayers]) *)

Section SeatFacts.
Import Seats Session SessionOps.

Lemma alternate_keys human hs bs idx :
  JS.obj_keys (alternate human hs bs idx) ≡ₚ hs ++ (Bot.id <$> bs).
Proof.
  unfold JS.obj_keys. revert bs idx. induction hs as [|h hs IH]; intros bs idx.
  - cbn [alternate app]. revert idx.
    induction bs as [|b bs IHb]; intros idx; cbn [bots_from fmap list_fmap fst]; [done|].
    f_equiv. apply IHb.
  - destruct bs as [|b bs]; cbn [alternate fmap list_fmap fst app].
    + f_equiv. apply IH.
    + f_equiv. rewrite IH. cbn [fmap list_fmap]. apply Permutation_middle.
Qed.

Lemma alternate_length human hs bs idx :
  length (alternate human hs bs idx) = (length hs + length bs)%nat.
Proof.
  rewrite <- (length_fmap fst). fold (JS.obj_keys (alternate human hs bs idx)).
  rewrite alternate_keys. by rewrite length_app, length_fmap.
Qed.

Lemma obj_keys_app {V} (o1 o2 : list (string * V)) :
  JS.obj_keys (o1 ++ o2) = JS.obj_keys o1 ++ JS.obj_keys o2.
Proof. unfold JS.obj_keys. apply fmap_app. Qed.

Lemma alternate_rank human hs bs k :
  (0 < Nat.max (length (drop k hs)) (length (drop k bs)))%nat →
  alternate human (drop k hs) (drop k bs) k
  = rank_seats human hs bs k ++ alternate human (drop (S k) hs) (drop (S k) bs) (S k).
Proof.
  intros Hn. unfold rank_seats.
  destruct (hs !! k) as [h|] eqn:Hh; destruct (bs !! k) as [b|] eqn:Hb; cbn [fmap option_fmap option_map option_list app].
  - by rewrite (drop_S _ _ _ Hh), (drop_S _ _ _ Hb).
  - rewrite (drop_S _ _ _ Hh). apply lookup_ge_None in Hb.
    rewrite (drop_ge bs k), (drop_ge bs (S k)) by lia. done.
  - rewrite (drop_S _ _ _ Hb). apply lookup_ge_None in Hh.
    rewrite (drop_ge hs k), (drop_ge hs (S k)) by lia. done.
  - apply lookup_ge_None in Hh, Hb.
    rewrite (drop_ge hs k), (drop_ge bs k) in Hn by done. simpl in Hn. lia.
Qed.

(** One step seats the players of its rank, when they are new to the table:
    the table gains their seats, at the end when no identifier is an array
    index. *)
Lemma seat_step_perm human hs bs acc k :
  NoDup (JS.obj_keys (acc ++ rank_seats human hs bs k)) →
  seat_step human hs bs acc k ≡ₚ acc ++ rank_seats human hs bs k.
Proof.
  unfold seat_step, rank_seats. rewrite obj_keys_app.
  destruct (hs !! k) as [h|]; destruct (bs !! k) as [b|];
    cbn [fmap option_fmap option_map option_list app JS.obj_keys list_fmap fst];
    intros Hnd; apply NoDup_app in Hnd as (Hacc & Hfresh & Hrest).
  - apply NoDup_cons in Hrest as [Hh _].
    rewrite obj_set_new.
    + rewrite obj_set_new by (intros Hin; apply (Hfresh _ Hin); left).
      etrans; [|apply Permutation_app_comm]. apply perm_swap.
    + rewrite obj_keys_set. intros [Heq|Hin].
      * apply Hh. rewrite Heq. left.
      * apply (Hfresh _ Hin). right. left.
  - rewrite obj_set_new by (intros Hin; apply (Hfresh _ Hin); left).
    etrans; [|apply Permutation_app_comm]. done.
  - rewrite obj_set_new by (intros Hin; apply (Hfresh _ Hin); left).
    etrans; [|apply Permutation_app_comm]. done.
  - by rewrite app_nil_r.
Qed.

Lemma seat_step_last human hs bs acc k :
  NoDup (JS.obj_keys (acc ++ rank_seats human hs bs k)) →
  Forall (λ x, JS.array_index x = None) (JS.obj_keys (rank_seats human hs bs k)) →
  seat_step human hs bs acc k = acc ++ rank_seats human hs bs k.
Proof.
  unfold seat_step, rank_seats. rewrite obj_keys_app.
  destruct (hs !! k) as [h|]; destruct (bs !! k) as [b|];
    cbn [fmap option_fmap option_map option_list app JS.obj_keys list_fmap fst];
    intros Hnd Hidx; apply NoDup_app in Hnd as (Hacc & Hfresh & Hrest).
  - apply NoDup_cons in Hrest as [Hh _].
    apply Forall_cons in Hidx as [Hih Hidx]. apply Forall_cons in Hidx as [Hib _].
    rewrite (obj_set_fresh h) by (done || intros Hin; apply (Hfresh _ Hin); left).
    rewrite (obj_set_fresh (Bot.id b)); [by rewrite <- app_assoc | done |].
    rewrite obj_keys_app. intros [Hin|Hin]%elem_of_app.
    + apply (Hfresh _ Hin). right. left.
    + apply list_elem_of_singleton in Hin. simpl in Hin. apply Hh. rewrite Hin. left.
  - apply Forall_cons in Hidx as [Hih _].
    by rewrite (obj_set_fresh h) by (done || intros Hin; apply (Hfresh _ Hin); left).
  - apply Forall_cons in Hidx as [Hib _].
    by rewrite (obj_set_fresh (Bot.id b)) by (done || intros Hin; apply (Hfresh _ Hin); left).
  - by rewrite app_nil_r.
Qed.

(** The loop of [getSortedVirtualPlayers] from rank [k] on. *)
Lemma seats_loop_perm (human : string → VirtualPlayer) (hs : list string) (bs : list Bot.t) :
  ∀ n k acc,
    n = Nat.max (length (drop k hs)) (length (drop k bs)) →
    NoDup (JS.obj_keys (acc ++ alternate human (drop k hs) (drop k bs) k)) →
    foldl (seat_step human hs bs) acc (seq k n)
    ≡ₚ acc ++ alternate human (drop k hs) (drop k bs) k.
Proof.
  induction n as [|n IH]; intros k acc Hn Hnd.
  - destruct (drop k hs); [|simpl in Hn; lia]. destruct (drop k bs); [|simpl in Hn; lia].
    simpl. by rewrite app_nil_r.
  - cbn [seq foldl]. rewrite alternate_rank in Hnd |- * by lia.
    rewrite app_assoc in Hnd |- *.
    assert (NoDup (JS.obj_keys (acc ++ rank_seats human hs bs k))) as Hk.
    { rewrite obj_keys_app in Hnd. by apply NoDup_app in Hnd as (? & _ & _). }
    pose proof (seat_step_perm human hs bs acc k Hk) as Hstep.
    rewrite IH.
    + by rewrite Hstep.
    + rewrite !length_drop in *. lia.
    + rewrite obj_keys_app in Hnd |- *. unfold JS.obj_keys in *. by rewrite Hstep.
Qed.

Lemma seats_loop (human : string → VirtualPlayer) (hs : list string) (bs : list Bot.t) :
  Forall (λ x, JS.array_index x = None) (hs ++ (Bot.id <$> bs)) →
  ∀ n k acc,
    n = Nat.max (length (drop k hs)) (length (drop k bs)) →
    NoDup (JS.obj_keys (acc ++ alternate human (drop k hs) (drop k bs) k)) →
    foldl (seat_step human hs bs) acc (seq k n)
    = acc ++ alternate human (drop k hs) (drop k bs) k.
Proof.
  intros Hidx. apply Forall_app in Hidx as [Hih Hib].
  induction n as [|n IH]; intros k acc Hn Hnd.
  - destruct (drop k hs); [|simpl in Hn; lia]. destruct (drop k bs); [|simpl in Hn; lia].
    simpl. by rewrite app_nil_r.
  - cbn [seq foldl]. rewrite alternate_rank in Hnd |- * by lia.
    rewrite app_assoc in Hnd |- *.
    assert (NoDup (JS.obj_keys (acc ++ rank_seats human hs bs k))) as Hk.
    { rewrite obj_keys_app in Hnd. by apply NoDup_app in Hnd as (? & _ & _). }
    rewrite (seat_step_last human hs bs acc k Hk).
    + apply IH; [rewrite !length_drop in *; lia | done].
    + unfold rank_seats. rewrite obj_keys_app. apply Forall_app. split.
      * destruct (hs !! k) as [h|] eqn:Hh; [|done]. apply Forall_singleton. cbn [fst].
        exact (Forall_lookup_1 _ hs k h Hih Hh).
      * destruct (bs !! k) as [b|] eqn:Hb; [|done]. apply Forall_singleton. cbn [fst].
        apply (Forall_lookup_1 _ (Bot.id <$> bs) k (Bot.id b) Hib).
        by rewrite list_lookup_fmap, Hb.
Qed.

Lemma seats_humans_perm (human : string → VirtualPlayer) (hs : list string) acc :
  NoDup (JS.obj_keys acc ++ hs) →
  foldl (λ tmp userID, JS.obj_set userID (human userID) tmp) acc hs
  ≡ₚ acc ++ alternate human hs [] 0.
Proof.
  generalize 0%nat. revert acc. induction hs as [|h hs IH]; intros acc k Hnd; simpl.
  - by rewrite app_nil_r.
  - assert (h ∉ JS.obj_keys acc) as Hh.
    { intros Hin. apply NoDup_app in Hnd as (_ & Hfresh & _). apply (Hfresh _ Hin). left. }
    rewrite (IH _ (S k)).
    + rewrite (obj_set_new h) by done. cbn [app]. apply Permutation_middle.
    + rewrite (obj_set_keys_new h) by done. cbn [app].
      by rewrite <- Permutation_middle in Hnd.
Qed.

Lemma seats_humans (human : string → VirtualPlayer) (hs : list string) acc :
  Forall (λ x, JS.array_index x = None) hs →
  NoDup (JS.obj_keys acc ++ hs) →
  foldl (λ tmp userID, JS.obj_set userID (human userID) tmp) acc hs
  = acc ++ alternate human hs [] 0.
Proof.
  generalize 0%nat. revert acc. induction hs as [|h hs IH]; intros acc k Hidx Hnd; simpl.
  - by rewrite app_nil_r.
  - apply Forall_cons in Hidx as [Hih Hidx]. rewrite obj_set_fresh; [|done|].
    2:{ intros Hin. apply NoDup_app in Hnd as (_ & Hfresh & _). apply (Hfresh _ Hin). left. }
    rewrite (IH _ (S k)); [by rewrite <- app_assoc | done |].
    rewrite obj_keys_app, <- app_assoc. done.
Qed.

End SeatFacts.

Section SeatClaims.
Import Seats Session SessionOps.

Lemma getSortedVirtualPlayers_loop (s : Session.t) :
  getSortedVirtualPlayers s
  = match botsInstances s with
    | Some bs =>
        foldl (seat_step (human_seat s) (getSortedHumanPlayers s) bs) []
          (seq 0 (Nat.max (length (getSortedHumanPlayers s)) (length bs)))
    | None =>
        foldl (λ tmp userID, JS.obj_set userID (human_seat s userID) tmp) []
          (getSortedHumanPlayers s)
    end.
Proof. done. Qed.

(** Every player is seated once, whatever the identifiers. *)
Lemma seats_perm (s : Session.t) :
  NoDup (getSortedHumanPlayers s ++ (Bot.id <$> instances s)) →
  getSortedVirtualPlayers s
  ≡ₚ alternate (human_seat s) (getSortedHumanPlayers s) (instances s) 0.
Proof.
  intros Hnd. rewrite getSortedVirtualPlayers_loop. unfold instances in *.
  destruct (botsInstances s) as [bs|]; simpl in Hnd.
  - rewrite (seats_loop_perm (human_seat s) (getSortedHumanPlayers s) bs _ 0 []).
    + by rewrite !drop_0.
    + by rewrite !drop_0.
    + rewrite !drop_0. cbn [app]. by rewrite alternate_keys.
  - rewrite app_nil_r in Hnd. cbn [default].
    by apply (seats_humans_perm (human_seat s) (getSortedHumanPlayers s) []).
Qed.

Lemma seats_alternate (s : Session.t) :
  NoDup (getSortedHumanPlayers s ++ (Bot.id <$> instances s)) →
  Forall (λ x, JS.array_index x = None)
    (getSortedHumanPlayers s ++ (Bot.id <$> instances s)) →
  getSortedVirtualPlayers s
  = alternate (human_seat s) (getSortedHumanPlayers s) (instances s) 0.
Proof.
  intros Hnd Hidx. rewrite getSortedVirtualPlayers_loop. unfold instances in *.
  destruct (botsInstances s) as [bs|]; simpl in Hnd, Hidx.
  - rewrite (seats_loop (human_seat s) (getSortedHumanPlayers s) bs Hidx _ 0 []).
    + by rewrite !drop_0.
    + by rewrite !drop_0.
    + rewrite !drop_0. cbn [app]. by rewrite alternate_keys.
  - rewrite app_nil_r in Hnd, Hidx. cbn [default].
    by apply (seats_humans (human_seat s) (getSortedHumanPlayers s) []).
Qed.

(** The human players in seating order are the members and the disconnected
    players, when these are distinct and all seated once. *)
Lemma sorted_humans_perm (s : Session.t) :
  NoDup (userOrder s) →
  NoDup (users s ++ JS.obj_keys (disconnectedUsers s)) →
  Forall (λ u, u ∈ userOrder s) (users s ++ JS.obj_keys (disconnectedUsers s)) →
  getSortedHumanPlayers s ≡ₚ users s ++ JS.obj_keys (disconnectedUsers s).
Proof.
  intros Ho Hp Hall. unfold getSortedHumanPlayers. cbv zeta.
  apply NoDup_Permutation; [by apply NoDup_filter | done |].
  intros x. rewrite list_elem_of_filter. split; [by intros [? _]|].
  intros Hx. split; [done|]. by eapply Forall_forall in Hall.
Qed.

(** When no identifier is used twice among the human players and the bots,
    [getSortedVirtualPlayers] seats every one of them exactly once.  The
    seats are listed the way [for ... in] lists the keys of the object built:
    when no identifier is an array index, in the order of their creation,
    humans and bots alternating from the first human on until one kind runs
    out; the table then has as many seats as there are human players and
    bots. *)
Lemma getSortedVirtualPlayers_alternates (s : Session.t) :
  NoDup (getSortedHumanPlayers s ++ (Bot.id <$> instances s)) →
  getSortedVirtualPlayers s
  ≡ₚ alternate (human_seat s) (getSortedHumanPlayers s) (instances s) 0
  ∧ length (getSortedVirtualPlayers s)
    = (length (getSortedHumanPlayers s) + length (instances s))%nat
  ∧ (Forall (λ x, JS.array_index x = None)
       (getSortedHumanPlayers s ++ (Bot.id <$> instances s)) →
     getSortedVirtualPlayers s
     = alternate (human_seat s) (getSortedHumanPlayers s) (instances s) 0).
Proof.
  intros Hnd. split; [by apply seats_perm|]. split.
  - rewrite seats_perm by done. apply alternate_length.
  - by apply seats_alternate.
Qed.

Lemma getSortedVirtualPlayers_alternates_witness :
  getSortedVirtualPlayers (sess Examples.bot_seat_state)
  = [("alice", Human false); ("bot", BotSeat 0); ("bob", Human false)].
Proof.
  destruct (getSortedVirtualPlayers_alternates (sess Examples.bot_seat_state))
    as (_ & _ & H).
  - apply (bool_decide_unpack _). vm_compute. exact I.
  - rewrite H; [reflexivity|].
    apply (bool_decide_unpack _). vm_compute. exact I.
Defined.

(** Identifiers that are array indices are seated first, in ascending
    order, whatever the seating order says. *)
Lemma getSortedVirtualPlayers_integer_ids :
  getSortedHumanPlayers
    (set_userOrder ["bob"; "2"; "1"] (set_users ["1"; "2"; "bob"] Examples.lobby))
  = ["bob"; "2"; "1"]
  ∧ getSortedVirtualPlayers
      (set_userOrder ["bob"; "2"; "1"] (set_users ["1"; "2"; "bob"] Examples.lobby))
    = [("1", Human false); ("2", Human false); ("bob", Human false)].
Proof. split; vm_compute; reflexivity. Qed.

(** The table has one seat per virtual player: when the members, the
    disconnected players and the bots all have distinct identifiers, every
    human player is seated once in [userOrder], and [bots] counts the bots
    created, the number of seats [nextBooster] deals to is
    [getVirtualPlayersCount], the modulus of its booster indices. *)
Lemma table_has_a_seat_per_player (s : Session.t) :
  NoDup (userOrder s) →
  NoDup ((users s ++ JS.obj_keys (disconnectedUsers s)) ++ (Bot.id <$> instances s)) →
  Forall (λ u, u ∈ userOrder s) (users s ++ JS.obj_keys (disconnectedUsers s)) →
  Z.of_nat (length (instances s)) = bots s →
  Z.of_nat (length (getSortedVirtualPlayers s)) = getVirtualPlayersCount s.
Proof.
  intros Ho Hnd Hall Hb.
  assert (NoDup (users s ++ JS.obj_keys (disconnectedUsers s))) as Hp.
  { by apply NoDup_app in Hnd as (? & _ & _). }
  pose proof (sorted_humans_perm s Ho Hp Hall) as Hperm.
  rewrite seats_perm by by rewrite Hperm.
  rewrite alternate_length, Hperm, length_app.
  unfold getVirtualPlayersCount. lia.
Qed.

Lemma table_has_a_seat_per_player_witness :
  Z.of_nat (length (getSortedVirtualPlayers (sess Examples.bot_seat_state))) = 3.
Proof.
  rewrite (table_has_a_seat_per_player (sess Examples.bot_seat_state)).
  - reflexivity.
  - apply (bool_decide_unpack _). vm_compute. exact I.
  - apply (bool_decide_unpack _). vm_compute. exact I.
  - apply (bool_decide_unpack _). vm_compute. exact I.
  - reflexivity.
Defined.

End SeatClaims.

(** ** The end of a draft ([endDraft]) *)

Section EndFacts.
Import Frame Seating Seats EndSpec Session SessionOps.

Lemma foldl_Forall {B C} (P : C → Prop) (f : list C → B → list C) (l : list B) :
  ∀ acc, (∀ a b, b ∈ l → Forall P a → Forall P (f a b)) → Forall P acc →
         Forall P (foldl f acc l).
Proof.
  induction l as [|b l IH]; intros acc Hf Hacc; simpl; [done|].
  apply IH.
  - intros a b' Hb'. apply Hf. by right.
  - apply Hf; [left | done].
Qed.

(** Every seat of the table is a human player of the session, flagged as
    disconnected or not, or a bot of [botsInstances] under its identifier. *)
Lemma seat_sound s (seat : string * VirtualPlayer) :
  seat ∈ getSortedVirtualPlayers s → sound s seat.
Proof.
  revert seat. apply Forall_forall.
  unfold getSortedVirtualPlayers. cbv zeta. destruct (botsInstances s) as [bs|] eqn:Hbs.
  - apply foldl_Forall; [|done]. intros a idx _ Ha.
    destruct (bs !! idx) as [b|] eqn:Hb.
    + apply obj_set_Forall; [exists b; by rewrite Hbs|].
      destruct (getSortedHumanPlayers s !! idx) as [u|] eqn:Hu; [|done].
      apply obj_set_Forall; [|done]. split; [done|]. by eapply list_elem_of_lookup_2.
    + destruct (getSortedHumanPlayers s !! idx) as [u|] eqn:Hu; [|done].
      apply obj_set_Forall; [|done]. split; [done|]. by eapply list_elem_of_lookup_2.
  - apply foldl_Forall; [|done]. intros a u Hu Ha.
    apply obj_set_Forall; [|done]. done.
Qed.

(** At a table whose members are all connected, every seat has cards to
    record. *)
Lemma seat_ready st seat :
  users_connected st → seat ∈ getSortedVirtualPlayers (sess st) →
  is_Some (cards_of st seat).
Proof.
  intros Hst Hin. apply seat_sound in Hin. unfold sound in Hin. unfold cards_of.
  destruct seat as [u [[|]|idx]]; cbn [fst snd] in *.
  - destruct Hin as [Hd _]. symmetry in Hd. apply obj_has_get in Hd as [d ->]. by eexists.
  - destruct Hin as [Hd Hu]. symmetry in Hd.
    unfold getSortedHumanPlayers in Hu. apply list_elem_of_filter in Hu as [Hu _].
    apply elem_of_app in Hu as [Hu|Hu].
    + destruct (Hst u Hu) as [c ->]. by eexists.
    + exfalso. unfold JS.obj_has in Hd. by apply bool_decide_eq_false in Hd.
  - destruct Hin as (b & -> & _). by eexists.
Qed.

(** The loop of [endDraft] over the seats. *)
Lemma endDraft_loop (seats : list (string * VirtualPlayer)) :
  ∀ st lg,
    draftLog (sess st) = Some lg →
    NoDup seats.*1 →
    (∀ seat, seat ∈ seats →
       is_Some (cards_of st seat) ∧ is_Some (JS.obj_get seat.1 (Log.users lg))) →
    ∃ lg',
      forM_ seats (λ '(userID, v),
        s <- get_sess ;;
        match v with
        | BotSeat idx =>
            b <- Draft.get_bot (Draft.Instance idx) ;;
            Draft.log_cards userID (Bot.cards b)
        | Human true =>
            match JS.obj_get userID (disconnectedUsers s) with
            | Some d => Draft.log_cards userID (Disc.pickedCards d)
            | None => throw "this.disconnectedUsers[userID] is undefined"
            end
        | Human false =>
            c <- conn_of userID ;;
            Draft.log_cards userID (Conn.pickedCards c)
        end) st
      = Ret (tt, with_sess (set_draftLog (Some lg') (sess st)) st)
      ∧ (∀ seat, seat ∈ seats →
           ∃ e, JS.obj_get seat.1 (Log.users lg') = Some e
                ∧ Log.cards e = cards_of st seat)
      ∧ (∀ u, u ∉ seats.*1 → JS.obj_get u (Log.users lg') = JS.obj_get u (Log.users lg)).
Proof.
  induction seats as [|[u v] seats IH]; intros st lg Hlg Hnd Hall.
  - exists lg. split_and!.
    + simpl. unfold ret. f_equal. f_equal. destruct st as [s ? ? ?]. unfold with_sess. cbn.
      f_equal. cbn in Hlg. destruct s. cbn in *. by rewrite Hlg.
    + intros seat Hin. by apply elem_of_nil in Hin.
    + done.
  - apply NoDup_cons in Hnd as [Hu Hnd].
    destruct (Hall (u, v)) as [[cards Hcards] [e He]]; [left|]. cbn [fst] in He.
    assert (∀ cards0, Draft.log_cards u cards0 st
            = Ret (tt, with_sess
                         (set_draftLog
                            (Some (Log.set_users
                                     (JS.obj_set u (Log.set_cards cards0 e) (Log.users lg)) lg))
                            (sess st)) st)) as Hlog.
    { intros cards0. unfold Draft.log_cards, bind at 1, get_sess. rewrite Hlg, He. done. }
    set (lg1 := Log.set_users (JS.obj_set u (Log.set_cards cards e) (Log.users lg)) lg).
    set (st1 := with_sess (set_draftLog (Some lg1) (sess st)) st).
    assert (∀ seat, cards_of st1 seat = cards_of st seat) as Hsame by done.
    destruct (IH st1 lg1) as (lg' & Hrun & Hdone & Hrest).
    { done. }
    { done. }
    { intros seat Hin. rewrite Hsame. destruct (Hall seat) as [H1 H2]; [by right|].
      split; [done|]. by apply obj_get_is_Some_set. }
    exists lg'. split_and!.
    + cbn [forM_]. unfold bind at 1. cbv beta iota. unfold bind at 1, get_sess.
      unfold cards_of in Hcards. cbn [fst snd] in Hcards.
      destruct v as [[|]|idx].
      * destruct (JS.obj_get u (disconnectedUsers (sess st))) as [d|]; [|discriminate Hcards].
        injection Hcards as <-. rewrite Hlog. exact Hrun.
      * unfold bind at 1, conn_of, bind at 1, get_conns.
        destruct (conns st !! u) as [c|]; [|discriminate Hcards].
        injection Hcards as <-. unfold ret at 1. rewrite Hlog. exact Hrun.
      * unfold bind at 1, Draft.get_bot, bind at 1, get_sess.
        destruct (botsInstances (sess st) ≫= _) as [b|]; [|discriminate Hcards].
        injection Hcards as <-. unfold ret at 1. rewrite Hlog. exact Hrun.
    + intros seat [->|Hin]%elem_of_cons.
      * exists (Log.set_cards cards e). cbn [fst]. split; [|by rewrite Hcards].
        rewrite Hrest by done. apply obj_get_set.
      * destruct (Hdone seat Hin) as (e' & He' & Hc'). exists e'. by rewrite <- Hsame.
    + intros u' Hu'. cbn in Hu'. apply not_elem_of_cons in Hu' as [Hne Hu'].
      rewrite Hrest by done. by apply obj_set_other.
Qed.

End EndFacts.

Section EndClaims.
Import Frame Seating Seats EndSpec Session SessionOps.

(** What [endDraft] does at a table whose members are connected and whose
    log knows every seat. *)
Lemma endDraft_runs (st : St) (lg : Log.t) :
  draftLog (sess st) = Some lg →
  (∀ seat, seat ∈ getSortedVirtualPlayers (sess st) →
           is_Some (JS.obj_get seat.1 (Log.users lg))) →
  users_connected st →
  owner_reachable st →
  ∃ st' lg',
    Draft.endDraft st = Ret (tt, st')
    ∧ drafting (sess st') = false ∧ boosters (sess st') = []
    ∧ timerRunning (sess st') = false
    ∧ draftLog (sess st') = Some lg'
    ∧ (∀ seat, seat ∈ getSortedVirtualPlayers (sess st) →
         ∃ e, JS.obj_get seat.1 (Log.users lg') = Some e ∧ Log.cards e = cards_of st seat)
    ∧ conns st' = conns st
    ∧ out st' = out st ++ log_events st (Some lg')
                ++ ((λ u, (ToUser u, EvEndDraft)) <$> audience st).
Proof.
  intros Hlg Hentries Hst Hown. unfold Draft.endDraft.
  unfold bind at 1, modify_sess at 1. unfold stopCountdown.
  unfold bind at 1, modify_sess at 1. unfold bind at 1, modify_sess at 1.
  unfold bind at 1, get_sess at 1. cbn [sess conns out rng].
  match goal with |- context [bind (forM_ ?seats _) _ ?st0] =>
    set (st1 := st0);
    assert (seats = getSortedVirtualPlayers (sess st)) as -> by done
  end.
  destruct (endDraft_loop (getSortedVirtualPlayers (sess st)) st1 lg)
    as (lg' & Hrun & Hdone & _).
  { done. }
  { apply getSortedVirtualPlayers_NoDup. }
  { intros seat Hin. split; [|by apply Hentries].
    change (cards_of st1 seat) with (cards_of st seat). by apply seat_ready. }
  unfold bind at 1. rewrite Hrun. unfold bind at 1, get_sess.
  cbn [sess with_sess draftLogRecipients set_draftLog owner draftLog].
  subst st1. cbn [sess with_sess draftLogRecipients set_draftLog owner draftLog
                  set_boosters set_timerRunning set_drafting].
  match goal with |- context [bind _ _ ?st0] => set (st2 := st0) end.
  assert (users_connected st2) as Hst2 by done.
  assert (audience st2 = audience st) as Haud by done.
  unfold bind at 1.
  assert (∃ o, o = log_events st (Some lg')) as [o Ho] by by eexists.
  match goal with |- context [match ?m st2 with _ => _ end] =>
    assert (m st2 = Ret (tt, add_out o st2)) as ->
  end.
  { subst o. unfold log_events. cbv zeta. unfold owner_reachable in Hown.
    destruct (String.eqb_spec (draftLogRecipients (sess st)) "none") as [Hn|Hn].
    { unfold ret. by rewrite add_out_nil. }
    destruct (String.eqb_spec (draftLogRecipients (sess st)) "owner") as [Ho1|Ho1].
    { destruct Hown as [c Hc]; [done|by rewrite Ho1|]. by rewrite (emit_ok _ _ c). }
    destruct (String.eqb_spec (draftLogRecipients (sess st)) "everyone") as [He|He].
    { rewrite forUsers_emit_exact by done. by rewrite Haud. }
    destruct Hown as [c Hc]; [done..|]. by rewrite (emit_ok _ _ c). }
  rewrite forUsers_emit_exact.
  2:{ done. }
  eexists _, lg'. split; [done|]. cbn. split_and!; try done.
  rewrite Ho. by rewrite <- app_assoc.
Qed.

(** [endDraft] closes the draft: [drafting] is cleared, the timer stopped
    and the boosters dropped; the log entry of every seat receives the cards
    of that seat (the picks of the bot, of the disconnected player or of the
    connected player).  The log goes to nobody when [draftLogRecipients] is
    "none", to the owner alone when it is "owner", to every member when it is
    "everyone", and to the owner alone, marked as delayed, for any other
    value; then every member is sent [endDraft]. *)
Lemma endDraft_outcome (st : St) (lg : Log.t) :
  draftLog (sess st) = Some lg →
  (∀ seat, seat ∈ getSortedVirtualPlayers (sess st) →
           is_Some (JS.obj_get seat.1 (Log.users lg))) →
  users_connected st →
  owner_reachable st →
  ∃ st' lg',
    Draft.endDraft st = Ret (tt, st')
    ∧ drafting (sess st') = false ∧ boosters (sess st') = []
    ∧ timerRunning (sess st') = false
    ∧ draftLog (sess st') = Some lg'
    ∧ (∀ seat, seat ∈ getSortedVirtualPlayers (sess st) →
         ∃ e, JS.obj_get seat.1 (Log.users lg') = Some e ∧ Log.cards e = cards_of st seat)
    ∧ conns st' = conns st
    ∧ out st' = out st ++ log_events st (Some lg')
                ++ ((λ u, (ToUser u, EvEndDraft)) <$> audience st).
Proof. apply endDraft_runs. Qed.

Lemma endDraft_outcome_witness :
  ∃ st', Draft.endDraft Examples.burn_state = Ret (tt, st')
    ∧ drafting (sess st') = false
    ∧ length (out st') = 4%nat.
Proof.
  destruct (endDraft_outcome Examples.burn_state
              {| Log.sessionID := "s"; Log.setRestriction := ["thb"];
                 Log.boosters := [["a"; "b"; "c"]; ["d"; "e"; "f"]];
                 Log.users := [Examples.log_user "alice"; Examples.log_user "bob"] |})
    as (st' & lg' & H & Hd & _ & _ & _ & _ & _ & Ho).
  - reflexivity.
  - intros seat Hin. vm_compute in Hin.
    apply elem_of_cons in Hin as [->|Hin]; [by eexists|].
    apply elem_of_cons in Hin as [->|Hin]; [by eexists|]. by apply elem_of_nil in Hin.
  - intros u Hu. cbn in Hu.
    apply elem_of_cons in Hu as [->|Hu]; [by eexists|].
    apply elem_of_cons in Hu as [->|Hu]; [by eexists|]. by apply elem_of_nil in Hu.
  - intros _ H. discriminate H.
  - exists st'. split; [exact H|]. split; [exact Hd|]. rewrite Ho. reflexivity.
Defined.

End EndClaims.

(** ** [pickCard] *)

Section PickFacts.
Import Frame PickSpec PickTable Rotation Seating EndSpec Session SessionOps.

Lemma held_inv s c bi booster :
  held s c = Some (bi, booster) →
  Conn.boosterIndex c = Some (Num bi)
  ∧ (bi <? 0) || (Z.of_nat (length (boosters s)) <=? bi) = false
  ∧ JS.nth_Z (boosters s) bi = Some booster.
Proof.
  unfold held. destruct (Conn.boosterIndex c) as [[|i]|]; try done.
  destruct ((i <? 0) || (Z.of_nat (length (boosters s)) <=? i)) eqn:Hr; [done|].
  destruct (JS.nth_Z (boosters s) i) as [b|] eqn:Hn; [|done].
  intros [= <- <-]. done.
Qed.

Lemma invalid_burn_rule s booster burned :
  Draft.invalid_burn s booster (Some burned) = false ↔ burn_rule s booster burned.
Proof.
  unfold Draft.invalid_burn, burn_rule.
  cbv zeta. rewrite !orb_false_iff, andb_false_iff, !negb_false_iff.
  rewrite bool_decide_eq_false, Z.ltb_ge, !Z.eqb_eq.
  unfold JS.includes. split.
  - intros [[Hle Hn] Hex]. split; [lia|].
    intros x Hx. destruct (decide (x ∈ booster)) as [|Hno]; [done|].
    destruct Hex. apply Exists_exists. exists x. split; [done|].
    by apply bool_decide_eq_false.
  - intros [Hn Hall]. split; [split; [lia|]|].
    + destruct Hn as [Hn|[_ Hn]]; [by left | by right].
    + intros (x & Hx & Hno)%Exists_exists. apply bool_decide_eq_false in Hno.
      by apply Hno, Hall.
Qed.

(** The tests of [pickCard] pass exactly on a valid pick, an argument left
    out being read as no burned card. *)
Lemma accepted_valid s c cardID burnedCards :
  burn_given s c burnedCards →
  accepted s c cardID burnedCards = true ↔ valid s c cardID (burned_of burnedCards).
Proof.
  intros Hgiven. unfold accepted, valid. split.
  - destruct (held s c) as [[bi booster]|] eqn:Hheld; [|done].
    intros [[Hin Hpk]%andb_true_iff Hb]%andb_true_iff.
    exists bi, booster. split; [done|]. split; [by apply bool_decide_eq_true in Hin|].
    split; [by apply negb_true_iff in Hpk|].
    destruct burnedCards as [burned|].
    + change (burned_of (Some burned)) with burned. apply invalid_burn_rule. by apply negb_true_iff in Hb.
    + by apply (Hgiven eq_refl bi booster).
  - intros (bi & booster & -> & Hin & Hpk & Hb).
    rewrite Hpk. unfold JS.includes. rewrite bool_decide_eq_true_2 by done.
    destruct burnedCards as [burned|]; [|done].
    change (burned_of (Some burned)) with burned in Hb.
    apply invalid_burn_rule in Hb. by rewrite Hb.
Qed.

(** A computation whose result, when it returns, is [v]. *)
Lemma bind_result {A B} (m : M A) (k : A → M B) (v : B) :
  (∀ a st r st', k a st = Ret (r, st') → r = v) →
  ∀ st r st', (x <- m ;; k x) st = Ret (r, st') → r = v.
Proof.
  intros Hk st r st'. unfold bind. destruct (m st) as [[a st1]| |]; [|done..].
  apply Hk.
Qed.

Lemma nth_Z_in_range {A} (l : list A) (i : Z) :
  (i <? 0) || (Z.of_nat (length l) <=? i) = false → is_Some (JS.nth_Z l i).
Proof.
  intros [Hlo Hhi]%orb_false_iff. unfold JS.nth_Z. rewrite Hlo.
  apply lookup_lt_is_Some. apply Z.ltb_ge in Hlo. apply Z.leb_gt in Hhi. lia.
Qed.

Lemma participant_inv s userID :
  participant s userID = true →
  negb (drafting s) || negb (bool_decide (userID ∈ users s)) = false.
Proof.
  unfold participant. intros [-> ->]%andb_true_iff. done.
Qed.

(** A call by someone who is not a participant of a drafting session
    returns without an acknowledgement and without effect. *)
Lemma pickCard_outsider E userID cardID burnedCards st :
  participant (sess st) userID = false →
  Draft.pickCard E userID cardID burnedCards st = Ret (None, st).
Proof.
  intros Hp. unfold Draft.pickCard. unfold bind at 1, get_sess at 1. cbv beta iota.
  unfold participant in Hp.
  destruct (drafting (sess st)); [|done]. simpl in Hp |- *. by rewrite Hp.
Qed.

(** A refused pick: an error acknowledgement, and the state as it was. *)
Lemma pickCard_refused E userID cardID burnedCards st c :
  conns st !! userID = Some c →
  Conn.boosterIndex c ≠ Some NaN →
  participant (sess st) userID = true →
  accepted (sess st) c cardID burnedCards = false →
  ∃ err, Draft.pickCard E userID cardID burnedCards st = Ret (Some (Draft.AckError err), st).
Proof.
  intros Hc Hnan Hp Hacc. unfold Draft.pickCard. unfold bind at 1, get_sess at 1.
  cbv beta iota. rewrite (participant_inv _ _ Hp).
  unfold bind at 1, conn_of at 1, bind at 1, get_conns at 1. cbv beta iota. rewrite Hc.
  unfold ret at 1. cbv beta iota.
  unfold accepted, held in Hacc.
  destruct (Conn.boosterIndex c) as [[|bi]|]; [done| |by eexists].
  destruct ((bi <? 0) || (Z.of_nat (length (boosters (sess st))) <=? bi)) eqn:Hr; [by eexists|].
  destruct (nth_Z_in_range _ _ Hr) as [booster Hb]. rewrite Hb in Hacc |- *.
  simpl in Hacc.
  destruct (JS.includes cardID booster); [|by eexists].
  destruct (Conn.pickedThisRound c); [by eexists|].
  simpl in Hacc |- *. apply negb_false_iff in Hacc. rewrite Hacc. by eexists.
Qed.

(** An accepted pick runs the body of [pickCard]. *)
Lemma pickCard_accepted_eq E userID cardID burnedCards st c bi booster :
  conns st !! userID = Some c →
  participant (sess st) userID = true →
  held (sess st) c = Some (bi, booster) →
  accepted (sess st) c cardID burnedCards = true →
  Draft.pickCard E userID cardID burnedCards st
  = (Draft.log_pick userID
       {| Log.pick := cardID; Log.burn := option_map (map Some) burnedCards;
          Log.booster := booster |} ;;;
     modify_conn userID (λ c, Conn.set_pickedCards (Conn.pickedCards c ++ [cardID]) c) ;;;
     modify_conn userID (Conn.set_pickedThisRound true) ;;;
     Draft.set_booster_at bi (Draft.remove_picked cardID burnedCards booster) ;;;
     forUsers (λ u, emit u (EvUpdateUserPickedThisRound userID)) ;;;
     modify_sess (λ s, set_pickedCardsThisRound (pickedCardsThisRound s + 1) s) ;;;
     s <- get_sess ;;
     (if pickedCardsThisRound s =? getHumanPlayerCount s
      then Draft.nextBooster E else ret tt) ;;;
     ret (Some Draft.AckOk)) st.
Proof.
  intros Hc Hp Hheld Hacc. unfold Draft.pickCard. unfold bind at 1, get_sess at 1.
  cbv beta iota. rewrite (participant_inv _ _ Hp).
  unfold bind at 1, conn_of at 1, bind at 1, get_conns at 1. cbv beta iota. rewrite Hc.
  unfold ret at 1. cbv beta iota.
  unfold accepted in Hacc. rewrite Hheld in Hacc.
  apply held_inv in Hheld as (-> & -> & ->).
  apply andb_true_iff in Hacc as [[-> Hpk]%andb_true_iff Hb].
  apply negb_true_iff in Hpk, Hb. rewrite Hpk, Hb. reflexivity.
Qed.

(** An accepted pick never answers with anything but [{code: 0}]. *)
Lemma pickCard_accepted_result E userID cardID burnedCards st c :
  conns st !! userID = Some c →
  participant (sess st) userID = true →
  accepted (sess st) c cardID burnedCards = true →
  ∀ r st', Draft.pickCard E userID cardID burnedCards st = Ret (r, st') →
    r = Some Draft.AckOk.
Proof.
  intros Hc Hp Hacc r st'.
  destruct (held (sess st) c) as [[bi booster]|] eqn:Hheld.
  2:{ unfold accepted in Hacc. by rewrite Hheld in Hacc. }
  rewrite (pickCard_accepted_eq E userID cardID burnedCards st c bi booster Hc Hp Hheld Hacc).
  generalize st r st'. clear.
  do 8 (apply bind_result; intros ?).
  intros st r st'. unfold ret. intros H. by simplify_eq.
Qed.

(** The body of [pickCard] up to the count of the pick, followed by any
    continuation [k]: every user is told of the pick. *)
Lemma pick_body_runs userID cardID burnedCards st c bi booster l u :
  conns st !! userID = Some c →
  draftLog (sess st) = Some l →
  JS.obj_get userID (Log.users l) = Some u →
  users_connected st →
  ∀ B (k : M B),
    (Draft.log_pick userID
       {| Log.pick := cardID; Log.burn := option_map (map Some) burnedCards;
          Log.booster := booster |} ;;;
     modify_conn userID (λ c, Conn.set_pickedCards (Conn.pickedCards c ++ [cardID]) c) ;;;
     modify_conn userID (Conn.set_pickedThisRound true) ;;;
     Draft.set_booster_at bi (Draft.remove_picked cardID burnedCards booster) ;;;
     forUsers (λ u, emit u (EvUpdateUserPickedThisRound userID)) ;;;
     modify_sess (λ s, set_pickedCardsThisRound (pickedCardsThisRound s + 1) s) ;;;
     k) st
    = k (add_out (told userID st) (picked userID cardID burnedCards bi booster c l u st)).
Proof.
  intros Hc Hl Hu Hconn.
  set (entry := {| Log.pick := cardID; Log.burn := option_map (map Some) burnedCards;
                   Log.booster := booster |}).
  set (s1 := set_draftLog
               (Some (Log.set_users (JS.obj_set userID (Log.push_pick entry u) (Log.users l)) l))
               (sess st)).
  set (c2 := Conn.set_pickedThisRound true
               (Conn.set_pickedCards (Conn.pickedCards c ++ [cardID]) c)).
  set (s2 := set_boosters
               (JS.set_nth_Z (boosters s1) bi (Draft.remove_picked cardID burnedCards booster)) s1).
  set (st4 := {| sess := s2; conns := <[userID := c2]> (conns st);
                 out := out st; rng := rng st |}).
  assert (users_connected st4) as Hconn4.
  { intros w Hw. cbn [conns sess st4] in Hw |- *.
    apply lookup_insert_is_Some'. right. by apply Hconn. }
  assert (audience st4 = audience st) as Haud.
  { unfold audience. cbn [sess conns st4].
    change (users s2) with (users (sess st)). change (owner s2) with (owner (sess st)).
    change (ownerIsPlayer s2) with (ownerIsPlayer (sess st)).
    rewrite (bool_decide_ext (is_Some (<[userID:=c2]> (conns st) !! owner (sess st)))
               (is_Some (conns st !! owner (sess st)))); [done|].
    rewrite lookup_insert_is_Some'. split; [|by right].
    intros [<-|H]; [by eexists | done]. }
  intros B k.
  assert (Draft.log_pick userID entry st = Ret (tt, with_sess s1 st)) as E1.
  { unfold Draft.log_pick. unfold bind at 1, get_sess at 1. cbv beta iota.
    by rewrite Hl, Hu. }
  unfold bind at 1. rewrite E1.
  unfold bind at 1. rewrite (modify_conn_ok _ _ c) by done.
  unfold bind at 1. erewrite modify_conn_ok by apply lookup_insert_eq.
  unfold with_conns, with_sess. cbn [sess conns out rng]. rewrite insert_insert_eq.
  unfold bind at 1. unfold Draft.set_booster_at, modify_sess at 1. cbv beta iota.
  cbn [sess conns out rng]. fold c2. fold s2. fold st4.
  unfold bind at 1. rewrite (forUsers_emit_exact _ st4 Hconn4). rewrite Haud.
  unfold bind at 1. unfold modify_sess at 1. cbv beta iota.
  reflexivity.
Qed.

(** *** Closing a round *)

Lemma getSortedVirtualPlayers_at_deal s :
  getSortedVirtualPlayers (at_deal s) = getSortedVirtualPlayers s.
Proof.
  unfold at_deal. destruct (boosters s) as [|b bs]; [done|]. by case_bool_decide.
Qed.

(** [nextBooster] when the last pack is drained: the draft ends. *)
Lemma nextBooster_ends E st :
  boosters (sess st) ≠ [] → boosters (at_deal (sess st)) = [] →
  Draft.nextBooster E st = Draft.endDraft (with_sess (at_deal (sess st)) st).
Proof.
  intros Hne Hend. unfold Draft.nextBooster, stopCountdown.
  unfold bind at 1. unfold modify_sess at 1. cbv beta iota.
  unfold bind at 1. unfold get_sess at 1. cbv beta iota.
  cbn [sess]. unfold at_deal in Hend |- *.
  change (boosters (set_timerRunning false (sess st))) with (boosters (sess st)).
  change (getVirtualPlayersCount (set_timerRunning false (sess st)))
    with (getVirtualPlayersCount (sess st)).
  destruct (boosters (sess st)) as [|first rest] eqn:Hb; [done|].
  unfold bind at 1.
  case_bool_decide as Hfirst.
  2:{ change (boosters (set_timerRunning false (sess st))) with (boosters (sess st)) in Hend.
      by rewrite Hb in Hend. }
  unfold bind at 1. unfold bind at 1. unfold modify_sess at 1 2 3. cbv beta iota.
  cbn [sess conns out rng].
  unfold bind at 1. unfold get_sess at 1. cbv beta iota. cbn [sess].
  rewrite <- Hb in Hend |- *.
  cbn [boosters set_boosterNumber set_boosters] in Hend.
  change (boosters (set_round 0 (set_timerRunning false (sess st))))
    with (boosters (sess st)).
  rewrite bool_decide_eq_true_2 by (by rewrite Hend).
  reflexivity.
Qed.

(** At a table that is ready, [nextBooster] returns: it deals the boosters,
    or ends the draft. *)
Lemma nextBooster_returns E st lg :
  boosters (sess st) ≠ [] →
  users_connected st →
  draftLog (sess st) = Some lg →
  ready st lg →
  ∃ st', Draft.nextBooster E st = Ret (tt, st').
Proof.
  intros Hne Hconn Hlg (Hseats & Hlog & Hown).
  assert (users (at_deal (sess st)) = users (sess st)) as Husers.
  { unfold at_deal. destruct (boosters (sess st)); [done|]. by case_bool_decide. }
  destruct (decide (boosters (at_deal (sess st)) = [])) as [Hend|Hdeal].
  - rewrite (nextBooster_ends E st Hne Hend).
    destruct (endDraft_runs (with_sess (at_deal (sess st)) st) lg)
      as (st' & lg' & H & _).
    + cbn [with_sess sess]. unfold at_deal.
      destruct (boosters (sess st)); [done|]. by case_bool_decide.
    + cbn [with_sess sess]. rewrite getSortedVirtualPlayers_at_deal. exact Hlog.
    + intros u Hu. cbn [with_sess sess conns] in Hu |- *. rewrite Husers in Hu.
      by apply Hconn.
    + unfold owner_reachable in *. cbn [with_sess sess conns].
      unfold at_deal. destruct (boosters (sess st)); [done|]. by case_bool_decide.
    + by exists st'.
  - rewrite (nextBooster_unfold E st Hdeal).
    destruct (deal_all_returns E (Draft.boosterOffset (at_deal (sess st)))
                (getVirtualPlayersCount (sess st))
                (getSortedVirtualPlayers (at_deal (sess st))) 0
                (with_sess (set_pickedCardsThisRound 0 (at_deal (sess st))) st))
      as (st2 & E2 & Hs2 & Hd2).
    { rewrite getSortedVirtualPlayers_at_deal. exact Hseats. }
    destruct (finish_deal_returns st2) as [st' E'].
    { intros u Hu. apply Hd2. cbn [with_sess conns]. apply Hconn.
      rewrite Hs2 in Hu. cbn [with_sess sess] in Hu.
      change (users (set_pickedCardsThisRound 0 (at_deal (sess st))))
        with (users (at_deal (sess st))) in Hu. by rewrite Husers in Hu. }
    exists st'. unfold bind. by rewrite E2.
Qed.

(** The table stays ready through the body of [pickCard]. *)
Lemma picked_ready userID cardID burnedCards bi booster c l u st o :
  conns st !! userID = Some c →
  users_connected st →
  ready st l →
  let st1 := add_out o (picked userID cardID burnedCards bi booster c l u st) in
  ∃ l1, draftLog (sess st1) = Some l1 ∧ users_connected st1 ∧ ready st1 l1.
Proof.
  intros Hc Hconn (Hseats & Hlog & Hown) st1.
  assert (∀ w, is_Some (conns st !! w) → is_Some (conns st1 !! w)) as Hdom.
  { intros w Hw. subst st1. cbn [add_out picked conns].
    apply lookup_insert_is_Some'. by right. }
  eexists. split; [reflexivity|]. split; [|split; [|split]].
  - intros w Hw. apply Hdom. by apply Hconn.
  - change (getSortedVirtualPlayers (sess st1)) with (getSortedVirtualPlayers (sess st)).
    eapply Forall_impl; [exact Hseats|]. intros [w v] [Hv Hw]. split; [done|].
    by apply Hdom.
  - change (getSortedVirtualPlayers (sess st1)) with (getSortedVirtualPlayers (sess st)).
    intros seat Hin. cbn [Log.users Log.set_users]. apply obj_get_is_Some_set.
    by apply Hlog.
  - unfold owner_reachable in *. intros H1 H2. apply Hdom. by apply Hown.
Qed.

End PickFacts.

Section PickClaim.
Import Frame PickSpec PickTable Session SessionOps.

(** C1 (amended).  [pickCard] called for someone who is not a participant
    of a drafting session returns no acknowledgement at all and changes
    nothing.  For a participant with a connection whose booster index is not
    [NaN], and a call that does not leave [burnedCards] out where the rule on
    burned cards asks for some (an argument left out is read as no burned
    card):
    - the pick is valid when the booster index is in range, the card is in
      that booster, the user has not picked this round and the burned cards
      are exactly [burnedCardsPerRound], or fewer when the booster holds
      exactly one card more than them, all of them in the booster;
    - a pick that is not valid is answered with [{code: 1, error}] and the
      state is left as it was;
    - a valid pick is never answered with anything but [{code: 0}]; with
      every user connected and the user known to the draft log, it is
      answered with [{code: 0}] once the pick is logged, the card added to
      the user's picks, the cards removed from the booster, every user told
      and the pick counted, and, when the pick completes the round at a table
      that is ready (every seat a connected human known to the draft log, the
      owner reachable for the log), once [nextBooster] has run. *)
Theorem pickCard_acknowledgement (E : Env) (userID cardID : string)
    (burnedCards : option (list string)) (st : St) :
  let s := sess st in
  (participant s userID = false →
   Draft.pickCard E userID cardID burnedCards st = Ret (None, st))
  ∧ ∀ c, conns st !! userID = Some c → participant s userID = true →
      Conn.boosterIndex c ≠ Some NaN →
      burn_given s c burnedCards →
      (¬ valid s c cardID (burned_of burnedCards) →
       ∃ err, Draft.pickCard E userID cardID burnedCards st
              = Ret (Some (Draft.AckError err), st))
      ∧ (valid s c cardID (burned_of burnedCards) →
         (∀ r st', Draft.pickCard E userID cardID burnedCards st = Ret (r, st') →
            r = Some Draft.AckOk)
         ∧ ∀ bi booster l u,
             held s c = Some (bi, booster) → draftLog s = Some l →
             JS.obj_get userID (Log.users l) = Some u → users_connected st →
             let st1 := add_out (told userID st)
                          (picked userID cardID burnedCards bi booster c l u st) in
             if pickedCardsThisRound s + 1 =? getHumanPlayerCount s
             then ready st l →
                  ∃ st2, Draft.nextBooster E st1 = Ret (tt, st2)
                    ∧ Draft.pickCard E userID cardID burnedCards st
                      = Ret (Some Draft.AckOk, st2)
             else Draft.pickCard E userID cardID burnedCards st
                  = Ret (Some Draft.AckOk, st1)).
Proof.
  intros s. split; [apply pickCard_outsider|].
  intros c Hc Hp Hnan Hgiven.
  pose proof (accepted_valid s c cardID burnedCards Hgiven) as Hacc. split.
  - intros Hno. apply (pickCard_refused E userID cardID burnedCards st c); try done.
    destruct (accepted s c cardID burnedCards) eqn:Ha; [|done].
    destruct Hno. by apply Hacc.
  - intros Hvalid. apply Hacc in Hvalid. split.
    + by apply (pickCard_accepted_result E userID cardID burnedCards st c).
    + intros bi booster l u Hheld Hl Hu Hconn st1.
      assert (Draft.pickCard E userID cardID burnedCards st
              = ((if pickedCardsThisRound s + 1 =? getHumanPlayerCount s
                  then Draft.nextBooster E else ret tt) ;;; ret (Some Draft.AckOk)) st1)
        as Hrun.
      { rewrite (pickCard_accepted_eq E userID cardID burnedCards st c bi booster
                   Hc Hp Hheld Hvalid).
        rewrite (pick_body_runs userID cardID burnedCards st c bi booster l u Hc Hl Hu Hconn).
        reflexivity. }
      rewrite Hrun.
      destruct (pickedCardsThisRound s + 1 =? getHumanPlayerCount s); [|reflexivity].
      intros Hready.
      destruct (picked_ready userID cardID burnedCards bi booster c l u st
                  (told userID st) Hc Hconn Hready) as (l1 & Hl1 & Hconn1 & Hready1).
      destruct (nextBooster_returns E st1 l1) as [st2 E2]; try done.
      { subst st1. cbn [add_out picked sess boosters set_pickedCardsThisRound set_boosters].
        apply held_inv in Hheld as (_ & Hr & Hb).
        apply orb_false_iff in Hr as [Hlo Hhi]. apply Z.ltb_ge in Hlo. apply Z.leb_gt in Hhi.
        unfold JS.set_nth_Z. rewrite (proj2 (Z.ltb_ge _ _)) by done.
        intros Hnil. apply (f_equal length) in Hnil. rewrite length_insert in Hnil.
        cbn [boosters set_draftLog] in Hnil. simpl in Hnil. subst s. lia. }
      exists st2. split; [done|]. unfold bind at 1. by rewrite E2.
Qed.

(** C1 as stated fails in its first half and in its second: with two burned
    cards per pick and a booster of two cards, a pick that burns nothing
    passes every validation of the claim (the booster has fewer than three
    cards) and is refused; and a pick in a session that is not drafting gets
    no acknowledgement, not [{code: 1, error}]. *)
Lemma pickCard_claimed_validations_differ :
  claimed_valid (sess Examples.two_burn_state) (Examples.seated "alice" 0) "alice" "a" [] = true
  ∧ Draft.pickCard Examples.small_env "alice" "a" (Some []) Examples.two_burn_state
    = Ret (Some (Draft.AckError "Session.pickCard: Invalid burned cards."),
           Examples.two_burn_state)
  ∧ drafting (sess Examples.collector_state) = false
  ∧ Draft.pickCard Examples.small_env "alice" "c1" None Examples.collector_state
    = Ret (None, Examples.collector_state).
Proof. repeat split; vm_compute; reflexivity. Qed.

(** C1 (amended), at the table of Alice and Bob with one burned card per
    pick, Alice having picked: Bob picks "d" and burns "e"; the pick is
    acknowledged, it completes the round and [nextBooster] hands Bob the
    booster Alice held. *)
Lemma pickCard_acknowledgement_witness :
  ∃ st2 c, Draft.pickCard Examples.small_env "bob" "d" (Some ["e"]) Examples.last_pick_state
           = Ret (Some Draft.AckOk, st2)
    ∧ boosters (sess st2) = [["b"; "c"]; ["f"]]
    ∧ round (sess st2) = 2
    ∧ conns st2 !! "bob" = Some c
    ∧ Conn.pickedCards c = ["d"]
    ∧ Conn.boosterIndex c = Some (Num 0).
Proof.
  destruct (pickCard_acknowledgement Examples.small_env "bob" "d" (Some ["e"])
              Examples.last_pick_state) as [_ H].
  destruct (H (Examples.seated "bob" 1)) as (_ & H3);
    [reflexivity | reflexivity | discriminate | intros Hn; discriminate Hn |].
  destruct H3 as [_ H3].
  { exists 1, ["d"; "e"; "f"]. split; [reflexivity|].
    split; [apply list_elem_of_here|]. split; [reflexivity|]. split.
    - left. reflexivity.
    - intros x Hx. apply list_elem_of_singleton in Hx as ->.
      apply list_elem_of_further, list_elem_of_here. }
  specialize (H3 1 ["d"; "e"; "f"]
                {| Log.sessionID := "s"; Log.setRestriction := ["thb"];
                   Log.boosters := [["a"; "b"; "c"]; ["d"; "e"; "f"]];
                   Log.users := [Examples.log_user "alice"; Examples.log_user "bob"] |}
                (Examples.log_user "bob").2).
  destruct H3 as (st2 & _ & E2); [reflexivity.. | | |].
  { intros u Hu. vm_compute in Hu.
    repeat (apply elem_of_cons in Hu as [->|Hu]; [vm_compute; eauto|]).
    by apply elem_of_nil in Hu. }
  { split; [|split].
    - vm_compute. repeat constructor; vm_compute; eauto.
    - intros seat Hin. vm_compute in Hin.
      repeat (apply elem_of_cons in Hin as [->|Hin]; [vm_compute; eauto|]).
      by apply elem_of_nil in Hin.
    - intros _ Hev. discriminate Hev. }
  assert (∃ st c, Draft.pickCard Examples.small_env "bob" "d" (Some ["e"])
                    Examples.last_pick_state = Ret (Some Draft.AckOk, st)
                  ∧ boosters (sess st) = [["b"; "c"]; ["f"]]
                  ∧ round (sess st) = 2
                  ∧ conns st !! "bob" = Some c
                  ∧ Conn.pickedCards c = ["d"]
                  ∧ Conn.boosterIndex c = Some (Num 0)) as (st & c & Est & Hrest).
  { eexists _, _. split; [vm_compute; reflexivity|]. repeat split; vm_compute; reflexivity. }
  rewrite E2 in Est. injection Est as <-. exists st2, c. split; [exact E2 | exact Hrest].
Defined.

End PickClaim.

(** ** The pick of a bot ([doBotPick]) *)

Section BotPickFacts.
Import Frame Seating Session SessionOps.

Lemma splice1_shrinks {A} (i : Z) (l : list A) :
  JS.splice1 i l ⊆+ l ∧ (length l ≤ length (JS.splice1 i l) + 1)%nat.
Proof.
  unfold JS.splice1. cbv zeta. split; [apply submseteq_delete|].
  generalize (Z.to_nat (if i <? 0 then Z.max (Z.of_nat (length l) + i) 0
                        else Z.min i (Z.of_nat (length l)))).
  intros n. revert n. induction l as [|x l IH]; intros [|n]; simpl; try lia.
  specialize (IH n). lia.
Qed.

Lemma nth_Z_set_same {A} (l : list A) (i : Z) (x : A) :
  is_Some (JS.nth_Z l i) → JS.nth_Z (JS.set_nth_Z l i x) i = Some x.
Proof.
  unfold JS.nth_Z, JS.set_nth_Z. destruct (i <? 0); [by intros [? ?]|].
  intros H. apply list_lookup_insert_eq. by apply lookup_lt_is_Some.
Qed.

Lemma get_bot_state r st b st1 : Draft.get_bot r st = Ret (b, st1) → st1 = st.
Proof.
  unfold Draft.get_bot, bind, get_sess. destruct r as [idx|u].
  - destruct (botsInstances (sess st) ≫= _); [|done]. by intros [= _ <-].
  - destruct (JS.obj_get u (disconnectedUsers (sess st)) ≫= Disc.bot); [|done].
    by intros [= _ <-].
Qed.

(** The burn loop: the booster only loses cards, at most one per turn, and
    one burned entry is recorded per turn. *)
Lemma burn_loop_shrinks E r bi n :
  ∀ burned st burned' st' b,
    Draft.burn_loop E r bi n burned st = Ret (burned', st') →
    JS.nth_Z (boosters (sess st)) bi = Some b →
    ∃ b', JS.nth_Z (boosters (sess st')) bi = Some b'
          ∧ b' ⊆+ b ∧ (length b ≤ length b' + n)%nat
          ∧ length burned' = (length burned + n)%nat.
Proof.
  induction n as [|n IH]; intros burned st burned' st' b H Hb; cbn [Draft.burn_loop] in H.
  - injection H as <- <-. exists b. split_and!; [done|done|lia|lia].
  - revert H. unfold bind at 1, get_sess. unfold bind at 1.
    destruct (Draft.get_bot r st) as [[bot st1]| |] eqn:Hbot; [|done..].
    apply get_bot_state in Hbot. subst st1. rewrite Hb.
    unfold bind at 1, Draft.set_booster_at, modify_sess at 1. intros H.
    eapply IH in H as (b' & Hb' & Hsub & Hlen & Hburned).
    2:{ cbn [sess boosters set_boosters]. apply nth_Z_set_same. by rewrite Hb. }
    destruct (splice1_shrinks (botBurn E bot b) b) as [Hs Hl].
    exists b'. split_and!; [done| by etrans | lia |].
    rewrite Hburned, length_app. simpl. lia.
Qed.

End BotPickFacts.

Section BotPickClaims.
Import Frame Seating Session SessionOps.

(** A bot's pick, when [doBotPick] returns: the card returned was in the
    booster, the booster loses that card and at most [burnedCardsPerRound]
    others and gains none, and an entry with the pick, the burned cards and a
    copy of the booster as it was is appended to the picks logged for the
    bot. *)
Lemma doBotPick_takes_from_the_booster (E : Env) (r : Draft.BotRef) (bi : Z)
    (st st' : St) (picked : string) (b0 : list string) :
  Draft.doBotPick E r (Num bi) st = Ret (picked, st') →
  JS.nth_Z (boosters (sess st)) bi = Some b0 →
  ∃ bot b1 burned lg e,
    Draft.get_bot r st = Ret (bot, st)
    ∧ JS.nth_Z (boosters (sess st')) bi = Some b1
    ∧ picked :: b1 ⊆+ b0
    ∧ (length b0 ≤ length b1 + 1 + Z.to_nat (burnedCardsPerRound (sess st)))%nat
    ∧ draftLog (sess st') = Some lg
    ∧ JS.obj_get (Bot.id bot) (Log.users lg) = Some e
    ∧ last (Log.picks e)
      = Some {| Log.pick := picked; Log.burn := Some burned; Log.booster := b0 |}
    ∧ length burned = Z.to_nat (burnedCardsPerRound (sess st)).
Proof.
  unfold Draft.doBotPick. unfold bind at 1, get_sess. unfold bind at 1.
  destruct (Draft.get_bot r st) as [[bot st1]| |] eqn:Hbot; [|done..].
  pose proof (get_bot_state _ _ _ _ Hbot) as ->. intros H Hb0.
  cbn [Draft.booster_at] in H. rewrite Hb0 in H.
  destruct (Draft.bot_pick E bot b0) as [removedIdx bot'] eqn:Hpick.
  revert H. unfold bind at 1.
  destruct (Draft.put_bot r bot' st) as [[[] st1]| |] eqn:H1; [|done..].
  destruct (JS.nth_Z b0 removedIdx) as [c|] eqn:Hc; [|done].
  unfold bind at 1.
  destruct (Draft.set_booster_at bi (JS.splice1 removedIdx b0) st1) as [[[] st2]| |] eqn:H2;
    [|done..].
  unfold bind at 1.
  destruct (Draft.burn_loop E r bi (Z.to_nat (burnedCardsPerRound (sess st))) [] st2)
    as [[burned st3]| |] eqn:H3; [|done..].
  unfold bind at 1.
  destruct (Draft.log_pick (Bot.id bot)
              {| Log.pick := c; Log.burn := Some burned; Log.booster := b0 |} st3)
    as [[[] st4]| |] eqn:H4; [|done..].
  intros [= <- <-].
  (* the booster after the pick *)
  assert (JS.nth_Z (boosters (sess st1)) bi = Some b0) as Hb1.
  { rewrite <- Hb0. exact (keeps_booster_put_bot bi r bot' st tt st1 H1). }
  assert (JS.nth_Z (boosters (sess st2)) bi = Some (JS.splice1 removedIdx b0)) as Hb2.
  { revert H2. unfold Draft.set_booster_at, modify_sess. intros [= <-].
    cbn [sess boosters set_boosters]. apply nth_Z_set_same. by rewrite Hb1. }
  destruct (burn_loop_shrinks E r bi _ _ _ _ _ _ H3 Hb2) as (b1 & Hb3 & Hsub & Hlen & Hbl).
  assert (JS.nth_Z (boosters (sess st4)) bi = Some b1) as Hb4.
  { rewrite <- Hb3. exact (keeps_booster_log_pick bi _ _ st3 tt st4 H4). }
  (* the card picked *)
  assert (b0 ≡ₚ c :: JS.splice1 removedIdx b0 ∧ length b0 = S (length (JS.splice1 removedIdx b0)))
    as [Hperm Hlen0].
  { unfold JS.nth_Z in Hc. destruct (removedIdx <? 0) eqn:Hneg; [done|].
    apply Z.ltb_ge in Hneg. pose proof (lookup_lt_Some _ _ _ Hc) as Hlt.
    unfold JS.splice1. cbv zeta. rewrite (proj2 (Z.ltb_ge _ _)) by done.
    rewrite Z.min_l by lia. split; [by apply delete_Permutation|].
    rewrite length_delete by by eexists. lia. }
  (* the log *)
  revert H4. unfold Draft.log_pick, bind at 1, get_sess.
  destruct (draftLog (sess st3)) as [lg|] eqn:Hlg; [|done].
  destruct (JS.obj_get (Bot.id bot) (Log.users lg)) as [e|] eqn:He; [|done].
  unfold modify_sess. intros [= <-].
  eexists bot, b1, burned, _, _. split; [done|]. split; [exact Hb4|].
  cbn [sess draftLog set_draftLog Log.users Log.set_users].
  split_and!.
  - rewrite Hperm. by apply submseteq_skip.
  - lia.
  - done.
  - apply obj_get_set.
  - cbn. apply last_snoc.
  - by rewrite Hbl.
Qed.

Lemma doBotPick_takes_from_the_booster_witness :
  ∃ st' b1,
    Draft.doBotPick Examples.small_env (Draft.Instance 0) (Num 1) Examples.bot_seat_state
    = Ret ("d", st')
    ∧ JS.nth_Z (boosters (sess st')) 1 = Some b1
    ∧ "d" :: b1 ⊆+ ["d"; "e"; "f"].
Proof.
  destruct (Draft.doBotPick Examples.small_env (Draft.Instance 0) (Num 1)
              Examples.bot_seat_state) as [[p st']| |] eqn:H;
    [|vm_compute in H; discriminate H..].
  assert (p = "d") as -> by (vm_compute in H; by injection H as <- _).
  destruct (doBotPick_takes_from_the_booster Examples.small_env (Draft.Instance 0) 1
              Examples.bot_seat_state st' "d" ["d"; "e"; "f"] H eq_refl)
    as (bot & b1 & burned & lg & e & _ & Hb & Hsub & _).
  by exists st', b1.
Defined.

End BotPickClaims.

(** ** Joining a session ([joinSession], [addUserToSession]) *)

Section JoinClaims.
Import Frame Server Session.

(** A session that is not drafting and already holds [maxPlayers] human
    players (the disconnected ones included) takes nobody in: [joinSession]
    changes no session and no connection, and sends the user a message and the
    session to go back to: their previous one or, having none, the identifier
    of twelve hexadecimal digits that [shortguid] spells from the next three
    draws, which are then used up. *)
Lemma joinSession_full (E : Env) (w : World) (sessionID userID : string)
    (s0 : Session.t) (c : Conn.t) :
  Sessions w !! sessionID = Some s0 →
  drafting s0 = false →
  maxPlayers s0 <= SessionOps.getHumanPlayerCount s0 →
  Connections w !! userID = Some c →
  ∃ w' text,
    joinSession E sessionID userID w = Ret (tt, w')
    ∧ Sessions w' = Sessions w
    ∧ Connections w' = Connections w
    ∧ outbox w' = outbox w ++
        [(ToUser userID, EvMessage "Cannot join session" text None None);
         (ToUser userID, EvSetSession (Ids.fallback c (wrng w)))]
    ∧ wrng w' = match Conn.sessionID c with
                | Some _ => wrng w
                | None => advance (advance (advance (wrng w)))
                end.
Proof.
  intros Hs Hd Hfull Hc. unfold joinSession. unfold bind at 1, get_world.
  rewrite Hs, Hd. rewrite (proj2 (Z.leb_le _ _)) by done.
  unfold fallback_session. wunfold. rewrite Hc. wunfold. rewrite Hc. wunfold.
  unfold Ids.fallback.
  destruct (Conn.sessionID c) as [previous|] eqn:Hprev.
  - wunfold. rewrite Hc. eexists _, _. split; [done|]. cbn.
    split; [done|]. split; [done|]. split; [|done]. by rewrite <- app_assoc.
  - wunfold. rewrite shortguid_spelled. wunfold. rewrite Hc.
    eexists _, _. split; [done|]. cbn. split; [done|]. split; [done|].
    split; [|done]. by rewrite <- app_assoc.
Qed.

Lemma joinSession_full_witness :
  ∃ w' text,
    joinSession Examples.small_env "s" "carol"
      (with_sessions {["s" := set_maxPlayers 2 Examples.lobby]}
         (with_connections
            (<["carol" := Examples.conn "carol" None]> (Connections Examples.lobby_world))
            Examples.lobby_world))
    = Ret (tt, w')
    ∧ Sessions w' = {["s" := set_maxPlayers 2 Examples.lobby]}
    ∧ outbox w' =
        [(ToUser "carol", EvMessage "Cannot join session" text None None);
         (ToUser "carol", EvSetSession "000000000000")].
Proof.
  destruct (joinSession_full Examples.small_env
              (with_sessions {["s" := set_maxPlayers 2 Examples.lobby]}
                 (with_connections
                    (<["carol" := Examples.conn "carol" None]>
                       (Connections Examples.lobby_world))
                    Examples.lobby_world))
              "s" "carol" (set_maxPlayers 2 Examples.lobby) (Examples.conn "carol" None))
    as (w' & text & H & Hs & _ & Ho & _).
  - reflexivity.
  - reflexivity.
  - vm_compute. discriminate.
  - reflexivity.
  - exists w', text. split; [exact H|]. split; [exact Hs|]. exact Ho.
Defined.

(** Joining under an identifier that names no session, and is not a name
    that [Sessions] inherits, creates the session: it has the default
    options, the joiner is its owner, its only member and the first seated;
    the joiner's connection now names the session, and the joiner is sent the
    owner, the list of users (themselves) and the options.  Under an
    inherited name such as "constructor" no session is created: the call
    throws. *)
Lemma joinSession_creates_the_session (E : Env) (w : World) (sessionID userID : string)
    (c : Conn.t) :
  Sessions w !! sessionID = None →
  JS.inherited sessionID = false →
  Connections w !! userID = Some c →
  Conn.sessionID c = None →
  let s' := set_userOrder [userID] (set_users [userID] (new_Session E sessionID userID)) in
  joinSession E sessionID userID w
  = Ret (tt,
      {| Connections := <[userID := Conn.set_sessionID (Some sessionID) c]> (Connections w);
         Sessions := <[sessionID := s']> (Sessions w);
         outbox := outbox w ++
           [(ToUser userID, EvSessionOwner userID (Some (Conn.userName c)));
            (ToUser userID,
             EvSessionUsers
               [{| ui_userID := Conn.userID c; ui_userName := Conn.userName c;
                   ui_collection := negb (isEmpty (Conn.collection c));
                   ui_useCollection := Conn.useCollection c |}]);
            (ToUser userID, EvSessionOptionsAll s')];
         wrng := wrng w |})
  ∧ ∀ name, JS.inherited name = true → Sessions w !! name = None →
      ∃ e, joinSession E name userID w = Throw e.
Proof.
  intros Hs Hown Hc Hnone s'. split.
  2:{ intros name Hname Hn. unfold joinSession. unfold bind at 1, get_world.
      rewrite Hn, Hname. by eexists. }
  unfold joinSession. unfold bind at 1, get_world. rewrite Hs, Hown.
  unfold addUserToSession. wunfold. rewrite Hc. wunfold. rewrite Hnone.
  rewrite bool_decide_eq_false_2 by (intros H; by apply H). wunfold.
  rewrite bool_decide_eq_true_2 by done. rewrite Hown. cbn [negb andb]. wunfold.
  unfold with_session. cbn [Sessions Connections outbox wrng]. rewrite lookup_insert_eq.
  unfold SessionOps.addUser. unfold bind at 1, get_sess. unfold bind at 1.
  rewrite (modify_conn_ok _ _ c) by done.
  unfold bind at 1, modify_sess at 1. unfold bind at 1, modify_sess at 1.
  cbn [sess conns out rng with_conns].
  match goal with |- context [bind _ _ ?st] =>
    change st with {| sess := s';
                      conns := <[userID := Conn.set_sessionID (Some sessionID) c]> (Connections w);
                      out := outbox w; rng := wrng w |}
  end.
  unfold bind at 1.
  unfold SessionOps.notifyUserChange. unfold bind at 1, get_sess. unfold bind at 1, get_conns.
  cbn [sess conns out rng]. unfold SessionOps.getSortedHumanPlayers. subst s'.
  cbn [users userOrder disconnectedUsers JS.obj_keys fmap list_fmap app
       set_userOrder set_users new_Session].
  rewrite filter_cons, decide_True by left. rewrite filter_nil.
  cbn [omap list_omap].
  unfold SessionOps.forUsers. unfold bind at 1, get_sess. unfold bind at 1, get_conns.
  cbn [sess conns out rng ownerIsPlayer negb andb users owner forM_
       set_userOrder set_users new_Session].
  unfold bind at 1. unfold ret at 1. unfold bind at 1.
  rewrite bool_decide_eq_true_2 by (rewrite lookup_insert_eq; by eexists).
  unfold bind at 1. erewrite emit_ok by apply lookup_insert_eq.
  erewrite emit_ok by apply lookup_insert_eq. unfold ret at 1.
  unfold SessionOps.syncSessionOptions. unfold bind at 1, get_sess.
  erewrite emit_ok by apply lookup_insert_eq.
  cbn [sess conns out rng add_out]. rewrite insert_insert_eq, <- !app_assoc.
  rewrite lookup_insert_eq. done.
Qed.

Lemma joinSession_creates_the_session_witness :
  ∃ w', joinSession Examples.small_env "t" "carol"
          (with_connections
             (<["carol" := Examples.conn "carol" None]> (Connections Examples.lobby_world))
             Examples.lobby_world)
        = Ret (tt, w')
    ∧ (owner <$> Sessions w' !! "t") = Some "carol"
    ∧ (users <$> Sessions w' !! "t") = Some ["carol"].
Proof.
  eexists. split.
  - apply (joinSession_creates_the_session Examples.small_env
             (with_connections
                (<["carol" := Examples.conn "carol" None]> (Connections Examples.lobby_world))
                Examples.lobby_world)
             "t" "carol" (Examples.conn "carol" None)); reflexivity.
  - split; reflexivity.
Defined.

End JoinClaims.

(** ** The collection of a custom cube ([collection] with [useCustomCardList]) *)

Section CustomFacts.
Import Generator Session.

Lemma count_cards_insert_fresh (d : gmap string Z) c v :
  d !! c = None → count_cards (<[c := v]> d) = count_cards d + v.
Proof.
  intros Hc. unfold count_cards.
  rewrite (count_list_perm _ _ (map_to_list_insert d c v Hc)). simpl. lia.
Qed.

Lemma not_inherited_proto (c : string) :
  JS.inherited c = false → String.eqb c "__proto__" = false.
Proof.
  intros H. destruct (String.eqb_spec c "__proto__") as [->|]; [|done].
  vm_compute in H. discriminate H.
Qed.

(** One step on a name that no object inherits: one more copy of the card. *)
Lemma count_one_plain (r : gmap string Z) (c : string) :
  JS.inherited c = false →
  count_one r c = Some (<[c := default 0 (r !! c) + 1]> r).
Proof.
  intros H. unfold count_one. destruct (r !! c) as [n|]; [done|].
  by rewrite (not_inherited_proto c H), H.
Qed.

(** The loop of [collection] over a custom list of names that no object
    inherits, from any bag [r]: the count of each card grows by the number of
    times the list names it. *)
Lemma count_custom_loop (l : list string) :
  Forall (λ c, JS.inherited c = false) l →
  ∀ r : gmap string Z,
    ∃ r', foldl (λ acc cardId, acc ≫= (λ r, count_one r cardId)) (Some r) l = Some r'
    ∧ (∀ c, r' !! c
          = let n := length (filter (λ x, x = c) l) in
            if decide (n = 0%nat) then r !! c
            else Some (default 0 (r !! c) + Z.of_nat n))
    ∧ count_cards r' = count_cards r + Z.of_nat (length l).
Proof.
  induction l as [|x l IH]; intros Hl r.
  - exists r. split; [done|]. split; [|simpl; lia]. intros c. done.
  - apply Forall_cons in Hl as [Hx Hl]. cbn [foldl]. cbn [mbind option_bind].
    rewrite (count_one_plain r x Hx).
    set (r1 := <[x := default 0 (r !! x) + 1]> r).
    destruct (IH Hl r1) as (r' & Hr' & Hlook & Hc). cbv zeta in Hlook.
    exists r'. split; [done|].
    assert (∀ c, r1 !! c = if decide (x = c) then Some (default 0 (r !! c) + 1) else r !! c)
      as Hr1.
    { intros c. subst r1. case_decide as Hcx.
      - subst c. by rewrite lookup_insert_eq.
      - by rewrite lookup_insert_ne. }
    assert (count_cards r1 = count_cards r + 1) as Hc1.
    { subst r1. destruct (r !! x) as [n|] eqn:Hrx; cbn [default].
      - unfold Datatypes.id. rewrite (count_cards_insert r x n) by done. lia.
      - rewrite count_cards_insert_fresh by done. lia. }
    split.
    + intros c. rewrite Hlook, Hr1. cbv zeta. rewrite filter_cons.
      destruct (decide (x = c)) as [->|Hne]; cbn [length default].
      * rewrite (decide_False (P := S _ = 0%nat)) by lia. unfold Datatypes.id.
        case_decide as Hn; f_equal; lia.
      * done.
    + rewrite Hc, Hc1. cbn [length]. lia.
Qed.

(** A bag none of whose cards bears an inherited name stays so, and the loop
    stops being a count at the first inherited name other than [__proto__]. *)
Lemma count_custom_inherited (l : list string) :
  ∀ acc : option (gmap string Z),
    (∀ r c, acc = Some r → is_Some (r !! c) → JS.inherited c = false) →
    Exists (λ c, JS.inherited c = true ∧ c ≠ "__proto__") l →
    foldl (λ acc cardId, acc ≫= (λ r, count_one r cardId)) acc l = None.
Proof.
  induction l as [|x l IH]; intros acc Hacc Hex; [by apply Exists_nil in Hex|].
  cbn [foldl]. destruct acc as [r|]; cbn [mbind option_bind].
  2:{ clear. induction l as [|y l IHl]; [done | exact IHl]. }
  apply Exists_cons in Hex as [[Hx Hp]|Hex].
  - unfold count_one. destruct (r !! x) as [n|] eqn:Hrx.
    { rewrite (Hacc r x eq_refl) in Hx by by eexists. discriminate Hx. }
    rewrite (proj2 (String.eqb_neq x "__proto__")) by done. rewrite Hx.
    clear. induction l as [|y l IHl]; [done | exact IHl].
  - apply IH; [|done]. intros r' c Hr' Hc. unfold count_one in Hr'.
    destruct (r !! x) as [n|] eqn:Hrx.
    + injection Hr' as <-. destruct (decide (c = x)) as [->|Hne].
      * apply (Hacc r x eq_refl). by eexists.
      * rewrite lookup_insert_ne in Hc by done. by apply (Hacc r c eq_refl).
    + destruct (String.eqb x "__proto__"); [injection Hr' as <-; by apply (Hacc r c eq_refl)|].
      destruct (JS.inherited x) eqn:Hx; [discriminate Hr'|].
      injection Hr' as <-. destruct (decide (c = x)) as [->|Hne]; [done|].
      rewrite lookup_insert_ne in Hc by done. by apply (Hacc r c eq_refl).
Qed.

End CustomFacts.

Section CustomClaims.
Import Generator Session.

(** With a custom cube (a custom card list without sheets) whose names are
    not names that an object inherits, the collection is the list itself
    counted: [collection()] returns, whatever the users own and whatever the
    catalog holds, the bag giving each card as many copies as the list names
    it, and no other card; it holds as many cards as the list is long.  A
    list that names an inherited property other than [__proto__], such as
    "constructor", gets no bag of counts. *)
Lemma collection_custom_cube (E : Env) (st : St) (l : list string) :
  useCustomCardList (sess st) = true →
  customCardList (sess st) = Cube l →
  (Forall (λ c, JS.inherited c = false) l →
   ∃ m, collection E st = Ret (m, st)
     ∧ (∀ c, m !! c
             = let n := length (filter (λ x, x = c) l) in
               if decide (n = 0%nat) then None else Some (Z.of_nat n))
     ∧ count_cards m = Z.of_nat (length l))
  ∧ (Exists (λ c, JS.inherited c = true ∧ c ≠ "__proto__") l →
     ∀ m st', collection E st ≠ Ret (m, st')).
Proof.
  intros Hu Hl. split.
  - intros Hplain. unfold collection, bind at 1, get_sess. rewrite Hu, Hl.
    unfold count_custom.
    destruct (count_custom_loop l Hplain ∅) as (m & -> & Hlook & Hcount).
    cbv zeta in Hlook. exists m. split; [done|]. split.
    + intros c. rewrite Hlook, lookup_empty. cbv zeta.
      case_decide; [done|]. cbn [default]. done.
    + rewrite Hcount, count_cards_empty. lia.
  - intros Hex m st'. unfold collection, bind at 1, get_sess. rewrite Hu, Hl.
    assert (count_custom l = None) as ->; [|done].
    apply count_custom_inherited; [|done].
    intros r c [= <-] [v Hv]. by rewrite lookup_empty in Hv.
Qed.

Lemma collection_custom_cube_witness :
  ∃ m, collection Examples.small_env
         (Frame.with_sess
            (set_useCustomCardList true
               (set_customCardList (Cube ["x"; "y"; "x"]) Examples.lobby))
            Examples.lobby_state)
       = Ret (m, Frame.with_sess
                   (set_useCustomCardList true
                      (set_customCardList (Cube ["x"; "y"; "x"]) Examples.lobby))
                   Examples.lobby_state)
    ∧ m !! "x" = Some 2 ∧ m !! "c1" = None ∧ count_cards m = 3.
Proof.
  destruct (collection_custom_cube Examples.small_env
              (Frame.with_sess
                 (set_useCustomCardList true
                    (set_customCardList (Cube ["x"; "y"; "x"]) Examples.lobby))
                 Examples.lobby_state) ["x"; "y"; "x"])
    as [H _]; [reflexivity..|].
  destruct H as (m & H & Hm & Hc).
  { apply (bool_decide_unpack _). vm_compute. exact I. }
  exists m. split; [exact H|]. split; [|split].
  - rewrite Hm. reflexivity.
  - rewrite Hm. reflexivity.
  - exact Hc.
Defined.

End CustomClaims.

(** ** The bracket of a tournament ([Bracket], [matches]) *)

Section BracketFacts.
Import Bracket BracketSpec.

Lemma real_app l1 l2 : real (l1 ++ l2) = real l1 ++ real l2.
Proof. apply filter_app. Qed.

Lemma place_of_fed name : fed_by [name] (place_of name).
Proof.
  unfold place_of, fed_by, real. destruct (String.eqb_spec name "") as [->|Hne].
  - done.
  - rewrite filter_cons, decide_True by done. left.
Qed.

Lemma place_of_unopposed name : unopposed [name] (place_of name).
Proof.
  unfold place_of, unopposed, real. destruct (String.eqb_spec name "") as [->|Hne].
  - done.
  - by rewrite filter_cons, decide_True by done.
Qed.

Lemma fed_by_real names s : fed_by names s → s ≠ Empty → (1 ≤ length (real names))%nat.
Proof.
  destruct s as [n| |]; simpl; intros H Hne; [|done|lia].
  destruct (real names); [by apply elem_of_nil in H | simpl; lia].
Qed.

Lemma unopposed_real names s : unopposed names s → s ≠ Empty → (1 ≤ length (real names))%nat.
Proof.
  destruct s as [n| |]; simpl; intros H Hne; [|done|lia]. rewrite H. simpl. lia.
Qed.

(** The winner of a match comes from the players that feed it. *)
Lemma winner_fed b i f0 f1 p0 p1 w :
  fed_by f0 p0 → fed_by f1 p1 →
  winner b {| index := i; places := (p0, p1) |} = Ret w →
  fed_by (f0 ++ f1) w.
Proof.
  intros H0 H1. unfold winner. cbn [places index].
  assert (p0 ≠ Empty → p1 ≠ Empty → fed_by (f0 ++ f1) TBD) as Htbd.
  { intros Hn0 Hn1. cbn. rewrite real_app, length_app.
    pose proof (fed_by_real _ _ H0 Hn0). pose proof (fed_by_real _ _ H1 Hn1). lia. }
  assert (fed_by (f0 ++ f1) p0 ∨ p0 = Empty) as Hl.
  { destruct p0 as [n| |]; [left|by right|left]; cbn in *; rewrite real_app.
    - apply elem_of_app. by left.
    - rewrite length_app. lia. }
  assert (fed_by (f0 ++ f1) p1 ∨ p1 = Empty) as Hr.
  { destruct p1 as [n| |]; [left|by right|left]; cbn in *; rewrite real_app.
    - apply elem_of_app. by right.
    - rewrite length_app. lia. }
  assert (p0 = Empty → p1 = Empty → fed_by (f0 ++ f1) Empty) as Hempty.
  { intros -> ->. cbn in *. by rewrite real_app, H0, H1. }
  assert (p0 ≠ Empty → p1 ≠ Empty →
          match results b with
          | Some rs =>
              match rs !! i with
              | Some (r0, r1) => if r0 =? r1 then Ret TBD else if r1 <? r0 then Ret p0 else Ret p1
              | None => Throw "this.bracket.results[match.index] is undefined"
              end
          | None => Ret TBD
          end = Ret w → fed_by (f0 ++ f1) w) as Hplay.
  { intros Hn0 Hn1. destruct (results b) as [rs|]; [|intros [= <-]; by apply Htbd].
    destruct (rs !! i) as [[r0 r1]|]; [|done].
    destruct (r0 =? r1); [intros [= <-]; by apply Htbd|].
    destruct (r1 <? r0); intros [= <-]; [by destruct Hl | by destruct Hr]. }
  destruct p0 as [n0| |], p1 as [n1| |]; try (by apply Hplay);
    intros [= <-]; first [by destruct Hl | by destruct Hr | by apply Hempty].
Qed.

(** The same while no score is decisive. *)
Lemma winner_unopposed b i f0 f1 p0 p1 w :
  undecided b →
  unopposed f0 p0 → unopposed f1 p1 →
  winner b {| index := i; places := (p0, p1) |} = Ret w →
  unopposed (f0 ++ f1) w.
Proof.
  intros Hun H0 H1. unfold winner. cbn [places index].
  assert (p0 ≠ Empty → p1 ≠ Empty → unopposed (f0 ++ f1) TBD) as Htbd.
  { intros Hn0 Hn1. cbn. rewrite real_app, length_app.
    pose proof (unopposed_real _ _ H0 Hn0). pose proof (unopposed_real _ _ H1 Hn1). lia. }
  assert (p0 ≠ Empty → p1 ≠ Empty →
          match results b with
          | Some rs =>
              match rs !! i with
              | Some (r0, r1) => if r0 =? r1 then Ret TBD else if r1 <? r0 then Ret p0 else Ret p1
              | None => Throw "this.bracket.results[match.index] is undefined"
              end
          | None => Ret TBD
          end = Ret w → unopposed (f0 ++ f1) w) as Hplay.
  { intros Hn0 Hn1. destruct (results b) as [rs|] eqn:Hrs; [|intros [= <-]; by apply Htbd].
    destruct (rs !! i) as [[r0 r1]|] eqn:Hi; [|done].
    rewrite (Hun rs i r0 r1 Hrs Hi), Z.eqb_refl. intros [= <-]. by apply Htbd. }
  destruct p0 as [n0| |], p1 as [n1| |]; try (by apply Hplay);
    intros [= <-]; cbn in *; rewrite real_app, ?H0, ?H1, ?app_nil_r; done.
Qed.

Lemma matches_shape b ms :
  matches b = Ret ms →
  ∃ p0 p1 p2 p3 p4 p5 p6 p7 rest w0 w1 w2 w3 w4 w5,
    players b = p0 :: p1 :: p2 :: p3 :: p4 :: p5 :: p6 :: p7 :: rest
    ∧ winner b {| index := 0; places := (place_of p0, place_of p1) |} = Ret w0
    ∧ winner b {| index := 1; places := (place_of p2, place_of p3) |} = Ret w1
    ∧ winner b {| index := 2; places := (place_of p4, place_of p5) |} = Ret w2
    ∧ winner b {| index := 3; places := (place_of p6, place_of p7) |} = Ret w3
    ∧ winner b {| index := 4; places := (w0, w1) |} = Ret w4
    ∧ winner b {| index := 5; places := (w2, w3) |} = Ret w5
    ∧ ms = [[{| index := 0; places := (place_of p0, place_of p1) |};
             {| index := 1; places := (place_of p2, place_of p3) |};
             {| index := 2; places := (place_of p4, place_of p5) |};
             {| index := 3; places := (place_of p6, place_of p7) |}];
            [{| index := 4; places := (w0, w1) |}; {| index := 5; places := (w2, w3) |}];
            [{| index := 6; places := (w4, w5) |}]].
Proof.
  unfold matches.
  destruct (players b) as [|p0 [|p1 [|p2 [|p3 [|p4 [|p5 [|p6 [|p7 rest]]]]]]]]; try done.
  cbv zeta. unfold and_then.
  destruct (winner b {| index := 0; places := _ |}) as [w0| |] eqn:E0; [|done..].
  destruct (winner b {| index := 1; places := _ |}) as [w1| |] eqn:E1; [|done..].
  destruct (winner b {| index := 2; places := _ |}) as [w2| |] eqn:E2; [|done..].
  destruct (winner b {| index := 3; places := _ |}) as [w3| |] eqn:E3; [|done..].
  destruct (winner b {| index := 4; places := _ |}) as [w4| |] eqn:E4; [|done..].
  destruct (winner b {| index := 5; places := _ |}) as [w5| |] eqn:E5; [|done..].
  intros [= <-]. by eexists p0, p1, p2, p3, p4, p5, p6, p7, rest, w0, w1, w2, w3, w4, w5.
Qed.

End BracketFacts.

Section BracketClaims.
Import Bracket BracketSpec.

(** The bracket component needs eight places: with fewer than eight entries
    in [players], [matches] fails on an undefined place; with eight, and
    scores for the seven matches (or no [results] at all), it gives the four
    matches of the first round, the two of the second and the final. *)
Lemma matches_needs_eight_places (b : t) :
  ((length (players b) < 8)%nat → ∃ e, matches b = Throw e)
  ∧ ((8 ≤ length (players b))%nat →
     (∀ rs, results b = Some rs → (7 ≤ length rs)%nat) →
     ∃ q0 q1 q2 q3 s0 s1 f,
       matches b = Ret [[q0; q1; q2; q3]; [s0; s1]; [f]]
       ∧ index <$> [q0; q1; q2; q3; s0; s1; f] = [0; 1; 2; 3; 4; 5; 6]%nat).
Proof.
  split.
  - intros Hlt. unfold matches.
    destruct (players b) as [|p0 [|p1 [|p2 [|p3 [|p4 [|p5 [|p6 [|p7 rest]]]]]]]];
      try (by eexists). simpl in Hlt. lia.
  - intros Hge Hrs.
    assert (∀ i p, (i < 7)%nat → ∃ w, winner b {| index := i; places := p |} = Ret w) as Hw.
    { intros i [p0 p1] Hi. unfold winner. cbn [places index].
      assert (∃ w, match results b with
                   | Some rs =>
                       match rs !! i with
                       | Some (r0, r1) =>
                           if r0 =? r1 then Ret TBD else if r1 <? r0 then Ret p0 else Ret p1
                       | None => Throw "this.bracket.results[match.index] is undefined"
                       end
                   | None => Ret TBD
                   end = Ret w) as Hplay.
      { destruct (results b) as [rs|] eqn:Hr; [|by eexists].
        destruct (lookup_lt_is_Some_2 rs i) as [[r0 r1] ->].
        { specialize (Hrs rs eq_refl). lia. }
        destruct (r0 =? r1); [by eexists|]. destruct (r1 <? r0); by eexists. }
      destruct p0, p1; try exact Hplay; by eexists. }
    unfold matches.
    destruct (players b) as [|p0 [|p1 [|p2 [|p3 [|p4 [|p5 [|p6 [|p7 rest]]]]]]]];
      try (simpl in Hge; lia).
    cbv zeta. unfold and_then.
    destruct (Hw 0%nat (place_of p0, place_of p1)) as [w0 ->]; [lia|].
    destruct (Hw 1%nat (place_of p2, place_of p3)) as [w1 ->]; [lia|].
    destruct (Hw 2%nat (place_of p4, place_of p5)) as [w2 ->]; [lia|].
    destruct (Hw 3%nat (place_of p6, place_of p7)) as [w3 ->]; [lia|].
    destruct (Hw 4%nat (w0, w1)) as [w4 ->]; [lia|].
    destruct (Hw 5%nat (w2, w3)) as [w5 ->]; [lia|].
    by eexists _, _, _, _, _, _, _.
Qed.

Lemma matches_needs_eight_places_witness :
  ∃ q0 q1 q2 q3 s0 s1 f,
    matches (new ["a"; "b"; "c"; "d"; "e"; "f"; "g"; "h"])
    = Ret [[q0; q1; q2; q3]; [s0; s1]; [f]]
    ∧ index <$> [q0; q1; q2; q3; s0; s1; f] = [0; 1; 2; 3; 4; 5; 6]%nat.
Proof.
  apply (matches_needs_eight_places (new ["a"; "b"; "c"; "d"; "e"; "f"; "g"; "h"])).
  - simpl. lia.
  - intros rs [= <-]. simpl. lia.
Defined.

(** Who stands in the second round and in the final.  Each place of a later
    round is fed by the players of its part of the table (two places of
    [players] for the second round, four for the final): it is empty exactly
    when none of them is a real player; it holds a pending result only when
    two of them at least are real; and otherwise it names one of the real
    ones.  So a player alone in their part of the table moves on without a
    score. *)
Lemma matches_places_fed (b : t) (ms : list (list Match)) :
  matches b = Ret ms →
  ∃ p0 p1 p2 p3 p4 p5 p6 p7 rest q0 q1 q2 q3 s0 s1 f,
    players b = p0 :: p1 :: p2 :: p3 :: p4 :: p5 :: p6 :: p7 :: rest
    ∧ ms = [[q0; q1; q2; q3]; [s0; s1]; [f]]
    ∧ places <$> [q0; q1; q2; q3]
      = [(place_of p0, place_of p1); (place_of p2, place_of p3);
         (place_of p4, place_of p5); (place_of p6, place_of p7)]
    ∧ fed_by [p0; p1] (places s0).1 ∧ fed_by [p2; p3] (places s0).2
    ∧ fed_by [p4; p5] (places s1).1 ∧ fed_by [p6; p7] (places s1).2
    ∧ fed_by [p0; p1; p2; p3] (places f).1 ∧ fed_by [p4; p5; p6; p7] (places f).2.
Proof.
  intros H. apply matches_shape in H
    as (p0 & p1 & p2 & p3 & p4 & p5 & p6 & p7 & rest & w0 & w1 & w2 & w3 & w4 & w5
        & Hp & E0 & E1 & E2 & E3 & E4 & E5 & ->).
  pose proof (winner_fed b _ [p0] [p1] _ _ _ (place_of_fed p0) (place_of_fed p1) E0) as F0.
  pose proof (winner_fed b _ [p2] [p3] _ _ _ (place_of_fed p2) (place_of_fed p3) E1) as F1.
  pose proof (winner_fed b _ [p4] [p5] _ _ _ (place_of_fed p4) (place_of_fed p5) E2) as F2.
  pose proof (winner_fed b _ [p6] [p7] _ _ _ (place_of_fed p6) (place_of_fed p7) E3) as F3.
  pose proof (winner_fed b _ _ _ _ _ _ F0 F1 E4) as F4.
  pose proof (winner_fed b _ _ _ _ _ _ F2 F3 E5) as F5.
  eexists p0, p1, p2, p3, p4, p5, p6, p7, rest, _, _, _, _, _, _, _.
  split; [done|]. split; [done|]. split; [done|]. cbn [places fst snd]. done.
Qed.

Lemma matches_places_fed_witness :
  ∃ ms f, matches {| players := ["a"; ""; ""; ""; "e"; "f"; ""; "h"]; results := None |}
          = Ret ms
    ∧ last ms = Some [f]
    ∧ places f = (Player "a", TBD).
Proof.
  destruct (matches {| players := ["a"; ""; ""; ""; "e"; "f"; ""; "h"]; results := None |})
    as [ms| |] eqn:H; [|vm_compute in H; discriminate H..].
  destruct (matches_places_fed _ ms H)
    as (p0 & p1 & p2 & p3 & p4 & p5 & p6 & p7 & rest & q0 & q1 & q2 & q3 & s0 & s1 & f
        & Hp & -> & _ & _ & _ & _ & _ & Hf1 & Hf2).
  exists [[q0; q1; q2; q3]; [s0; s1]; [f]], f. split; [done|]. split; [done|].
  vm_compute in H. injection H as _ _ _ _ _ _ <-. reflexivity.
Defined.

(** While no score separates two players -- as in the bracket the server
    creates, whose seven results are 0-0 -- nobody moves on but the players
    without an opponent: a place of a later round names a player only when
    that player is the only real one of its part of the table, and it is
    pending as soon as two real players feed it. *)
Lemma matches_undecided (b : t) (ms : list (list Match)) :
  undecided b →
  matches b = Ret ms →
  ∃ p0 p1 p2 p3 p4 p5 p6 p7 rest q0 q1 q2 q3 s0 s1 f,
    players b = p0 :: p1 :: p2 :: p3 :: p4 :: p5 :: p6 :: p7 :: rest
    ∧ ms = [[q0; q1; q2; q3]; [s0; s1]; [f]]
    ∧ unopposed [p0; p1] (places s0).1 ∧ unopposed [p2; p3] (places s0).2
    ∧ unopposed [p4; p5] (places s1).1 ∧ unopposed [p6; p7] (places s1).2
    ∧ unopposed [p0; p1; p2; p3] (places f).1 ∧ unopposed [p4; p5; p6; p7] (places f).2.
Proof.
  intros Hun H. apply matches_shape in H
    as (p0 & p1 & p2 & p3 & p4 & p5 & p6 & p7 & rest & w0 & w1 & w2 & w3 & w4 & w5
        & Hp & E0 & E1 & E2 & E3 & E4 & E5 & ->).
  pose proof (winner_unopposed b _ [p0] [p1] _ _ _ Hun
                (place_of_unopposed p0) (place_of_unopposed p1) E0) as F0.
  pose proof (winner_unopposed b _ [p2] [p3] _ _ _ Hun
                (place_of_unopposed p2) (place_of_unopposed p3) E1) as F1.
  pose proof (winner_unopposed b _ [p4] [p5] _ _ _ Hun
                (place_of_unopposed p4) (place_of_unopposed p5) E2) as F2.
  pose proof (winner_unopposed b _ [p6] [p7] _ _ _ Hun
                (place_of_unopposed p6) (place_of_unopposed p7) E3) as F3.
  pose proof (winner_unopposed b _ _ _ _ _ _ Hun F0 F1 E4) as F4.
  pose proof (winner_unopposed b _ _ _ _ _ _ Hun F2 F3 E5) as F5.
  eexists p0, p1, p2, p3, p4, p5, p6, p7, rest, _, _, _, _, _, _, _.
  split; [done|]. split; [done|]. cbn [places fst snd]. done.
Qed.

Lemma new_undecided names : undecided (new names).
Proof.
  intros rs i r0 r1 H Hi.
  assert (rs = replicate 7 (0, 0)) as -> by (by injection H).
  apply lookup_replicate in Hi as [Hi _]. by injection Hi as -> ->.
Qed.

Lemma matches_undecided_witness :
  ∃ ms f, matches (new ["a"; "b"; "c"; "d"; "e"; "f"; "g"; "h"]) = Ret ms
    ∧ last ms = Some [f]
    ∧ places f = (TBD, TBD).
Proof.
  destruct (matches (new ["a"; "b"; "c"; "d"; "e"; "f"; "g"; "h"]))
    as [ms| |] eqn:H; [|vm_compute in H; discriminate H..].
  destruct (matches_undecided _ ms (new_undecided _) H)
    as (p0 & p1 & p2 & p3 & p4 & p5 & p6 & p7 & rest & q0 & q1 & q2 & q3 & s0 & s1 & f
        & Hp & -> & _).
  exists [[q0; q1; q2; q3]; [s0; s1]; [f]], f. split; [done|]. split; [done|].
  vm_compute in H. injection H as _ _ _ _ _ _ <-. reflexivity.
Defined.

End BracketClaims.

(** ** Leaving a draft and coming back ([remUser], [reconnectUser]) *)

Section RoundTripFacts.
Import Frame Seating Session SessionOps.

(** [reconnectUser] in a traditional draft: the connection takes back what
    [disconnectedUsers] kept, the user is a member again, and the rest of the
    session is untouched, the timer apart. *)
Lemma reconnectUser_result (userID : string) (c : Conn.t) (d : Disc.t) (st : St) :
  conns st !! userID = Some c →
  JS.obj_get userID (disconnectedUsers (sess st)) = Some d →
  users_connected st →
  userID ∈ userOrder (sess st) →
  winstonDraftState (sess st) = None →
  ∃ st', Draft.reconnectUser userID st = Ret (tt, st')
    ∧ timer_erase (sess st')
      = timer_erase
          (set_disconnectedUsers (JS.obj_delete userID (disconnectedUsers (sess st)))
             (set_users (JS.set_add userID (users (sess st))) (sess st)))
    ∧ conns st'
      = <[userID := Conn.set_sessionID (Some (id (sess st)))
                      (Conn.set_boosterIndex (Disc.boosterIndex d)
                         (Conn.set_pickedCards (Disc.pickedCards d)
                            (Conn.set_pickedThisRound (Disc.pickedThisRound d) c)))]>
          (conns st).
Proof.
  intros Hc Hd Hst Hseat Hw. unfold Draft.reconnectUser.
  pose proof (indexOf_elem _ _ Hseat) as Hidx. unfold JS.indexOf, JS.findIndex in Hidx.
  unfold bind at 1, get_sess at 1. rewrite Hd, Hw.
  unfold bind at 1.
  unfold bind at 1. rewrite (modify_conn_ok _ _ c) by done.
  unfold bind at 1. erewrite modify_conn_ok by (cbn; apply lookup_insert_eq).
  unfold bind at 1. erewrite modify_conn_ok by (cbn; apply lookup_insert_eq).
  unfold bind at 1.
  edestruct (addUser_spec userID) as [o ->]; [cbn; apply lookup_insert_eq|].
  unfold bind at 1, get_sess at 1.
  erewrite emit_ok by (cbn; apply lookup_insert_eq).
  unfold bind at 1, modify_sess at 1.
  cbn [sess conns out rng add_out with_conns with_sess users userOrder set_users].
  unfold JS.indexOf, JS.findIndex. rewrite Hidx.
  match goal with |- context [bind get_sess _ ?st0] => set (st1 := st0) end.
  destruct (reconnect_tail_steady st1) as (st2 & -> & Hconns & _ & Hs2 & _).
  { intros u Hu. subst st1. cbn in Hu |- *. rewrite !insert_insert_eq.
    apply set_add_inv in Hu as [->|Hu].
    - rewrite lookup_insert_eq. by eexists.
    - apply lookup_insert_is_Some'. right. by apply Hst. }
  exists st2. split; [done|]. split.
  - rewrite Hs2. subst st1. done.
  - rewrite Hconns. subst st1. cbn. by rewrite !insert_insert_eq.
Qed.

End RoundTripFacts.

Section RoundTripClaims.
Import Frame Seating Session SessionOps.

(** A member who drops out of a traditional draft and comes back finds the
    draft as they left it: [remUser] followed by [reconnectUser] returns, the
    connection has the same picks, the same [pickedThisRound] and the same
    booster index as before, and the session is what it was but for the
    timer fields and the order of [users], where the member now comes last;
    their seat in [userOrder] is the same. *)
Lemma remUser_reconnectUser_round_trip (userID : string) (c : Conn.t) (st : St) :
  drafting (sess st) = true →
  winstonDraftState (sess st) = None →
  (userID = owner (sess st) → ownerIsPlayer (sess st) = true) →
  userID ∈ userOrder (sess st) →
  userID ∉ JS.obj_keys (disconnectedUsers (sess st)) →
  conns st !! userID = Some c →
  users_connected st →
  ∃ st1 st2,
    remUser userID st = Ret (tt, st1)
    ∧ Draft.reconnectUser userID st1 = Ret (tt, st2)
    ∧ timer_erase (sess st2)
      = timer_erase
          (set_users (filter (λ u, u ≠ userID) (users (sess st)) ++ [userID]) (sess st))
    ∧ conns st2 = <[userID := Conn.set_sessionID (Some (id (sess st))) c]> (conns st).
Proof.
  intros Hd Hw Hown Hseat Hfresh Hc Hst.
  rewrite (remUser_drafting _ c) by done.
  unfold broadcastDisconnectedUsers, bind at 1, get_sess.
  rewrite forUsers_emit_exact.
  2:{ intros u Hu. cbn in Hu |- *. apply list_elem_of_filter in Hu as [_ Hu]. by apply Hst. }
  match goal with |- context [Ret (tt, ?st0)] => set (st1 := st0) end.
  destruct (reconnectUser_result userID c (saved c) st1) as (st2 & H2 & Hs2 & Hc2).
  { done. }
  { subst st1. cbn. apply obj_get_set. }
  { intros u Hu. subst st1. cbn in Hu |- *. apply list_elem_of_filter in Hu as [_ Hu].
    by apply Hst. }
  { done. }
  { done. }
  exists st1, st2. split; [done|]. split; [done|]. split.
  - rewrite Hs2. subst st1. cbn [sess add_out with_sess].
    cbn [users disconnectedUsers set_disconnectedUsers set_timerRunning set_users].
    rewrite obj_delete_fresh by done. unfold JS.set_add, JS.set_delete.
    rewrite bool_decide_eq_false_2.
    2:{ intros [Hne _]%list_elem_of_filter. by apply Hne. }
    unfold timer_erase. cbn. by destruct (sess st).
  - rewrite Hc2. subst st1. cbn. by destruct c.
Qed.

Lemma remUser_reconnectUser_round_trip_witness :
  ∃ st1 st2,
    remUser "bob" Examples.burn_state = Ret (tt, st1)
    ∧ Draft.reconnectUser "bob" st1 = Ret (tt, st2)
    ∧ users (sess st2) = ["alice"; "bob"]
    ∧ conns st2 !! "bob" = Some (Examples.seated "bob" 1).
Proof.
  destruct (remUser_reconnectUser_round_trip "bob" (Examples.seated "bob" 1)
              Examples.burn_state) as (st1 & st2 & H1 & H2 & Hs & Hc).
  - reflexivity.
  - reflexivity.
  - intros H. discriminate H.
  - right. left.
  - apply not_elem_of_nil.
  - reflexivity.
  - intros u Hu. cbn in Hu.
    apply elem_of_cons in Hu as [->|Hu]; [by eexists|].
    apply elem_of_cons in Hu as [->|Hu]; [by eexists|]. by apply elem_of_nil in Hu.
  - exists st1, st2. split; [exact H1|]. split; [exact H2|]. split.
    + apply (f_equal users) in Hs. exact Hs.
    + rewrite Hc. reflexivity.
Defined.

End RoundTripClaims.

(** ** The turns of a Winston draft ([winstonNextRound]) *)

Section TurnFacts.
Import Frame Session SessionOps WinstonDraft WinstonTurn.

Lemma forM_emit2_exact (e1 e2 : string → Event) (l : list string) :
  ∀ st, (∀ u, u ∈ l → is_Some (conns st !! u)) →
    forM_ l (λ u, emit u (e1 u) ;;; emit u (e2 u)) st
    = Ret (tt, add_out (l ≫= λ u, [(ToUser u, e1 u); (ToUser u, e2 u)]) st).
Proof.
  induction l as [|u l IH]; intros st Hl; simpl.
  - unfold ret. by rewrite add_out_nil.
  - destruct (Hl u) as [c Hc]; [left|]. unfold bind at 1. unfold bind at 1.
    rewrite (emit_ok _ _ c) by done. rewrite (emit_ok _ _ c) by done.
    rewrite IH.
    + by rewrite !add_out_app.
    + intros v Hv. cbn. apply Hl. by right.
Qed.

Lemma forM_emit_exact (e : string → Event) (l : list string) :
  ∀ st, (∀ u, u ∈ l → is_Some (conns st !! u)) →
    forM_ l (λ u, emit u (e u)) st
    = Ret (tt, add_out ((λ u, (ToUser u, e u)) <$> l) st).
Proof.
  induction l as [|u l IH]; intros st Hl; simpl.
  - unfold ret. by rewrite add_out_nil.
  - destruct (Hl u) as [c Hc]; [left|]. unfold bind at 1.
    rewrite (emit_ok _ _ c) by done. rewrite IH.
    + by rewrite add_out_app.
    + intros v Hv. cbn. apply Hl. by right.
Qed.

(** The loop looking for the first pile that holds a card. *)
Lemma first_pile_offered (w : Winston.t) (p0 p1 p2 : list string) (st : St) :
  Winston.piles w = Some [p0; p1; p2] →
  first_pile w 3 0 st = Ret (offered p0 p1 p2, st).
Proof.
  intros Hp. unfold offered. cbn [first_pile]. unfold pile. rewrite Hp.
  destruct p0, p1, p2; reflexivity.
Qed.

End TurnFacts.

Section TurnClaims.
Import Frame Session SessionOps WinstonDraft WinstonTurn.

(** [winstonNextRound], with the three piles in place and both players
    connected: the round advances by one and the player is offered the first
    pile that holds a card; every member is sent the state and the player
    whose turn it is, [players[round % 2]], so that the two players take
    turns.  When no pile holds a card the draft ends instead: the Winston
    state is dropped, [drafting] is cleared and every member is sent
    [winstonDraftEnd]. *)
Lemma winstonNextRound_turn (st : St) (w : Winston.t) (p0 p1 p2 : list string) :
  winstonDraftState (sess st) = Some w →
  Winston.piles w = Some [p0; p1; p2] →
  users_connected st →
  let w' := next w p0 p1 p2 in
  ∃ st', winstonNextRound st = Ret (tt, st')
    ∧ conns st' = conns st
    ∧ (if 3 <=? offered p0 p1 p2
       then sess st' = set_drafting false (set_winstonDraftState None (sess st))
            ∧ out st' = out st ++ ((λ u, (ToUser u, EvWinstonDraftEnd)) <$> users (sess st))
       else sess st' = set_winstonDraftState (Some w') (sess st)
            ∧ out st' = out st ++
                (users (sess st) ≫= λ u,
                   [(ToUser u, EvWinstonDraftSync (Draft.syncData w'));
                    (ToUser u, EvWinstonDraftNextRound (currentPlayer w'))]))
    ∧ (∀ a b, Winston.players w = [a; b] → -1 <= Winston.round w →
       currentPlayer w' = Some (if Z.even (Winston.round w + 1) then a else b)).
Proof.
  intros Hw Hp Hst w'. unfold winstonNextRound, bind at 1, get_sess. rewrite Hw.
  unfold bind at 1. rewrite (first_pile_offered _ p0 p1 p2) by done.
  unfold bind at 1, put_w, modify_sess at 1. fold (next w p0 p1 p2). fold w'.
  assert (∀ a b, Winston.players w = [a; b] → -1 <= Winston.round w →
          currentPlayer w' = Some (if Z.even (Winston.round w + 1) then a else b)) as Hturn.
  { intros a b Hpl Hr. unfold currentPlayer, w', next. cbn [Winston.players Winston.round
      Winston.set_currentPile Winston.set_round]. rewrite Hpl.
    assert (0 <= Winston.round w + 1) as Hnn by lia.
    rewrite Z.rem_mod_nonneg by lia.
    destruct (Z.even (Winston.round w + 1)) eqn:He.
    - rewrite Zmod_even, He. done.
    - rewrite Zmod_even, He. done. }
  destruct (3 <=? offered p0 p1 p2) eqn:Hcp.
  - unfold endWinstonDraft, bind at 1, get_sess. unfold bind at 1.
    rewrite (forM_emit_exact (λ _, EvWinstonDraftEnd)) by done.
    unfold bind at 1, modify_sess at 1. unfold modify_sess.
    eexists. split; [done|]. cbn. done.
  - rewrite (forM_emit2_exact (λ _, EvWinstonDraftSync _) (λ _, EvWinstonDraftNextRound _))
      by done.
    eexists. split; [done|]. cbn. done.
Qed.

Lemma winstonNextRound_turn_witness :
  ∃ st' w', winstonNextRound Examples.winston_state = Ret (tt, st')
    ∧ winstonDraftState (sess st') = Some w'
    ∧ Winston.currentPile w' = 1
    ∧ currentPlayer w' = Some "bob".
Proof.
  destruct (winstonNextRound_turn Examples.winston_state
              {| Winston.players := ["alice"; "bob"]; Winston.round := 0;
                 Winston.cardPool := ["x"]; Winston.piles := Some [[]; ["a"]; ["b"]];
                 Winston.currentPile := 0 |} [] ["a"] ["b"])
    as (st' & H & _ & Hs & Ht).
  - reflexivity.
  - reflexivity.
  - intros u Hu. cbn in Hu.
    apply elem_of_cons in Hu as [->|Hu]; [by eexists|].
    apply elem_of_cons in Hu as [->|Hu]; [by eexists|]. by apply elem_of_nil in Hu.
  - cbn in Hs. destruct Hs as [Hs _].
    eexists st', _. split; [exact H|]. rewrite Hs. split; [reflexivity|].
    split; [reflexivity|]. apply (Ht "alice" "bob"); [reflexivity|]. cbn. lia.
Defined.

End TurnClaims.

(** ** The HTTP endpoints ([/getCollection], [/getUsers]) *)

Section EndpointClaims.
Import Frame Server Session Endpoints.

(** Both [getCollection] routes test [req.params.sessionID in Sessions], a
    parameter that neither route has.  Unless a session is named
    "undefined" they therefore never answer with a collection: the answer is
    400 without the cookie (or the id) and 404 otherwise, also when the
    session asked for exists; nothing is changed.  [getUsers], which tests its
    own parameter, answers with the members of an existing session. *)
Lemma getCollection_never_answers (E : Env) (w : World) (x : option string) :
  Sessions w !! "undefined" = None →
  getCollection E x w = Ret (Status (if missing x then 400 else 404), w)
  ∧ getCollection_id E x w = Ret (Status (if missing x then 400 else 404), w)
  ∧ (∀ sid s, Sessions w !! sid = Some s → sid ≠ "" →
       getUsers (Some sid) w = Ret (SendUsers (users s), w)).
Proof.
  intros Hu. split; [|split].
  - unfold getCollection. destruct (missing x); [done|].
    unfold bind at 1, get_world. cbn [key default]. rewrite Hu.
    by rewrite bool_decide_eq_false_2 by by intros [? ?].
  - unfold getCollection_id. destruct (missing x); [done|].
    unfold bind at 1, get_world. cbn [key default]. rewrite Hu.
    by rewrite bool_decide_eq_false_2 by by intros [? ?].
  - intros sid s Hs Hne. unfold getUsers, missing.
    destruct (String.eqb_spec sid ""); [done|].
    unfold bind at 1, get_world. unfold key. simpl. by rewrite Hs.
Qed.

Lemma getCollection_never_answers_witness :
  is_Some (Sessions Examples.lobby_world !! "s")
  ∧ getCollection Examples.small_env (Some "s") Examples.lobby_world
    = Ret (Status 404, Examples.lobby_world)
  ∧ getCollection_id Examples.small_env (Some "s") Examples.lobby_world
    = Ret (Status 404, Examples.lobby_world)
  ∧ getUsers (Some "s") Examples.lobby_world
    = Ret (SendUsers ["alice"; "bob"], Examples.lobby_world).
Proof.
  destruct (getCollection_never_answers Examples.small_env Examples.lobby_world (Some "s"))
    as (H1 & H2 & H3); [reflexivity|].
  split; [by eexists|]. split; [exact H1|]. split; [exact H2|].
  apply (H3 "s" Examples.lobby); [reflexivity | discriminate].
Defined.

End EndpointClaims.
